(** * VRC Event Creator: the automation engine, embedded and verified

    This development embeds the automation engine of the repository
    (the module that exports [initializeAutomation], [scheduleJob],
    [handleMissedEvent], [recordManualEvent], [reconcilePublishedEvents],
    [restoreDeletedEvents], ...) and proves or refutes the properties its
    specification states about it.

    Conventions of the embedding.

    - A JS object that the engine mutates in place (a pending record) lives
      in an object store ([heap]); arrays such as [pendingEvents] hold
      addresses, so that aliasing between the arrays, timer closures and
      in-flight publishes is the aliasing of the source.
    - JS objects used as dictionaries ([automationState.profiles],
      [rateLimitState.groups], [scheduledJobs], [profilesRef]) are [gmap]s.
    - Instants are integers: milliseconds since the epoch, as [Date.now()]
      and [Date.prototype.getTime()] return them.  [None] stands for [NaN]
      (an invalid date).  A date string is represented by the instant it
      denotes ([Iso ms], the text [new Date(ms).toISOString()]) or, when
      [Date.parse] rejects it, by its text ([NotADate s]).  Instants are
      taken inside the range of JS time values, where [toISOString] does
      not throw.
    - One synchronous run of a function reads one clock value [now].
    - An [async] function is split at its [await]s: the part before the
      first [await] is one function of the model, every resumption is
      another, and what is suspended is recorded in the state.
    - External collaborators ([createEventFn], the pattern expander, the
      two JSON files, the notification callbacks) appear as inputs of the
      functions that consume their results and as entries of the [trace]
      for the calls the engine makes. *)

From Stdlib Require Import ZArith Lia Ascii String DecimalString DecimalN Sorted.
From stdpp Require Import base option list gmap strings fin_maps.

Local Open Scope Z_scope.

(** ** JS text-to-number conversion: [Number(string)] *)

Module JsNumber.

(** A finite Number, written exactly as [mant * 10 ^ exp10]: every
    double has such a form, since [2 ^ -k = 5 ^ k * 10 ^ -k]. *)
Record Dec : Type := mkDec { mant : Z; exp10 : Z }.

Inductive JsNum : Type :=
| NaN
| Infinity (negative : bool)
| Finite (d : Dec).

Definition dec_of_Z (z : Z) : Dec := mkDec z 0.

(** Comparison of two exact decimals, by scaling to the smaller exponent. *)
Definition dec_scaled (a : Dec) (lo : Z) : Z := mant a * 10 ^ (exp10 a - lo).

Definition dec_compare (a b : Dec) : comparison :=
  let lo := Z.min (exp10 a) (exp10 b) in
  dec_scaled a lo ?= dec_scaled b lo.

Definition dec_eqb (a b : Dec) : bool :=
  match dec_compare a b with Eq => true | _ => false end.
Definition dec_ltb (a b : Dec) : bool :=
  match dec_compare a b with Lt => true | _ => false end.
Definition dec_leb (a b : Dec) : bool :=
  match dec_compare a b with Gt => false | _ => true end.

Definition dec_is_zero (a : Dec) : bool := mant a =? 0.

(** [ToIntegerOrInfinity]: truncation toward zero, as [new Date(number)]
    applies it. *)
Definition dec_trunc (a : Dec) : Z :=
  if 0 <=? exp10 a then mant a * 10 ^ exp10 a
  else Z.quot (mant a) (10 ^ (- exp10 a)).

(** Values at or above [2^1024 - 2^970] round to [Infinity]; values at or
    below [2^-1075] round to zero. *)
Definition overflow_threshold : Z := 2 ^ 1024 - 2 ^ 970.

Definition is_digit (c : ascii) : bool :=
  ((48 <=? N_of_ascii c) && (N_of_ascii c <=? 57))%N.

Definition digit_value (c : ascii) : Z := Z.of_N (N_of_ascii c) - 48.

(** Value of a hexadecimal digit, when [c] is one. *)
Definition hex_value (c : ascii) : option Z :=
  let n := N_of_ascii c in
  if ((48 <=? n) && (n <=? 57))%N then Some (Z.of_N n - 48)
  else if ((65 <=? n) && (n <=? 70))%N then Some (Z.of_N n - 55)
  else if ((97 <=? n) && (n <=? 102))%N then Some (Z.of_N n - 87)
  else None.

(** The longest prefix of decimal digits, and what follows it. *)
Fixpoint span_digits (s : string) : string * string :=
  match s with
  | String c r =>
      if is_digit c
      then let '(ds, rest) := span_digits r in (String c ds, rest)
      else (EmptyString, s)
  | EmptyString => (EmptyString, EmptyString)
  end.

Fixpoint digits_value (acc : Z) (s : string) : Z :=
  match s with
  | String c r => digits_value (10 * acc + digit_value c) r
  | EmptyString => acc
  end.

(** Digits in base [radix]; [None] on the first character that is not a
    digit of that base. *)
Fixpoint radix_value (radix : Z) (acc : Z) (s : string) : option Z :=
  match s with
  | String c r =>
      match hex_value c with
      | Some v => if v <? radix then radix_value radix (radix * acc + v) r else None
      | None => None
      end
  | EmptyString => Some acc
  end.

(** [StrWhiteSpaceChar]: WhiteSpace and LineTerminator code points, in
    UTF-8.  [ws_prefix s] is the number of bytes of the white-space
    character [s] starts with, or 0. *)
Definition ws_prefix (s : string) : nat :=
  match s with
  | String c r =>
      let n := N_of_ascii c in
      if ((9 <=? n) && (n <=? 13) || (n =? 32))%N then 1%nat
      else match r with
      | String c2 r2 =>
          let n2 := N_of_ascii c2 in
          if ((n =? 194) && (n2 =? 160))%N then 2%nat            (* U+00A0 *)
          else match r2 with
          | String c3 _ =>
              let n3 := N_of_ascii c3 in
              if ((n =? 225) && (n2 =? 154) && (n3 =? 128))%N then 3%nat (* U+1680 *)
              else if ((n =? 226) && (n2 =? 128) &&
                       ((128 <=? n3) && (n3 <=? 138) ||         (* U+2000..200A *)
                        (n3 =? 168) || (n3 =? 169) ||           (* U+2028, U+2029 *)
                        (n3 =? 175)))%N then 3%nat               (* U+202F *)
              else if ((n =? 226) && (n2 =? 129) && (n3 =? 159))%N then 3%nat (* U+205F *)
              else if ((n =? 227) && (n2 =? 128) && (n3 =? 128))%N then 3%nat (* U+3000 *)
              else if ((n =? 239) && (n2 =? 187) && (n3 =? 191))%N then 3%nat (* U+FEFF *)
              else 0%nat
          | EmptyString => 0%nat
          end
      | EmptyString => 0%nat
      end
  | EmptyString => 0%nat
  end.

Fixpoint drop_string (n : nat) (s : string) : string :=
  match n, s with
  | S k, String _ r => drop_string k r
  | _, _ => s
  end.

Fixpoint trim_start (fuel : nat) (s : string) : string :=
  match fuel with
  | S k => match ws_prefix s with
           | O => s
           | n => trim_start k (drop_string n s)
           end
  | O => s
  end.

(** The string without its trailing white space: built from the end, a
    suffix that is exactly one white-space character is dropped, so that
    a multi-byte character is recognised from its first byte. *)
Fixpoint trim_end (s : string) : string :=
  match s with
  | String c r =>
      let r' := trim_end r in
      match r' with
      | EmptyString =>
          if (0 <? ws_prefix (String c EmptyString))%nat then EmptyString
          else String c EmptyString
      | _ =>
          let s' := String c r' in
          if Nat.eqb (ws_prefix s') (String.length s') then EmptyString else s'
      end
  | EmptyString => EmptyString
  end.

Definition trim (s : string) : string :=
  trim_end (trim_start (String.length s) s).

(** [floor (log2 (n / d))], for positive [n] and [d]. *)
Definition binade (n d : Z) : Z :=
  let l := Z.log2 n - Z.log2 d in
  if (if 0 <=? l then d * 2 ^ l <=? n else d <=? n * 2 ^ (- l)) then l else l - 1.

(** The Number value for the mathematical value [m * 10 ^ e], with [m]
    positive and the value inside the double range: the nearest double
    [q * 2 ^ k], with a significand [q] of at most 53 bits and [k] no
    less than -1074, a tie going to the even significand.  A value that
    is a double is kept as it was read; a rounded one is written as an
    integer when it is one. *)
Definition round_to_double (negative : bool) (m e : Z) : Dec :=
  let n := if 0 <=? e then m * 10 ^ e else m in
  let d := if 0 <=? e then 1 else 10 ^ (- e) in
  let k := Z.max (binade n d - 52) (-1074) in
  let scaled := if 0 <=? k then n else n * 2 ^ (- k) in
  let unit := if 0 <=? k then d * 2 ^ k else d in
  let q := scaled / unit in
  let r := scaled mod unit in
  if r =? 0 then mkDec (if negative then - m else m) e
  else
    let rounded := if (unit <? 2 * r) || ((2 * r =? unit) && Z.odd q)
                   then q + 1 else q in
    let signed := if negative then - rounded else rounded in
    if 0 <=? k then mkDec (signed * 2 ^ k) 0
    else if rounded mod 2 ^ (- k) =? 0 then mkDec (signed / 2 ^ (- k)) 0
    else mkDec (signed * 5 ^ (- k)) k.

(** Rounding of [m * 10 ^ e], with its two ends: overflow to [Infinity]
    and underflow to zero.  [len] bounds the number of digits of [m],
    which keeps the powers computed small. *)
Definition classify (negative : bool) (m e : Z) (len : Z) : JsNum :=
  if m =? 0 then Finite (mkDec 0 0)
  else if 310 <? e then Infinity negative
  else if e <? - (len + 340) then Finite (mkDec 0 0)
  else if 0 <=? e then
    if overflow_threshold <=? m * 10 ^ e then Infinity negative
    else Finite (round_to_double negative m e)
  else
    if overflow_threshold * 10 ^ (- e) <=? m then Infinity negative
    else if m * 2 ^ 1075 <=? 10 ^ (- e) then Finite (mkDec 0 0)
    else Finite (round_to_double negative m e).

(** [ExponentPart]: [e] or [E], an optional sign, at least one digit, and
    nothing after it. [None] when the text is not an exponent part. *)
Definition exponent_part (s : string) : option Z :=
  match s with
  | EmptyString => Some 0
  | String c r =>
      if (Ascii.eqb c "e" || Ascii.eqb c "E")%bool then
        let '(neg, r1) :=
          match r with
          | String "-" r' => (true, r')
          | String "+" r' => (false, r')
          | _ => (false, r)
          end in
        let '(ds, rest) := span_digits r1 in
        match ds, rest with
        | String _ _, EmptyString =>
            Some (if neg then - digits_value 0 ds else digits_value 0 ds)
        | _, _ => None
        end
      else None
  end.

(** [StrUnsignedDecimalLiteral] other than [Infinity]. *)
Definition unsigned_decimal (negative : bool) (s : string) : JsNum :=
  let '(ip, r1) := span_digits s in
  let '(fp, r2) :=
    match r1 with
    | String "." r => span_digits r
    | _ => (EmptyString, r1)
    end in
  match ip, fp with
  | EmptyString, EmptyString => NaN
  | _, _ =>
      match exponent_part r2 with
      | Some e =>
          let len := Z.of_nat (String.length ip + String.length fp) in
          classify negative (digits_value 0 (ip +:+ fp))
                   (e - Z.of_nat (String.length fp)) len
      | None => NaN
      end
  end.

Definition radix_literal (radix : Z) (digits : string) : JsNum :=
  match digits with
  | EmptyString => NaN
  | _ => match radix_value radix 0 digits with
         | Some n => if n =? 0 then Finite (mkDec 0 0)
                     else if overflow_threshold <=? n then Infinity false
                     else Finite (round_to_double false n 0)
         | None => NaN
         end
  end.

(** [NonDecimalIntegerLiteral]: the radix and the digits behind a
    [0x], [0o] or [0b] prefix (in either case). *)
Definition radix_prefix (t : string) : option (Z * string) :=
  match t with
  | String c1 (String c2 r) =>
      if Ascii.eqb c1 "0" then
        if (Ascii.eqb c2 "x" || Ascii.eqb c2 "X")%bool then Some (16, r)
        else if (Ascii.eqb c2 "o" || Ascii.eqb c2 "O")%bool then Some (8, r)
        else if (Ascii.eqb c2 "b" || Ascii.eqb c2 "B")%bool then Some (2, r)
        else None
      else None
  | _ => None
  end.

(** [StrDecimalLiteral]: an optional sign, then [Infinity] or digits. *)
Definition decimal_literal (t : string) : JsNum :=
  let '(negative, body) :=
    match t with
    | String c r =>
        if Ascii.eqb c "-" then (true, r)
        else if Ascii.eqb c "+" then (false, r)
        else (false, t)
    | EmptyString => (false, t)
    end in
  if String.eqb body "Infinity" then Infinity negative
  else unsigned_decimal negative body.

(** [StringToNumber]: the value of [Number(s)]. *)
Definition Number_of_string (s : string) : JsNum :=
  let t := trim s in
  if String.eqb t EmptyString then Finite (mkDec 0 0)
  else match radix_prefix t with
       | Some (radix, digits) => radix_literal radix digits
       | None => decimal_literal t
       end.

(** [Number.isFinite] *)
Definition isFinite (n : JsNum) : bool :=
  match n with Finite _ => true | _ => false end.

(** The decimal text of an integer, as a template literal prints a
    timestamp. *)
Definition Z_to_string (z : Z) : string := NilZero.string_of_int (Z.to_int z).

End JsNumber.

Import JsNumber.

(** ** Slot identity *)

(** [String.prototype.split("_")] *)
Fixpoint split_underscore (s : string) : list string :=
  match s with
  | String c r =>
      let parts := split_underscore r in
      if Ascii.eqb c "_" then EmptyString :: parts
      else match parts with
           | p :: ps => String c p :: ps
           | [] => [String c EmptyString]
           end
  | EmptyString => [EmptyString]
  end.

(** [parts[parts.length - 1]] *)
Definition last_part (parts : list string) : string := List.last parts EmptyString.

(** [parsePendingEventIdStartMs(value)]: [value] is an id or a slot key,
    [None] when the field is absent. *)
Definition parsePendingEventIdStartMs (value : option string) : option Dec :=
  match value with
  | None => None
  | Some EmptyString => None
  | Some s =>
      match Number_of_string (last_part (split_underscore s)) with
      | Finite ms => Some ms
      | _ => None
      end
  end.

Definition isDeterministicPendingId (value : option string) : bool :=
  match parsePendingEventIdStartMs value with Some _ => true | None => false end.

(** ** JS [Date]: calendar arithmetic of ECMA-262, section "Date Objects"

    The host time zone is taken to have a constant offset [tza]
    (milliseconds east of UTC): [LocalTime t = t + tza]. *)

Module JsDate.

Definition msPerDay : Z := 86400000.
Definition msPerHour : Z := 3600000.
Definition msPerMinute : Z := 60000.

Definition Day (t : Z) : Z := t / msPerDay.
Definition TimeWithinDay (t : Z) : Z := t mod msPerDay.

Definition isLeap (y : Z) : bool :=
  if negb (y mod 4 =? 0) then false
  else if negb (y mod 100 =? 0) then true
  else if negb (y mod 400 =? 0) then false
  else true.

Definition DaysInYear (y : Z) : Z := if isLeap y then 366 else 365.

Definition DayFromYear (y : Z) : Z :=
  365 * (y - 1970) + (y - 1969) / 4 - (y - 1901) / 100 + (y - 1601) / 400.

(** The year [y] with [DayFromYear y <= d < DayFromYear (y + 1)]: an
    estimate from the mean year length, corrected by one. *)
Definition YearFromDay (d : Z) : Z :=
  let y := 1970 + (d * 400) / 146097 in
  if d <? DayFromYear y then y - 1
  else if DayFromYear (y + 1) <=? d then y + 1
  else y.

Definition YearFromTime (t : Z) : Z := YearFromDay (Day t).
Definition InLeapYear (t : Z) : bool := isLeap (YearFromTime t).
Definition DayWithinYear (t : Z) : Z := Day t - DayFromYear (YearFromTime t).

(** First day (within the year) of month [m] in 0..11; 12 gives the
    length of the year. *)
Definition monthStart (leap : bool) (m : Z) : Z :=
  let l := if leap then 1 else 0 in
  if m <=? 0 then 0
  else if m =? 1 then 31
  else if m =? 2 then 59 + l
  else if m =? 3 then 90 + l
  else if m =? 4 then 120 + l
  else if m =? 5 then 151 + l
  else if m =? 6 then 181 + l
  else if m =? 7 then 212 + l
  else if m =? 8 then 243 + l
  else if m =? 9 then 273 + l
  else if m =? 10 then 304 + l
  else if m =? 11 then 334 + l
  else 365 + l.

Definition MonthFromTime (t : Z) : Z :=
  let d := DayWithinYear t in
  let leap := InLeapYear t in
  if d <? monthStart leap 1 then 0
  else if d <? monthStart leap 2 then 1
  else if d <? monthStart leap 3 then 2
  else if d <? monthStart leap 4 then 3
  else if d <? monthStart leap 5 then 4
  else if d <? monthStart leap 6 then 5
  else if d <? monthStart leap 7 then 6
  else if d <? monthStart leap 8 then 7
  else if d <? monthStart leap 9 then 8
  else if d <? monthStart leap 10 then 9
  else if d <? monthStart leap 11 then 10
  else 11.

Definition DateFromTime (t : Z) : Z :=
  DayWithinYear t - monthStart (InLeapYear t) (MonthFromTime t) + 1.

(** [MakeDay], [MakeTime], [MakeDate] *)
Definition MakeDay (year month date : Z) : Z :=
  let ym := year + month / 12 in
  let mn := month mod 12 in
  DayFromYear ym + monthStart (isLeap ym) mn + date - 1.

Definition MakeTime (hour min sec ms : Z) : Z :=
  hour * msPerHour + min * msPerMinute + sec * 1000 + ms.

Definition MakeDate (day time : Z) : Z := day * msPerDay + time.

Section LocalZone.
Variable tza : Z.

Definition LocalTime (t : Z) : Z := t + tza.
Definition UTC (t : Z) : Z := t - tza.

(** [new Date(year, month, date, hours, minutes, seconds, ms)] *)
Definition Date_of_fields (year month date hours minutes seconds ms : Z) : Z :=
  let yr := if (0 <=? year) && (year <=? 99) then 1900 + year else year in
  UTC (MakeDate (MakeDay yr month date) (MakeTime hours minutes seconds ms)).

Definition getFullYear (t : Z) : Z := YearFromTime (LocalTime t).
Definition getMonth (t : Z) : Z := MonthFromTime (LocalTime t).
Definition getDate (t : Z) : Z := DateFromTime (LocalTime t).

(** [setMonth(month)] keeps the day of the month and the time of day;
    [MakeDay] carries a day beyond the month's end into the next month. *)
Definition setMonth (t month : Z) : Z :=
  let lt := LocalTime t in
  UTC (MakeDate (MakeDay (YearFromTime lt) month (DateFromTime lt)) (TimeWithinDay lt)).

Definition setDate (t date : Z) : Z :=
  let lt := LocalTime t in
  UTC (MakeDate (MakeDay (YearFromTime lt) (MonthFromTime lt) date) (TimeWithinDay lt)).
End LocalZone.

End JsDate.

(** ** Data model *)

(** A date string held in a record or sent by the remote calendar. *)
Inductive DateStr : Type :=
| Iso (ms : Z)
| NotADate (text : string).

Global Instance DateStr_eq_dec : EqDecision DateStr.
Proof. solve_decision. Defined.

(** [Date.parse(value)] and [new Date(value).getTime()]; [None] is [NaN].
    An absent field ([undefined]) is not a date either. *)
Definition Date_parse (value : option DateStr) : option Z :=
  match value with
  | Some (Iso ms) => Some ms
  | _ => None
  end.

(** Truthiness of a string-valued field. *)
Definition truthy_string (s : string) : bool :=
  match s with EmptyString => false | _ => true end.

Definition truthy_ostring (s : option string) : bool :=
  match s with Some s => truthy_string s | None => false end.

Definition truthy_date (value : option DateStr) : bool :=
  match value with
  | Some (Iso _) => true
  | Some (NotADate s) => truthy_string s
  | None => false
  end.

(** [new Date(ms).toISOString()] *)
Definition toISOString (ms : Z) : DateStr := Iso ms.

(** [status]: the six values of [VALID_PENDING_STATUSES], or any other
    string. *)
Inductive Status : Type :=
| Scheduled | Missed | Queued | Published | Cancelled | Deleted
| OtherStatus (name : string).

Global Instance Status_eq_dec : EqDecision Status.
Proof. solve_decision. Defined.

Definition status_eqb (a b : Status) : bool := bool_decide (a = b).

(** [ACTIVE_PENDING_STATUSES] *)
Definition is_active_status (s : Status) : bool :=
  match s with Scheduled | Missed | Queued => true | _ => false end.

(** [manualOverrides]: the keys the engine reads, and the number of
    further own keys (keys whose value is [null] included). *)
Record Overrides : Type := mkOverrides {
  ov_title : option string;
  ov_eventStartsAt : option DateStr;
  ov_durationMinutes : option Z;
  ov_otherKeys : nat
}.

Global Instance Overrides_eq_dec : EqDecision Overrides.
Proof. solve_decision. Defined.

Definition has_value {A : Type} (o : option A) : bool :=
  match o with Some _ => true | None => false end.

(** [Object.keys(overrides).length] *)
Definition overrides_key_count (o : Overrides) : nat :=
  ((if has_value (ov_title o) then 1 else 0) +
   (if has_value (ov_eventStartsAt o) then 1 else 0) +
   (if has_value (ov_durationMinutes o) then 1 else 0) + ov_otherKeys o)%nat.

Record PendingEvent : Type := mkPendingEvent {
  id : string;
  slotKey : option string;
  groupId : string;
  profileKey : string;
  scheduledPublishTime : option DateStr;
  eventStartsAt : option DateStr;
  manualOverrides : option Overrides;
  status : Status;
  missedAt : option DateStr;
  queuedAt : option DateStr;
  deletedAt : option DateStr;
  eventId : option string
}.

Global Instance PendingEvent_eq_dec : EqDecision PendingEvent.
Proof. solve_decision. Defined.

Global Instance PendingEvent_inhabited : Inhabited PendingEvent :=
  populate (mkPendingEvent "" None "" "" None None None Scheduled None None None None).

Definition set_slotKey (v : option string) (e : PendingEvent) : PendingEvent :=
  mkPendingEvent (id e) v (groupId e) (profileKey e) (scheduledPublishTime e)
    (eventStartsAt e) (manualOverrides e) (status e) (missedAt e) (queuedAt e)
    (deletedAt e) (eventId e).
Definition set_scheduledPublishTime (v : option DateStr) (e : PendingEvent) : PendingEvent :=
  mkPendingEvent (id e) (slotKey e) (groupId e) (profileKey e) v
    (eventStartsAt e) (manualOverrides e) (status e) (missedAt e) (queuedAt e)
    (deletedAt e) (eventId e).
Definition set_eventStartsAt (v : option DateStr) (e : PendingEvent) : PendingEvent :=
  mkPendingEvent (id e) (slotKey e) (groupId e) (profileKey e) (scheduledPublishTime e)
    v (manualOverrides e) (status e) (missedAt e) (queuedAt e)
    (deletedAt e) (eventId e).
Definition set_manualOverrides (v : option Overrides) (e : PendingEvent) : PendingEvent :=
  mkPendingEvent (id e) (slotKey e) (groupId e) (profileKey e) (scheduledPublishTime e)
    (eventStartsAt e) v (status e) (missedAt e) (queuedAt e)
    (deletedAt e) (eventId e).
Definition set_status (v : Status) (e : PendingEvent) : PendingEvent :=
  mkPendingEvent (id e) (slotKey e) (groupId e) (profileKey e) (scheduledPublishTime e)
    (eventStartsAt e) (manualOverrides e) v (missedAt e) (queuedAt e)
    (deletedAt e) (eventId e).
Definition set_missedAt (v : option DateStr) (e : PendingEvent) : PendingEvent :=
  mkPendingEvent (id e) (slotKey e) (groupId e) (profileKey e) (scheduledPublishTime e)
    (eventStartsAt e) (manualOverrides e) (status e) v (queuedAt e)
    (deletedAt e) (eventId e).
Definition set_queuedAt (v : option DateStr) (e : PendingEvent) : PendingEvent :=
  mkPendingEvent (id e) (slotKey e) (groupId e) (profileKey e) (scheduledPublishTime e)
    (eventStartsAt e) (manualOverrides e) (status e) (missedAt e) v
    (deletedAt e) (eventId e).
Definition set_deletedAt (v : option DateStr) (e : PendingEvent) : PendingEvent :=
  mkPendingEvent (id e) (slotKey e) (groupId e) (profileKey e) (scheduledPublishTime e)
    (eventStartsAt e) (manualOverrides e) (status e) (missedAt e) (queuedAt e)
    v (eventId e).
Definition set_eventId (v : option string) (e : PendingEvent) : PendingEvent :=
  mkPendingEvent (id e) (slotKey e) (groupId e) (profileKey e) (scheduledPublishTime e)
    (eventStartsAt e) (manualOverrides e) (status e) (missedAt e) (queuedAt e)
    (deletedAt e) v.

(** The [automation] block of a profile. *)
Inductive TimingMode : Type := Before | After | Monthly.
Inductive RepeatMode : Type := Indefinite | Count.

Global Instance TimingMode_eq_dec : EqDecision TimingMode.
Proof. solve_decision. Defined.
Global Instance RepeatMode_eq_dec : EqDecision RepeatMode.
Proof. solve_decision. Defined.

Record Automation : Type := mkAutomation {
  enabled : bool;
  timingMode : TimingMode;
  daysOffset : Z;
  hoursOffset : Z;
  minutesOffset : Z;
  monthlyDay : Z;
  monthlyHour : Z;
  monthlyMinute : Z;
  repeatMode : RepeatMode;
  repeatCount : Z
}.

(** A profile, as far as the engine reads it.  [patternCount] is
    [profile.patterns.length]; the presentation fields that
    [resolveEventDetails] copies into the event (description, category,
    languages, ...) are passed through to the remote calendar untouched
    and are left out. *)
Record Profile : Type := mkProfile {
  name : string;
  automation : option Automation;
  duration : Z;
  patternCount : nat
}.

(** [automationState.profiles[key]] *)
Record ProfileState : Type := mkProfileState {
  eventsCreated : Z;
  activationStartsAt : option DateStr;
  lastSuccess : option DateStr;
  lastEventId : option string
}.

Global Instance ProfileState_eq_dec : EqDecision ProfileState.
Proof. solve_decision. Defined.

(** [rateLimitState.groups[groupId]].  [lockUntil] is [None] for [null]
    and for [NaN], which are both falsy and compare false. *)
Record GroupRate : Type := mkGroupRate {
  history : list Z;
  backoffIndex : Z;
  lockUntil : option Z
}.

Record QueueItem : Type := mkQueueItem {
  q_pendingEventId : string;
  q_groupId : string;
  q_priority : option Z
}.

(** Addresses of pending-record objects. *)
Abbreviation loc := nat.

(** What a timer does when it fires. *)
Inductive Callback : Type :=
| CbRecheck (l : loc)          (* () => scheduleJob(pendingEvent) *)
| CbPost (l : loc)             (* async () => await executeAutomatedPost(pendingEvent) *)
| CbProcessQueue               (* () => { processTimeout = null; processQueue(); } *)
| CbResume.                    (* the 100 ms pause of processQueue ends *)

(** A pending [setTimeout]; [timer_delay = None] is a [NaN] delay. *)
Record Timer : Type := mkTimer {
  timer_setAt : Z;
  timer_delay : option Z;
  timer_callback : Callback
}.

(** Where the one [processQueue] coroutine is suspended, if it is. *)
Inductive Suspended : Type :=
| AwaitingPublish (l : loc)    (* at [await createEventFn(...)], for this record *)
| AwaitingPause.               (* at the 100 ms pause between two posts *)

(** What [resolveEventDetails] returns. *)
Record EventDetails : Type := mkEventDetails {
  ed_title : string;
  ed_duration : Z;
  ed_eventStartsAt : option DateStr;
  ed_scheduledPublishTime : option DateStr
}.

(** Calls that leave the engine. *)
Inductive Effect : Type :=
| SavePendingEvents (events deleted : list PendingEvent)
| SaveAutomationState (profiles : gmap string ProfileState)
| OnMissedEvent (event : PendingEvent)
| OnEventCreated (event : PendingEvent) (remoteId : option string)
| CreateEvent (group : string) (details : EventDetails) (startsAt endsAt : DateStr).

(** The answer of [createEventFn]. *)
Inductive PublishResult : Type :=
| PublishOk (remoteId : option string)
| PublishFailed (code : option string) (httpStatus : option Z) (message : option string).

Inductive Settled : Type :=
| Resolved (r : PublishResult)
| Rejected.

(** The module-level variables of the engine, the timer table of the
    runtime and the trace of outgoing calls. *)
Record Engine : Type := mkEngine {
  heap : list PendingEvent;
  pendingEvents : list loc;
  deletedEvents : list loc;
  automationState : gmap string ProfileState;
  profilesRef : option (gmap string (gmap string Profile));
  knownGroupIds : option (gset string);
  groups : gmap string GroupRate;
  queue : list QueueItem;
  processing : bool;
  processTimeout : option nat;
  scheduledJobs : gmap string nat;
  timers : gmap nat Timer;
  nextTimer : nat;
  suspended : option Suspended;
  trace : list Effect
}.

Definition set_heap (v : list PendingEvent) (st : Engine) : Engine :=
  mkEngine v (pendingEvents st) (deletedEvents st) (automationState st) (profilesRef st)
    (knownGroupIds st) (groups st) (queue st) (processing st) (processTimeout st)
    (scheduledJobs st) (timers st) (nextTimer st) (suspended st) (trace st).
Definition set_pendingEvents (v : list loc) (st : Engine) : Engine :=
  mkEngine (heap st) v (deletedEvents st) (automationState st) (profilesRef st)
    (knownGroupIds st) (groups st) (queue st) (processing st) (processTimeout st)
    (scheduledJobs st) (timers st) (nextTimer st) (suspended st) (trace st).
Definition set_deletedEvents (v : list loc) (st : Engine) : Engine :=
  mkEngine (heap st) (pendingEvents st) v (automationState st) (profilesRef st)
    (knownGroupIds st) (groups st) (queue st) (processing st) (processTimeout st)
    (scheduledJobs st) (timers st) (nextTimer st) (suspended st) (trace st).
Definition set_automationState (v : gmap string ProfileState) (st : Engine) : Engine :=
  mkEngine (heap st) (pendingEvents st) (deletedEvents st) v (profilesRef st)
    (knownGroupIds st) (groups st) (queue st) (processing st) (processTimeout st)
    (scheduledJobs st) (timers st) (nextTimer st) (suspended st) (trace st).
Definition set_profilesRef (v : option (gmap string (gmap string Profile))) (st : Engine) : Engine :=
  mkEngine (heap st) (pendingEvents st) (deletedEvents st) (automationState st) v
    (knownGroupIds st) (groups st) (queue st) (processing st) (processTimeout st)
    (scheduledJobs st) (timers st) (nextTimer st) (suspended st) (trace st).
Definition set_groups (v : gmap string GroupRate) (st : Engine) : Engine :=
  mkEngine (heap st) (pendingEvents st) (deletedEvents st) (automationState st) (profilesRef st)
    (knownGroupIds st) v (queue st) (processing st) (processTimeout st)
    (scheduledJobs st) (timers st) (nextTimer st) (suspended st) (trace st).
Definition set_queue (v : list QueueItem) (st : Engine) : Engine :=
  mkEngine (heap st) (pendingEvents st) (deletedEvents st) (automationState st) (profilesRef st)
    (knownGroupIds st) (groups st) v (processing st) (processTimeout st)
    (scheduledJobs st) (timers st) (nextTimer st) (suspended st) (trace st).
Definition set_processing (v : bool) (st : Engine) : Engine :=
  mkEngine (heap st) (pendingEvents st) (deletedEvents st) (automationState st) (profilesRef st)
    (knownGroupIds st) (groups st) (queue st) v (processTimeout st)
    (scheduledJobs st) (timers st) (nextTimer st) (suspended st) (trace st).
Definition set_processTimeout (v : option nat) (st : Engine) : Engine :=
  mkEngine (heap st) (pendingEvents st) (deletedEvents st) (automationState st) (profilesRef st)
    (knownGroupIds st) (groups st) (queue st) (processing st) v
    (scheduledJobs st) (timers st) (nextTimer st) (suspended st) (trace st).
Definition set_scheduledJobs (v : gmap string nat) (st : Engine) : Engine :=
  mkEngine (heap st) (pendingEvents st) (deletedEvents st) (automationState st) (profilesRef st)
    (knownGroupIds st) (groups st) (queue st) (processing st) (processTimeout st)
    v (timers st) (nextTimer st) (suspended st) (trace st).
Definition set_timers (v : gmap nat Timer) (n : nat) (st : Engine) : Engine :=
  mkEngine (heap st) (pendingEvents st) (deletedEvents st) (automationState st) (profilesRef st)
    (knownGroupIds st) (groups st) (queue st) (processing st) (processTimeout st)
    (scheduledJobs st) v n (suspended st) (trace st).
Definition set_suspended (v : option Suspended) (st : Engine) : Engine :=
  mkEngine (heap st) (pendingEvents st) (deletedEvents st) (automationState st) (profilesRef st)
    (knownGroupIds st) (groups st) (queue st) (processing st) (processTimeout st)
    (scheduledJobs st) (timers st) (nextTimer st) v (trace st).
Definition emit (e : Effect) (st : Engine) : Engine :=
  mkEngine (heap st) (pendingEvents st) (deletedEvents st) (automationState st) (profilesRef st)
    (knownGroupIds st) (groups st) (queue st) (processing st) (processTimeout st)
    (scheduledJobs st) (timers st) (nextTimer st) (suspended st) (trace st ++ [e]).

(** *** The object store *)

(** The record at address [l]. *)
Definition deref (st : Engine) (l : loc) : PendingEvent := heap st !!! l.

(** In-place update of the record at [l]: [pendingEvent.field = v]. *)
Definition update (l : loc) (f : PendingEvent -> PendingEvent) (st : Engine) : Engine :=
  set_heap (alter f l (heap st)) st.

(** A new object. *)
Definition alloc (e : PendingEvent) (st : Engine) : Engine * loc :=
  (set_heap (heap st ++ [e]) st, length (heap st)).

(** The records an array of addresses holds, as [JSON.stringify] sees them. *)
Definition snapshot (st : Engine) (ls : list loc) : list PendingEvent :=
  deref st <$> ls.

(** *** Timers of the runtime *)

(** [setTimeout(callback, delay)]: the new state and the handle. *)
Definition setTimeout (now : Z) (cb : Callback) (delay : option Z) (st : Engine)
  : Engine * nat :=
  let h := nextTimer st in
  (set_timers (<[h := mkTimer now delay cb]> (timers st)) (S h) st, h).

Definition clearTimeout (h : nat) (st : Engine) : Engine :=
  set_timers (delete h (timers st)) (nextTimer st) st.

(** *** Persistence *)

Definition savePendingEvents (st : Engine) : Engine :=
  emit (SavePendingEvents (snapshot st (pendingEvents st))
                          (snapshot st (deletedEvents st))) st.

Definition saveAutomationState (st : Engine) : Engine :=
  emit (SaveAutomationState (automationState st)) st.

(** *** Profile state and slot keys *)

Definition getProfileStateKey (groupId profileKey : string) : string :=
  groupId +:+ "::" +:+ profileKey.

Definition isKnownGroupId (st : Engine) (groupId : string) : bool :=
  match knownGroupIds st with
  | None => true
  | Some known => bool_decide (groupId ∈ known)
  end.

(** [getOrCreateProfileState]: [eventsCreated] is a number in every state
    the engine writes, so the repair of a non-numeric counter changes
    nothing and only the creation of a missing entry shows. *)
Definition getOrCreateProfileState (profileStateKey : string) (st : Engine)
  : Engine * ProfileState :=
  match automationState st !! profileStateKey with
  | Some existing => (st, existing)
  | None =>
      let next := mkProfileState 0 None None None in
      (set_automationState (<[profileStateKey := next]> (automationState st)) st, next)
  end.

(** Assignment to a field of the object [getOrCreateProfileState] returned. *)
Definition updateProfileState (profileStateKey : string)
  (f : ProfileState -> ProfileState) (st : Engine) : Engine :=
  set_automationState (alter f profileStateKey (automationState st)) st.

Definition parseEventStartMs (value : option DateStr) : option Z :=
  if truthy_date value then Date_parse value else None.

Definition buildPendingEventId (groupId profileKey : string)
  (eventStartsAt : option DateStr) : option string :=
  match parseEventStartMs eventStartsAt with
  | Some eventStartMs =>
      if negb (truthy_string groupId) || negb (truthy_string profileKey) then None
      else Some ("pending_" +:+ groupId +:+ "_" +:+ profileKey +:+ "_"
                 +:+ Z_to_string eventStartMs)
  | None => None
  end.

Definition getPendingSlotStartMs (event : PendingEvent) : option Dec :=
  match parsePendingEventIdStartMs (slotKey event) with
  | Some ms => Some ms
  | None => parsePendingEventIdStartMs (Some (id event))
  end.

Definition getRestoreStartMs (event : PendingEvent) : option Dec :=
  let slotStartMs := getPendingSlotStartMs event in
  let currentStartMs := parseEventStartMs (eventStartsAt event) in
  match slotStartMs, currentStartMs with
  | Some s, Some c =>
      if negb (dec_eqb s (dec_of_Z c)) &&
         truthy_date (manualOverrides event ≫= ov_eventStartsAt)
      then Some s
      else Some (dec_of_Z c)
  | _, Some c => Some (dec_of_Z c)
  | _, None => slotStartMs
  end.

Definition derivePendingSlotKey (event : PendingEvent) : option string :=
  if isDeterministicPendingId (Some (id event)) then Some (id event)
  else buildPendingEventId (groupId event) (profileKey event) (eventStartsAt event).

(** [event.slotKey || derivePendingSlotKey(event) || event.id || null] *)
Definition getPendingSlotKey (event : PendingEvent) : option string :=
  if truthy_ostring (slotKey event) then slotKey event
  else if truthy_ostring (derivePendingSlotKey event) then derivePendingSlotKey event
  else if truthy_string (id event) then Some (id event)
  else None.

(** The keys in insertion order of the [Set]. *)
Definition getPendingSlotKeys (event : PendingEvent) : list string :=
  let primary := match getPendingSlotKey event with
                 | Some k => [k] | None => [] end in
  match buildPendingEventId (groupId event) (profileKey event) (eventStartsAt event) with
  | Some current =>
      if bool_decide (current ∈ primary) then primary else primary ++ [current]
  | None => primary
  end.

(** [e.groupId === groupId && e.profileKey === profileKey] *)
Definition sameProfile (g k : string) (e : PendingEvent) : bool :=
  bool_decide (groupId e = g) && bool_decide (profileKey e = k).

Definition hasActivePendingEvents (st : Engine) (g k : string) : bool :=
  if negb (truthy_string g) || negb (truthy_string k) then false
  else existsb (fun l => sameProfile g k (deref st l) &&
                         is_active_status (status (deref st l)))
               (pendingEvents st).

(** The new state and the number of entries removed. *)
Definition clearDeletedEventsForProfile (g k : string) (st : Engine) : Engine * nat :=
  let kept := List.filter (fun l => negb (sameProfile g k (deref st l)))
                          (deletedEvents st) in
  (set_deletedEvents kept st, (length (deletedEvents st) - length kept)%nat).

Definition clearProfileState (g k : string) (st : Engine) : Engine * bool :=
  let profileStateKey := getProfileStateKey g k in
  match automationState st !! profileStateKey with
  | Some _ =>
      (saveAutomationState
         (set_automationState (delete profileStateKey (automationState st)) st), true)
  | None => (st, false)
  end.

Definition getActivationStartMs (profileState : option ProfileState) : option Z :=
  parseEventStartMs (profileState ≫= activationStartsAt).

(** [getEarliestEventStartMs]: a start of 0 is skipped by [if (!ms)]. *)
Definition getEarliestEventStartMs (events : list PendingEvent) : option Dec :=
  fold_left
    (fun earliest event =>
       let fromStart := parseEventStartMs (eventStartsAt event) in
       let fromId := parsePendingEventIdStartMs (Some (id event)) in
       let ms := match fromStart with
                 | Some s => Some (dec_of_Z s)
                 | None => fromId
                 end in
       match ms with
       | None => earliest
       | Some m =>
           if dec_is_zero m then earliest
           else match earliest with
                | None => Some m
                | Some e => if dec_ltb m e then Some m else earliest
                end
       end)
    events None.

(** [profilesRef?.[groupId]?.profiles?.[profileKey]] *)
Definition lookupProfile (st : Engine) (g k : string) : option Profile :=
  match profilesRef st with
  | Some byGroup =>
      match byGroup !! g with
      | Some profiles => profiles !! k
      | None => None
      end
  | None => None
  end.

(** ** Publish-time calculator *)

Definition offsetMs (a : Automation) : Z :=
  daysOffset a * 24 * 60 * 60 * 1000 +
  hoursOffset a * 60 * 60 * 1000 +
  minutesOffset a * 60 * 1000.

Definition MIN_BUFFER_MS : Z := 30 * 60 * 1000.

(** The hard cap that ends both calculators. *)
Definition capPublishTime (eventStartTime publishTime : Z) : Z :=
  let maxPublishTime := eventStartTime - MIN_BUFFER_MS in
  if maxPublishTime <? publishTime then maxPublishTime else publishTime.

Section Calculator.
Import JsDate.
Variable tza : Z.

(** The [monthly] branch, written out twice in the source (in
    [calculatePendingEvents] and in [calculatePublishTime]) with the
    same statements. *)
Definition monthlyPublishTime (a : Automation) (eventStartTime : Z) : Z :=
  let eventMonth := getMonth tza eventStartTime in
  let eventYear := getFullYear tza eventStartTime in
  let targetDay := if monthlyDay a =? 0 then 1 else monthlyDay a in
  let lastDayOfMonth :=
    getDate tza (Date_of_fields tza eventYear (eventMonth + 1) 0 0 0 0 0) in
  let publishDay := Z.min targetDay lastDayOfMonth in
  let publishTime :=
    Date_of_fields tza eventYear eventMonth publishDay
      (if monthlyHour a =? 0 then 12 else monthlyHour a)
      (monthlyMinute a) 0 0 in
  if eventStartTime <=? publishTime then
    let moved := setMonth tza publishTime (getMonth tza publishTime - 1) in
    let prevMonthLastDay :=
      getDate tza (Date_of_fields tza (getFullYear tza moved)
                                  (getMonth tza moved + 1) 0 0 0 0 0) in
    setDate tza moved (Z.min targetDay prevMonthLastDay)
  else publishTime.

(** [calculatePublishTime(eventStartsAt, profile)]: [None] is [null],
    [Some None] a [Date] that holds [NaN]. *)
Definition calculatePublishTime (eventStartsAt : option DateStr)
  (profile : option Profile) : option (option Z) :=
  match profile ≫= automation with
  | Some a =>
      if negb (enabled a) then None
      else match Date_parse eventStartsAt with
           | None => Some None
           | Some eventStartTime =>
               let publishTime :=
                 match timingMode a with
                 | Before => eventStartTime - offsetMs a
                 | Monthly => monthlyPublishTime a eventStartTime
                 | After => eventStartTime - offsetMs a
                 end in
               Some (Some (capPublishTime eventStartTime publishTime))
           end
  | None => None
  end.

(** One pattern slot of [calculatePendingEvents]: the publish time
    before the cap; [None] is [NaN].  [produced] is [newPendingEvents]
    so far. *)
Definition slotPublishTime (a : Automation) (profile : Profile)
  (profileState : ProfileState) (now : Z) (produced : list PendingEvent)
  (eventStartTime : Z) : option Z :=
  match timingMode a with
  | Before => Some (eventStartTime - offsetMs a)
  | After =>
      let durationMs := (if duration profile =? 0 then 120 else duration profile)
                         * 60 * 1000 in
      let previous := List.last (Some <$> produced) None in
      let base :=
        match previous with
        | None => if truthy_date (lastSuccess profileState)
                  then Date_parse (lastSuccess profileState)
                  else Some now
        | Some prevEvent => Date_parse (eventStartsAt prevEvent)
        end in
      let prevEventTime :=
        match previous with
        | None => Some now
        | Some prevEvent => Date_parse (eventStartsAt prevEvent)
        end in
      match base, prevEventTime with
      | Some b, Some p =>
          let publishTime := b + durationMs + offsetMs a in
          (* publishTime > prev + (next - prev) / 2, without the halving *)
          if p + eventStartTime <? 2 * publishTime
          then Some (eventStartTime - offsetMs a)
          else Some publishTime
      | _, _ => None
      end
  | Monthly => Some (monthlyPublishTime a eventStartTime)
  end.

(** The record [calculatePendingEvents] pushes for a slot. *)
Definition newPendingEvent (g k : string) (eventStartTime publishTime : Z)
  : PendingEvent :=
  let slot := buildPendingEventId g k (Some (toISOString eventStartTime)) in
  mkPendingEvent
    (match slot with
     | Some key => key
     | None => "pending_" +:+ g +:+ "_" +:+ k +:+ "_" +:+ Z_to_string eventStartTime
     end)
    slot g k (Some (toISOString publishTime)) (Some (toISOString eventStartTime))
    None Scheduled None None None None.

(** The loop over the pattern slots.  [None]: a [NaN] publish time
    reached [toISOString], which throws a RangeError. *)
Fixpoint calculatePendingEvents_loop (a : Automation) (profile : Profile)
  (profileState : ProfileState) (now : Z) (g k : string) (maxEvents : Z)
  (minEventStartMs : option Dec) (dateOptions : list Z)
  (produced : list PendingEvent) : option (list PendingEvent) :=
  match dateOptions with
  | [] => Some produced
  | eventStartTime :: rest =>
      let continue_ := calculatePendingEvents_loop a profile profileState now g k
                         maxEvents minEventStartMs rest in
      if maxEvents <=? Z.of_nat (length produced) then Some produced
      else if bool_decide (repeatMode a = Count) &&
              (repeatCount a <? eventsCreated profileState
                                + Z.of_nat (length produced) + 1)
      then Some produced
      else if match minEventStartMs with
              | Some m => dec_leb (dec_of_Z eventStartTime) m
              | None => false
              end
      then continue_ produced
      else
        match slotPublishTime a profile profileState now produced eventStartTime with
        | None => None
        | Some publishTime =>
            let capped := capPublishTime eventStartTime publishTime in
            if capped <=? now then continue_ produced
            else continue_ (produced ++ [newPendingEvent g k eventStartTime capped])
        end
  end.

(** [calculatePendingEvents(groupId, profileKey, profile, maxEvents,
    {minEventStartMs})].  [dateOptions] are the instants of the slots
    that [generateDateOptionsFromPatterns(profile.patterns, 3, timezone)]
    returns, in its order. *)
Definition calculatePendingEvents (g k : string) (profile : option Profile)
  (dateOptions : list Z) (maxEvents : Z) (minEventStartMs : option Dec)
  (now : Z) (st : Engine) : Engine * option (list PendingEvent) :=
  match profile with
  | None => (st, Some [])
  | Some p =>
      match automation p with
      | None => (st, Some [])
      | Some a =>
          if negb (enabled a) || Nat.eqb (patternCount p) 0 then (st, Some [])
          else match dateOptions with
          | [] => (st, Some [])
          | _ =>
              let '(st1, profileState) :=
                getOrCreateProfileState (getProfileStateKey g k) st in
              if bool_decide (repeatMode a = Count) &&
                 (repeatCount a <=? eventsCreated profileState)
              then (st1, Some [])
              else (st1, calculatePendingEvents_loop a p profileState now g k
                           maxEvents minEventStartMs dateOptions [])
          end
      end
  end.

End Calculator.

(** ** Rate-limit gate *)

Definition EVENT_HOURLY_LIMIT : Z := 10.
Definition EVENT_HOURLY_WINDOW_MS : Z := 60 * 60 * 1000.
Definition BACKOFF_SEQUENCE : list Z := [2; 4; 8; 16; 32; 60].

(** [BACKOFF_SEQUENCE[index]]; [None] is [undefined]. *)
Definition backoffAt (index : Z) : option Z :=
  if index <? 0 then None else BACKOFF_SEQUENCE !! Z.to_nat index.

(** Truthiness of [state.lockUntil]. *)
Definition lockSet (s : GroupRate) : option Z :=
  match lockUntil s with
  | Some l => if l =? 0 then None else Some l
  | None => None
  end.

(** [Math.min(...history)], for a history that is not empty. *)
Definition oldestOf (h : list Z) : option Z :=
  match h with
  | [] => None
  | x :: r => Some (fold_left Z.min r x)
  end.

Definition getRateLimitState (g : string) (st : Engine) : Engine * GroupRate :=
  match groups st !! g with
  | Some s => (st, s)
  | None =>
      let s := mkGroupRate [] 0 None in
      (set_groups (<[g := s]> (groups st)) st, s)
  end.

(** Assignment to fields of the object [getRateLimitState] returned. *)
Definition putRateLimitState (g : string) (s : GroupRate) (st : Engine) : Engine :=
  set_groups (<[g := s]> (groups st)) st.

Definition prunedHistory (now : Z) (h : list Z) : list Z :=
  List.filter (fun ts => now - EVENT_HOURLY_WINDOW_MS <=? ts) h.

Definition pruneRateLimitHistory (now : Z) (g : string) (st : Engine) : Engine :=
  let '(st1, s) := getRateLimitState g st in
  putRateLimitState g
    (mkGroupRate (prunedHistory now (history s)) (backoffIndex s) (lockUntil s)) st1.

Definition isGroupRateLimited (now : Z) (g : string) (st : Engine) : Engine * bool :=
  let '(st1, s) := getRateLimitState g st in
  match lockSet s with
  | Some l =>
      if now <? l then (st1, true)
      else
        (* expired lock: cleared, and the backoff starts over *)
        let st2 := putRateLimitState g (mkGroupRate (history s) 0 None) st1 in
        let st3 := pruneRateLimitHistory now g st2 in
        (st3, EVENT_HOURLY_LIMIT <=?
                Z.of_nat (length (prunedHistory now (history s))))
  | None =>
      let st2 := pruneRateLimitHistory now g st1 in
      (st2, EVENT_HOURLY_LIMIT <=? Z.of_nat (length (prunedHistory now (history s))))
  end.

Definition getRateLimitWaitMs (now : Z) (g : string) (st : Engine) : Engine * Z :=
  let '(st1, s) := getRateLimitState g st in
  match lockSet s with
  | Some l => (st1, Z.max 0 (l - now))
  | None =>
      let st2 := pruneRateLimitHistory now g st1 in
      let h := prunedHistory now (history s) in
      if EVENT_HOURLY_LIMIT <=? Z.of_nat (length h) then
        match oldestOf h with
        | Some oldest => (st2, Z.max 0 (oldest + EVENT_HOURLY_WINDOW_MS - now))
        | None => (st2, 0)
        end
      else (st2, 0)
  end.

Definition recordEventCreation (now : Z) (g : string) (st : Engine) : Engine :=
  let '(st1, s) := getRateLimitState g st in
  putRateLimitState g
    (mkGroupRate (prunedHistory now (history s ++ [now])) 0 (lockUntil s)) st1.

Definition handleRateLimitError (now : Z) (g : string) (st : Engine) : Engine :=
  let '(st1, s) := getRateLimitState g st in
  let h := prunedHistory now (history s) in
  if EVENT_HOURLY_LIMIT <=? Z.of_nat (length h) then
    putRateLimitState g
      (mkGroupRate h (backoffIndex s)
         (match oldestOf h with
          | Some oldest => Some (oldest + EVENT_HOURLY_WINDOW_MS)
          | None => None
          end)) st1
  else
    putRateLimitState g
      (mkGroupRate h
         (Z.min (backoffIndex s + 1) (Z.of_nat (length BACKOFF_SEQUENCE) - 1))
         (match backoffAt (backoffIndex s) with
          | Some backoffMinutes => Some (now + backoffMinutes * 60 * 1000)
          | None => None
          end)) st1.

(** ** The queue *)

(** The comparator of [queue.sort], [(a, b) => a.priority - b.priority],
    read as: [a] does not sort after [b].  Between two numbers that is
    [a.priority <= b.priority]; a [NaN] difference is read as 0. *)
Definition priority_le (a b : QueueItem) : bool :=
  match q_priority a, q_priority b with
  | Some x, Some y => x <=? y
  | _, _ => true
  end.

(** Stable insertion, behind the items that do not sort after [x]. *)
Fixpoint insertByPriority (x : QueueItem) (q : list QueueItem) : list QueueItem :=
  match q with
  | [] => [x]
  | y :: r => if priority_le y x then y :: insertByPriority x r else x :: q
  end.

(** [Array.prototype.sort] with that comparator.  When every priority is
    a number the comparator is consistent and the language fixes the
    result, the stable sort, which this is.  With a [NaN] priority (a
    record whose start is not a date) the comparator is not consistent
    and the language leaves the order to the host; the properties below
    that speak of the order of the queue take the priorities to be
    numbers. *)
Definition sortQueue (q : list QueueItem) : list QueueItem :=
  fold_left (fun sorted x => insertByPriority x sorted) q [].

Definition dequeueEventPost (pendingEventId : string) (st : Engine) : Engine :=
  let fix remove (q : list QueueItem) : list QueueItem :=
    match q with
    | [] => []
    | x :: r => if bool_decide (q_pendingEventId x = pendingEventId) then r
                else x :: remove r
    end in
  set_queue (remove (queue st)) st.

(** [pendingEvents.find(e => e.id === pendingEventId)] *)
Definition findPending (st : Engine) (pendingEventId : string) : option loc :=
  List.find (fun l => bool_decide (id (deref st l) = pendingEventId)) (pendingEvents st).

(** [resolveEventDetails], from the record found on: the profile's
    fields with the overrides applied. *)
Definition eventDetailsFor (st : Engine) (pendingEvent : PendingEvent)
  : option EventDetails :=
  match lookupProfile st (groupId pendingEvent) (profileKey pendingEvent) with
  | None => None
  | Some profile =>
      let overrides := manualOverrides pendingEvent in
      let title :=
        match overrides ≫= ov_title with
        | Some t => t
        | None => if truthy_string (name profile) then name profile
                  else "Untitled Event"
        end in
      let startsAt :=
        if truthy_date (overrides ≫= ov_eventStartsAt)
        then overrides ≫= ov_eventStartsAt
        else eventStartsAt pendingEvent in
      let dur :=
        match overrides ≫= ov_durationMinutes with
        | Some d => if d =? 0 then (if duration profile =? 0 then 120
                                     else duration profile) else d
        | None => if duration profile =? 0 then 120 else duration profile
        end in
      Some (mkEventDetails title dur startsAt (scheduledPublishTime pendingEvent))
  end.

(** [resolveEventDetails(pendingEventId)] *)
Definition resolveEventDetails (st : Engine) (pendingEventId : string)
  : option EventDetails :=
  match findPending st pendingEventId with
  | None => None
  | Some l => eventDetailsFor st (deref st l)
  end.

(** ** Scheduler *)

Definition ONE_DAY_MS : Z := 24 * 60 * 60 * 1000.
Definition EIGHT_HOURS_MS : Z := 8 * 60 * 60 * 1000.
Definition TWO_HOURS_MS : Z := 2 * 60 * 60 * 1000.

Definition getRecheckIntervalMs (delayMs : Z) : option Z :=
  if 7 * ONE_DAY_MS <? delayMs then Some ONE_DAY_MS
  else if 2 * ONE_DAY_MS <? delayMs then Some EIGHT_HOURS_MS
  else if ONE_DAY_MS <? delayMs then Some TWO_HOURS_MS
  else None.

(** [scheduledJobs.set(pendingEvent.id, setTimeout(callback, delay))] *)
Definition setJobTimer (now : Z) (l : loc) (cb : Callback) (delay : option Z)
  (st : Engine) : Engine :=
  let '(st1, h) := setTimeout now cb delay st in
  set_scheduledJobs (<[id (deref st1 l) := h]> (scheduledJobs st1)) st1.

(** [scheduleJob(pendingEvent)], for the record object at [l]. *)
Definition scheduleJob (now : Z) (l : loc) (st : Engine) : Engine :=
  match Date_parse (scheduledPublishTime (deref st l)) with
  | None =>
      (* delay is NaN: no comparison holds, the timer is set with it *)
      setJobTimer now l (CbPost l) None st
  | Some publishTime =>
      let delay := publishTime - now in
      if delay <=? 0 then
        let st1 := update l (fun e => set_missedAt (Some (toISOString now))
                                        (set_status Missed e)) st in
        let st2 := savePendingEvents st1 in
        emit (OnMissedEvent (deref st2 l)) st2
      else
        match getRecheckIntervalMs delay with
        | Some recheckIntervalMs => setJobTimer now l (CbRecheck l) (Some recheckIntervalMs) st
        | None => setJobTimer now l (CbPost l) (Some delay) st
        end
  end.

Definition cancelJob (pendingEventId : string) (st : Engine) : Engine :=
  let st1 :=
    match scheduledJobs st !! pendingEventId with
    | Some timeoutId =>
        set_scheduledJobs (delete pendingEventId (scheduledJobs st))
                          (clearTimeout timeoutId st)
    | None => st
    end in
  dequeueEventPost pendingEventId st1.

Definition RETRY_DELAY : Z := 15 * 60 * 1000.

Definition scheduleRetry (now : Z) (l : loc) (st : Engine) : Engine :=
  setJobTimer now l (CbPost l) (Some RETRY_DELAY) st.

(** ** Publish worker and queue processor *)

(** The 100 ms pause of [processQueue] between two posts. *)
Definition pauseBetweenPosts (now : Z) (st : Engine) : Engine :=
  let '(st1, _) := setTimeout now CbResume (Some 100) st in
  set_suspended (Some AwaitingPause) st1.

(** [executeAutomatedPostInternal(pendingEvent)] up to
    [await createEventFn(...)].  The flag tells whether the call was made
    and the function waits for its answer ([true]) or returned. *)
Definition executeAutomatedPostInternal (now : Z) (l : loc) (st : Engine)
  : Engine * bool :=
  let pendingEvent := deref st l in
  match resolveEventDetails st (id pendingEvent) with
  | None =>
      (savePendingEvents (update l (set_status Cancelled) st), false)
  | Some eventDetails =>
      match Date_parse (eventStartsAt pendingEvent) with
      | None =>
          (* startTime.toISOString() throws; the catch schedules a retry *)
          (scheduleRetry now l st, false)
      | Some startTime =>
          let durationMs := (if ed_duration eventDetails =? 0 then 120
                             else ed_duration eventDetails) * 60 * 1000 in
          (emit (CreateEvent (groupId pendingEvent) eventDetails
                             (toISOString startTime)
                             (toISOString (startTime + durationMs))) st, true)
      end
  end.

(** After the [while] loop: the [finally] block and the follow-up run. *)
Definition processQueue_finish (now : Z) (st : Engine) : Engine :=
  let st1 := set_processing false st in
  match queue st1 with
  | [] => st1
  | _ =>
      let st2 := match processTimeout st1 with
                 | Some h => clearTimeout h st1
                 | None => st1
                 end in
      let '(st3, h) := setTimeout now CbProcessQueue (Some 1000) st2 in
      set_processTimeout (Some h) st3
  end.

(** The [while] loop of [processQueue], entered with [queue st = q].  It
    runs until the queue is empty, the head is rate limited, or a post
    suspends it. *)
Fixpoint processQueue_loop (now : Z) (q : list QueueItem) (st : Engine) : Engine :=
  match q with
  | [] => processQueue_finish now st
  | item :: rest =>
      let '(st1, limited) := isGroupRateLimited now (q_groupId item) st in
      if limited then
        let '(st2, waitMs) := getRateLimitWaitMs now (q_groupId item) st1 in
        let st3 := match processTimeout st2 with
                   | Some h => clearTimeout h st2
                   | None => st2
                   end in
        let '(st4, h) := setTimeout now CbProcessQueue (Some (waitMs + 100)) st3 in
        processQueue_finish now (set_processTimeout (Some h) st4)
      else
        let st2 := set_queue rest st1 in
        match findPending st2 (q_pendingEventId item) with
        | None => processQueue_loop now rest st2
        | Some l =>
            if negb (is_active_status (status (deref st2 l)))
            then processQueue_loop now rest st2
            else
              let st3 := if status_eqb (status (deref st2 l)) Queued
                         then update l (set_status Scheduled) st2 else st2 in
              let '(st4, waiting) := executeAutomatedPostInternal now l st3 in
              if waiting then set_suspended (Some (AwaitingPublish l)) st4
              else pauseBetweenPosts now st4
        end
  end.

Definition processQueue (now : Z) (st : Engine) : Engine :=
  if processing st then st
  else match queue st with
       | [] => st
       | q => processQueue_loop now q (set_processing true st)
       end.

Definition queueEventPost (now : Z) (pendingEventId g : string)
  (priority : option Z) (st : Engine) : Engine :=
  if existsb (fun item => bool_decide (q_pendingEventId item = pendingEventId))
             (queue st)
  then st
  else
    processQueue now
      (set_queue (sortQueue (queue st ++ [mkQueueItem pendingEventId g priority])) st).

(** [executeAutomatedPost(pendingEvent)]: the public wrapper, which only
    queues. *)
Definition executeAutomatedPost (now : Z) (l : loc) (st : Engine) : Engine :=
  let pendingEvent := deref st l in
  queueEventPost now (id pendingEvent) (groupId pendingEvent)
                 (Date_parse (eventStartsAt pendingEvent)) st.

(** [String.prototype.toLowerCase] on the ASCII letters, which are the
    only ones that can produce the text searched for. *)
Definition lower_ascii (c : ascii) : ascii :=
  let n := N_of_ascii c in
  if ((65 <=? n) && (n <=? 90))%N then ascii_of_N (n + 32) else c.

Fixpoint toLowerCase (s : string) : string :=
  match s with
  | String c r => String (lower_ascii c) (toLowerCase r)
  | EmptyString => EmptyString
  end.

(** [String.prototype.includes] *)
Fixpoint includes (s needle : string) : bool :=
  String.prefix needle s ||
  match s with
  | String _ r => includes r needle
  | EmptyString => false
  end.

(** The rate-limit signal of a failed publish. *)
Definition isRateLimit (code : option string) (httpStatus : option Z)
  (message : option string) : bool :=
  bool_decide (code = Some "UPCOMING_LIMIT") ||
  bool_decide (httpStatus = Some 429) ||
  match message with
  | Some m => truthy_string m && includes (toLowerCase m) "rate limit"
  | None => false
  end.

(** [executeAutomatedPostInternal] from the answer of [createEventFn] to
    its end, for the record at [l]. *)
Definition executeAutomatedPostInternal_settled (now : Z) (l : loc)
  (outcome : Settled) (st : Engine) : Engine :=
  let pendingEvent := deref st l in
  match outcome with
  | Resolved (PublishOk remoteId) =>
      let st1 := recordEventCreation now (groupId pendingEvent) st in
      let newEventId :=
        if truthy_ostring remoteId then remoteId
        else if truthy_ostring (eventId pendingEvent) then eventId pendingEvent
        else None in
      let st2 := update l (fun e => set_status Published (set_eventId newEventId e)) st1 in
      let profileStateKey :=
        getProfileStateKey (groupId pendingEvent) (profileKey pendingEvent) in
      let '(st3, profileState) := getOrCreateProfileState profileStateKey st2 in
      let seedsAnchor :=
        negb (has_value (getActivationStartMs (Some profileState))) &&
        truthy_date (eventStartsAt pendingEvent) in
      let st4 :=
        updateProfileState profileStateKey
          (fun ps => mkProfileState
                       (eventsCreated ps + 1)
                       (if seedsAnchor then eventStartsAt pendingEvent
                        else activationStartsAt ps)
                       (Some (toISOString now))
                       remoteId) st3 in
      let st5 := savePendingEvents (saveAutomationState st4) in
      emit (OnEventCreated (deref st5 l) remoteId) st5
  | Resolved (PublishFailed code httpStatus message) =>
      if isRateLimit code httpStatus message then
        let st1 := handleRateLimitError now (groupId pendingEvent) st in
        let st2 := update l (fun e => set_queuedAt (Some (toISOString now))
                                        (set_status Queued e)) st1 in
        let st3 := savePendingEvents st2 in
        queueEventPost now (id pendingEvent) (groupId pendingEvent)
                       (Date_parse (eventStartsAt pendingEvent)) st3
      else scheduleRetry now l st
  | Rejected => scheduleRetry now l st
  end.

(** The answer of [createEventFn] arrives: the suspended post finishes
    and [processQueue] goes on to its pause. *)
Definition createEventSettled (now : Z) (outcome : Settled) (st : Engine) : Engine :=
  match suspended st with
  | Some (AwaitingPublish l) =>
      pauseBetweenPosts now (executeAutomatedPostInternal_settled now l outcome st)
  | _ => st
  end.

(** A timer fires. *)
Definition fireTimer (now : Z) (h : nat) (st : Engine) : Engine :=
  match timers st !! h with
  | None => st
  | Some t =>
      let st1 := clearTimeout h st in
      match timer_callback t with
      | CbRecheck l => scheduleJob now l st1
      | CbPost l => executeAutomatedPost now l st1
      | CbProcessQueue => processQueue now (set_processTimeout None st1)
      | CbResume =>
          match suspended st1 with
          | Some AwaitingPause =>
              processQueue_loop now (queue st1) (set_suspended None st1)
          | _ => st1
          end
      end
  end.

(** ** Control API *)

Inductive Action : Type :=
| PostNow | Reschedule | Cancel
| OtherAction (name : string).

(** What a control call returns or does instead of returning. *)
Inductive ActionResult : Type :=
| ResultOk                                     (* { ok: true } *)
| ResultCancelled (automationCleared : bool) (g k : string)
| ResultError (message : string)               (* { ok: false, error: { message } } *)
| ResultThrew.                                 (* a RangeError leaves the function *)

(** [pendingEvents.findIndex(e => e.id === pendingEventId)] *)
Fixpoint findIndexFrom (st : Engine) (pendingEventId : string) (ls : list loc)
  (i : nat) : option nat :=
  match ls with
  | [] => None
  | l :: r => if bool_decide (id (deref st l) = pendingEventId) then Some i
              else findIndexFrom st pendingEventId r (S i)
  end.

Definition findIndex (st : Engine) (pendingEventId : string) : option nat :=
  findIndexFrom st pendingEventId (pendingEvents st) 0.

Definition FIVE_MINUTES_MS : Z := 5 * 60 * 1000.

Definition handleMissedEvent (now : Z) (pendingEventId : string) (action : Action)
  (st : Engine) : Engine * ActionResult :=
  match findIndex st pendingEventId with
  | None => (st, ResultError "Pending event not found")
  | Some eventIndex =>
      let l := pendingEvents st !!! eventIndex in
      let pendingEvent := deref st l in
      match action with
      | PostNow =>
          if status_eqb (status pendingEvent) Queued then
            (st, ResultError
                   "Event is queued waiting for rate limits to clear. Please wait.")
          else
            let st1 := update l (set_status Scheduled) st in
            (executeAutomatedPost now l st1, ResultOk)
      | Reschedule =>
          match lookupProfile st (groupId pendingEvent) (profileKey pendingEvent)
                  ≫= automation with
          | None => (st, ResultError "Profile not found or automation disabled")
          | Some a =>
              if negb (enabled a) then
                (st, ResultError "Profile not found or automation disabled")
              else
                let newPublishTime :=
                  match timingMode a with
                  | Before =>
                      match Date_parse (eventStartsAt pendingEvent) with
                      | Some eventStartTime =>
                          let t := eventStartTime - offsetMs a in
                          if t <=? now then Some (now + FIVE_MINUTES_MS) else Some t
                      | None => None
                      end
                  | _ => Some (now + FIVE_MINUTES_MS)
                  end in
                match newPublishTime with
                | None => (st, ResultThrew)
                | Some t =>
                    let st1 :=
                      update l (fun e => set_missedAt None
                                           (set_status Scheduled
                                              (set_scheduledPublishTime
                                                 (Some (toISOString t)) e))) st in
                    (scheduleJob now l (savePendingEvents st1), ResultOk)
                end
          end
      | Cancel =>
          let g := groupId pendingEvent in
          let k := profileKey pendingEvent in
          let st1 := cancelJob pendingEventId st in
          let st2 := set_pendingEvents (delete eventIndex (pendingEvents st1)) st1 in
          let st3 := update l (fun e => set_deletedAt (Some (toISOString now))
                                          (set_status Deleted e)) st2 in
          let st4 := set_deletedEvents (deletedEvents st3 ++ [l]) st3 in
          if negb (hasActivePendingEvents st4 g k) then
            let '(st5, removed) := clearDeletedEventsForProfile g k st4 in
            let '(st6, stateCleared) := clearProfileState g k st5 in
            (savePendingEvents st6,
             ResultCancelled ((0 <? removed)%nat || stateCleared) g k)
          else (savePendingEvents st4, ResultCancelled false g k)
      | OtherAction _ => (st, ResultError "Unknown action")
      end
  end.

(** [recordManualEvent(groupId, profileKey, eventStartsAt)] *)
Definition recordManualEvent (g k : string) (startsAt : option DateStr)
  (st : Engine) : Engine * bool :=
  if negb (isKnownGroupId st g) then (st, false)
  else
    match parseEventStartMs startsAt with
    | None => (st, false)
    | Some eventStartMs =>
        let profileStateKey := getProfileStateKey g k in
        let '(st1, profileState) := getOrCreateProfileState profileStateKey st in
        let seed :=
          saveAutomationState
            (updateProfileState profileStateKey
               (fun ps => mkProfileState (eventsCreated ps)
                            (Some (toISOString eventStartMs))
                            (lastSuccess ps) (lastEventId ps)) st1) in
        match getActivationStartMs (Some profileState) with
        | Some existingStartMs =>
            if existingStartMs <=? eventStartMs then (st1, false) else (seed, true)
        | None => (seed, true)
        end
    end.












(** The text of a number in a template literal, for the values the
    engine can meet here: an integer in decimal, a fraction with its
    digits.  (The exponent notation of very large or small magnitudes is
    not reproduced.) *)
Fixpoint zeros (n : nat) : string :=
  match n with O => EmptyString | S k => String "0" (zeros k) end.

Fixpoint strip_trailing_zeros (s : string) : string :=
  match s with
  | String c r =>
      match strip_trailing_zeros r with
      | EmptyString => if Ascii.eqb c "0" then EmptyString else String c EmptyString
      | r' => String c r'
      end
  | EmptyString => EmptyString
  end.

Definition Dec_to_string (d : Dec) : string :=
  if 0 <=? exp10 d then Z_to_string (mant d * 10 ^ exp10 d)
  else
    let scale := 10 ^ (- exp10 d) in
    let whole := Z.quot (mant d) scale in
    let part := Z.abs (Z.rem (mant d) scale) in
    if part =? 0 then Z_to_string whole
    else
      let digits := Z_to_string part in
      let padded := zeros (Z.to_nat (- exp10 d) - String.length digits) +:+ digits in
      (if (mant d <? 0) && (whole =? 0) then "-0" else Z_to_string whole)
      +:+ "." +:+ strip_trailing_zeros padded.

(** The slot keys of the records at [ls] that satisfy [keep]. *)
Definition slotKeysOf (st : Engine) (keep : PendingEvent -> bool) (ls : list loc)
  : gset string :=
  list_to_set (concat (getPendingSlotKeys <$> List.filter keep (snapshot st ls))).

Definition anyKeyIn (keys : list string) (s : gset string) : bool :=
  existsb (fun key => bool_decide (key ∈ s)) keys.

(** [deletedEvents.indexOf(event)] and [splice(idx, 1)]: the first
    occurrence of the object goes. *)
Fixpoint removeFirst (l : loc) (ls : list loc) : list loc :=
  match ls with
  | [] => []
  | x :: r => if Nat.eqb x l then r else x :: removeFirst l r
  end.

Inductive RestoreResult : Type :=
| RestoreOk (restoredCount : nat)
| RestoreError (message : string).

Section Restore.
Variable tza : Z.

(** The body of the [for] loop of [restoreDeletedEvents] for the deleted
    record at [l]: the state, and whether the record was restored. *)
Definition restoreOne (now : Z) (g k : string) (profile : Profile)
  (modifiedEventSlots publishedEventSlots : gset string) (anchorMs : option Dec)
  (l : loc) (st : Engine) : Engine * bool :=
  let event := deref st l in
  let eventSlotKeys := getPendingSlotKeys event in
  if anyKeyIn eventSlotKeys modifiedEventSlots then (st, false)
  else if anyKeyIn eventSlotKeys publishedEventSlots then (st, false)
  else
    match getRestoreStartMs event with
    | None => (st, false)
    | Some restoreStartMs =>
        if dec_leb restoreStartMs (dec_of_Z now) then (st, false)
        else if match anchorMs with
                | Some a => dec_leb restoreStartMs a
                | None => false
                end then (st, false)
        else
          let restoreStartsAt := toISOString (dec_trunc restoreStartMs) in
          match calculatePublishTime tza (Some restoreStartsAt) (Some profile) with
          | Some (Some newPublishTime) =>
              if now <? newPublishTime then
                let hasOverrides :=
                  match manualOverrides event with
                  | Some o => (0 <? overrides_key_count o)%nat
                  | None => false
                  end in
                let useOverrides :=
                  hasOverrides &&
                  match parseEventStartMs (eventStartsAt event) with
                  | Some currentStartMs =>
                      dec_eqb (dec_of_Z currentStartMs) restoreStartMs
                  | None => false
                  end in
                let slot := buildPendingEventId g k (Some restoreStartsAt) in
                let fallbackId :=
                  match slot with
                  | Some key => key
                  | None =>
                      if truthy_string (id event) then id event
                      else "pending_" +:+ g +:+ "_" +:+ k +:+ "_"
                           +:+ Dec_to_string restoreStartMs
                  end in
                let '(st1, restored) :=
                  if useOverrides then
                    (update l
                       (fun e =>
                          set_queuedAt None
                            (set_deletedAt None
                               (set_eventStartsAt
                                  (if truthy_date (eventStartsAt e) then eventStartsAt e
                                   else Some restoreStartsAt)
                                  (set_missedAt None
                                     (set_status Scheduled
                                        (set_scheduledPublishTime
                                           (Some (toISOString newPublishTime)) e))))))
                       st, l)
                  else
                    alloc (mkPendingEvent fallbackId
                             (match slot with
                              | Some key => Some key
                              | None => if truthy_ostring (slotKey event)
                                        then slotKey event else None
                              end)
                             g k (Some (toISOString newPublishTime))
                             (Some restoreStartsAt) None Scheduled
                             None None None None) st in
                let st2 := set_pendingEvents (pendingEvents st1 ++ [restored]) st1 in
                (scheduleJob now restored st2, true)
              else (st, false)
          | _ => (st, false)
          end
    end.

(** The loop over [deletedForProfile]: the state, the count and
    [toRemoveFromDeleted]. *)
Fixpoint restoreLoop (now : Z) (g k : string) (profile : Profile)
  (modifiedEventSlots publishedEventSlots : gset string) (anchorMs : option Dec)
  (ls : list loc) (st : Engine) : Engine * nat * list loc :=
  match ls with
  | [] => (st, 0%nat, [])
  | l :: rest =>
      let '(st1, restored) :=
        restoreOne now g k profile modifiedEventSlots publishedEventSlots anchorMs l st in
      let '(st2, n, removed) :=
        restoreLoop now g k profile modifiedEventSlots publishedEventSlots anchorMs
                    rest st1 in
      if restored then (st2, S n, l :: removed) else (st2, n, removed)
  end.

(** [restoreDeletedEvents(groupId, profileKey)] *)
Definition restoreDeletedEvents (now : Z) (g k : string) (st : Engine)
  : Engine * RestoreResult :=
  let deletedForProfile :=
    List.filter (fun l => sameProfile g k (deref st l)) (deletedEvents st) in
  match deletedForProfile with
  | [] => (st, RestoreOk 0)
  | _ =>
      match lookupProfile st g k with
      | None => (st, RestoreError "Profile not found")
      | Some profile =>
          let profileStateKey := getProfileStateKey g k in
          let '(st1, profileState) := getOrCreateProfileState profileStateKey st in
          let existingEvents :=
            List.filter (fun l => sameProfile g k (deref st1 l)) (pendingEvents st1) in
          let modifiedEventSlots :=
            slotKeysOf st1 (fun e => has_value (manualOverrides e)) existingEvents in
          let publishedEventSlots :=
            slotKeysOf st1 (fun e => status_eqb (status e) Published) existingEvents in
          let '(st2, anchorMs) :=
            match getActivationStartMs (Some profileState) with
            | Some a => (st1, Some (dec_of_Z a))
            | None =>
                let derived :=
                  match getEarliestEventStartMs (snapshot st1 existingEvents) with
                  | Some m => Some m
                  | None => getEarliestEventStartMs (snapshot st1 deletedForProfile)
                  end in
                match derived with
                | Some m =>
                    (saveAutomationState
                       (updateProfileState profileStateKey
                          (fun ps => mkProfileState (eventsCreated ps)
                                       (Some (toISOString (dec_trunc m)))
                                       (lastSuccess ps) (lastEventId ps)) st1),
                     Some m)
                | None => (st1, None)
                end
            end in
          let '(st3, restoredCount, toRemoveFromDeleted) :=
            restoreLoop now g k profile modifiedEventSlots publishedEventSlots
                        anchorMs deletedForProfile st2 in
          let st4 :=
            set_deletedEvents
              (fold_left (fun ds l => removeFirst l ds) toRemoveFromDeleted
                         (deletedEvents st3)) st3 in
          (savePendingEvents st4, RestoreOk restoredCount)
      end
  end.
End Restore.

Definition cancelJobsForProfile (g k : string) (st : Engine) : Engine :=
  let toCancel :=
    id <$> List.filter (sameProfile g k) (snapshot st (pendingEvents st)) in
  fold_left (fun s pendingEventId => cancelJob pendingEventId s) toCancel st.

(** [purgeProfilePendingEvents(groupId, profileKey)]: the state and
    whether the call succeeded. *)
Definition purgeProfilePendingEvents (g k : string) (st : Engine) : Engine * bool :=
  if negb (truthy_string g) || negb (truthy_string k) then (st, false)
  else
    let st1 := cancelJobsForProfile g k st in
    let keptPending :=
      List.filter (fun l => negb (sameProfile g k (deref st1 l))) (pendingEvents st1) in
    let keptDeleted :=
      List.filter (fun l => negb (sameProfile g k (deref st1 l))) (deletedEvents st1) in
    let st2 := set_deletedEvents keptDeleted (set_pendingEvents keptPending st1) in
    let st3 :=
      if (length keptPending <? length (pendingEvents st1))%nat ||
         (length keptDeleted <? length (deletedEvents st1))%nat
      then savePendingEvents st2 else st2 in
    let profileStateKey := getProfileStateKey g k in
    match automationState st3 !! profileStateKey with
    | Some _ =>
        (saveAutomationState
           (set_automationState (delete profileStateKey (automationState st3)) st3),
         true)
    | None => (st3, true)
    end.

(** [pendingEvents.push(...events)] for new objects: each is allocated,
    and the addresses come back in order. *)
Fixpoint pushNew (events : list PendingEvent) (st : Engine) : Engine * list loc :=
  match events with
  | [] => (st, [])
  | e :: rest =>
      let '(st1, l) := alloc e st in
      let '(st2, ls) := pushNew rest (set_pendingEvents (pendingEvents st1 ++ [l]) st1) in
      (st2, l :: ls)
  end.

Section Update.
Variable tza : Z.

(** [updatePendingEventsForProfile(groupId, profileKey, profile)].
    [dateOptions] is what the pattern expander returns for the profile
    at this moment.  The flag is [false] when [calculatePendingEvents]
    threw. *)
Definition updatePendingEventsForProfile (now : Z) (g k : string)
  (profile : option Profile) (dateOptions : list Z) (st : Engine)
  : Engine * bool :=
  if negb (isKnownGroupId st g) then
    (fst (purgeProfilePendingEvents g k st), true)
  else
    let st1 :=
      match profilesRef st with
      | Some byGroup =>
          match byGroup !! g with
          | Some profiles =>
              set_profilesRef
                (Some (<[g := match profile with
                               | Some p => <[k := p]> profiles
                               | None => delete k profiles
                               end]> byGroup)) st
          | None => st
          end
      | None => st
      end in
    let profileStateKey := getProfileStateKey g k in
    let '(st2, profileState) := getOrCreateProfileState profileStateKey st1 in
    let existingEvents :=
      List.filter (fun l => sameProfile g k (deref st2 l)) (pendingEvents st2) in
    let modifiedEventSlots :=
      slotKeysOf st2 (fun e => has_value (manualOverrides e)) existingEvents in
    let publishedEventSlots :=
      slotKeysOf st2 (fun e => status_eqb (status e) Published) existingEvents in
    let deletedEventSlots :=
      slotKeysOf st2 (sameProfile g k) (deletedEvents st2) in
    let st3 :=
      fold_left (fun s e => if has_value (manualOverrides e) then s
                            else cancelJob (id e) s)
                (snapshot st2 existingEvents) st2 in
    let st4 :=
      set_pendingEvents
        (List.filter
           (fun l => let e := deref st3 l in
                     negb (sameProfile g k e && negb (has_value (manualOverrides e))
                           && negb (status_eqb (status e) Published)))
           (pendingEvents st3)) st3 in
    let isEnabled :=
      match profile with
      | Some p => match automation p with
                  | Some a => enabled a
                  | None => false
                  end
      | None => false
      end in
    if negb isEnabled then (savePendingEvents st4, true)
    else
      let hasExistingPending := (0 <? length existingEvents)%nat in
      let '(st5, anchorMs) :=
        match getActivationStartMs (Some profileState) with
        | Some a => (st4, Some (dec_of_Z a))
        | None =>
            if hasExistingPending then
              match getEarliestEventStartMs (snapshot st4 existingEvents) with
              | Some m =>
                  (saveAutomationState
                     (updateProfileState profileStateKey
                        (fun ps => mkProfileState (eventsCreated ps)
                                     (Some (toISOString (dec_trunc m)))
                                     (lastSuccess ps) (lastEventId ps)) st4),
                   Some m)
              | None => (st4, None)
              end
            else (st4, None)
        end in
      if negb hasExistingPending && negb (has_value anchorMs)
      then (savePendingEvents st5, true)
      else
        match calculatePendingEvents tza g k profile dateOptions 10 anchorMs now st5 with
        | (st6, None) => (st6, false)
        | (st6, Some newEvents) =>
            let free (e : PendingEvent) : bool :=
              match getPendingSlotKey e with
              | Some key =>
                  negb (bool_decide (key ∈ modifiedEventSlots)) &&
                  negb (bool_decide (key ∈ deletedEventSlots)) &&
                  negb (bool_decide (key ∈ publishedEventSlots))
              | None => true
              end in
            let filteredNewEvents := List.filter free newEvents in
            let '(st7, added) := pushNew filteredNewEvents st6 in
            let st8 := savePendingEvents st7 in
            (fold_left (fun s l => scheduleJob now l s) added st8, true)
        end.
End Update.

(** ** The specification's reading of a slot-key token

    "Parseable as a signed integer": an optional sign and one or more
    decimal digits.  These definitions follow the specification's words;
    they are compared with what [parsePendingEventIdStartMs] accepts. *)

Fixpoint all_digits (s : string) : bool :=
  match s with
  | String c r => is_digit c && all_digits r
  | EmptyString => true
  end.

Definition digit_string (s : string) : bool :=
  match s with EmptyString => false | _ => all_digits s end.

Definition signed_integer_token (tok : string) : option Z :=
  match tok with
  | String c r =>
      if Ascii.eqb c "-" then
        if digit_string r then Some (- digits_value 0 r) else None
      else if Ascii.eqb c "+" then
        if digit_string r then Some (digits_value 0 r) else None
      else if all_digits tok then Some (digits_value 0 tok) else None
  | EmptyString => None
  end.

Fixpoint no_underscore (s : string) : bool :=
  match s with
  | String c r => negb (Ascii.eqb c "_") && no_underscore r
  | EmptyString => true
  end.

(** Characters that are neither white space nor part of a multi-byte
    sequence. *)
Definition printable (c : ascii) : bool :=
  ((33 <=? N_of_ascii c) && (N_of_ascii c <=? 126))%N.

Fixpoint all_printable (s : string) : bool :=
  match s with
  | String c r => printable c && all_printable r
  | EmptyString => true
  end.

(** ** The specification's monthly publish time

    Follows the specification's words: the calendar instant (year and
    month of the event start, [min(monthlyDay, last day of that month)],
    [monthlyHour], [monthlyMinute]) and, when that instant is not
    strictly before the start, the same with the month before. *)
Section MonthlySpec.
Import JsDate.
Variable tza : Z.

(** The number of days of month [m] of year [y] ([m] may be -1 or 12). *)
Definition lastDayOf (y m : Z) : Z :=
  getDate tza (Date_of_fields tza y (m + 1) 0 0 0 0 0).

Definition monthlyInstant (a : Automation) (y m : Z) : Z :=
  Date_of_fields tza y m (Z.min (monthlyDay a) (lastDayOf y m))
                 (monthlyHour a) (monthlyMinute a) 0 0.

Definition monthlyPublishTime_spec (a : Automation) (eventStartTime : Z) : Z :=
  let y := getFullYear tza eventStartTime in
  let m := getMonth tza eventStartTime in
  if monthlyInstant a y m <? eventStartTime then monthlyInstant a y m
  else monthlyInstant a y (m - 1).
End MonthlySpec.

(** ** What "a timer is set" means for [scheduleJob]

    The state [st'] differs from [st] by one new timer with this
    callback and delay, filed in [scheduledJobs] under the record's id;
    the records and the trace are untouched. *)
Definition timerSet (now : Z) (l : loc) (cb : Callback) (delay : Z)
  (st st' : Engine) : Prop :=
  timers st' = <[nextTimer st := mkTimer now (Some delay) cb]> (timers st) /\
  scheduledJobs st' = <[id (deref st l) := nextTimer st]> (scheduledJobs st) /\
  heap st' = heap st /\
  trace st' = trace st.

(** ** Status changes made by the queue processor *)

(** A status after the queue processor has run: what it was, or one of
    the two values the processor writes. *)
Definition statusStep (before after : Status) : Prop :=
  after = before \/ after = Scheduled \/ after = Cancelled.

(** A scheduled record whose publish time respects the 30-minute cap. *)
Definition withinCap (e : PendingEvent) : Prop :=
  status e = Scheduled /\
  exists p s, scheduledPublishTime e = Some (Iso p) /\
              eventStartsAt e = Some (Iso s) /\
              p <= s - MIN_BUFFER_MS.

(** A record that starts strictly after [anchor]. *)
Definition startsAfter (anchor : Z) (e : PendingEvent) : Prop :=
  exists s, eventStartsAt e = Some (Iso s) /\ anchor < s.



(** The largest magnitude of a JS time value. *)
Definition MAX_TIME_VALUE : Z := 8640000000000000.

(** The records of an expansion: one for each slot of [slots], a pair
    of a start and a publish time. *)
Definition recordsOf (g k : string) (slots : list (Z * Z)) : list PendingEvent :=
  (fun slot => newPendingEvent g k slot.1 slot.2) <$> slots.

(** The items of priority [p]. *)
Definition hasPriority (p : Z) (item : QueueItem) : bool :=
  bool_decide (q_priority item = Some p).

(** The order of the queue: the priority of [a] is at most that of [b]. *)
Definition priorityOrder (a b : QueueItem) : Prop :=
  exists x y, q_priority a = Some x /\ q_priority b = Some y /\ x <= y.

(** [dequeueEventPost] on the array alone. *)
Fixpoint removeQueued (pendingEventId : string) (q : list QueueItem) : list QueueItem :=
  match q with
  | [] => []
  | x :: r => if bool_decide (q_pendingEventId x = pendingEventId) then r
              else x :: removeQueued pendingEventId r
  end.

(** [cancelAllJobs()].  The timers of [scheduledJobs.values()] are
    cleared one by one; the order does not show in the result. *)
Definition cancelAllJobs (st : Engine) : Engine :=
  let st1 := map_fold (fun _ timeoutId s => clearTimeout timeoutId s) st
                      (scheduledJobs st) in
  let st2 := set_queue [] (set_scheduledJobs ∅ st1) in
  let st3 := match processTimeout st2 with
             | Some h => set_processTimeout None (clearTimeout h st2)
             | None => st2
             end in
  set_processing false st3.

Definition set_knownGroupIds (v : option (gset string)) (st : Engine) : Engine :=
  mkEngine (heap st) (pendingEvents st) (deletedEvents st) (automationState st)
    (profilesRef st) v (groups st) (queue st) (processing st) (processTimeout st)
    (scheduledJobs st) (timers st) (nextTimer st) (suspended st) (trace st).

(** [setKnownGroupIds(groupIds)]; [None] is an argument that is not an
    array.  The result carries [removedPending] and [removedDeleted]. *)
Definition setKnownGroupIds (groupIds : option (list string)) (st : Engine)
  : Engine * (nat * nat) :=
  match groupIds with
  | None => (set_knownGroupIds None st, (0%nat, 0%nat))
  | Some ids =>
      let st1 :=
        set_knownGroupIds (Some (list_to_set (List.filter truthy_string ids))) st in
      let known (s : Engine) (l : loc) := isKnownGroupId s (groupId (deref s l)) in
      let removedPending :=
        List.filter (fun l => negb (known st1 l)) (pendingEvents st1) in
      let st2 :=
        fold_left (fun s pendingEventId => cancelJob pendingEventId s)
                  (id <$> snapshot st1 removedPending) st1 in
      let pendingBefore := length (pendingEvents st2) in
      let deletedBefore := length (deletedEvents st2) in
      let st3 :=
        match removedPending with
        | [] => st2
        | _ => set_pendingEvents (List.filter (known st2) (pendingEvents st2)) st2
        end in
      let st4 :=
        match deletedEvents st3 with
        | [] => st3
        | _ => set_deletedEvents (List.filter (known st3) (deletedEvents st3)) st3
        end in
      let removedPendingCount := (pendingBefore - length (pendingEvents st4))%nat in
      let removedDeletedCount := (deletedBefore - length (deletedEvents st4))%nat in
      (if (0 <? removedPendingCount)%nat || (0 <? removedDeletedCount)%nat
       then savePendingEvents st4 else st4,
       (removedPendingCount, removedDeletedCount))
  end.

(** ** Listings and counters *)

(** The test [groupId ? e.groupId === groupId && ... : ...] of the three
    listing functions; [None] is the default [null]. *)
Definition inGroup (g : option string) (e : PendingEvent) : bool :=
  match g with
  | Some g => if truthy_string g then bool_decide (groupId e = g) else true
  | None => true
  end.

(** [getPendingEvents(groupId)]: the record objects, in order. *)
Definition getPendingEvents (g : option string) (st : Engine) : list loc :=
  List.filter (fun l => inGroup g (deref st l) &&
                        negb (status_eqb (status (deref st l)) Cancelled) &&
                        negb (status_eqb (status (deref st l)) Published))
              (pendingEvents st).

Definition getMissedCount (g : option string) (st : Engine) : nat :=
  length (List.filter (fun l => inGroup g (deref st l) &&
                                status_eqb (status (deref st l)) Missed)
                      (pendingEvents st)).

Definition getQueuedCount (g : option string) (st : Engine) : nat :=
  length (List.filter (fun l => inGroup g (deref st l) &&
                                status_eqb (status (deref st l)) Queued)
                      (pendingEvents st)).

(** What [getAutomationStatus] returns: the fields of the profile state
    and three counters. *)
Record AutomationStatus : Type := mkAutomationStatus {
  as_state : ProfileState;
  as_pendingCount : nat;
  as_missedCount : nat;
  as_queuedCount : nat
}.

Definition getAutomationStatus (g k : string) (st : Engine) : AutomationStatus :=
  let state := match automationState st !! getProfileStateKey g k with
               | Some s => s
               | None => mkProfileState 0 None None None
               end in
  let profilePendingEvents :=
    List.filter (fun l => sameProfile g k (deref st l)) (pendingEvents st) in
  let count (s : Status) :=
    length (List.filter (fun l => status_eqb (status (deref st l)) s)
                        profilePendingEvents) in
  mkAutomationStatus state (count Scheduled) (count Missed) (count Queued).

(** [resetAutomationState(groupId, profileKey)] *)
Definition resetAutomationState (g k : string) (st : Engine) : Engine :=
  saveAutomationState
    (set_automationState
       (<[getProfileStateKey g k := mkProfileState 0 None None None]> (automationState st))
       st).

(** ** What can be restored *)

(** The tests a deleted record passes in [getRestorableCount], after
    the test of its profile; [restoreDeletedEvents] makes the same ones
    before it computes a publish time. *)
Definition restorable (now : Z) (modifiedEventSlots publishedEventSlots : gset string)
  (anchorMs : option Dec) (e : PendingEvent) : bool :=
  let eventSlotKeys := getPendingSlotKeys e in
  if anyKeyIn eventSlotKeys modifiedEventSlots then false
  else if anyKeyIn eventSlotKeys publishedEventSlots then false
  else
    match getRestoreStartMs e with
    | None => false
    | Some restoreStartMs =>
        if dec_leb restoreStartMs (dec_of_Z now) then false
        else match anchorMs with
             | Some a => negb (dec_leb restoreStartMs a)
             | None => true
             end
    end.

(** [getRestorableCount(groupId, profileKey)]: the count, and the state,
    in which [getOrCreateProfileState] may have made an entry. *)
Definition getRestorableCount (now : Z) (g k : string) (st : Engine) : Engine * nat :=
  let profileStateKey := getProfileStateKey g k in
  let '(st1, profileState) := getOrCreateProfileState profileStateKey st in
  let existingEvents :=
    List.filter (fun l => sameProfile g k (deref st1 l)) (pendingEvents st1) in
  let modifiedEventSlots :=
    slotKeysOf st1 (fun e => has_value (manualOverrides e)) existingEvents in
  let publishedEventSlots :=
    slotKeysOf st1 (fun e => status_eqb (status e) Published) existingEvents in
  let anchorMs :=
    match getActivationStartMs (Some profileState) with
    | Some a => Some (dec_of_Z a)
    | None =>
        let deletedForProfile :=
          List.filter (fun l => sameProfile g k (deref st1 l)) (deletedEvents st1) in
        match getEarliestEventStartMs (snapshot st1 existingEvents) with
        | Some m => Some m
        | None => getEarliestEventStartMs (snapshot st1 deletedForProfile)
        end
    end in
  (st1,
   length (List.filter
             (fun l => sameProfile g k (deref st1 l) &&
                       restorable now modifiedEventSlots publishedEventSlots anchorMs
                                  (deref st1 l))
             (deletedEvents st1))).

(** The fields of a record that decide whether it can be restored. *)
Definition restoreView (e : PendingEvent) : PendingEvent :=
  mkPendingEvent (id e) (slotKey e) (groupId e) (profileKey e) None (eventStartsAt e)
                 (manualOverrides e) Scheduled None None None None.

(** ** What a refresh keeps *)

(** The test of the [filter] with which [updatePendingEventsForProfile]
    rebuilds [pendingEvents]: the records of other profiles, the records
    with manual overrides and the published records stay. *)
Definition refreshKeeps (g k : string) (e : PendingEvent) : bool :=
  negb (sameProfile g k e && negb (has_value (manualOverrides e))
        && negb (status_eqb (status e) Published)).

(** Every id of [ids] has a job whose timer is pending. *)
Definition jobsPending (st : Engine) (ids : list string) : Prop :=
  forall i, i ∈ ids ->
    exists h, scheduledJobs st !! i = Some h /\ is_Some (timers st !! h) /\
              (h < nextTimer st)%nat.

(** ** Manual overrides *)

(** [updatePendingEventOverrides(pendingEventId, overrides)];
    [overrides = None] is a [null] or missing argument.  The two start
    strings are compared as strings: a date string is held as the instant
    it denotes, in the form [toISOString] writes.  [ResultThrew]: the new
    publish time is an invalid date and [toISOString] throws, after the
    record has been written to and before anything is saved. *)
Definition updatePendingEventOverrides (now : Z) (pendingEventId : string)
  (overrides : option Overrides) (st : Engine) : Engine * ActionResult :=
  match findPending st pendingEventId with
  | None => (st, ResultError "Pending event not found")
  | Some l =>
      let event := deref st l in
      let previousEventStartsAt := eventStartsAt event in
      let st1 :=
        if truthy_ostring (slotKey event) then st
        else
          let derivedSlotKey := derivePendingSlotKey event in
          if truthy_ostring derivedSlotKey then update l (set_slotKey derivedSlotKey) st
          else st in
      let st2 := update l (set_manualOverrides overrides) st1 in
      let newStartsAt := overrides ≫= ov_eventStartsAt in
      let st3 :=
        if truthy_date newStartsAt then update l (set_eventStartsAt newStartsAt) st2
        else st2 in
      if truthy_date newStartsAt &&
         negb (bool_decide (newStartsAt = previousEventStartsAt))
      then
        match lookupProfile st3 (groupId event) (profileKey event) ≫= automation with
        | Some a =>
            if enabled a then
              let eventStartTime := Date_parse newStartsAt in
              let newPublishTime :=
                match timingMode a with
                | Before =>
                    match eventStartTime with
                    | Some s => Some (s - offsetMs a)
                    | None => None
                    end
                | _ =>
                    match eventStartTime, Date_parse previousEventStartsAt,
                          Date_parse (scheduledPublishTime event) with
                    | Some s, Some oldEventStart, Some oldPublishTime =>
                        let timeDiff := oldPublishTime - oldEventStart in
                        Some (s + timeDiff)
                    | _, _, _ => None
                    end
                end in
              match newPublishTime with
              | None => (st3, ResultThrew)
              | Some t =>
                  let st4 :=
                    update l (set_scheduledPublishTime (Some (toISOString t))) st3 in
                  let st5 :=
                    if t <=? now then
                      cancelJob pendingEventId
                        (update l (fun e => set_missedAt (Some (toISOString now))
                                              (set_status Missed e)) st4)
                    else if status_eqb (status event) Missed then
                      scheduleJob now l
                        (update l (fun e => set_missedAt None (set_status Scheduled e)) st4)
                    else scheduleJob now l (cancelJob pendingEventId st4) in
                  (savePendingEvents st5, ResultOk)
              end
            else (savePendingEvents st3, ResultOk)
        | None => (savePendingEvents st3, ResultOk)
        end
      else (savePendingEvents st3, ResultOk)
  end.

(** The fields of a record that an edit decides and a publish reads: the
    record without its slot key, its publish time, its status and
    [missedAt]. *)
Definition editView (e : PendingEvent) : PendingEvent :=
  mkPendingEvent (id e) None (groupId e) (profileKey e) None (eventStartsAt e)
                 (manualOverrides e) Scheduled None (queuedAt e) (deletedAt e) (eventId e).

(** ** Loading the store *)

Definition set_id (v : string) (e : PendingEvent) : PendingEvent :=
  mkPendingEvent v (slotKey e) (groupId e) (profileKey e) (scheduledPublishTime e)
    (eventStartsAt e) (manualOverrides e) (status e) (missedAt e) (queuedAt e)
    (deletedAt e) (eventId e).

(** [isKnownProfile(groupId, profileKey)] *)
Definition isKnownProfile (st : Engine) (g k : string) : bool :=
  if negb (isKnownGroupId st g) then false
  else match profilesRef st with
       | None => true
       | Some _ => has_value (lookupProfile st g k)
       end.

(** [getPendingEventPriority(event)] *)
Definition getPendingEventPriority (event : PendingEvent) : Z :=
  if status_eqb (status event) Published then 100
  else
    (if has_value (manualOverrides event) then 50 else 0) +
    match status event with
    | Queued => 4
    | Scheduled => 3
    | Missed => 2
    | _ => 1
    end.

(** [normalizeIdAndSlotKey(event)]: the record, and whether [changed]
    was set. *)
Definition normalizeIdAndSlotKey (event : PendingEvent) : PendingEvent * bool :=
  let derivedSlotKey := derivePendingSlotKey event in
  let c1 := truthy_ostring derivedSlotKey &&
            negb (bool_decide (slotKey event = derivedSlotKey)) in
  let e1 := if c1 then set_slotKey derivedSlotKey event else event in
  let c2 := (negb (truthy_string (id e1)) ||
             negb (isDeterministicPendingId (Some (id e1)))) &&
            truthy_ostring derivedSlotKey &&
            negb (bool_decide (Some (id e1) = derivedSlotKey)) in
  let e2 := if c2 then set_id (default (id e1) derivedSlotKey) e1 else e1 in
  let c3 := negb (truthy_string (id e2)) && truthy_ostring derivedSlotKey in
  let e3 := if c3 then set_id (default (id e2) derivedSlotKey) e2 else e2 in
  (e3, c1 || c2 || c3).

(** The start of [normalizePendingEvent] and of [normalizeDeletedEvent]:
    the copy of the record with its start taken from the overrides when
    it has none, or [None] when the record is dropped; and whether the
    start was filled in. *)
Definition normalizeStart (st : Engine) (raw : PendingEvent)
  : option (PendingEvent * bool) :=
  if negb (truthy_string (groupId raw)) || negb (truthy_string (profileKey raw))
  then None
  else if negb (isKnownProfile st (groupId raw) (profileKey raw)) then None
  else
    let fill := negb (truthy_date (eventStartsAt raw)) &&
                truthy_date (manualOverrides raw ≫= ov_eventStartsAt) in
    Some (if fill then set_eventStartsAt (manualOverrides raw ≫= ov_eventStartsAt) raw
          else raw, fill).

(** [normalizeDeletedEvent(raw)]: the record, or [None] for [null]; and
    whether [changed] was set. *)
Definition normalizeDeletedEvent (now : Z) (st : Engine) (raw : PendingEvent)
  : option PendingEvent * bool :=
  match normalizeStart st raw with
  | None => (None, true)
  | Some (event, c1) =>
      match parseEventStartMs (eventStartsAt event) with
      | None => (None, true)
      | Some eventStartMs =>
          if eventStartMs <=? now then (None, true)
          else
            let c2 := negb (status_eqb (status event) Deleted) in
            let '(e3, c3) := normalizeIdAndSlotKey (set_status Deleted event) in
            (Some e3, c1 || c2 || c3)
      end
  end.

(** What [normalizePendingEvent(raw)] does with a record. *)
Inductive Normalized : Type :=
| NormKept (event : PendingEvent) (changed : bool)
| NormDeleted (event : option PendingEvent)  (* to [normalizedDeleted], if not [null] *)
| NormDropped
| NormThrew.                                 (* [toISOString] of an invalid date *)

Section Normalize.
Variable tza : Z.

(** [normalizePendingEvent(raw)], for an entry that is a record: an
    entry that is not an object is dropped before anything else, and
    overrides that are not an object are set to [null]; neither occurs
    among records.  A status that is missing or not one of the six
    values is [OtherStatus]. *)
Definition normalizePendingEvent (now : Z) (st : Engine) (raw : PendingEvent)
  : Normalized :=
  match normalizeStart st raw with
  | None => NormDropped
  | Some (event, c1) =>
      match parseEventStartMs (eventStartsAt event) with
      | None => NormDropped
      | Some _ =>
          let c2 := match status event with
                    | OtherStatus _ => true
                    | _ => false
                    end in
          let e2 := if c2 then set_status Scheduled event else event in
          match status e2 with
          | Deleted => NormDeleted (normalizeDeletedEvent now st e2).1
          | Cancelled => NormDropped
          | _ =>
              let refill :=
                if negb (truthy_date (scheduledPublishTime e2)) &&
                   negb (status_eqb (status e2) Published)
                then calculatePublishTime tza (eventStartsAt e2)
                       (lookupProfile st (groupId e2) (profileKey e2))
                else None in
              match refill with
              | Some None => NormThrew
              | _ =>
                  let e3 := match refill with
                            | Some (Some t) =>
                                set_scheduledPublishTime (Some (toISOString t)) e2
                            | _ => e2
                            end in
                  let c3 := has_value refill in
                  if negb (status_eqb (status e3) Published) &&
                     negb (has_value (parseEventStartMs (scheduledPublishTime e3)))
                  then NormDropped
                  else
                    let '(e4, c4) := normalizeIdAndSlotKey e3 in
                    NormKept e4 (c1 || c2 || c3 || c4)
              end
          end
      end
  end.

(** [pendingEvents.forEach(raw => ...)]: [normalizedPending], what went
    to [normalizedDeleted], and [changed]; [None] if a record threw. *)
Fixpoint normalizePending (now : Z) (st : Engine) (raws : list PendingEvent)
  : option (list PendingEvent * list PendingEvent * bool) :=
  match raws with
  | [] => Some ([], [], false)
  | raw :: rest =>
      match normalizePendingEvent now st raw with
      | NormThrew => None
      | r =>
          match normalizePending now st rest with
          | None => None
          | Some (pending, deleted, changed) =>
              Some match r with
                   | NormKept e c => (e :: pending, deleted, c || changed)
                   | NormDeleted (Some e) => (pending, e :: deleted, true)
                   | _ => (pending, deleted, true)
                   end
          end
      end
  end.

(** [deletedEvents.forEach(raw => ...)] *)
Fixpoint normalizeDeleted (now : Z) (st : Engine) (raws : list PendingEvent)
  : list PendingEvent * bool :=
  match raws with
  | [] => ([], false)
  | raw :: rest =>
      let '(deleted, changed) := normalizeDeleted now st rest in
      match normalizeDeletedEvent now st raw with
      | (Some e, c) => (e :: deleted, c || changed)
      | (None, c) => (deleted, c || changed)
      end
  end.

(** The first key of [slotKeys] that [occupiedSlots] holds, with the
    record (its index in [normalizedPending]) that holds it. *)
Fixpoint firstOccupied (occupiedSlots : gmap string nat) (slotKeys : list string)
  : option nat :=
  match slotKeys with
  | [] => None
  | key :: rest =>
      match occupiedSlots !! key with
      | Some occupied => Some occupied
      | None => firstOccupied occupiedSlots rest
      end
  end.

(** [slotKeys.forEach(key => occupiedSlots.set(key, event))] *)
Definition occupy (slotKeys : list string) (i : nat) (occupiedSlots : gmap string nat)
  : gmap string nat :=
  fold_left (fun m key => <[key := i]> m) slotKeys occupiedSlots.

(** [removeOccupiedByEvent(target)] *)
Definition removeOccupiedByEvent (target : nat) (occupiedSlots : gmap string nat)
  : gmap string nat :=
  filter (fun kv => kv.2 <> target) occupiedSlots.

(** The loop that fills [keptEvents], a [Set] in insertion order, here
    the list of the indices in [normalizedPending] of its members. *)
Fixpoint dedupePending (all : list PendingEvent) (todo : list (nat * PendingEvent))
  (occupiedSlots : gmap string nat) (keptEvents : list nat) (changed : bool)
  : list nat * bool :=
  match todo with
  | [] => (keptEvents, changed)
  | (i, event) :: rest =>
      let slotKeys := getPendingSlotKeys event in
      match slotKeys with
      | [] => dedupePending all rest occupiedSlots keptEvents true
      | _ =>
          match firstOccupied occupiedSlots slotKeys with
          | None =>
              dedupePending all rest (occupy slotKeys i occupiedSlots)
                            (keptEvents ++ [i]) changed
          | Some existing =>
              if getPendingEventPriority (all !!! existing)
                 <? getPendingEventPriority event
              then
                dedupePending all rest
                  (occupy slotKeys i (removeOccupiedByEvent existing occupiedSlots))
                  (List.filter (fun j => negb (Nat.eqb j existing)) keptEvents ++ [i])
                  true
              else dedupePending all rest occupiedSlots keptEvents true
          end
      end
  end.

(** The loop that fills [keptDeleted]. *)
Fixpoint dedupeDeleted (pendingSlotKeys : gset string) (todo : list PendingEvent)
  (deletedOccupied : gset string) (keptDeleted : list PendingEvent) (changed : bool)
  : list PendingEvent * bool :=
  match todo with
  | [] => (keptDeleted, changed)
  | event :: rest =>
      let slotKeys := getPendingSlotKeys event in
      match slotKeys with
      | [] => dedupeDeleted pendingSlotKeys rest deletedOccupied keptDeleted true
      | _ =>
          if anyKeyIn slotKeys pendingSlotKeys
          then dedupeDeleted pendingSlotKeys rest deletedOccupied keptDeleted true
          else if anyKeyIn slotKeys deletedOccupied
          then dedupeDeleted pendingSlotKeys rest deletedOccupied keptDeleted true
          else dedupeDeleted pendingSlotKeys rest
                 (deletedOccupied ∪ list_to_set slotKeys) (keptDeleted ++ [event]) changed
      end
  end.

(** New objects for the records of [events], with their addresses. *)
Fixpoint allocAll (events : list PendingEvent) (st : Engine) : Engine * list loc :=
  match events with
  | [] => (st, [])
  | e :: rest =>
      let '(st1, l) := alloc e st in
      let '(st2, ls) := allocAll rest st1 in
      (st2, l :: ls)
  end.

(** [normalizePendingStore()]: the state with the two arrays replaced and
    the value returned; [None] if it threw.  The records it keeps are
    copies, new objects. *)
Definition normalizePendingStore (now : Z) (st : Engine) : option (Engine * bool) :=
  match normalizePending now st (snapshot st (pendingEvents st)) with
  | None => None
  | Some (normalizedPending, deletedOfPending, changed1) =>
      let '(deletedOfDeleted, changed2) :=
        normalizeDeleted now st (snapshot st (deletedEvents st)) in
      let normalizedDeleted := deletedOfPending ++ deletedOfDeleted in
      let '(keptEvents, changed3) :=
        dedupePending normalizedPending
          (zip (seq 0 (length normalizedPending)) normalizedPending) ∅ []
          (changed1 || changed2) in
      let dedupedPending := (fun i => normalizedPending !!! i) <$> keptEvents in
      let pendingSlotKeys : gset string :=
        list_to_set (concat (getPendingSlotKeys <$> dedupedPending)) in
      let '(keptDeleted, changed) :=
        dedupeDeleted pendingSlotKeys normalizedDeleted ∅ [] changed3 in
      let '(st1, pending) := allocAll dedupedPending st in
      let '(st2, deleted) := allocAll keptDeleted st1 in
      Some (set_deletedEvents deleted (set_pendingEvents pending st2), changed)
  end.
End Normalize.


(** What the store file holds when the engine starts: no file, a file
    that cannot be read or parsed, or the two lists of records. *)
Inductive StoreFile : Type :=
| StoreMissing
| StoreUnreadable
| StoreData (events deletedEvents : list PendingEvent).

(** The same for the file of the automation state. *)
Inductive StateFile : Type :=
| StateMissing
| StateUnreadable
| StateData (profiles : gmap string ProfileState).

Section Load.
Variable tza : Z.

(** [loadPendingEvents()]: the records of the file become new objects;
    the deleted records whose start has passed are dropped; the store is
    normalized, and saved if that changed it.  Whatever throws empties
    both lists. *)
Definition loadPendingEvents (now : Z) (file : StoreFile) (st : Engine) : Engine :=
  match file with
  | StoreData events deleted =>
      let '(st1, pending) := allocAll events st in
      let '(st2, deletedAll) := allocAll deleted st1 in
      let st3 := set_deletedEvents deletedAll (set_pendingEvents pending st2) in
      let st4 :=
        set_deletedEvents
          (List.filter (fun l => match Date_parse (eventStartsAt (deref st3 l)) with
                                 | Some startMs => now <? startMs
                                 | None => false
                                 end) (deletedEvents st3)) st3 in
      match normalizePendingStore tza now st4 with
      | Some (st5, didNormalize) => if didNormalize then savePendingEvents st5 else st5
      | None => set_deletedEvents [] (set_pendingEvents [] st4)
      end
  | _ => set_deletedEvents [] (set_pendingEvents [] st)
  end.

(** [loadAutomationState()] *)
Definition loadAutomationState (file : StateFile) (st : Engine) : Engine :=
  set_automationState match file with
                      | StateData profiles => profiles
                      | _ => ∅
                      end st.

(** The first loop of [initializeAutomation]: the scheduled records
    whose publish time has passed become [missed] and are notified; the
    number of them. *)
Fixpoint markMissed (now : Z) (ls : list loc) (st : Engine) : Engine * nat :=
  match ls with
  | [] => (st, 0%nat)
  | l :: rest =>
      let event := deref st l in
      let due :=
        status_eqb (status event) Scheduled &&
        match Date_parse (scheduledPublishTime event) with
        | Some publishTime => publishTime <=? now
        | None => false
        end in
      if due then
        let st1 := update l (fun e => set_missedAt (Some (toISOString now))
                                        (set_status Missed e)) st in
        let st2 := emit (OnMissedEvent (deref st1 l)) st1 in
        let '(st3, missedCount) := markMissed now rest st2 in
        (st3, S missedCount)
      else markMissed now rest st
  end.

(** [initializeAutomation(config)], with the two files as they are found:
    the state it leaves, which is what it returns.  The flag
    [initialized], which only [isInitialized] reads, is not part of the
    state. *)
Definition initializeAutomation (now : Z)
  (profiles : option (gmap string (gmap string Profile)))
  (store : StoreFile) (state : StateFile) (st : Engine) : Engine :=
  let st1 := set_profilesRef profiles st in
  let st2 := loadPendingEvents now store st1 in
  let st3 := loadAutomationState state st2 in
  let '(st4, missedCount) := markMissed now (pendingEvents st3) st3 in
  let st5 := if (0 <? missedCount)%nat then savePendingEvents st4 else st4 in
  fold_left (fun s l => if status_eqb (status (deref s l)) Scheduled
                        then scheduleJob now l s else s)
            (pendingEvents st5) st5.
End Load.

(** A record fit for the pending list: it names a known profile, its
    start is a date, its status is one of the four a pending record can
    have, it has a publish time that is a date unless it is published,
    and its slot key is its id. *)
Definition validPending (st : Engine) (e : PendingEvent) : Prop :=
  truthy_string (groupId e) = true /\ truthy_string (profileKey e) = true /\
  isKnownProfile st (groupId e) (profileKey e) = true /\
  (exists s, parseEventStartMs (eventStartsAt e) = Some s) /\
  status e ∈ [Scheduled; Missed; Queued; Published] /\
  (status e <> Published -> exists p, parseEventStartMs (scheduledPublishTime e) = Some p) /\
  slotKey e = Some (id e) /\ truthy_string (id e) = true.

(** A record fit for the deleted pool: as above, with status [deleted]
    and a start that is still ahead. *)
Definition validDeleted (now : Z) (st : Engine) (e : PendingEvent) : Prop :=
  truthy_string (groupId e) = true /\ truthy_string (profileKey e) = true /\
  isKnownProfile st (groupId e) (profileKey e) = true /\
  (exists s, parseEventStartMs (eventStartsAt e) = Some s /\ now < s) /\
  status e = Deleted /\
  slotKey e = Some (id e) /\ truthy_string (id e) = true.

(** No two records of the list share a slot key. *)
Definition disjointSlots (events : list PendingEvent) : Prop :=
  forall i j e1 e2 key,
    events !! i = Some e1 -> events !! j = Some e2 -> i <> j ->
    key ∈ getPendingSlotKeys e1 -> key ∉ getPendingSlotKeys e2.

(** ** Concrete inputs used by the examples below *)

(** A monthly automation that publishes on day 31 at 12:00. *)
Definition monthlyOn31 : Automation :=
  mkAutomation true Monthly 0 0 0 31 12 0 Indefinite 0.

(** 2026-05-31T09:00:00Z, on a host whose zone is UTC. *)
Definition may31_0900 : Z := JsDate.Date_of_fields 0 2026 4 31 9 0 0 0.

(** The engine before anything is loaded. *)
Definition emptyEngine : Engine :=
  mkEngine [] [] [] ∅ None None ∅ [] false None ∅ ∅ 0 None [].

(** A profile of group [grp] whose state holds an anchor at instant 2000. *)
Definition anchoredAt2000 : Engine :=
  set_automationState
    {[ getProfileStateKey "grp" "weekly" :=
         mkProfileState 3 (Some (Iso 2000)) None None ]} emptyEngine.

(** A scheduled record of profile [weekly] of group [grp]: the event
    starts at 2026-06-01T10:00:00Z and is to be published three days
    before. *)
Definition june1_1000 : Z := JsDate.Date_of_fields 0 2026 5 1 10 0 0 0.

Definition weeklyEvent : PendingEvent :=
  newPendingEvent "grp" "weekly" june1_1000 (june1_1000 - 3 * 24 * 60 * 60 * 1000).

(** The automation of [weekly]: three days before the start. *)
Definition beforeThreeDays : Automation :=
  mkAutomation true Before 3 0 0 1 18 0 Indefinite 10.

Definition weeklyProfile : Profile :=
  mkProfile "Weekly Session" (Some beforeThreeDays) 120 1.

(** The engine holding that one record, with the profile known. *)
Definition oneEventEngine : Engine :=
  mkEngine [weeklyEvent] [0%nat] [] ∅
    (Some {[ "grp" := {[ "weekly" := weeklyProfile ]} ]}) None ∅ [] false None ∅ ∅ 0 None [].

(** The same while [processQueue] is posting the record. *)
Definition postingEngine : Engine :=
  set_suspended (Some (AwaitingPublish 0%nat)) (set_processing true oneEventEngine).

(** The engine with, in addition, a soft-deleted record of another
    profile ([monthly]) of the same group. *)
Definition withDeletedMonthly : Engine :=
  set_deletedEvents [1%nat]
    (set_heap [weeklyEvent;
               set_status Deleted
                 (newPendingEvent "grp" "monthly" june1_1000 (june1_1000 - MIN_BUFFER_MS))]
              oneEventEngine).

(** The engine whose one record has been published as remote event
    [evt_1]. *)
Definition publishedEngine : Engine :=
  set_heap [set_eventId (Some "evt_1") (set_status Published weeklyEvent)] oneEventEngine.

(** The engine whose one record was missed. *)
Definition missedEngine : Engine :=
  set_heap [set_status Missed weeklyEvent] oneEventEngine.

(** Two published records of [weekly]: the first was published without
    its remote id being stored, the second as remote event [evt_gone]. *)
Definition twoPublishedEngine : Engine :=
  set_pendingEvents [0%nat; 1%nat]
    (set_heap [set_status Published weeklyEvent;
               set_eventId (Some "evt_gone")
                 (set_status Published
                    (newPendingEvent "grp" "weekly" (june1_1000 + 7 * ONE_DAY_MS)
                                     (june1_1000 + 4 * ONE_DAY_MS)))]
              oneEventEngine).




(** The engine in which the [weekly] record of June 1 has been cancelled
    while the record of the week before kept the profile alive: it waits
    in the deleted pool. *)
Definition deletedWeeklyEngine : Engine :=
  set_deletedEvents [1%nat]
    (set_heap [newPendingEvent "grp" "weekly" (june1_1000 - 7 * ONE_DAY_MS)
                 (june1_1000 - 10 * ONE_DAY_MS);
               set_deletedAt (Some (Iso 1000)) (set_status Deleted weeklyEvent)]
              oneEventEngine).

(** A store as a file can hold it: in the pending list the record of
    [weekly] left in status [processing] and a cancelled record of a week
    later, in the deleted pool a record of two weeks later. *)
Definition storedEngine : Engine :=
  set_deletedEvents [2%nat]
    (set_pendingEvents [0%nat; 1%nat]
       (set_heap [set_status (OtherStatus "processing") weeklyEvent;
                  set_status Cancelled
                    (newPendingEvent "grp" "weekly" (june1_1000 + 7 * ONE_DAY_MS)
                                     (june1_1000 + 4 * ONE_DAY_MS));
                  set_status Deleted
                    (newPendingEvent "grp" "weekly" (june1_1000 + 14 * ONE_DAY_MS)
                                     (june1_1000 + 11 * ONE_DAY_MS))]
                 oneEventEngine)).

(** A pending list in which the start of the third record has been moved
    onto the slot of the second: the records have the ids of the slots
    100, 200, 100, 100 and 200, and the third starts at 200. *)
Definition crowdedEngine : Engine :=
  let record (idMs startMs : Z) (s : Status) :=
    set_status s
      (set_eventStartsAt (Some (Iso startMs))
         (newPendingEvent "grp" "weekly" idMs 50)) in
  set_pendingEvents [0%nat; 1%nat; 2%nat; 3%nat; 4%nat]
    (set_heap [record 100 100 Missed; record 200 200 Scheduled;
               record 100 200 Scheduled; record 100 100 Queued;
               record 200 200 Scheduled]
              oneEventEngine).

(** The file of [storedEngine], with a third record whose publish time
    has passed. *)
Definition storedFile : StoreFile :=
  StoreData
    [set_status (OtherStatus "processing") weeklyEvent;
     newPendingEvent "grp" "weekly" (june1_1000 - 7 * ONE_DAY_MS)
                     (june1_1000 - 10 * ONE_DAY_MS)]
    [set_status Deleted
       (newPendingEvent "grp" "weekly" (june1_1000 + 14 * ONE_DAY_MS)
                        (june1_1000 + 11 * ONE_DAY_MS))].

(** A store as [savePendingEvents] writes it: the record of [weekly], a
    published record of a week later, and in the deleted pool a record
    of two weeks later. *)
Definition savedPending : list PendingEvent :=
  [weeklyEvent;
   set_eventId (Some "evt_2")
     (set_status Published
        (newPendingEvent "grp" "weekly" (june1_1000 + 7 * ONE_DAY_MS)
                         (june1_1000 + 4 * ONE_DAY_MS)))].

Definition savedDeleted : list PendingEvent :=
  [set_deletedAt (Some (Iso may31_0900))
     (set_status Deleted
        (newPendingEvent "grp" "weekly" (june1_1000 + 14 * ONE_DAY_MS)
                         (june1_1000 + 11 * ONE_DAY_MS)))].

(** * Properties *)

(** ** Slot keys: what [parsePendingEventIdStartMs] reads *)

Lemma split_no_underscore tok :
  no_underscore tok = true -> split_underscore tok = [tok].
Proof.
  induction tok as [|c r IH]; simpl; [done|].
  intros [Hc Hr]%andb_prop. apply negb_true_iff in Hc. rewrite Hc, (IH Hr). done.
Qed.

Lemma split_length_pos s : (0 < length (split_underscore s))%nat.
Proof.
  induction s as [|c r IH]; simpl; [lia|].
  destruct (Ascii.eqb c "_"); simpl; [lia|].
  destruct (split_underscore r); simpl in *; lia.
Qed.

Lemma last_cons_nonempty (x : string) (l : list string) :
  l <> [] -> last_part (x :: l) = last_part l.
Proof. destruct l; [done|]. reflexivity. Qed.

Lemma split_last pre tok :
  no_underscore tok = true ->
  last_part (split_underscore (pre +:+ String "_" tok)) = tok.
Proof.
  intros Htok. induction pre as [|c r IH]; simpl.
  - rewrite (split_no_underscore _ Htok). reflexivity.
  - assert (Hlen : (2 <= length (split_underscore (r +:+ String "_" tok)))%nat).
    { clear IH. induction r as [|c' r' IH']; simpl.
      - rewrite (split_no_underscore _ Htok). simpl. lia.
      - destruct (Ascii.eqb c' "_"); simpl; [lia|].
        destruct (split_underscore (r' +:+ String "_" tok)); simpl in *; lia. }
    destruct (Ascii.eqb c "_").
    + rewrite last_cons_nonempty; [exact IH|].
      destruct (split_underscore (r +:+ String "_" tok)); simpl in *; [lia|done].
    + destruct (split_underscore (r +:+ String "_" tok)) as [|p [|p' ps]];
        simpl in *; try lia. exact IH.
Qed.

Lemma is_digit_not (c : ascii) (d : ascii) :
  is_digit c = true -> is_digit d = false -> Ascii.eqb c d = false.
Proof.
  intros Hc Hd. destruct (Ascii.eqb c d) eqn:E; [|done].
  apply Ascii.eqb_eq in E. subst. congruence.
Qed.

Lemma printable_ws c r : printable c = true -> ws_prefix (String c r) = 0%nat.
Proof.
  unfold printable, ws_prefix. intros H.
  apply andb_prop in H as [H1 H2].
  apply N.leb_le in H1, H2.
  assert (E1 : ((9 <=? N_of_ascii c) && (N_of_ascii c <=? 13) || (N_of_ascii c =? 32))%N = false).
  { apply orb_false_intro; [apply andb_false_intro2; apply N.leb_gt; lia | apply N.eqb_neq; lia]. }
  rewrite E1.
  destruct r as [|c2 r2]; [done|].
  assert (E2 : (N_of_ascii c =? 194)%N = false) by (apply N.eqb_neq; lia).
  rewrite E2. simpl.
  destruct r2 as [|c3 r3]; [done|].
  assert (E3 : (N_of_ascii c =? 225)%N = false) by (apply N.eqb_neq; lia).
  assert (E4 : (N_of_ascii c =? 226)%N = false) by (apply N.eqb_neq; lia).
  assert (E5 : (N_of_ascii c =? 227)%N = false) by (apply N.eqb_neq; lia).
  assert (E6 : (N_of_ascii c =? 239)%N = false) by (apply N.eqb_neq; lia).
  rewrite E3, E4, E5, E6. reflexivity.
Qed.

Lemma trim_start_printable n s : all_printable s = true -> trim_start n s = s.
Proof.
  destruct n; [done|]. destruct s as [|c r]; [done|].
  simpl all_printable. intros [Hc _]%andb_prop.
  cbn [trim_start]. rewrite (printable_ws _ _ Hc). reflexivity.
Qed.

Lemma trim_end_printable s : all_printable s = true -> trim_end s = s.
Proof.
  induction s as [|c r IH]; [done|].
  simpl all_printable. intros [Hc Hr]%andb_prop.
  cbn [trim_end]. rewrite (IH Hr).
  destruct r as [|c' r'].
  - rewrite (printable_ws _ _ Hc). reflexivity.
  - rewrite (printable_ws _ _ Hc). reflexivity.
Qed.

Lemma trim_printable s : all_printable s = true -> trim s = s.
Proof.
  intros H. unfold trim. rewrite (trim_start_printable _ _ H).
  apply trim_end_printable, H.
Qed.

Lemma is_digit_printable c : is_digit c = true -> printable c = true.
Proof.
  unfold is_digit, printable. intros [H1 H2]%andb_prop.
  apply N.leb_le in H1, H2. apply andb_true_intro; split; apply N.leb_le; lia.
Qed.

Lemma all_digits_printable s : all_digits s = true -> all_printable s = true.
Proof.
  induction s as [|c r IH]; [done|]. simpl.
  intros [Hc Hr]%andb_prop. rewrite (is_digit_printable _ Hc), (IH Hr). done.
Qed.

Lemma span_all_digits s : all_digits s = true -> span_digits s = (s, EmptyString).
Proof.
  induction s as [|c r IH]; [done|]. simpl.
  intros [Hc Hr]%andb_prop. rewrite Hc, (IH Hr). done.
Qed.

Lemma string_length_app_empty (s : string) : (s +:+ "")%string = s.
Proof.
  induction s as [|c r IH]; [done|].
  change (String c (r +:+ "") = String c r). by rewrite IH.
Qed.

(** [Number] of a run of digits, under a sign already read. *)
Lemma unsigned_decimal_digits negative ds :
  digit_string ds = true ->
  unsigned_decimal negative ds =
  classify negative (digits_value 0 ds) 0 (Z.of_nat (String.length ds)).
Proof.
  intros H. unfold unsigned_decimal.
  assert (Hd : all_digits ds = true) by (destruct ds; [done|exact H]).
  rewrite (span_all_digits _ Hd). cbn.
  destruct ds as [|c r]; [done|].
  rewrite string_length_app_empty.
  replace (String.length (String c r) + 0)%nat with (String.length (String c r)) by lia.
  reflexivity.
Qed.

Lemma binade_integer m : 0 < m -> binade m 1 = Z.log2 m.
Proof.
  intros Hpos. unfold binade. change (Z.log2 1) with 0. rewrite Z.sub_0_r.
  pose proof (Z.log2_nonneg m) as Hnn.
  rewrite (proj2 (Z.leb_le 0 _) Hnn), Z.mul_1_l.
  destruct (Z.log2_spec m Hpos) as [Hlo _].
  by rewrite (proj2 (Z.leb_le _ _) Hlo).
Qed.

(** An integer of at most 53 bits, and [2 ^ 53] itself, is a double. *)
Lemma round_to_double_integer negative m :
  0 < m <= 2 ^ 53 ->
  round_to_double negative m 0 = mkDec (if negative then - m else m) 0.
Proof.
  intros [Hpos Hle]. unfold round_to_double.
  change (0 <=? 0) with true. cbv iota. rewrite Z.pow_0_r, Z.mul_1_r.
  rewrite (binade_integer m Hpos).
  destruct (Z.log2_spec m Hpos) as [Hlo Hhi].
  assert (HL : 0 <= Z.log2 m < 54).
  { split; [apply Z.log2_nonneg|]. apply Z.log2_lt_pow2; [done|].
    eapply Z.le_lt_trans; [exact Hle|]. done. }
  remember (Z.log2 m) as L eqn:EL. clear EL.
  rewrite Z.max_l by lia.
  assert (Hr : (if 0 <=? L - 52 then m else m * 2 ^ (- (L - 52))) mod
               (if 0 <=? L - 52 then 1 * 2 ^ (L - 52) else 1) = 0).
  { destruct (Z.leb_spec 0 (L - 52)) as [Hk|Hk]; [|apply Z.mod_1_r].
    assert (L = 52 \/ L = 53) as [->| ->] by lia.
    - apply Z.mod_1_r.
    - assert (m = 2 ^ 53) as -> by (apply Z.le_antisymm; [exact Hle|exact Hlo]).
      done. }
  by rewrite Hr.
Qed.

Lemma classify_integer negative m len :
  0 <= m -> m <= 2 ^ 53 -> 0 <= len ->
  classify negative m 0 len = Finite (dec_of_Z (if negative then - m else m)).
Proof.
  intros Hm Hlt Hlen. unfold classify, dec_of_Z.
  destruct (m =? 0) eqn:E0.
  - apply Z.eqb_eq in E0. subst. destruct negative; reflexivity.
  - apply Z.eqb_neq in E0.
    replace (310 <? 0) with false by reflexivity.
    replace (0 <? - (len + 340)) with false by (symmetry; apply Z.ltb_ge; lia).
    replace (0 <=? 0) with true by reflexivity.
    rewrite Z.pow_0_r, Z.mul_1_r.
    assert (Hsmall : m < overflow_threshold)
      by (eapply Z.le_lt_trans; [exact Hlt|done]).
    replace (overflow_threshold <=? m) with false by (symmetry; apply Z.leb_gt; lia).
    by rewrite round_to_double_integer by lia.
Qed.

Lemma digits_value_nonneg s acc : 0 <= acc -> all_digits s = true -> 0 <= digits_value acc s.
Proof.
  revert acc. induction s as [|c r IH]; intros acc Hacc; simpl; [done|].
  intros [Hc Hr]%andb_prop. apply IH; [|done].
  unfold is_digit in Hc. apply andb_prop in Hc as [H1 H2]. apply N.leb_le in H1.
  unfold digit_value. lia.
Qed.

Lemma radix_prefix_sign c r : is_digit c = false -> radix_prefix (String c r) = None.
Proof.
  intros H. unfold radix_prefix. destruct r as [|c2 r2]; [done|].
  destruct (Ascii.eqb c "0") eqn:E; [|done].
  apply Ascii.eqb_eq in E. subst. discriminate.
Qed.

Lemma radix_prefix_digits s : all_digits s = true -> radix_prefix s = None.
Proof.
  destruct s as [|c [|c2 r2]]; [done..|]. simpl.
  intros [Hc [Hc2 _]%andb_prop]%andb_prop.
  rewrite !(is_digit_not c2) by done.
  destruct (Ascii.eqb c "0"); reflexivity.
Qed.

Lemma not_Infinity s : digit_string s = true -> String.eqb s "Infinity" = false.
Proof.
  intros H. apply String.eqb_neq. intros ->. discriminate.
Qed.

Lemma Number_signed_integer tok z :
  signed_integer_token tok = Some z -> Z.abs z <= 2 ^ 53 ->
  Number_of_string tok = Finite (dec_of_Z z).
Proof.
  destruct tok as [|c r]; [done|]. unfold signed_integer_token.
  destruct (Ascii.eqb c "-") eqn:Eminus; [|destruct (Ascii.eqb c "+") eqn:Eplus].
  - apply Ascii.eqb_eq in Eminus. subst c.
    destruct (digit_string r) eqn:Hr; [|done]. intros [= <-] Hz.
    assert (Hd : all_digits r = true) by (destruct r; [done|exact Hr]).
    unfold Number_of_string. rewrite trim_printable
      by (simpl; rewrite all_digits_printable; done).
    cbn [String.eqb]. rewrite radix_prefix_sign by done.
    unfold decimal_literal. cbn [Ascii.eqb Bool.eqb].
    rewrite (not_Infinity _ Hr), (unsigned_decimal_digits _ _ Hr).
    pose proof (digits_value_nonneg r 0 ltac:(lia) Hd).
    rewrite Z.abs_opp, Z.abs_eq in Hz by done.
    apply classify_integer; [done..|apply Nat2Z.is_nonneg].
  - apply Ascii.eqb_eq in Eplus. subst c.
    destruct (digit_string r) eqn:Hr; [|done]. intros [= <-] Hz.
    assert (Hd : all_digits r = true) by (destruct r; [done|exact Hr]).
    unfold Number_of_string. rewrite trim_printable
      by (simpl; rewrite all_digits_printable; done).
    cbn [String.eqb]. rewrite radix_prefix_sign by done.
    unfold decimal_literal. cbn [Ascii.eqb Bool.eqb].
    rewrite (not_Infinity _ Hr), (unsigned_decimal_digits _ _ Hr).
    pose proof (digits_value_nonneg r 0 ltac:(lia) Hd).
    rewrite Z.abs_eq in Hz by done.
    apply (classify_integer false); [done..|apply Nat2Z.is_nonneg].
  - destruct (all_digits (String c r)) eqn:Hd; [|done]. intros [= <-] Hz.
    assert (Hr : digit_string (String c r) = true) by exact Hd.
    unfold Number_of_string. rewrite trim_printable by (by apply all_digits_printable).
    cbn [String.eqb]. rewrite radix_prefix_digits by done.
    unfold decimal_literal. rewrite Eminus, Eplus.
    rewrite (not_Infinity _ Hr), (unsigned_decimal_digits _ _ Hr).
    pose proof (digits_value_nonneg _ 0 ltac:(lia) Hd).
    rewrite Z.abs_eq in Hz by done.
    apply (classify_integer false); [done..|apply Nat2Z.is_nonneg].
Qed.

Lemma signed_integer_no_underscore tok z :
  signed_integer_token tok = Some z -> no_underscore tok = true.
Proof.
  assert (Hdig : forall s, all_digits s = true -> no_underscore s = true).
  { induction s as [|c r IH]; [done|]. simpl. intros [Hc Hr]%andb_prop.
    rewrite (is_digit_not c "_") by done. by rewrite IH. }
  destruct tok as [|c r]; [done|]. unfold signed_integer_token.
  destruct (Ascii.eqb c "-") eqn:Eminus; [|destruct (Ascii.eqb c "+") eqn:Eplus].
  - apply Ascii.eqb_eq in Eminus. subst c. destruct (digit_string r) eqn:Hr; [|done].
    intros _. simpl. apply Hdig. destruct r; [done|exact Hr].
  - apply Ascii.eqb_eq in Eplus. subst c. destruct (digit_string r) eqn:Hr; [|done].
    intros _. simpl. apply Hdig. destruct r; [done|exact Hr].
  - destruct (all_digits (String c r)) eqn:Hd; [|done]. intros _. by apply Hdig.
Qed.

Lemma app_sep_nonempty pre tok :
  exists c r, (pre +:+ String "_" tok)%string = String c r.
Proof. destruct pre as [|c r]; [by exists "_"%char, tok | by exists c, (r +:+ String "_" tok)%string]. Qed.

Lemma parse_signed pre tok z :
  signed_integer_token tok = Some z -> Z.abs z <= 2 ^ 53 ->
  parsePendingEventIdStartMs (Some (pre +:+ "_" +:+ tok)%string) = Some (dec_of_Z z).
Proof.
  intros Htok Hz.
  change (pre +:+ "_" +:+ tok)%string with (pre +:+ String "_" tok)%string.
  destruct (app_sep_nonempty pre tok) as (c & r & E).
  assert (Hparse : forall s c r, s = String c r ->
            parsePendingEventIdStartMs (Some s) =
            match Number_of_string (last_part (split_underscore s)) with
            | Finite ms => Some ms
            | _ => None
            end) by (intros; subst; reflexivity).
  rewrite (Hparse _ c r E).
  rewrite split_last by (eapply signed_integer_no_underscore; eauto).
  by rewrite (Number_signed_integer _ _ Htok Hz).
Qed.

(** C9 (as amended).  The start milliseconds are read from the text
    after the final underscore alone, and a value comes back exactly
    when JS [Number] reads that token as a finite number.  Every signed
    decimal integer of magnitude at most [2 ^ 53] is such a token and is
    returned as that integer; tokens that are not integers (the empty
    token, fractions, exponent and radix forms) can be such tokens
    too. *)
Theorem parsePendingEventIdStartMs_final_token (pre tok : string) :
  no_underscore tok = true ->
  parsePendingEventIdStartMs (Some (pre +:+ "_" +:+ tok)%string) =
    match Number_of_string tok with
    | Finite ms => Some ms
    | _ => None
    end
  /\ forall z, signed_integer_token tok = Some z ->
               Z.abs z <= 2 ^ 53 ->
               parsePendingEventIdStartMs (Some (pre +:+ "_" +:+ tok)%string) =
                 Some (dec_of_Z z).
Proof.
  intros Htok. split.
  - change (pre +:+ "_" +:+ tok)%string with (pre +:+ String "_" tok)%string.
    destruct (app_sep_nonempty pre tok) as (c & r & E).
    assert (Hparse : forall s c r, s = String c r ->
              parsePendingEventIdStartMs (Some s) =
              match Number_of_string (last_part (split_underscore s)) with
              | Finite ms => Some ms
              | _ => None
              end) by (intros; subst; reflexivity).
    rewrite (Hparse _ c r E). by rewrite split_last.
  - intros z Hz Hbound. by apply parse_signed.
Qed.

Lemma parsePendingEventIdStartMs_final_token_witness :
  no_underscore "1780308000000" = true /\
  parsePendingEventIdStartMs (Some "pending_grp_weekly_1780308000000") =
    Some (dec_of_Z 1780308000000).
Proof.
  split; [reflexivity|].
  apply (parsePendingEventIdStartMs_final_token "pending_grp_weekly" "1780308000000");
    [reflexivity | reflexivity | vm_compute; discriminate].
Defined.

(** Beyond [2 ^ 53] an integer token gives the nearest double, which need
    not be that integer: [2 ^ 53 + 1] is read as [2 ^ 53], and a token
    with a fraction too small for a double is read as the integer. *)
Example parsePendingEventIdStartMs_rounds :
  parsePendingEventIdStartMs (Some "pending_grp_weekly_9007199254740993")
    = Some (dec_of_Z 9007199254740992) /\
  parsePendingEventIdStartMs (Some "pending_grp_weekly_1780308000000.00000000001")
    = Some (dec_of_Z 1780308000000).
Proof. split; by vm_compute. Qed.

(** C9, as stated, fails: the tokens [1.5] and the empty token are not
    signed integers, and the extraction yields a value for both. *)
Lemma parsePendingEventIdStartMs_accepts_non_integers :
  ~ (forall s : string,
       s <> EmptyString ->
       has_value (parsePendingEventIdStartMs (Some s)) =
       has_value (signed_integer_token (last_part (split_underscore s)))).
Proof.
  intros H. specialize (H "pending_grp_weekly_1.5"%string ltac:(done)).
  vm_compute in H. discriminate.
Qed.

(** ** Monthly publish time *)

(** C4 (the code departs from it).  For an event on 31 May at 09:00 and
    [monthlyDay = 31] at 12:00 the first instant, 31 May 12:00, is not
    before the start.  [setMonth] then keeps day 31, which April does not
    have, and lands on 1 May; the clamp is applied to May, so the result
    is 31 May 12:00 again instead of 30 April 12:00, and the hard cap
    turns it into thirty minutes before the start. *)
Theorem monthlyPublishTime_day31_not_one_month_earlier :
  monthlyPublishTime 0 monthlyOn31 may31_0900 = JsDate.Date_of_fields 0 2026 4 31 12 0 0 0
  /\ monthlyPublishTime_spec 0 monthlyOn31 may31_0900
     = JsDate.Date_of_fields 0 2026 3 30 12 0 0 0
  /\ monthlyPublishTime 0 monthlyOn31 may31_0900
     <> monthlyPublishTime_spec 0 monthlyOn31 may31_0900
  /\ calculatePublishTime 0 (Some (Iso may31_0900))
       (Some (mkProfile "Weekly Spotlight" (Some monthlyOn31) 120 1))
     = Some (Some (may31_0900 - MIN_BUFFER_MS)).
Proof. vm_compute. repeat split; congruence. Qed.

(** The same calculation with [monthlyHour = 0]: midnight is read as
    unset and replaced by 12. *)
Lemma monthlyPublishTime_midnight_becomes_noon :
  let a := mkAutomation true Monthly 0 0 0 11 0 30 Indefinite 0 in
  let start := JsDate.Date_of_fields 0 2026 5 20 18 0 0 0 in
  monthlyPublishTime 0 a start = JsDate.Date_of_fields 0 2026 5 11 12 30 0 0
  /\ monthlyPublishTime_spec 0 a start = JsDate.Date_of_fields 0 2026 5 11 0 30 0 0.
Proof. vm_compute. split; reflexivity. Qed.

(** ** The activation anchor *)

Lemma parse_toISOString ms : parseEventStartMs (Some (toISOString ms)) = Some ms.
Proof. reflexivity. Qed.

(** C7.  [recordManualEvent] never increases the anchor: when it returns
    [true] the anchor is the given start, which there was no anchor
    before or which strictly precedes the former anchor; when it returns
    [false] the whole state is unchanged. *)
Theorem recordManualEvent_anchor_monotone (g k : string) (startsAt : option DateStr)
  (st : Engine) :
  let key := getProfileStateKey g k in
  let before := getActivationStartMs (automationState st !! key) in
  let st' := fst (recordManualEvent g k startsAt st) in
  let after := getActivationStartMs (automationState st' !! key) in
  (snd (recordManualEvent g k startsAt st) = true ->
     exists ms, parseEventStartMs startsAt = Some ms /\ after = Some ms /\
                (before = None \/ exists a, before = Some a /\ ms < a))
  /\ (snd (recordManualEvent g k startsAt st) = false -> st' = st)
  /\ (forall a, before = Some a -> exists a', after = Some a' /\ a' <= a).
Proof.
  cbv zeta. unfold recordManualEvent.
  assert (Hsame : forall o : option Z, forall a, o = Some a ->
            exists a', o = Some a' /\ a' <= a)
    by (intros o a ->; exists a; split; [done|lia]).
  destruct (isKnownGroupId st g); cbn [negb];
    [|by split; [|split; [|intros a; apply Hsame]]].
  destruct (parseEventStartMs startsAt) as [ms|] eqn:Hparse;
    [|by split; [|split; [|intros a; apply Hsame]]].
  assert (Hseed : forall st1 ps,
            automationState st1 !! getProfileStateKey g k = Some ps ->
            getActivationStartMs
              (automationState
                 (saveAutomationState
                    (updateProfileState (getProfileStateKey g k)
                       (fun ps0 => mkProfileState (eventsCreated ps0)
                                     (Some (toISOString ms)) (lastSuccess ps0)
                                     (lastEventId ps0)) st1))
               !! getProfileStateKey g k) = Some ms).
  { intros st1 ps Hps. cbn. rewrite lookup_alter_eq, Hps. reflexivity. }
  unfold getOrCreateProfileState.
  destruct (automationState st !! getProfileStateKey g k) as [ps|] eqn:Hps.
  - destruct (getActivationStartMs (Some ps)) as [a|] eqn:Ha.
    + destruct (a <=? ms) eqn:Hle; cbn [fst snd].
      * rewrite Hps, Ha. split; [done|]. split; [done|intros a0; apply Hsame].
      * apply Z.leb_gt in Hle. rewrite (Hseed st ps Hps).
        split; [|split; [done|]].
        -- intros _. exists ms. split; [done|]. split; [done|].
           right. exists a. split; [done|lia].
        -- intros a0 [= <-]. exists ms. split; [done|lia].
    + cbn [fst snd]. rewrite (Hseed st ps Hps).
      split; [|split; [done|done]].
      intros _. exists ms. split; [done|]. split; [done|]. by left.
  - change (getActivationStartMs (Some (mkProfileState 0 None None None)))
      with (@None Z).
    cbn [fst snd].
    rewrite (Hseed _ (mkProfileState 0 None None None))
      by (cbn; apply lookup_insert_eq).
    split; [|split; [done|done]].
    intros _. exists ms. split; [done|]. split; [done|]. by left.
Qed.

Lemma recordManualEvent_anchor_monotone_witness :
  exists ms,
    parseEventStartMs (Some (Iso 1000)) = Some ms /\
    getActivationStartMs
      (automationState (fst (recordManualEvent "grp" "weekly" (Some (Iso 1000))
                                               anchoredAt2000))
         !! getProfileStateKey "grp" "weekly") = Some ms /\
    (getActivationStartMs (automationState anchoredAt2000
                             !! getProfileStateKey "grp" "weekly") = None \/
     exists a, getActivationStartMs (automationState anchoredAt2000
                                       !! getProfileStateKey "grp" "weekly") = Some a /\
               ms < a).
Proof.
  apply (proj1 (recordManualEvent_anchor_monotone "grp" "weekly" (Some (Iso 1000))
                  anchoredAt2000)).
  vm_compute. reflexivity.
Defined.

(** ** Rate-limit gate *)


Lemma prunedHistory_spec now h ts :
  ts ∈ prunedHistory now h <-> ts ∈ h /\ now - EVENT_HOURLY_WINDOW_MS <= ts.
Proof.
  unfold prunedHistory. rewrite !list_elem_of_In, filter_In, Z.leb_le. done.
Qed.









(** ** Scheduler *)

Lemma setJobTimer_timerSet now l cb delay st :
  timerSet now l cb delay st (setJobTimer now l cb (Some delay) st).
Proof. unfold timerSet, setJobTimer, setTimeout. cbn. done. Qed.

(** ** Restoring deleted records *)

Lemma filter_nil_Forall {A : Type} (f : A -> bool) (l : list A) :
  List.filter f l = [] <-> Forall (fun x => f x = false) l.
Proof.
  induction l as [|x l IH]; simpl; [split; [constructor|done]|].
  destruct (f x) eqn:E; split.
  - done.
  - intros H. apply Forall_cons in H as [H _]. congruence.
  - intros H. constructor; [done|]. by apply IH.
  - intros H. apply Forall_cons in H as [_ H]. by apply IH.
Qed.

(** C10.  With no deleted entry for the profile, [restoreDeletedEvents]
    returns [{ok: true, restoredCount: 0}] and changes nothing, whether
    or not the profile exists; an error comes back only from a call that
    found a deleted entry for a profile that is not known, and then the
    state is unchanged too. *)
Theorem restoreDeletedEvents_without_entries (tza now : Z) (g k : string) (st : Engine) :
  (Forall (fun l => sameProfile g k (deref st l) = false) (deletedEvents st) ->
     restoreDeletedEvents tza now g k st = (st, RestoreOk 0))
  /\ (forall st' message,
        restoreDeletedEvents tza now g k st = (st', RestoreError message) ->
        message = "Profile not found"%string /\ st' = st /\
        lookupProfile st g k = None /\
        exists l, l ∈ deletedEvents st /\ sameProfile g k (deref st l) = true).
Proof.
  unfold restoreDeletedEvents. split.
  - intros Hnone. apply filter_nil_Forall in Hnone. by rewrite Hnone.
  - intros st' message.
    destruct (List.filter _ (deletedEvents st)) as [|l ls] eqn:Hfilter; [done|].
    destruct (lookupProfile st g k) as [profile|] eqn:Hprofile.
    + repeat match goal with
             | |- context [let '(_, _) := ?x in _] => destruct x
             end.
      done.
    + intros [= <- <-]. split; [done|]. split; [done|]. split; [done|].
      exists l.
      assert (Hin : In l (List.filter (fun l => sameProfile g k (deref st l))
                                      (deletedEvents st)))
        by (rewrite Hfilter; by left).
      apply filter_In in Hin as [Hin Hsame]. by rewrite list_elem_of_In.
Qed.

Lemma restoreDeletedEvents_without_entries_witness :
  restoreDeletedEvents 0 5000 "grp" "unknown-profile" withDeletedMonthly
  = (withDeletedMonthly, RestoreOk 0).
Proof.
  apply (proj1 (restoreDeletedEvents_without_entries 0 5000 "grp" "unknown-profile"
                  withDeletedMonthly)).
  repeat constructor.
Defined.

(** ** Post now *)

Lemma deref_same s st l : heap s = heap st -> deref s l = deref st l.
Proof. unfold deref. by intros ->. Qed.

Lemma isGroupRateLimited_heap now g st :
  heap (fst (isGroupRateLimited now g st)) = heap st /\
  pendingEvents (fst (isGroupRateLimited now g st)) = pendingEvents st.
Proof.
  unfold isGroupRateLimited, pruneRateLimitHistory, getRateLimitState, putRateLimitState.
  repeat (case_match; simplify_eq; cbn in *); done.
Qed.

Lemma getRateLimitWaitMs_heap now g st :
  heap (fst (getRateLimitWaitMs now g st)) = heap st.
Proof.
  unfold getRateLimitWaitMs, pruneRateLimitHistory, getRateLimitState, putRateLimitState.
  repeat (case_match; simplify_eq; cbn in *); done.
Qed.

Lemma processQueue_finish_heap now st : heap (processQueue_finish now st) = heap st.
Proof.
  unfold processQueue_finish. cbn. destruct (queue st); [done|].
  destruct (processTimeout st); done.
Qed.

Lemma statusStep_refl s : statusStep s s.
Proof. by left. Qed.

Lemma statusStep_heap s st l0 :
  heap s = heap st -> statusStep (status (deref st l0)) (status (deref s l0)).
Proof. intros H. rewrite (deref_same s st) by done. by left. Qed.

Lemma statusStep_trans a b c : statusStep a b -> statusStep b c -> statusStep a c.
Proof. unfold statusStep. intros [-> | [-> | ->]] [-> | [-> | ->]]; auto. Qed.

Lemma deref_update l f st l0 :
  deref (update l f st) l0 =
    if decide (l = l0 /\ (l0 < length (heap st))%nat) then f (deref st l0)
    else deref st l0.
Proof.
  unfold deref, update. cbn. rewrite !list_lookup_total_alt, list_lookup_alter.
  destruct (decide (l = l0)) as [->|Hne].
  - destruct (heap st !! l0) as [e|] eqn:He.
    + rewrite decide_True; [done|]. split; [done|]. by apply lookup_lt_Some in He.
    + rewrite decide_False; [done|]. apply lookup_ge_None in He. lia.
  - rewrite decide_False; [done|]. by intros [? _].
Qed.

Lemma update_status_step l v st l0 :
  v = Scheduled \/ v = Cancelled ->
  statusStep (status (deref st l0)) (status (deref (update l (set_status v) st) l0)).
Proof.
  intros Hv. rewrite deref_update.
  case_decide; [by right|by left].
Qed.

Lemma executeAutomatedPostInternal_status now l st l0 :
  statusStep (status (deref st l0))
             (status (deref (fst (executeAutomatedPostInternal now l st)) l0)).
Proof.
  unfold executeAutomatedPostInternal.
  destruct (resolveEventDetails st _).
  - destruct (Date_parse _); cbn; apply statusStep_refl.
  - cbn. apply (update_status_step l Cancelled st l0). by right.
Qed.

Lemma processQueue_loop_status now q st l0 :
  statusStep (status (deref st l0)) (status (deref (processQueue_loop now q st) l0)).
Proof.
  revert st. induction q as [|item rest IH]; intros st; cbn [processQueue_loop].
  - apply statusStep_heap, processQueue_finish_heap.
  - destruct (isGroupRateLimited now (q_groupId item) st) as [st1 limited] eqn:Hlim.
    assert (Hheap1 : heap st1 = heap st)
      by (pose proof (isGroupRateLimited_heap now (q_groupId item) st) as [H _];
          by rewrite Hlim in H).
    destruct limited.
    + destruct (getRateLimitWaitMs now (q_groupId item) st1) as [st2 w] eqn:Hw.
      assert (Hheap2 : heap st2 = heap st1)
        by (pose proof (getRateLimitWaitMs_heap now (q_groupId item) st1) as H;
            by rewrite Hw in H).
      apply statusStep_heap. unfold setTimeout.
      rewrite processQueue_finish_heap. cbn.
      destruct (processTimeout st2); cbn; by rewrite Hheap2, Hheap1.
    + assert (Hsame : forall s, heap s = heap st ->
                status (deref s l0) = status (deref st l0))
        by (intros s Hs; by rewrite (deref_same s st)).
      destruct (findPending (set_queue rest st1) (q_pendingEventId item)) as [l|].
      * destruct (negb (is_active_status (status (deref (set_queue rest st1) l)))).
        -- rewrite <- (Hsame (set_queue rest st1)) by done. apply IH.
        -- remember (if status_eqb (status (deref (set_queue rest st1) l)) Queued
                     then update l (set_status Scheduled) (set_queue rest st1)
                     else set_queue rest st1) as st3 eqn:Hst3.
           assert (H3 : statusStep (status (deref st l0)) (status (deref st3 l0))).
           { rewrite <- (Hsame (set_queue rest st1)) by done. subst st3.
             destruct (status_eqb _ _); [|apply statusStep_refl].
             apply update_status_step. by left. }
           pose proof (executeAutomatedPostInternal_status now l st3 l0) as H4.
           destruct (executeAutomatedPostInternal now l st3) as [st4 waiting].
           cbn [fst] in H4.
           eapply statusStep_trans; [exact H3|].
           eapply statusStep_trans; [exact H4|].
           destruct waiting; cbn; apply statusStep_refl.
      * rewrite <- (Hsame (set_queue rest st1)) by done. apply IH.
Qed.

Lemma executeAutomatedPost_status now l st l0 :
  statusStep (status (deref st l0)) (status (deref (executeAutomatedPost now l st) l0)).
Proof.
  unfold executeAutomatedPost, queueEventPost.
  destruct (existsb _ _); [apply statusStep_refl|].
  unfold processQueue. cbn [processing set_queue queue].
  destruct (processing st); [by apply statusStep_heap|].
  destruct (sortQueue _) as [|x q]; [by apply statusStep_heap|].
  eapply statusStep_trans; [|apply processQueue_loop_status].
  by apply statusStep_heap.
Qed.

(** C1 (as amended).  [handleMissedEvent(id, 'postNow')] refuses a
    queued record with [{ok: false, error}] and changes nothing.  For a
    record that is neither queued nor published it sets the status to
    [scheduled], hands the record to [executeAutomatedPost] (the
    rate-limited queue, whose processor starts if it is idle) and
    returns [{ok: true}] at once; the record is then [scheduled] or, if
    its profile is gone, [cancelled]. *)
Theorem handleMissedEvent_postNow (now : Z) (pendingEventId : string)
  (eventIndex : nat) (st : Engine) :
  findIndex st pendingEventId = Some eventIndex ->
  let l := pendingEvents st !!! eventIndex in
  (status (deref st l) = Queued ->
     handleMissedEvent now pendingEventId PostNow st =
       (st, ResultError
              "Event is queued waiting for rate limits to clear. Please wait."))
  /\ (status (deref st l) <> Queued -> status (deref st l) <> Published ->
      let st' := executeAutomatedPost now l (update l (set_status Scheduled) st) in
      handleMissedEvent now pendingEventId PostNow st = (st', ResultOk) /\
      st' = queueEventPost now (id (deref st l)) (groupId (deref st l))
              (Date_parse (eventStartsAt (deref st l)))
              (update l (set_status Scheduled) st) /\
      ((l < length (heap st))%nat ->
         status (deref st' l) = Scheduled \/ status (deref st' l) = Cancelled)).
Proof.
  intros Hfind. cbv zeta. unfold handleMissedEvent. rewrite Hfind. split.
  - intros ->. reflexivity.
  - intros Hq _.
    assert (Hneq : status_eqb (status (deref st (pendingEvents st !!! eventIndex))) Queued
                   = false)
      by (unfold status_eqb; by apply bool_decide_eq_false).
    rewrite Hneq. split; [done|]. split.
    + unfold executeAutomatedPost. by rewrite deref_update; case_decide.
    + intros Hvalid.
      pose proof (executeAutomatedPost_status now (pendingEvents st !!! eventIndex)
                    (update (pendingEvents st !!! eventIndex) (set_status Scheduled) st)
                    (pendingEvents st !!! eventIndex)) as Hstep.
      rewrite deref_update in Hstep. case_decide; [|naive_solver].
      destruct Hstep as [-> | [-> | ->]]; auto.
Qed.

Lemma handleMissedEvent_postNow_witness :
  handleMissedEvent 5000 "pending_grp_weekly_1780308000000" PostNow missedEngine =
    (executeAutomatedPost 5000 0%nat (update 0%nat (set_status Scheduled) missedEngine),
     ResultOk).
Proof.
  apply (handleMissedEvent_postNow 5000 "pending_grp_weekly_1780308000000" 0%nat
           missedEngine); [reflexivity | discriminate | discriminate].
Defined.

(** C1, as stated, fails.  On a published record [postNow] returns
    [{ok: true}], resets the record to [scheduled] and publishes it a
    second time; on a missed record it returns [{ok: true}] while the
    publish is still awaiting its answer, and the status it wrote is
    [scheduled], not [processing]. *)
Lemma handleMissedEvent_postNow_published_posts_again :
  let published := handleMissedEvent 5000 "pending_grp_weekly_1780308000000" PostNow
                                     publishedEngine in
  let missed := handleMissedEvent 5000 "pending_grp_weekly_1780308000000" PostNow
                                  missedEngine in
  status (deref publishedEngine 0%nat) = Published /\
  snd published = ResultOk /\
  status (deref (fst published) 0%nat) = Scheduled /\
  trace (fst published) =
    [CreateEvent "grp"
       (mkEventDetails "Weekly Session" 120 (Some (Iso june1_1000))
                       (Some (Iso (june1_1000 - 3 * 24 * 60 * 60 * 1000))))
       (Iso june1_1000) (Iso (june1_1000 + 120 * 60 * 1000))] /\
  snd missed = ResultOk /\
  suspended (fst missed) = Some (AwaitingPublish 0%nat) /\
  status (deref (fst missed) 0%nat) = Scheduled /\
  status (deref (fst missed) 0%nat) <> OtherStatus "processing".
Proof. vm_compute. repeat split; congruence. Qed.

(** ** The 30-minute cap on publish times *)

Lemma capPublishTime_bound s raw :
  capPublishTime s raw <= s - MIN_BUFFER_MS /\
  (raw <= s - MIN_BUFFER_MS -> capPublishTime s raw = raw) /\
  (s - MIN_BUFFER_MS < raw -> capPublishTime s raw = s - MIN_BUFFER_MS).
Proof.
  unfold capPublishTime. cbv zeta.
  destruct (Z.ltb_spec (s - MIN_BUFFER_MS) raw); lia.
Qed.

Lemma calculatePublishTime_bound tza eventStartsAt profile p :
  calculatePublishTime tza eventStartsAt profile = Some (Some p) ->
  exists s, Date_parse eventStartsAt = Some s /\ p <= s - MIN_BUFFER_MS.
Proof.
  unfold calculatePublishTime.
  destruct (profile ≫= automation) as [a|]; [|done].
  destruct (negb (enabled a)); [done|].
  destruct (Date_parse eventStartsAt) as [s|]; [|done].
  intros [= <-]. exists s. split; [done|]. apply capPublishTime_bound.
Qed.

Lemma calculatePendingEvents_loop_cap tza a profile ps now g k maxEvents m dateOptions :
  forall produced evs,
  Forall withinCap produced ->
  calculatePendingEvents_loop tza a profile ps now g k maxEvents m dateOptions produced
    = Some evs ->
  Forall withinCap evs.
Proof.
  induction dateOptions as [|s rest IH]; intros produced evs Hp; cbn [calculatePendingEvents_loop].
  - by intros [= <-].
  - cbv zeta.
    destruct (maxEvents <=? _); [by intros [= <-]|].
    destruct (_ && _); [by intros [= <-]|].
    destruct (match m with Some _ => _ | None => _ end); [by apply IH|].
    destruct (slotPublishTime _ _ _ _ _ _ _) as [raw|]; [|done].
    destruct (_ <=? now); [by apply IH|].
    apply IH. apply Forall_app. split; [done|].
    apply Forall_singleton. split; [done|].
    exists (capPublishTime s raw), s. repeat split. apply capPublishTime_bound.
Qed.

Lemma dec_eqb_trunc c d : dec_eqb (dec_of_Z c) d = true -> dec_trunc d = c.
Proof.
  unfold dec_eqb, dec_compare, dec_scaled, dec_of_Z, dec_trunc. cbn.
  destruct (_ ?= _) eqn:E; try done. intros _.
  apply Z.compare_eq in E.
  destruct (Z.leb_spec 0 (exp10 d)) as [H|H].
  - rewrite Z.min_l in E by done. rewrite !Z.sub_0_r in E.
    rewrite Z.pow_0_r, Z.mul_1_r in E. lia.
  - rewrite Z.min_r in E by lia. rewrite Z.sub_diag in E.
    replace (0 - exp10 d) with (- exp10 d) in E by lia.
    rewrite Z.pow_0_r, Z.mul_1_r in E. rewrite <- E.
    apply Z.quot_mul. apply Z.pow_nonzero; lia.
Qed.

Lemma setJobTimer_heap now l cb delay st : heap (setJobTimer now l cb delay st) = heap st.
Proof. reflexivity. Qed.

Lemma scheduleJob_future now l p st :
  scheduledPublishTime (deref st l) = Some (Iso p) -> now < p ->
  heap (scheduleJob now l st) = heap st /\
  pendingEvents (scheduleJob now l st) = pendingEvents st.
Proof.
  intros Hp Hlt. unfold scheduleJob. rewrite Hp. cbn [Date_parse].
  destruct (Z.leb_spec (p - now) 0); [lia|].
  by destruct (getRecheckIntervalMs _).
Qed.

Lemma parseEventStartMs_Some v c : parseEventStartMs v = Some c -> v = Some (Iso c).
Proof.
  unfold parseEventStartMs. destruct v as [[ms|t]|]; cbn; try done.
  - by intros [= ->].
  - by destruct (truthy_string t).
Qed.

Lemma restoreOne_restored tza now g k profile modified published anchorMs l st st' :
  (l < length (heap st))%nat ->
  restoreOne tza now g k profile modified published anchorMs l st = (st', true) ->
  exists r d p,
    pendingEvents st' = pendingEvents st ++ [r] /\
    getRestoreStartMs (deref st l) = Some d /\
    (forall a, anchorMs = Some a -> dec_leb d a = false) /\
    status (deref st' r) = Scheduled /\
    scheduledPublishTime (deref st' r) = Some (Iso p) /\
    eventStartsAt (deref st' r) = Some (Iso (dec_trunc d)) /\
    now < p <= dec_trunc d - MIN_BUFFER_MS.
Proof.
  intros Hl. unfold restoreOne. cbv zeta.
  destruct (anyKeyIn _ modified); [done|].
  destruct (anyKeyIn _ published); [done|].
  destruct (getRestoreStartMs _) as [d|]; [|done].
  destruct (dec_leb d _); [done|].
  destruct (match anchorMs with Some _ => _ | None => _ end) eqn:Hanchor; [done|].
  assert (Ha : forall a, anchorMs = Some a -> dec_leb d a = false) by (by intros a ->).
  clear Hanchor.
  destruct (calculatePublishTime _ _ _) as [[p|]|] eqn:Hcalc; try done.
  apply calculatePublishTime_bound in Hcalc as (s & Hs & Hps).
  cbn in Hs. injection Hs as <-.
  destruct (Z.ltb_spec now p) as [Hnow|]; [|done].
  destruct (_ && _) eqn:Huse.
  - (* the deleted object itself goes back, with its overrides *)
    apply andb_prop in Huse as [_ Huse].
    destruct (parseEventStartMs (eventStartsAt (deref st l))) as [c|] eqn:Hc; [|done].
    apply dec_eqb_trunc in Huse. apply parseEventStartMs_Some in Hc.
    set (f := fun e : PendingEvent => _).
    set (st2 := set_pendingEvents _ _).
    intros [= <-]. exists l, d, p.
    assert (Hd : deref st2 l = f (deref st l)).
    { unfold st2. rewrite (deref_same _ (update l f st)) by done.
      rewrite deref_update. by rewrite decide_True. }
    destruct (scheduleJob_future now l p st2) as [Hh Hpe]; [by rewrite Hd|done|].
    rewrite Hpe, (deref_same _ st2), Hd by done. unfold f. cbn. rewrite Hc. cbn.
    rewrite Huse. repeat split; try done. lia.
  - cbn [alloc].
    set (e := mkPendingEvent _ _ _ _ _ _ _ _ _ _ _ _).
    set (st2 := set_pendingEvents _ _).
    intros [= <-]. exists (length (heap st)), d, p.
    assert (Hd : deref st2 (length (heap st)) = e).
    { unfold st2, deref. cbn. rewrite list_lookup_total_alt.
      by rewrite lookup_app_r, Nat.sub_diag by done. }
    destruct (scheduleJob_future now (length (heap st)) p st2) as [Hh Hpe];
      [by rewrite Hd|done|].
    rewrite Hpe, (deref_same _ st2), Hd by done.
    repeat split; try done.
Qed.

Lemma restoreOne_cap tza now g k profile modified published anchorMs l st st' :
  (l < length (heap st))%nat ->
  restoreOne tza now g k profile modified published anchorMs l st = (st', true) ->
  exists r, pendingEvents st' = pendingEvents st ++ [r] /\ withinCap (deref st' r).
Proof.
  intros Hl H.
  destruct (restoreOne_restored _ _ _ _ _ _ _ _ _ _ _ Hl H)
    as (r & d & p & Hpe & _ & _ & Hs & Hp & He & Hb).
  exists r. split; [done|]. split; [done|]. exists p, (dec_trunc d). repeat split; try done. lia.
Qed.

(** C3 (as amended).  The hard cap of the publish-time calculation: the
    capped time is never later than the start minus 30 minutes, a raw
    time at or before that bound (so also exactly at it) is kept, and a
    later one becomes the bound.  Every time [calculatePublishTime]
    returns, every record [calculatePendingEvents] produces and every
    record [restoreDeletedEvents] puts back is [scheduled] with its
    publish time within the bound. *)
Theorem publish_time_hard_cap (tza : Z) :
  (forall s raw,
     capPublishTime s raw <= s - MIN_BUFFER_MS /\
     (raw <= s - MIN_BUFFER_MS -> capPublishTime s raw = raw) /\
     (s - MIN_BUFFER_MS < raw -> capPublishTime s raw = s - MIN_BUFFER_MS)) /\
  (forall eventStartsAt profile p,
     calculatePublishTime tza eventStartsAt profile = Some (Some p) ->
     exists s, Date_parse eventStartsAt = Some s /\ p <= s - MIN_BUFFER_MS) /\
  (forall g k profile dateOptions maxEvents minEventStartMs now st st' evs,
     calculatePendingEvents tza g k profile dateOptions maxEvents minEventStartMs now st
       = (st', Some evs) ->
     Forall withinCap evs) /\
  (forall now g k profile modifiedEventSlots publishedEventSlots anchorMs l st st',
     (l < length (heap st))%nat ->
     restoreOne tza now g k profile modifiedEventSlots publishedEventSlots anchorMs l st
       = (st', true) ->
     exists r, pendingEvents st' = pendingEvents st ++ [r] /\ withinCap (deref st' r)).
Proof.
  split; [apply capPublishTime_bound|].
  split; [apply calculatePublishTime_bound|].
  split; [|apply restoreOne_cap].
  intros g k profile dateOptions maxEvents m now st st' evs.
  unfold calculatePendingEvents.
  destruct profile as [p|]; [|by intros [= _ <-]].
  destruct (automation p) as [a|]; [|by intros [= _ <-]].
  destruct (_ || _); [by intros [= _ <-]|].
  destruct dateOptions as [|s rest]; [by intros [= _ <-]|].
  destruct (getOrCreateProfileState _ _) as [st1 ps].
  destruct (_ && _); [by intros [= _ <-]|].
  intros H.
  eapply (calculatePendingEvents_loop_cap tza a p ps now g k maxEvents m (s :: rest) []);
    [by constructor|].
  exact (f_equal snd H).
Qed.

Lemma publish_time_hard_cap_witness : Forall withinCap [weeklyEvent].
Proof.
  eapply (proj1 (proj2 (proj2 (publish_time_hard_cap 0)))
            "grp" "weekly" (Some weeklyProfile) [june1_1000] 10 None
            (june1_1000 - 4 * 24 * 60 * 60 * 1000) oneEventEngine).
  reflexivity.
Defined.

(** C3, as stated, fails for rescheduling.  Ten minutes before the start
    of a missed record, [handleMissedEvent(id, 'reschedule')] returns
    [{ok: true}] and leaves the record [scheduled] with a publish time of
    now plus five minutes, which is five minutes before the start. *)
Lemma handleMissedEvent_reschedule_exceeds_cap :
  let now := june1_1000 - 10 * 60 * 1000 in
  let r := handleMissedEvent now "pending_grp_weekly_1780308000000" Reschedule
                             missedEngine in
  snd r = ResultOk /\
  status (deref (fst r) 0%nat) = Scheduled /\
  eventStartsAt (deref (fst r) 0%nat) = Some (Iso june1_1000) /\
  scheduledPublishTime (deref (fst r) 0%nat) = Some (Iso (june1_1000 - 5 * 60 * 1000)) /\
  june1_1000 - MIN_BUFFER_MS < june1_1000 - 5 * 60 * 1000 /\
  ~ withinCap (deref (fst r) 0%nat).
Proof.
  cbv zeta. repeat split; try reflexivity.
  intros (_ & p & s & Hp & Hs & Hle).
  vm_compute in Hp, Hs. injection Hp as <-. injection Hs as <-.
  vm_compute in Hle. by apply Hle.
Qed.

(** ** The activation anchor and the records that are produced *)

Lemma dec_leb_of_Z a b : dec_leb (dec_of_Z a) (dec_of_Z b) = (a <=? b).
Proof.
  unfold dec_leb, dec_compare, dec_scaled, dec_of_Z. cbn.
  rewrite !Z.mul_1_r. unfold Z.leb. by destruct (a ?= b).
Qed.

Lemma dec_gt_of_Z_trunc d a :
  dec_leb d (dec_of_Z a) = false ->
  a <= dec_trunc d /\ (0 <= exp10 d -> a < dec_trunc d).
Proof.
  unfold dec_leb, dec_compare, dec_scaled, dec_of_Z, dec_trunc. cbn.
  destruct (_ ?= _) eqn:E; try done. intros _.
  apply Z.compare_gt_iff in E.
  destruct (Z.leb_spec 0 (exp10 d)) as [H|H].
  - rewrite Z.min_r in E by done. rewrite !Z.sub_0_r in E.
    rewrite Z.pow_0_r, Z.mul_1_r in E. lia.
  - rewrite Z.min_l in E by lia. rewrite Z.sub_diag in E.
    replace (0 - exp10 d) with (- exp10 d) in E by lia.
    rewrite Z.pow_0_r, Z.mul_1_r in E. split; [|lia].
    assert (Hp : 0 < 10 ^ (- exp10 d)) by (apply Z.pow_pos_nonneg; lia).
    destruct (Z.le_gt_cases a (mant d ÷ 10 ^ (- exp10 d))) as [|Hlt]; [done|].
    exfalso.
    pose proof (Z.quot_rem' (mant d) (10 ^ (- exp10 d))) as Hqr.
    destruct (Z.le_gt_cases 0 (mant d)) as [Hm|Hm].
    + pose proof (Z.rem_bound_pos_pos (mant d) (10 ^ (- exp10 d)) Hp Hm). nia.
    + pose proof (Z.rem_bound_pos_neg (mant d) (10 ^ (- exp10 d)) Hp ltac:(lia)). nia.
Qed.

Lemma calculatePendingEvents_loop_after tza a profile ps now g k maxEvents anchor
  dateOptions :
  forall produced evs,
  Forall (startsAfter anchor) produced ->
  calculatePendingEvents_loop tza a profile ps now g k maxEvents
    (Some (dec_of_Z anchor)) dateOptions produced = Some evs ->
  Forall (startsAfter anchor) evs.
Proof.
  induction dateOptions as [|s rest IH]; intros produced evs Hp;
    cbn [calculatePendingEvents_loop].
  - by intros [= <-].
  - cbv zeta.
    destruct (maxEvents <=? _); [by intros [= <-]|].
    destruct (_ && _); [by intros [= <-]|].
    rewrite dec_leb_of_Z.
    destruct (Z.leb_spec s anchor); [by apply IH|].
    destruct (slotPublishTime _ _ _ _ _ _ _) as [raw|]; [|done].
    destruct (_ <=? now); [by apply IH|].
    apply IH. apply Forall_app. split; [done|].
    apply Forall_singleton. by exists s.
Qed.

Lemma getOrCreateProfileState_lookup key st :
  automationState (fst (getOrCreateProfileState key st)) !! key
    = Some (snd (getOrCreateProfileState key st)).
Proof.
  unfold getOrCreateProfileState.
  destruct (automationState st !! key) eqn:E; cbn; [done|].
  by rewrite lookup_insert_eq.
Qed.

Lemma getActivationStartMs_created key st :
  getActivationStartMs (Some (snd (getOrCreateProfileState key st)))
    = getActivationStartMs (automationState st !! key).
Proof.
  unfold getOrCreateProfileState.
  by destruct (automationState st !! key) eqn:E.
Qed.

Lemma recordEventCreation_frame now g st :
  heap (recordEventCreation now g st) = heap st /\
  pendingEvents (recordEventCreation now g st) = pendingEvents st /\
  automationState (recordEventCreation now g st) = automationState st.
Proof.
  unfold recordEventCreation, getRateLimitState.
  by destruct (groups st !! g).
Qed.

Lemma publish_ok_anchor now l remoteId st :
  let e := deref st l in
  let key := getProfileStateKey (groupId e) (profileKey e) in
  let st' := executeAutomatedPostInternal_settled now l (Resolved (PublishOk remoteId)) st in
  pendingEvents st' = pendingEvents st /\
  (forall l0, eventStartsAt (deref st' l0) = eventStartsAt (deref st l0)) /\
  getActivationStartMs (automationState st' !! key) =
    match getActivationStartMs (automationState st !! key) with
    | Some a => Some a
    | None => parseEventStartMs (eventStartsAt e)
    end.
Proof.
  cbv zeta. unfold executeAutomatedPostInternal_settled.
  set (e := deref st l).
  set (key := getProfileStateKey (groupId e) (profileKey e)).
  destruct (recordEventCreation_frame now (groupId e) st) as (Hh & Hp & Ha).
  set (st1 := recordEventCreation now (groupId e) st) in *.
  set (f := fun e0 : PendingEvent => _).
  set (st2 := update l f st1).
  pose proof (getOrCreateProfileState_lookup key st2) as Hlook.
  pose proof (getActivationStartMs_created key st2) as Hact.
  assert (Hpe : pendingEvents (fst (getOrCreateProfileState key st2)) = pendingEvents st
                /\ heap (fst (getOrCreateProfileState key st2)) = heap st2).
  { unfold getOrCreateProfileState. by destruct (automationState st2 !! key). }
  destruct (getOrCreateProfileState key st2) as [st3 ps]. cbn [fst snd] in *.
  destruct Hpe as [Hpe Hh3].
  change (automationState st2) with (automationState st1) in Hact. rewrite Ha in Hact.
  split; [done|]. split.
  - intros l0. cbn.
    rewrite (deref_same _ st2) by (cbn; exact Hh3).
    unfold st2. rewrite deref_update. rewrite (deref_same st1 st) by done.
    by case_decide.
  - cbn. rewrite lookup_alter_eq, Hlook. cbn.
    rewrite <- Hact.
    destruct (getActivationStartMs (Some ps)) as [a|] eqn:Hps; cbn; [done|].
    unfold getActivationStartMs in *. cbn in *.
    destruct (truthy_date (eventStartsAt e)) eqn:Ht; [done|].
    rewrite Hps. unfold parseEventStartMs. by rewrite Ht.
Qed.

(** C2 (as amended).  For a profile whose anchor is [anchor]: every
    record [calculatePendingEvents] produces under
    [minEventStartMs = anchor] starts strictly after the anchor; a
    record [restoreDeletedEvents] puts back has a restore start strictly
    after the anchor, and its [eventStartsAt], which is that start in
    whole milliseconds, is not before the anchor and is strictly after
    it when the restore start is an integer.  A successful publish keeps
    an existing anchor, and on a profile without one it sets the anchor
    to the [eventStartsAt] of the record it published, which stays in the
    pending list. *)
Theorem anchor_before_new_records (tza now anchor : Z) :
  (forall g k profile dateOptions maxEvents st st' evs,
     calculatePendingEvents tza g k profile dateOptions maxEvents
       (Some (dec_of_Z anchor)) now st = (st', Some evs) ->
     Forall (startsAfter anchor) evs) /\
  (forall g k profile modifiedEventSlots publishedEventSlots l st st',
     (l < length (heap st))%nat ->
     restoreOne tza now g k profile modifiedEventSlots publishedEventSlots
       (Some (dec_of_Z anchor)) l st = (st', true) ->
     exists r d,
       pendingEvents st' = pendingEvents st ++ [r] /\
       getRestoreStartMs (deref st l) = Some d /\
       dec_leb d (dec_of_Z anchor) = false /\
       eventStartsAt (deref st' r) = Some (Iso (dec_trunc d)) /\
       anchor <= dec_trunc d /\
       (0 <= exp10 d -> anchor < dec_trunc d)) /\
  (forall l remoteId st,
     let e := deref st l in
     let key := getProfileStateKey (groupId e) (profileKey e) in
     let st' := executeAutomatedPostInternal_settled now l
                  (Resolved (PublishOk remoteId)) st in
     pendingEvents st' = pendingEvents st /\
     (forall l0, eventStartsAt (deref st' l0) = eventStartsAt (deref st l0)) /\
     getActivationStartMs (automationState st' !! key) =
       match getActivationStartMs (automationState st !! key) with
       | Some a => Some a
       | None => parseEventStartMs (eventStartsAt e)
       end).
Proof.
  split; [|split; [|apply publish_ok_anchor]].
  - intros g k profile dateOptions maxEvents st st' evs.
    unfold calculatePendingEvents.
    destruct profile as [p|]; [|by intros [= _ <-]].
    destruct (automation p) as [a|]; [|by intros [= _ <-]].
    destruct (_ || _); [by intros [= _ <-]|].
    destruct dateOptions as [|s rest]; [by intros [= _ <-]|].
    destruct (getOrCreateProfileState _ _) as [st1 ps].
    destruct (_ && _); [by intros [= _ <-]|].
    intros H.
    eapply (calculatePendingEvents_loop_after tza a p ps now g k maxEvents anchor
              (s :: rest) []); [by constructor|].
    exact (f_equal snd H).
  - intros g k profile modified published l st st' Hl H.
    destruct (restoreOne_restored _ _ _ _ _ _ _ _ _ _ _ Hl H)
      as (r & d & p & Hpe & Hd & Ha & _ & _ & He & _).
    specialize (Ha _ eq_refl).
    destruct (dec_gt_of_Z_trunc _ _ Ha) as [Hle Hlt].
    by exists r, d.
Qed.

Lemma anchor_before_new_records_witness :
  Forall (startsAfter (june1_1000 - 7 * 24 * 60 * 60 * 1000)) [weeklyEvent].
Proof.
  eapply (proj1 (anchor_before_new_records 0 (june1_1000 - 10 * 24 * 60 * 60 * 1000)
                   (june1_1000 - 7 * 24 * 60 * 60 * 1000))
            "grp" "weekly" (Some weeklyProfile)
            [june1_1000 - 7 * 24 * 60 * 60 * 1000; june1_1000] 10 oneEventEngine).
  reflexivity.
Defined.

(** C2, as stated, fails for a successful publish.  The profile has no
    anchor; the publish of its record sets the anchor to the record's own
    start, and the record stays in the pending list, now [published]:
    its [eventStartsAt] equals the anchor. *)
Lemma publish_seeds_anchor_at_own_start :
  let st' := createEventSettled 9000 (Resolved (PublishOk (Some "evt_1"))) postingEngine in
  getActivationStartMs (automationState postingEngine !! getProfileStateKey "grp" "weekly")
    = None /\
  pendingEvents st' = [0%nat] /\
  status (deref st' 0%nat) = Published /\
  groupId (deref st' 0%nat) = "grp" /\ profileKey (deref st' 0%nat) = "weekly" /\
  parseEventStartMs (eventStartsAt (deref st' 0%nat)) = Some june1_1000 /\
  getActivationStartMs (automationState st' !! getProfileStateKey "grp" "weekly")
    = Some june1_1000 /\
  ~ startsAfter june1_1000 (deref st' 0%nat).
Proof.
  cbv zeta. repeat split; try reflexivity.
  intros (s & Hs & Hlt). vm_compute in Hs. injection Hs as <-.
  vm_compute in Hlt. discriminate Hlt.
Qed.

(** ** Reconciliation with the remote calendar *)



















(** * Further properties of the engine *)

(** ** Slot keys *)

Lemma string_append_assoc (a b c : string) : ((a +:+ b) +:+ c = a +:+ (b +:+ c))%string.
Proof.
  induction a as [|x a IH]; [done|].
  change (String x ((a +:+ b) +:+ c) = String x (a +:+ (b +:+ c)))%string.
  by rewrite IH.
Qed.

Lemma digits_of_uint_acc d acc :
  digits_value (Z.pos acc) (NilEmpty.string_of_uint d) = Z.pos (Pos.of_uint_acc d acc).
Proof.
  revert acc. induction d; intros acc; cbn [NilEmpty.string_of_uint digits_value Pos.of_uint_acc];
    [done|..]; rewrite <- IHd; f_equal; unfold digit_value; cbn; lia.
Qed.

Lemma digits_of_uint d :
  digits_value 0 (NilEmpty.string_of_uint d) = Z.of_N (Pos.of_uint d).
Proof.
  induction d; cbn [NilEmpty.string_of_uint digits_value Pos.of_uint]; [done|exact IHd|..];
    apply (digits_of_uint_acc d).
Qed.

Lemma all_digits_of_uint d : all_digits (NilEmpty.string_of_uint d) = true.
Proof. induction d; cbn; done. Qed.

Lemma to_uint_string p :
  exists c r, NilZero.string_of_uint (Pos.to_uint p) = String c r /\
              is_digit c = true /\ all_digits r = true /\
              digits_value 0 (String c r) = Z.pos p.
Proof.
  pose proof (DecimalPos.Unsigned.of_to p) as Hp.
  pose proof (digits_of_uint (Pos.to_uint p)) as Hv. rewrite Hp in Hv.
  pose proof (all_digits_of_uint (Pos.to_uint p)) as Hd.
  assert (Hs : NilZero.string_of_uint (Pos.to_uint p)
               = NilEmpty.string_of_uint (Pos.to_uint p)).
  { destruct (Pos.to_uint p); [discriminate Hp|done..]. }
  rewrite Hs.
  destruct (NilEmpty.string_of_uint (Pos.to_uint p)) as [|c r]; [discriminate Hv|].
  exists c, r. cbn in Hd. apply andb_prop in Hd as [Hc Hr]. done.
Qed.

Lemma signed_integer_token_Z_to_string z : signed_integer_token (Z_to_string z) = Some z.
Proof.
  unfold Z_to_string. destruct z as [|p|p]; [done|..]; cbn [Z.to_int NilZero.string_of_int];
    destruct (to_uint_string p) as (c & r & -> & Hc & Hr & Hv).
  - unfold signed_integer_token.
    rewrite (is_digit_not c "-"), (is_digit_not c "+") by done.
    change (all_digits (String c r)) with (is_digit c && all_digits r).
    by rewrite Hc, Hr, Hv.
  - unfold signed_integer_token. cbn [Ascii.eqb]. 
    change (Ascii.eqb "-" "-") with true. cbn iota.
    unfold digit_string.
    change (all_digits (String c r)) with (is_digit c && all_digits r).
    by rewrite Hc, Hr, Hv.
Qed.

Lemma truthy_string_ne s : truthy_string s = true <-> s <> EmptyString.
Proof. destruct s; cbn; split; done. Qed.

Lemma slot_key_parse g k ms :
  Z.abs ms <= MAX_TIME_VALUE ->
  parsePendingEventIdStartMs
    (Some ("pending_" +:+ g +:+ "_" +:+ k +:+ "_" +:+ Z_to_string ms)%string)
    = Some (dec_of_Z ms).
Proof.
  intros Hms.
  rewrite <- (string_append_assoc k "_"), <- (string_append_assoc "_" (k +:+ "_")),
    <- (string_append_assoc g), <- (string_append_assoc "pending_").
  rewrite <- (string_append_assoc "_" k), <- (string_append_assoc g ("_" +:+ k)),
    <- (string_append_assoc "pending_" (g +:+ "_" +:+ k)).
  rewrite (string_append_assoc _ "_" (Z_to_string ms)).
  apply parse_signed; [apply signed_integer_token_Z_to_string|].
  etrans; [exact Hms|]. by vm_compute.
Qed.

(** X1.  A slot key is built exactly when group and profile key are not
    empty, and the start it was built from is read back from it. *)
Theorem slot_key_round_trip (g k : string) (ms : Z) :
  Z.abs ms <= MAX_TIME_VALUE ->
  (buildPendingEventId g k (Some (toISOString ms)) = None <->
     g = EmptyString \/ k = EmptyString) /\
  (g <> EmptyString -> k <> EmptyString ->
   exists key,
     buildPendingEventId g k (Some (toISOString ms)) = Some key /\
     parsePendingEventIdStartMs (Some key) = Some (dec_of_Z ms) /\
     isDeterministicPendingId (Some key) = true).
Proof.
  intros Hms. unfold buildPendingEventId. rewrite parse_toISOString. split.
  - destruct g, k; cbn; (split; [intros Hnone|intros Hor]);
      try done; try (by left); try (by right); by destruct Hor.
  - intros Hg Hk. apply truthy_string_ne in Hg, Hk. rewrite Hg, Hk. cbn [negb orb].
    eexists. split; [done|].
    unfold isDeterministicPendingId. by rewrite slot_key_parse.
Qed.

Lemma slot_key_round_trip_witness :
  buildPendingEventId "grp" "weekly" (Some (toISOString june1_1000))
    = Some "pending_grp_weekly_1780308000000"%string /\
  parsePendingEventIdStartMs (Some "pending_grp_weekly_1780308000000")
    = Some (dec_of_Z june1_1000).
Proof.
  destruct (proj2 (slot_key_round_trip "grp" "weekly" june1_1000 ltac:(by vm_compute))
              ltac:(done) ltac:(done)) as (key & Hb & Hp & _).
  split; [reflexivity|].
  assert (E : key = "pending_grp_weekly_1780308000000"%string)
    by (vm_compute in Hb; congruence).
  by rewrite <- E.
Defined.

(** ** Expansion *)

Lemma calculatePendingEvents_loop_slots tza a profile ps now g k maxEvents m dateOptions :
  forall produced evs,
  calculatePendingEvents_loop tza a profile ps now g k maxEvents m dateOptions produced
    = Some evs ->
  exists slots,
    evs = produced ++ recordsOf g k slots /\
    slots.*1 `sublist_of` dateOptions /\
    Forall (fun slot => now < slot.2 <= slot.1 - MIN_BUFFER_MS) slots /\
    (slots <> [] ->
       Z.of_nat (length evs) <= maxEvents /\
       (repeatMode a = Count ->
        eventsCreated ps + Z.of_nat (length evs) <= repeatCount a)).
Proof.
  induction dateOptions as [|s rest IH]; intros produced evs;
    cbn [calculatePendingEvents_loop].
  { intros [= <-]. exists []. rewrite app_nil_r. by repeat split. }
  cbv zeta.
  assert (Hstop : Some produced = Some evs ->
            exists slots, evs = produced ++ recordsOf g k slots /\
              slots.*1 `sublist_of` s :: rest /\
              Forall (fun slot => now < slot.2 <= slot.1 - MIN_BUFFER_MS) slots /\
              (slots <> [] ->
                 Z.of_nat (length evs) <= maxEvents /\
                 (repeatMode a = Count ->
                  eventsCreated ps + Z.of_nat (length evs) <= repeatCount a))).
  { intros [= <-]. exists []. rewrite app_nil_r. repeat split; try done.
    apply sublist_nil_l. }
  assert (Hskip : calculatePendingEvents_loop tza a profile ps now g k maxEvents m rest
                    produced = Some evs ->
            exists slots, evs = produced ++ recordsOf g k slots /\
              slots.*1 `sublist_of` s :: rest /\
              Forall (fun slot => now < slot.2 <= slot.1 - MIN_BUFFER_MS) slots /\
              (slots <> [] ->
                 Z.of_nat (length evs) <= maxEvents /\
                 (repeatMode a = Count ->
                  eventsCreated ps + Z.of_nat (length evs) <= repeatCount a))).
  { intros H. destruct (IH _ _ H) as (slots & -> & Hsub & Hall & Hlen).
    exists slots. repeat split; try done; try (by apply Hlen). by apply sublist_cons. }
  destruct (Z.leb_spec maxEvents (Z.of_nat (length produced))) as [|Hmax]; [done|].
  destruct (bool_decide (repeatMode a = Count) && _) eqn:Hcount; [done|].
  destruct (match m with Some _ => _ | None => _ end); [done|].
  destruct (slotPublishTime _ _ _ _ _ _ _) as [raw|]; [|done].
  destruct (Z.leb_spec (capPublishTime s raw) now) as [|Hnow]; [done|].
  intros H. destruct (IH _ _ H) as (slots & -> & Hsub & Hall & Hlen).
  exists ((s, capPublishTime s raw) :: slots).
  split; [by rewrite <- app_assoc|]. split; [by apply sublist_skip|]. split.
  - constructor; [|done]. cbn. split; [done|]. apply capPublishTime_bound.
  - intros _. destruct slots as [|slot slots].
    + rewrite !length_app. cbn. split; [lia|]. intros Hc.
      rewrite bool_decide_eq_true_2 in Hcount by done. cbn in Hcount.
      apply Z.ltb_ge in Hcount. lia.
    + by apply Hlen.
Qed.

Lemma calculatePendingEvents_slots tza g k profile dateOptions maxEvents m now st st' evs :
  calculatePendingEvents tza g k profile dateOptions maxEvents m now st = (st', Some evs) ->
  exists slots,
    evs = recordsOf g k slots /\
    slots.*1 `sublist_of` dateOptions /\
    Forall (fun slot => now < slot.2 <= slot.1 - MIN_BUFFER_MS) slots /\
    (slots <> [] ->
       Z.of_nat (length evs) <= maxEvents /\
       forall p a, profile = Some p -> automation p = Some a -> repeatMode a = Count ->
         eventsCreated (getOrCreateProfileState (getProfileStateKey g k) st).2
           + Z.of_nat (length evs) <= repeatCount a).
Proof.
  assert (Hnil : forall s, (s, Some (@nil PendingEvent)) = (st', Some evs) ->
            exists slots, evs = recordsOf g k slots /\
              slots.*1 `sublist_of` dateOptions /\
              Forall (fun slot => now < slot.2 <= slot.1 - MIN_BUFFER_MS) slots /\
              (slots <> [] ->
                 Z.of_nat (length evs) <= maxEvents /\
                 forall p a, profile = Some p -> automation p = Some a ->
                   repeatMode a = Count ->
                   eventsCreated (getOrCreateProfileState (getProfileStateKey g k) st).2
                     + Z.of_nat (length evs) <= repeatCount a)).
  { intros s [= _ <-]. exists []. repeat split; try done. apply sublist_nil_l. }
  unfold calculatePendingEvents.
  destruct profile as [p|]; [|apply Hnil].
  destruct (automation p) as [a|] eqn:Ha; [|apply Hnil].
  destruct (_ || _); [apply Hnil|].
  destruct dateOptions as [|s rest]; [apply Hnil|].
  destruct (getOrCreateProfileState _ _) as [st1 ps].
  destruct (_ && _); [apply Hnil|].
  intros H.
  destruct (calculatePendingEvents_loop_slots tza a p ps now g k maxEvents m (s :: rest)
              [] evs (f_equal snd H)) as (slots & -> & Hsub & Hall & Hlen).
  exists slots. split; [done|]. split; [done|]. split; [done|].
  intros Hne. destruct (Hlen Hne) as [H1 H2]. split; [done|].
  intros p' a' [= <-] Ha' Hc. rewrite Ha in Ha'. injection Ha' as <-. by apply H2.
Qed.

Lemma newPendingEvent_identity g k s p :
  g <> EmptyString -> k <> EmptyString -> Z.abs s <= MAX_TIME_VALUE ->
  let e := newPendingEvent g k s p in
  id e = ("pending_" +:+ g +:+ "_" +:+ k +:+ "_" +:+ Z_to_string s)%string /\
  slotKey e = Some (id e) /\
  getPendingSlotStartMs e = Some (dec_of_Z s) /\
  getPendingSlotKeys e = [id e].
Proof.
  intros Hg Hk Hs. cbv zeta.
  assert (Hkey : buildPendingEventId g k (Some (toISOString s))
                 = Some ("pending_" +:+ g +:+ "_" +:+ k +:+ "_" +:+ Z_to_string s)%string).
  { unfold buildPendingEventId. rewrite parse_toISOString.
    apply truthy_string_ne in Hg, Hk. by rewrite Hg, Hk. }
  unfold newPendingEvent. cbv zeta. rewrite Hkey.
  split; [done|]. split; [done|]. split.
  - unfold getPendingSlotStartMs. cbn [slotKey id]. by rewrite slot_key_parse.
  - unfold getPendingSlotKeys, getPendingSlotKey.
    cbn [slotKey id groupId profileKey eventStartsAt]. rewrite Hkey.
    change (truthy_ostring (Some ("pending_" +:+ g +:+ "_" +:+ k +:+ "_"
                                  +:+ Z_to_string s)%string)) with true.
    cbn iota. by rewrite bool_decide_eq_true_2 by apply list_elem_of_here.
Qed.

Lemma newPendingEvent_id_inj g k s1 p1 s2 p2 :
  Z.abs s1 <= MAX_TIME_VALUE -> Z.abs s2 <= MAX_TIME_VALUE ->
  id (newPendingEvent g k s1 p1) = id (newPendingEvent g k s2 p2) -> s1 = s2.
Proof.
  intros H1 H2. unfold newPendingEvent, buildPendingEventId. cbv zeta.
  rewrite !parse_toISOString.
  assert (Hinj : ("pending_" +:+ g +:+ "_" +:+ k +:+ "_" +:+ Z_to_string s1
                  = "pending_" +:+ g +:+ "_" +:+ k +:+ "_" +:+ Z_to_string s2)%string ->
                 s1 = s2).
  { intros E. pose proof (slot_key_parse g k s1 H1) as P1.
    rewrite E, slot_key_parse in P1 by done. by injection P1. }
  destruct (_ || _); cbn; exact Hinj.
Qed.

(** X2.  The records of an expansion carry the slot key of their start
    as id and as [slotKey]; it is their only slot key and gives the start
    back.  Distinct dates therefore give records with distinct ids. *)
Theorem calculatePendingEvents_slot_identity (tza : Z) (g k : string)
  (profile : option Profile) (dateOptions : list Z) (maxEvents : Z)
  (minEventStartMs : option Dec) (now : Z) (st st' : Engine) (evs : list PendingEvent) :
  g <> EmptyString -> k <> EmptyString ->
  NoDup dateOptions ->
  Forall (fun s => Z.abs s <= MAX_TIME_VALUE) dateOptions ->
  calculatePendingEvents tza g k profile dateOptions maxEvents minEventStartMs now st
    = (st', Some evs) ->
  NoDup (id <$> evs) /\
  Forall (fun e =>
            slotKey e = Some (id e) /\ getPendingSlotKeys e = [id e] /\
            exists s, s ∈ dateOptions /\
                      eventStartsAt e = Some (Iso s) /\
                      id e = ("pending_" +:+ g +:+ "_" +:+ k +:+ "_"
                              +:+ Z_to_string s)%string /\
                      getPendingSlotStartMs e = Some (dec_of_Z s)) evs.
Proof.
  intros Hg Hk Hnd Hrange H.
  destruct (calculatePendingEvents_slots _ _ _ _ _ _ _ _ _ _ _ H)
    as (slots & -> & Hsub & _ & _).
  assert (Hin : forall slot, slot ∈ slots ->
            slot.1 ∈ dateOptions /\ Z.abs slot.1 <= MAX_TIME_VALUE).
  { intros slot Hslot.
    assert (slot.1 ∈ dateOptions).
    { eapply sublist_subseteq; [exact Hsub|]. by apply list_elem_of_fmap_2. }
    split; [done|]. by eapply Forall_forall in Hrange. }
  split.
  - unfold recordsOf. rewrite <- list_fmap_compose.
    apply NoDup_fmap_2_strong.
    + intros [s1 p1] [s2 p2] H1 H2 E.
      apply (newPendingEvent_id_inj g k s1 p1 s2 p2) in E;
        [|by apply (Hin _ H1)|by apply (Hin _ H2)].
      subst s2. f_equal.
      assert (Hnd1 : NoDup slots.*1) by (by eapply sublist_NoDup).
      clear -H1 H2 Hnd1.
      induction slots as [|[s p] r IHr]; [by apply elem_of_nil in H1|].
      cbn in Hnd1. apply NoDup_cons in Hnd1 as [Hs Hr].
      apply elem_of_cons in H1 as [[= -> ->]|H1], H2 as [[= ->]|H2]; try done.
      * exfalso. apply Hs. by apply (list_elem_of_fmap_2 fst _ (s, p2)).
      * exfalso. apply Hs. by apply (list_elem_of_fmap_2 fst _ (s, p1)).
      * by apply IHr.
    + assert (Hnd1 : NoDup slots.*1) by (by eapply sublist_NoDup).
      by apply NoDup_fmap_1 in Hnd1.
  - apply Forall_fmap, Forall_forall. intros [s p] Hslot.
    destruct (Hin _ Hslot) as [Hs Hr]. cbn in Hs, Hr.
    destruct (newPendingEvent_identity g k s p Hg Hk Hr) as (Hid & Hkey & Hstart & Hkeys).
    cbn. split; [done|]. split; [done|]. by exists s.
Qed.

Lemma calculatePendingEvents_slot_identity_witness :
  id <$> [weeklyEvent] = ["pending_grp_weekly_1780308000000"%string] /\
  NoDup (id <$> [weeklyEvent]).
Proof.
  split; [reflexivity|].
  eapply (calculatePendingEvents_slot_identity 0 "grp" "weekly" (Some weeklyProfile)
            [june1_1000] 10 None (june1_1000 - 4 * 24 * 60 * 60 * 1000) oneEventEngine).
  - done.
  - done.
  - apply NoDup_singleton.
  - apply Forall_singleton. by vm_compute.
  - reflexivity.
Defined.

(** X3.  What an expansion can return: scheduled records without
    overrides, in the order of the dates, each with a publish time that
    is still ahead and at least 30 minutes before the start; never more
    than [maxEvents] of them, and in [count] mode never more than the
    repeat count leaves. *)
Theorem calculatePendingEvents_bounds (tza : Z) (g k : string)
  (profile : option Profile) (dateOptions : list Z) (maxEvents : Z)
  (minEventStartMs : option Dec) (now : Z) (st st' : Engine) (evs : list PendingEvent) :
  calculatePendingEvents tza g k profile dateOptions maxEvents minEventStartMs now st
    = (st', Some evs) ->
  (exists starts, starts `sublist_of` dateOptions /\
                  eventStartsAt <$> evs = (fun s => Some (Iso s)) <$> starts) /\
  Forall (fun e => status e = Scheduled /\ manualOverrides e = None /\
                   exists p s, scheduledPublishTime e = Some (Iso p) /\
                               eventStartsAt e = Some (Iso s) /\
                               now < p <= s - MIN_BUFFER_MS) evs /\
  (evs <> [] -> Z.of_nat (length evs) <= maxEvents) /\
  (forall p a, profile = Some p -> automation p = Some a -> repeatMode a = Count ->
     evs <> [] ->
     eventsCreated (getOrCreateProfileState (getProfileStateKey g k) st).2
       + Z.of_nat (length evs) <= repeatCount a).
Proof.
  intros H.
  destruct (calculatePendingEvents_slots _ _ _ _ _ _ _ _ _ _ _ H)
    as (slots & -> & Hsub & Hall & Hlen).
  assert (Hne : recordsOf g k slots <> [] -> slots <> []) by (by destruct slots).
  split; [|split; [|split]].
  - exists slots.*1. split; [done|]. unfold recordsOf.
    rewrite <- !list_fmap_compose. by apply list_fmap_ext.
  - apply Forall_fmap. eapply Forall_impl; [exact Hall|].
    intros [s p] Hp. cbn in *. split; [done|]. split; [done|]. by exists p, s.
  - intros Hevs. by apply Hlen, Hne.
  - intros p a Hp Ha Hc Hevs. destruct (Hlen (Hne Hevs)) as [_ Hcount]. by eapply Hcount.
Qed.

Lemma calculatePendingEvents_bounds_witness :
  Z.of_nat (length [weeklyEvent]) <= 10.
Proof.
  eapply (proj1 (proj2 (proj2
            (calculatePendingEvents_bounds 0 "grp" "weekly" (Some weeklyProfile)
               [june1_1000] 10 None (june1_1000 - 4 * 24 * 60 * 60 * 1000)
               oneEventEngine _ [weeklyEvent] ltac:(reflexivity))))).
  done.
Defined.

(** ** The queue of posts *)

Lemma insertByPriority_perm x q : insertByPriority x q ≡ₚ x :: q.
Proof.
  induction q as [|y r IH]; [done|]. cbn. destruct (priority_le y x); [|done].
  rewrite IH. apply Permutation_swap.
Qed.

Lemma sortQueue_perm_acc q acc :
  fold_left (fun sorted x => insertByPriority x sorted) q acc ≡ₚ q ++ acc.
Proof.
  revert acc. induction q as [|x r IH]; intros acc; [done|]. cbn.
  rewrite IH, insertByPriority_perm. by rewrite Permutation_middle.
Qed.

Lemma sortQueue_perm q : sortQueue q ≡ₚ q.
Proof. unfold sortQueue. by rewrite sortQueue_perm_acc, app_nil_r. Qed.

Lemma insertByPriority_sorted x q :
  is_Some (q_priority x) -> Forall (fun i => is_Some (q_priority i)) q ->
  StronglySorted priorityOrder q -> StronglySorted priorityOrder (insertByPriority x q).
Proof.
  intros [px Hx] Hnum Hs. induction Hs as [|y r Hr IH Hy]; cbn.
  { repeat constructor. }
  apply Forall_cons in Hnum as [[py Hpy] Hnum].
  unfold priority_le. rewrite Hpy, Hx.
  destruct (Z.leb_spec py px) as [Hle|Hlt].
  - constructor; [by apply IH|].
    rewrite (insertByPriority_perm x r). constructor; [|done].
    by exists py, px.
  - constructor; [by constructor|]. constructor.
    + exists px, py. repeat split; try done. lia.
    + eapply Forall_impl; [exact Hy|]. intros z (a & b & Ha & Hb & Hab).
      rewrite Hpy in Ha. injection Ha as <-. exists px, b. repeat split; try done. lia.
Qed.

Lemma sortQueue_sorted q :
  Forall (fun i => is_Some (q_priority i)) q -> StronglySorted priorityOrder (sortQueue q).
Proof.
  unfold sortQueue.
  assert (H : forall acc, Forall (fun i => is_Some (q_priority i)) acc ->
            StronglySorted priorityOrder acc ->
            Forall (fun i => is_Some (q_priority i)) q ->
            StronglySorted priorityOrder
              (fold_left (fun sorted x => insertByPriority x sorted) q acc)).
  { induction q as [|x r IH]; intros acc Hacc Hs Hq; [done|]. cbn.
    apply Forall_cons in Hq as [Hx Hr]. apply IH; [|by apply insertByPriority_sorted|done].
    rewrite (insertByPriority_perm x acc). by constructor. }
  intros Hq. apply H; [done|constructor|done].
Qed.

Lemma dequeueEventPost_queue pendingEventId st :
  queue (dequeueEventPost pendingEventId st) = removeQueued pendingEventId (queue st).
Proof.
  unfold dequeueEventPost. cbn. induction (queue st) as [|x r IH]; [done|].
  cbn. destruct (bool_decide _); [done|]. by rewrite IH.
Qed.

Lemma removeQueued_sublist pendingEventId q : removeQueued pendingEventId q `sublist_of` q.
Proof.
  induction q as [|x r IH]; [done|]. cbn. destruct (bool_decide _).
  - by apply sublist_cons.
  - by apply sublist_skip.
Qed.

Lemma removeQueued_gone pendingEventId q :
  NoDup (q_pendingEventId <$> q) ->
  pendingEventId ∉ q_pendingEventId <$> removeQueued pendingEventId q.
Proof.
  induction q as [|x r IH]; cbn; [intros _; apply not_elem_of_nil|].
  intros [Hx Hr]%NoDup_cons. destruct (bool_decide_reflect (q_pendingEventId x = pendingEventId)).
  - by subst.
  - cbn. apply not_elem_of_cons. split; [done|]. by apply IH.
Qed.

Lemma removeQueued_absent pendingEventId q :
  pendingEventId ∉ q_pendingEventId <$> q -> removeQueued pendingEventId q = q.
Proof.
  induction q as [|x r IH]; cbn; [done|].
  intros [Hx Hr]%not_elem_of_cons. rewrite bool_decide_eq_false_2 by done. by rewrite IH.
Qed.

Lemma isGroupRateLimited_frame now g st :
  set_groups ∅ (isGroupRateLimited now g st).1 = set_groups ∅ st.
Proof.
  unfold isGroupRateLimited, pruneRateLimitHistory, getRateLimitState, putRateLimitState.
  repeat (case_match; simplify_eq; cbn in *); done.
Qed.

Lemma getRateLimitWaitMs_frame now g st :
  set_groups ∅ (getRateLimitWaitMs now g st).1 = set_groups ∅ st.
Proof.
  unfold getRateLimitWaitMs, pruneRateLimitHistory, getRateLimitState, putRateLimitState.
  repeat (case_match; simplify_eq; cbn in *); done.
Qed.

Lemma processQueue_finish_queue now st : queue (processQueue_finish now st) = queue st.
Proof.
  unfold processQueue_finish. cbn. destruct (queue st) eqn:E; [done|].
  destruct (processTimeout st); cbn; done.
Qed.

Lemma executeAutomatedPostInternal_queue now l st :
  queue (executeAutomatedPostInternal now l st).1 = queue st.
Proof.
  unfold executeAutomatedPostInternal.
  destruct (resolveEventDetails _ _); [|done].
  by destruct (Date_parse _).
Qed.

Lemma processQueue_loop_queue now q :
  forall st, queue st = q -> exists n, queue (processQueue_loop now q st) = drop n q.
Proof.
  induction q as [|item rest IH]; intros st Hq; cbn [processQueue_loop].
  { exists 0%nat. by rewrite processQueue_finish_queue. }
  pose proof (f_equal queue (isGroupRateLimited_frame now (q_groupId item) st)) as H1.
  destruct (isGroupRateLimited now (q_groupId item) st) as [st1 limited].
  cbn in H1. destruct limited.
  - pose proof (f_equal queue (getRateLimitWaitMs_frame now (q_groupId item) st1)) as H2.
    destruct (getRateLimitWaitMs now (q_groupId item) st1) as [st2 w]. cbn in H2.
    exists 0%nat. unfold setTimeout. rewrite processQueue_finish_queue. cbn.
    destruct (processTimeout st2); cbn; by rewrite H2, H1.
  - assert (Hrec : exists n, queue (processQueue_loop now rest (set_queue rest st1))
                             = drop n (item :: rest)).
    { destruct (IH (set_queue rest st1) eq_refl) as [n Hn]. by exists (S n). }
    destruct (findPending (set_queue rest st1) (q_pendingEventId item)) as [l|]; [|done].
    destruct (negb _); [done|].
    set (st3 := if status_eqb _ _ then _ else _).
    assert (H3 : queue st3 = rest) by (unfold st3; by destruct (status_eqb _ _)).
    pose proof (executeAutomatedPostInternal_queue now l st3) as H4.
    destruct (executeAutomatedPostInternal now l st3) as [st4 waiting]. cbn in H4.
    exists 1%nat. destruct waiting; cbn; by rewrite H4, H3.
Qed.

Lemma processQueue_queue now st :
  exists n, queue (processQueue now st) = drop n (queue st).
Proof.
  unfold processQueue. destruct (processing st); [by exists 0%nat|].
  destruct (queue st) as [|x q] eqn:E; [by exists 0%nat|].
  by apply processQueue_loop_queue.
Qed.

Lemma insertByPriority_stable p x q :
  is_Some (q_priority x) -> Forall (fun i => is_Some (q_priority i)) q ->
  StronglySorted priorityOrder q ->
  List.filter (hasPriority p) (insertByPriority x q)
  = List.filter (hasPriority p) (q ++ [x]).
Proof.
  intros [px Hx] Hnum Hs. induction Hs as [|y r Hr IH Hy]; [done|].
  apply Forall_cons in Hnum as [[py Hpy] Hnum].
  cbn [insertByPriority]. unfold priority_le. rewrite Hpy, Hx.
  destruct (Z.leb_spec py px) as [Hle|Hlt].
  - cbn [List.filter app]. by rewrite IH.
  - rewrite List.filter_app.
    change (List.filter (hasPriority p) (x :: y :: r))
      with (if hasPriority p x then x :: List.filter (hasPriority p) (y :: r)
            else List.filter (hasPriority p) (y :: r)).
    change (List.filter (hasPriority p) [x])
      with (if hasPriority p x then [x] else []).
    destruct (hasPriority p x) eqn:E; [|by rewrite app_nil_r].
    unfold hasPriority in E. rewrite Hx in E. apply bool_decide_eq_true in E.
    injection E as ->.
    assert (Hnone : List.filter (hasPriority p) (y :: r) = []).
    { apply filter_nil_Forall. constructor.
      - unfold hasPriority. rewrite Hpy. apply bool_decide_eq_false_2. intros [= ->]. lia.
      - eapply Forall_impl; [exact Hy|]. intros z (a & b & Ha & Hb & Hab).
        rewrite Hpy in Ha. injection Ha as <-.
        unfold hasPriority. rewrite Hb. apply bool_decide_eq_false_2. intros [= ->]. lia. }
    by rewrite Hnone.
Qed.

Lemma sortQueue_stable p q :
  Forall (fun i => is_Some (q_priority i)) q ->
  List.filter (hasPriority p) (sortQueue q) = List.filter (hasPriority p) q.
Proof.
  unfold sortQueue.
  assert (H : forall acc, Forall (fun i => is_Some (q_priority i)) acc ->
            StronglySorted priorityOrder acc ->
            Forall (fun i => is_Some (q_priority i)) q ->
            List.filter (hasPriority p)
              (fold_left (fun sorted x => insertByPriority x sorted) q acc)
            = List.filter (hasPriority p) (acc ++ q)).
  { induction q as [|x r IH]; intros acc Hacc Hs Hq; cbn [fold_left].
    { by rewrite app_nil_r. }
    apply Forall_cons in Hq as [Hx Hr]. rewrite IH.
    - rewrite !List.filter_app, (insertByPriority_stable p x acc Hx Hacc Hs).
      rewrite List.filter_app. cbn [List.filter app].
      destruct (hasPriority p x); by rewrite <- ?app_assoc.
    - rewrite (insertByPriority_perm x acc). by constructor.
    - by apply insertByPriority_sorted.
    - done. }
  intros Hq. by rewrite (H [] ltac:(constructor) ltac:(constructor) Hq).
Qed.

(** X4.  [queueEventPost] leaves the engine alone when the id is already
    waiting.  Otherwise, when every priority is a number, the new item
    is sorted in by the start of its event: the sorted queue holds the
    old items and the new one, in ascending order of priority, items of
    the same priority in the order they had.  The processor takes items
    from the front only: what is left is a tail of the sorted queue, so
    an id never waits twice. *)
Theorem queueEventPost_queue (now : Z) (pendingEventId g : string)
  (priority : option Z) (st : Engine) :
  let item := mkQueueItem pendingEventId g priority in
  let st' := queueEventPost now pendingEventId g priority st in
  (pendingEventId ∈ q_pendingEventId <$> queue st -> st' = st) /\
  (pendingEventId ∉ q_pendingEventId <$> queue st ->
   Forall (fun i => is_Some (q_priority i)) (queue st) -> is_Some priority ->
     let sorted := sortQueue (queue st ++ [item]) in
     sorted ≡ₚ item :: queue st /\
     StronglySorted priorityOrder sorted /\
     (forall p, List.filter (hasPriority p) sorted
                = List.filter (hasPriority p) (queue st ++ [item])) /\
     (exists n, queue st' = drop n sorted) /\
     Forall (fun i => is_Some (q_priority i)) (queue st') /\
     (NoDup (q_pendingEventId <$> queue st) ->
      NoDup (q_pendingEventId <$> queue st'))).
Proof.
  cbv zeta.
  assert (Hex : existsb (fun item => bool_decide (q_pendingEventId item = pendingEventId))
                        (queue st) = true <->
                pendingEventId ∈ q_pendingEventId <$> queue st).
  { rewrite existsb_exists, list_elem_of_fmap. split.
    - intros (x & Hx & Hb). exists x. apply bool_decide_eq_true in Hb.
      split; [done|]. by apply list_elem_of_In.
    - intros (x & -> & Hx). exists x. split; [by apply list_elem_of_In|].
      by apply bool_decide_eq_true. }
  split.
  { intros Hin. unfold queueEventPost. apply Hex in Hin. by rewrite Hin. }
  intros Hnot Hq Hp.
  set (item := mkQueueItem pendingEventId g priority).
  assert (Hnum : Forall (fun i => is_Some (q_priority i)) (queue st ++ [item])).
  { apply Forall_app. split; [done|]. by apply Forall_singleton. }
  assert (Hperm : sortQueue (queue st ++ [item]) ≡ₚ item :: queue st).
  { rewrite sortQueue_perm. by rewrite Permutation_app_comm. }
  assert (Hnex : existsb (fun item => bool_decide (q_pendingEventId item = pendingEventId))
                         (queue st) = false).
  { apply not_true_is_false. intros E. by apply Hnot, Hex. }
  assert (Htail : exists n, queue (queueEventPost now pendingEventId g priority st)
                            = drop n (sortQueue (queue st ++ [item]))).
  { unfold queueEventPost. rewrite Hnex.
    apply (processQueue_queue now (set_queue (sortQueue (queue st ++ [item])) st)). }
  split; [exact Hperm|]. split; [by apply sortQueue_sorted|].
  split; [intros p; by apply sortQueue_stable|]. split; [exact Htail|].
  destruct Htail as [n ->]. split.
  - apply Forall_drop. by rewrite sortQueue_perm.
  - intros Hnd. eapply sublist_NoDup; [|apply fmap_sublist, sublist_drop].
    rewrite Hperm. cbn. by apply NoDup_cons.
Qed.

Lemma queueEventPost_queue_witness :
  let later := mkQueueItem "pending_grp_weekly_1780912800000" "grp"
                           (Some (june1_1000 + 7 * ONE_DAY_MS)) in
  let item := mkQueueItem "pending_grp_weekly_1780308000000" "grp" (Some june1_1000) in
  let st := set_queue [later] (set_processing true oneEventEngine) in
  queue (queueEventPost 5000 "pending_grp_weekly_1780308000000" "grp" (Some june1_1000) st)
  = [item; later] /\
  StronglySorted priorityOrder (sortQueue ([later] ++ [item])) /\
  Forall (fun i => is_Some (q_priority i))
    (queue (queueEventPost 5000 "pending_grp_weekly_1780308000000" "grp"
              (Some june1_1000) st)).
Proof.
  intros later item st. split; [by vm_compute|].
  destruct (queueEventPost_queue 5000 "pending_grp_weekly_1780308000000" "grp"
              (Some june1_1000) st) as [_ H].
  destruct H as (_ & Hsorted & _ & _ & Hnum & _).
  - apply (bool_decide_unpack _). by vm_compute.
  - repeat constructor. by eexists.
  - by eexists.
  - split; [exact Hsorted|exact Hnum].
Defined.

(** ** Cancelling jobs *)

(** X5.  [cancelJob] forgets the timer of the id and clears it, so that
    it never fires, and takes the id out of the queue; the jobs of other
    ids, the records and the two lists are not touched. *)
Theorem cancelJob_effect (pendingEventId : string) (st : Engine) :
  let st' := cancelJob pendingEventId st in
  scheduledJobs st' = delete pendingEventId (scheduledJobs st) /\
  (forall h, scheduledJobs st !! pendingEventId = Some h ->
     timers st' = delete h (timers st) /\
     forall later, fireTimer later h st' = st') /\
  (scheduledJobs st !! pendingEventId = None -> timers st' = timers st) /\
  queue st' = removeQueued pendingEventId (queue st) /\
  (NoDup (q_pendingEventId <$> queue st) ->
     pendingEventId ∉ q_pendingEventId <$> queue st') /\
  heap st' = heap st /\ pendingEvents st' = pendingEvents st /\
  deletedEvents st' = deletedEvents st /\ trace st' = trace st.
Proof.
  cbv zeta. unfold cancelJob.
  destruct (scheduledJobs st !! pendingEventId) as [h|] eqn:Hjob.
  - rewrite dequeueEventPost_queue. cbn.
    split; [done|]. split.
    { intros h' [= <-]. split; [done|]. intros later.
      unfold fireTimer. cbn. by rewrite lookup_delete_eq. }
    split; [done|]. split; [done|]. split; [|done].
    intros Hnd. by apply removeQueued_gone.
  - rewrite dequeueEventPost_queue. cbn.
    split; [by rewrite delete_id|]. split; [done|]. split; [done|].
    split; [done|]. split; [|done].
    intros Hnd. by apply removeQueued_gone.
Qed.

Lemma cancelAllJobs_timers (st : Engine) :
  let st1 := map_fold (fun (_ : string) timeoutId s => clearTimeout timeoutId s) st
                      (scheduledJobs st) in
  set_timers ∅ 0 st1 = set_timers ∅ 0 st /\
  (forall i h, scheduledJobs st !! i = Some h -> timers st1 !! h = None) /\
  (forall h, (forall i, scheduledJobs st !! i <> Some h) ->
             timers st1 !! h = timers st !! h).
Proof.
  cbv zeta.
  apply (map_fold_weak_ind
           (fun (r : Engine) (m : gmap string nat) =>
              set_timers ∅ 0 r = set_timers ∅ 0 st /\
              (forall i h, m !! i = Some h -> timers r !! h = None) /\
              (forall h, (forall i, m !! i <> Some h) -> timers r !! h = timers st !! h))).
  - split; [done|]. split; [|done]. intros i h Hi. by rewrite lookup_empty in Hi.
  - intros i x m r Hi (Hframe & Hin & Hout). split; [exact Hframe|]. split.
    + intros j h Hj. cbn. destruct (decide (x = h)) as [->|Hne].
      * by rewrite lookup_delete_eq.
      * rewrite lookup_delete_ne by done.
        destruct (decide (i = j)) as [->|Hij].
        -- rewrite lookup_insert_eq in Hj. by injection Hj.
        -- rewrite lookup_insert_ne in Hj by done. by eapply Hin.
    + intros h Hno. cbn.
      assert (x <> h) by (intros ->; apply (Hno i); by rewrite lookup_insert_eq).
      rewrite lookup_delete_ne by done. apply Hout. intros j Hj. apply (Hno j).
      rewrite lookup_insert_ne; [done|]. intros ->. by rewrite Hi in Hj.
Qed.

(** X6.  [cancelAllJobs] leaves no job, no queued post and no pending
    run of the processor: every timer a job or the processor held is
    cleared and all other timers stay.  It does not touch the records,
    and a publish that is awaiting its answer stays suspended. *)
Theorem cancelAllJobs_effect (st : Engine) :
  let st' := cancelAllJobs st in
  scheduledJobs st' = ∅ /\ queue st' = [] /\
  processing st' = false /\ processTimeout st' = None /\
  (forall i h, scheduledJobs st !! i = Some h -> timers st' !! h = None) /\
  (forall h, processTimeout st = Some h -> timers st' !! h = None) /\
  (forall h, (forall i, scheduledJobs st !! i <> Some h) -> processTimeout st <> Some h ->
             timers st' !! h = timers st !! h) /\
  heap st' = heap st /\ pendingEvents st' = pendingEvents st /\
  deletedEvents st' = deletedEvents st /\ suspended st' = suspended st /\
  trace st' = trace st.
Proof.
  cbv zeta. unfold cancelAllJobs.
  destruct (cancelAllJobs_timers st) as (Hframe & Hin & Hout).
  set (st1 := map_fold _ st (scheduledJobs st)) in *.
  assert (Hpt : processTimeout st1 = processTimeout st)
    by exact (f_equal processTimeout Hframe).
  cbn [processTimeout set_queue set_scheduledJobs]. rewrite Hpt.
  pose proof (f_equal heap Hframe) as Hh. pose proof (f_equal pendingEvents Hframe) as Hp.
  pose proof (f_equal deletedEvents Hframe) as Hd.
  pose proof (f_equal suspended Hframe) as Hs. pose proof (f_equal trace Hframe) as Ht.
  cbn in Hh, Hp, Hd, Hs, Ht.
  destruct (processTimeout st) as [hp|] eqn:Hproc; cbn.
  - split; [done|]. split; [done|]. split; [done|]. split; [done|]. split; [|split; [|split]].
    + intros i h Hi. destruct (decide (hp = h)) as [->|Hne].
      * by rewrite lookup_delete_eq.
      * rewrite lookup_delete_ne by done. by eapply Hin.
    + intros h [= ->]. by rewrite lookup_delete_eq.
    + intros h Hno Hne. rewrite lookup_delete_ne by congruence. by apply Hout.
    + done.
  - split; [done|]. split; [done|]. split; [done|]. split; [done|]. split; [|split; [|split]].
    + intros i h Hi. by eapply Hin.
    + done.
    + intros h Hno _. by apply Hout.
    + done.
Qed.

(** ** The queue processor *)

(** X7.  When the group of the first queued post is rate limited, an
    idle processor posts nothing and keeps the queue.  The timer it sets
    for the reported wait is cleared again at once by the follow-up check
    after the loop: what remains is one wake-up, 1000 ms later. *)
Theorem processQueue_rate_limited (now : Z) (item : QueueItem) (rest : list QueueItem)
  (st : Engine) :
  processing st = false ->
  queue st = item :: rest ->
  (isGroupRateLimited now (q_groupId item) st).2 = true ->
  let st' := processQueue now st in
  queue st' = item :: rest /\ processing st' = false /\
  trace st' = trace st /\ heap st' = heap st /\ suspended st' = suspended st /\
  scheduledJobs st' = scheduledJobs st /\
  processTimeout st' = Some (S (nextTimer st)) /\
  timers st' !! S (nextTimer st) = Some (mkTimer now (Some 1000) CbProcessQueue) /\
  timers st' !! nextTimer st = None /\
  (forall h, processTimeout st = Some h -> (h < nextTimer st)%nat ->
             timers st' !! h = None).
Proof.
  intros Hproc Hq Hlim. cbv zeta. unfold processQueue. rewrite Hproc, Hq.
  cbn [processQueue_loop].
  pose proof (isGroupRateLimited_frame now (q_groupId item) (set_processing true st)) as H1.
  assert (Hlim' : (isGroupRateLimited now (q_groupId item) (set_processing true st)).2 = true).
  { revert Hlim. unfold isGroupRateLimited, pruneRateLimitHistory, getRateLimitState,
      putRateLimitState. repeat (case_match; simplify_eq; cbn in *); done. }
  destruct (isGroupRateLimited now (q_groupId item) (set_processing true st))
    as [st1 limited]. cbn in H1, Hlim'. subst limited.
  pose proof (getRateLimitWaitMs_frame now (q_groupId item) st1) as H2.
  destruct (getRateLimitWaitMs now (q_groupId item) st1) as [st2 w]. cbn in H2.
  rewrite H1 in H2.
  assert (Hf : forall {A} (f : Engine -> A),
            (forall s, f (set_groups ∅ s) = f s) -> f st2 = f (set_processing true st)).
  { intros A f Hfs. rewrite <- (Hfs st2), H2. apply Hfs. }
  pose proof (Hf _ queue (fun _ => eq_refl)) as Eq.
  pose proof (Hf _ trace (fun _ => eq_refl)) as Et.
  pose proof (Hf _ heap (fun _ => eq_refl)) as Eh.
  pose proof (Hf _ suspended (fun _ => eq_refl)) as Es.
  pose proof (Hf _ scheduledJobs (fun _ => eq_refl)) as Ej.
  pose proof (Hf _ processTimeout (fun _ => eq_refl)) as Ep.
  pose proof (Hf _ timers (fun _ => eq_refl)) as Etm.
  pose proof (Hf _ nextTimer (fun _ => eq_refl)) as En.
  cbn in Eq, Et, Eh, Es, Ej, Ep, Etm, En. rewrite Hq in Eq.
  unfold processQueue_finish, setTimeout.
  destruct (processTimeout st2) as [h0|] eqn:Hpt; cbn; rewrite Eq; cbn;
    rewrite ?Et, ?Eh, ?Es, ?Ej, ?En, ?Etm.
  - repeat split; try done.
    + by rewrite lookup_insert_eq.
    + rewrite lookup_insert_ne by lia. by rewrite lookup_delete_eq.
    + intros h Hh Hlt. rewrite <- Ep in Hh. injection Hh as <-.
      rewrite lookup_insert_ne, lookup_delete_ne, lookup_insert_ne by lia.
      by rewrite lookup_delete_eq.
  - repeat split; try done.
    + by rewrite lookup_insert_eq.
    + rewrite lookup_insert_ne by lia. by rewrite lookup_delete_eq.
    + intros h Hh. by rewrite <- Ep in Hh.
Qed.

Lemma processQueue_rate_limited_witness :
  let st := set_queue [mkQueueItem "pending_grp_weekly_1780308000000" "grp"
                                   (Some june1_1000)]
              (set_groups {[ "grp" := mkGroupRate [] 0 (Some 9000) ]} oneEventEngine) in
  processTimeout (processQueue 5000 st) = Some 1%nat /\
  timers (processQueue 5000 st) !! 1%nat = Some (mkTimer 5000 (Some 1000) CbProcessQueue) /\
  timers (processQueue 5000 st) !! 0%nat = None.
Proof.
  intros st.
  destruct (processQueue_rate_limited 5000
              (mkQueueItem "pending_grp_weekly_1780308000000" "grp" (Some june1_1000)) []
              st)
    as (_ & _ & _ & _ & _ & _ & Hp & Ht & Hw & _);
    [reflexivity|reflexivity|by vm_compute|].
  split; [exact Hp|]. split; [exact Ht|exact Hw].
Defined.

Lemma processQueue_finish_trace now st :
  trace (processQueue_finish now st) = trace st /\
  suspended (processQueue_finish now st) = suspended st.
Proof.
  unfold processQueue_finish. cbn. destruct (queue st); [done|].
  destruct (processTimeout st); done.
Qed.

Lemma findPending_In st pendingEventId l :
  findPending st pendingEventId = Some l ->
  l ∈ pendingEvents st /\ id (deref st l) = pendingEventId.
Proof.
  unfold findPending. intros [Hin Hb]%find_some.
  split; [by apply list_elem_of_In|]. by apply bool_decide_eq_true in Hb.
Qed.

Lemma processQueue_loop_post now q :
  forall s,
  let s' := processQueue_loop now q s in
  trace s' = trace s \/
  (exists saved deleted, trace s' = trace s ++ [SavePendingEvents saved deleted]) \/
  (exists l details startTime endTime,
     trace s' = trace s ++ [CreateEvent (groupId (deref s l)) details startTime endTime] /\
     suspended s' = Some (AwaitingPublish l) /\
     l ∈ pendingEvents s /\
     is_active_status (status (deref s l)) = true).
Proof.
  induction q as [|item rest IH]; intros s; cbv zeta; cbn [processQueue_loop].
  { left. apply processQueue_finish_trace. }
  pose proof (isGroupRateLimited_frame now (q_groupId item) s) as H1.
  destruct (isGroupRateLimited now (q_groupId item) s) as [s1 limited]. cbn in H1.
  pose proof (f_equal trace H1) as Et. pose proof (f_equal heap H1) as Eh.
  pose proof (f_equal pendingEvents H1) as Ep. cbn in Et, Eh, Ep.
  destruct limited.
  - pose proof (getRateLimitWaitMs_frame now (q_groupId item) s1) as H2.
    destruct (getRateLimitWaitMs now (q_groupId item) s1) as [s2 w]. cbn in H2.
    pose proof (f_equal trace H2) as Et2. cbn in Et2.
    left. unfold setTimeout.
    rewrite (proj1 (processQueue_finish_trace now _)). cbn.
    destruct (processTimeout s2); cbn; by rewrite Et2, Et.
  - assert (Hrec : let s' := processQueue_loop now rest (set_queue rest s1) in
              trace s' = trace s \/
              (exists saved deleted, trace s' = trace s ++ [SavePendingEvents saved deleted]) \/
              (exists l details startTime endTime,
                 trace s' = trace s ++ [CreateEvent (groupId (deref s l)) details
                                                    startTime endTime] /\
                 suspended s' = Some (AwaitingPublish l) /\
                 l ∈ pendingEvents s /\
                 is_active_status (status (deref s l)) = true)).
    { specialize (IH (set_queue rest s1)). cbv zeta in IH.
      cbn [trace pendingEvents set_queue] in IH. rewrite Et, Ep in IH.
      destruct IH as [IH | [IH | (l & d & a & b & IH)]]; [by left | by right; left |].
      right; right. exists l, d, a, b.
      rewrite <- (deref_same (set_queue rest s1) s l) by done. exact IH. }
    destruct (findPending (set_queue rest s1) (q_pendingEventId item)) as [l|] eqn:Hfind;
      [|exact Hrec].
    destruct (is_active_status (status (deref (set_queue rest s1) l))) eqn:Hact;
      cbn [negb]; [|exact Hrec].
    apply findPending_In in Hfind as [Hin _]. cbn [pendingEvents set_queue] in Hin.
    rewrite Ep in Hin.
    rewrite (deref_same (set_queue rest s1) s l) in Hact by done.
    set (s3 := if status_eqb _ _ then _ else _).
    assert (H3 : trace s3 = trace s /\ groupId (deref s3 l) = groupId (deref s l)).
    { unfold s3. destruct (status_eqb _ _).
      - split; [done|]. rewrite deref_update, (deref_same (set_queue rest s1) s l) by done.
        by case_decide.
      - split; [done|]. by rewrite (deref_same (set_queue rest s1) s l). }
    destruct H3 as [Et3 Eg3].
    unfold executeAutomatedPostInternal.
    destruct (resolveEventDetails s3 (id (deref s3 l))) as [details|].
    + destruct (Date_parse (eventStartsAt (deref s3 l))) as [startTime|].
      * right; right. exists l, details, (toISOString startTime),
          (toISOString (startTime + (if ed_duration details =? 0 then 120
                                     else ed_duration details) * 60 * 1000)).
        cbn. by rewrite Et3, Eg3.
      * left. cbn. done.
    + right; left. eexists _, _. cbn. by rewrite Et3.
Qed.

(** X8.  One run of the processor makes at most one call of
    [createEventFn], and only for a record of the pending list whose
    status is [scheduled], [missed] or [queued]; it then waits for the
    answer.  A record that is published, cancelled or deleted is never
    posted by it. *)
Theorem processQueue_posts_one_active_record (now : Z) (st : Engine) :
  let st' := processQueue now st in
  trace st' = trace st \/
  (exists saved deleted, trace st' = trace st ++ [SavePendingEvents saved deleted]) \/
  (exists l details startTime endTime,
     trace st' = trace st ++ [CreateEvent (groupId (deref st l)) details startTime endTime] /\
     suspended st' = Some (AwaitingPublish l) /\
     l ∈ pendingEvents st /\
     is_active_status (status (deref st l)) = true).
Proof.
  cbv zeta. unfold processQueue.
  destruct (processing st); [by left|].
  destruct (queue st) as [|item rest]; [by left|].
  apply (processQueue_loop_post now (item :: rest) (set_processing true st)).
Qed.

(** ** What the answer of [createEventFn] does to the record *)

(** X9.  A publish that fails without a rate-limit signal, or whose call
    throws, changes neither the record nor the rate-limit state nor the
    queue and saves nothing: it only sets a timer of 15 minutes that
    hands the record to the queue again. *)
Theorem failed_publish_retries (now : Z) (l : loc) (outcome : Settled) (st : Engine) :
  outcome = Rejected \/
  (exists code httpStatus message,
      outcome = Resolved (PublishFailed code httpStatus message) /\
      isRateLimit code httpStatus message = false) ->
  let st' := executeAutomatedPostInternal_settled now l outcome st in
  timerSet now l (CbPost l) (15 * 60 * 1000) st st' /\
  groups st' = groups st /\ queue st' = queue st /\
  pendingEvents st' = pendingEvents st /\ deletedEvents st' = deletedEvents st /\
  automationState st' = automationState st /\
  forall later s,
    timers s !! nextTimer st = timers st' !! nextTimer st ->
    fireTimer later (nextTimer st) s
      = executeAutomatedPost later l (clearTimeout (nextTimer st) s).
Proof.
  intros Hout. cbv zeta.
  assert (E : executeAutomatedPostInternal_settled now l outcome st = scheduleRetry now l st).
  { destruct Hout as [->|(code & hs & msg & -> & Hrl)]; [done|].
    unfold executeAutomatedPostInternal_settled. by rewrite Hrl. }
  rewrite E. split; [apply setJobTimer_timerSet|]. repeat split; try done.
  intros later s Ht. unfold fireTimer. rewrite Ht. cbn. by rewrite lookup_insert_eq.
Qed.

Lemma failed_publish_retries_witness :
  timers (executeAutomatedPostInternal_settled 5000 0%nat
            (Resolved (PublishFailed None (Some 500) (Some "Internal error"%string)))
            postingEngine) !! 0%nat
  = Some (mkTimer 5000 (Some 900000) (CbPost 0%nat)).
Proof.
  destruct (failed_publish_retries 5000 0%nat
              (Resolved (PublishFailed None (Some 500) (Some "Internal error"%string)))
              postingEngine)
    as ((Ht & _) & _).
  - right. by exists None, (Some 500), (Some "Internal error"%string).
  - rewrite Ht. reflexivity.
Defined.

Lemma handleRateLimitError_groups_only now g st :
  set_groups ∅ (handleRateLimitError now g st) = set_groups ∅ st.
Proof.
  unfold handleRateLimitError, getRateLimitState.
  destruct (groups st !! g) as [s|]; destruct (EVENT_HOURLY_LIMIT <=? _); done.
Qed.

(** X10.  A publish that fails with a rate-limit signal marks the
    record [queued] with the time, saves, and leaves the record waiting
    in the queue, sorted in by the start of its event; the processor,
    which is running, is not started a second time. *)
Theorem rate_limited_publish_queues (now : Z) (l : loc)
  (code : option string) (httpStatus : option Z) (message : option string) (st : Engine) :
  processing st = true ->
  (l < length (heap st))%nat ->
  isRateLimit code httpStatus message = true ->
  let e := deref st l in
  let item := mkQueueItem (id e) (groupId e) (Date_parse (eventStartsAt e)) in
  let st' := executeAutomatedPostInternal_settled now l
               (Resolved (PublishFailed code httpStatus message)) st in
  deref st' l = set_queuedAt (Some (toISOString now)) (set_status Queued e) /\
  (forall l0, l0 <> l -> deref st' l0 = deref st l0) /\
  trace st' = trace st ++ [SavePendingEvents (snapshot st' (pendingEvents st'))
                                             (snapshot st' (deletedEvents st'))] /\
  id e ∈ q_pendingEventId <$> queue st' /\
  queue st' = (if decide (id e ∈ q_pendingEventId <$> queue st) then queue st
               else sortQueue (queue st ++ [item])) /\
  processing st' = true /\ suspended st' = suspended st /\
  timers st' = timers st.
Proof.
  intros Hproc Hl Hrl. cbv zeta. unfold executeAutomatedPostInternal_settled.
  rewrite Hrl.
  set (e := deref st l).
  pose proof (handleRateLimitError_groups_only now (groupId e) st) as Hframe.
  set (st1 := handleRateLimitError now (groupId e) st) in *.
  pose proof (f_equal heap Hframe) as Hh. pose proof (f_equal queue Hframe) as Hq1.
  pose proof (f_equal processing Hframe) as Hp1.
  pose proof (f_equal suspended Hframe) as Hs1.
  pose proof (f_equal timers Hframe) as Ht1. pose proof (f_equal trace Hframe) as Htr1.
  cbn in Hh, Hq1, Hp1, Hs1, Ht1, Htr1.
  set (f := fun e0 : PendingEvent => set_queuedAt (Some (toISOString now))
                                       (set_status Queued e0)).
  set (st2 := update l f st1).
  set (st3 := savePendingEvents st2).
  assert (Hderef : forall l0, deref st3 l0 = if decide (l = l0) then f (deref st l0)
                                             else deref st l0).
  { intros l0. unfold st3, st2. rewrite (deref_same _ (update l f st1)) by done.
    rewrite deref_update. rewrite (deref_same st1 st) by done.
    destruct (decide (l = l0)) as [<-|Hne].
    - rewrite decide_True; [done|]. split; [done|]. by rewrite Hh.
    - rewrite decide_False; [done|]. by intros [? _]. }
  assert (Hq3 : queue st3 = queue st /\ processing st3 = true /\
                suspended st3 = suspended st /\ timers st3 = timers st /\
                trace st3 = trace st ++ [SavePendingEvents (snapshot st3 (pendingEvents st3))
                                                           (snapshot st3 (deletedEvents st3))]).
  { unfold st3, st2. cbn. by rewrite Hq1, Hp1, Hs1, Ht1, Htr1. }
  destruct Hq3 as (Hq & Hp & Hs & Ht & Htr).
  unfold queueEventPost. rewrite Hq.
  assert (Hex : existsb (fun item => bool_decide (q_pendingEventId item = id e)) (queue st)
                = bool_decide (id e ∈ q_pendingEventId <$> queue st)).
  { apply eq_true_iff_eq. rewrite existsb_exists, bool_decide_eq_true, list_elem_of_fmap.
    split.
    - intros (x & Hx & Hb). exists x. apply bool_decide_eq_true in Hb.
      split; [done|]. by apply list_elem_of_In.
    - intros (x & Hx & Hin). exists x. split; [by apply list_elem_of_In|].
      by apply bool_decide_eq_true. }
  rewrite Hex.
  destruct (decide (id e ∈ q_pendingEventId <$> queue st)) as [Hin|Hnot].
  - rewrite bool_decide_eq_true_2 by done.
    rewrite Hderef, decide_True by done.
    split; [done|]. split; [intros l0 Hne; by rewrite Hderef, decide_False|].
    split; [done|]. rewrite Hq. done.
  - rewrite bool_decide_eq_false_2 by done.
    unfold processQueue. cbn [processing set_queue]. rewrite Hp.
    rewrite (deref_same _ st3) by done. rewrite Hderef, decide_True by done.
    split; [done|].
    split; [intros l0 Hne; by rewrite (deref_same _ st3), Hderef, decide_False|].
    split; [exact Htr|]. cbn [queue set_queue].
    split; [|done].
    rewrite sortQueue_perm, fmap_app. apply elem_of_app. right. cbn. apply list_elem_of_here.
Qed.

Lemma rate_limited_publish_queues_witness :
  let st' := executeAutomatedPostInternal_settled 5000 0%nat
               (Resolved (PublishFailed (Some "UPCOMING_LIMIT"%string) None None))
               postingEngine in
  status (deref st' 0%nat) = Queued /\
  queue st' = [mkQueueItem "pending_grp_weekly_1780308000000" "grp" (Some june1_1000)].
Proof.
  cbv zeta.
  destruct (rate_limited_publish_queues 5000 0%nat (Some "UPCOMING_LIMIT"%string) None None
              postingEngine eq_refl ltac:(cbn; lia) eq_refl)
    as (Hrec & _ & _ & _ & Hq & _).
  rewrite Hrec, Hq. split; reflexivity.
Defined.

Lemma recordEventCreation_groups_only now g st :
  set_groups ∅ (recordEventCreation now g st) = set_groups ∅ st.
Proof. unfold recordEventCreation, getRateLimitState. by destruct (groups st !! g). Qed.

Lemma recordEventCreation_history now g st :
  exists s, groups (recordEventCreation now g st) !! g = Some s /\ now ∈ history s.
Proof.
  assert (Hin : forall h, now ∈ prunedHistory now (h ++ [now])).
  { intros h. apply prunedHistory_spec. split.
    - apply elem_of_app. right. apply list_elem_of_here.
    - unfold EVENT_HOURLY_WINDOW_MS. lia. }
  unfold recordEventCreation, getRateLimitState, putRateLimitState.
  destruct (groups st !! g) as [s|]; cbn [groups set_groups history];
    rewrite lookup_insert_eq; eexists; (split; [done|]); apply Hin.
Qed.

(** X11.  A successful publish marks the record [published] and stores
    the remote id, keeping an id the record already had when the answer
    brings none.  The profile's counter goes up by exactly one, the time
    and the remote id of the success are noted, and the time enters the
    group's history.  The state file is written before the events file,
    and the listener is told last, with the updated record. *)
Theorem publish_ok_record (now : Z) (l : loc) (remoteId : option string) (st : Engine) :
  (l < length (heap st))%nat ->
  let e := deref st l in
  let key := getProfileStateKey (groupId e) (profileKey e) in
  let created := match automationState st !! key with
                 | Some ps => eventsCreated ps
                 | None => 0
                 end in
  let st' := executeAutomatedPostInternal_settled now l (Resolved (PublishOk remoteId)) st in
  deref st' l =
    set_status Published
      (set_eventId (if truthy_ostring remoteId then remoteId
                    else if truthy_ostring (eventId e) then eventId e else None) e) /\
  (forall l0, l0 <> l -> deref st' l0 = deref st l0) /\
  (exists ps, automationState st' !! key = Some ps /\
              eventsCreated ps = created + 1 /\
              lastSuccess ps = Some (toISOString now) /\
              lastEventId ps = remoteId) /\
  (forall key', key' <> key -> automationState st' !! key' = automationState st !! key') /\
  (exists s, groups st' !! groupId e = Some s /\ now ∈ history s) /\
  trace st' = trace st ++
              [SaveAutomationState (automationState st');
               SavePendingEvents (snapshot st' (pendingEvents st'))
                                 (snapshot st' (deletedEvents st'));
               OnEventCreated (deref st' l) remoteId] /\
  queue st' = queue st /\ timers st' = timers st /\
  pendingEvents st' = pendingEvents st.
Proof.
  intros Hl. cbv zeta. unfold executeAutomatedPostInternal_settled.
  set (e := deref st l).
  set (key := getProfileStateKey (groupId e) (profileKey e)).
  pose proof (recordEventCreation_groups_only now (groupId e) st) as Hframe.
  destruct (recordEventCreation_history now (groupId e) st) as (s & Hs & Hnow).
  set (st1 := recordEventCreation now (groupId e) st) in *.
  pose proof (f_equal heap Hframe) as Hh. pose proof (f_equal queue Hframe) as Hq1.
  pose proof (f_equal automationState Hframe) as Ha1.
  pose proof (f_equal pendingEvents Hframe) as Hp1.
  pose proof (f_equal timers Hframe) as Ht1. pose proof (f_equal trace Hframe) as Htr1.
  cbn in Hh, Hq1, Ha1, Hp1, Ht1, Htr1.
  set (f := fun e0 : PendingEvent => set_status Published (set_eventId _ e0)).
  set (st2 := update l f st1).
  assert (Hderef : forall l0, deref st2 l0 = if decide (l = l0) then f (deref st l0)
                                             else deref st l0).
  { intros l0. unfold st2. rewrite deref_update, (deref_same st1 st) by done.
    destruct (decide (l = l0)) as [<-|Hne].
    - rewrite decide_True; [done|]. split; [done|]. by rewrite Hh.
    - rewrite decide_False; [done|]. by intros [? _]. }
  assert (Hst3 : exists ps0,
            getOrCreateProfileState key st2 =
              (set_automationState (<[key := ps0]> (automationState st)) st2, ps0) /\
            eventsCreated ps0 = match automationState st !! key with
                                | Some ps => eventsCreated ps
                                | None => 0
                                end).
  { unfold getOrCreateProfileState.
    change (automationState st2) with (automationState st1). rewrite Ha1.
    destruct (automationState st !! key) as [ps|] eqn:Hps.
    - exists ps. split; [|done]. rewrite insert_id by done.
      rewrite <- Ha1. change (automationState st1) with (automationState st2).
      by destruct st2.
    - by exists (mkProfileState 0 None None None). }
  destruct Hst3 as (ps0 & -> & Hcreated).
  set (st3 := set_automationState _ st2).
  set (upd := fun ps : ProfileState => mkProfileState _ _ _ _).
  set (st4 := updateProfileState key upd st3).
  set (st5 := savePendingEvents (saveAutomationState st4)).
  assert (Hheap : heap st5 = heap st2) by done.
  split; [by rewrite (deref_same _ st2), Hderef, decide_True|].
  split; [intros l0 Hne; by rewrite (deref_same _ st2), Hderef, decide_False|].
  split.
  { exists (upd ps0). split; [|by rewrite <- Hcreated].
    cbn. by rewrite lookup_alter_eq, lookup_insert_eq. }
  split.
  { intros key' Hne. cbn. by rewrite lookup_alter_ne, lookup_insert_ne. }
  split; [by exists s|].
  split.
  { cbn. rewrite Htr1, <- !app_assoc. done. }
  by rewrite <- Hq1, <- Ht1, <- Hp1.
Qed.

Lemma publish_ok_record_witness :
  let st' := executeAutomatedPostInternal_settled 5000 0%nat
               (Resolved (PublishOk (Some "evt_1"%string))) postingEngine in
  status (deref st' 0%nat) = Published /\ eventId (deref st' 0%nat) = Some "evt_1"%string.
Proof.
  cbv zeta.
  destruct (publish_ok_record 5000 0%nat (Some "evt_1"%string) postingEngine
              ltac:(cbn; lia)) as (Hrec & _).
  rewrite Hrec. split; reflexivity.
Defined.

(** ** The control API: [handleMissedEvent] *)

Lemma findIndexFrom_spec st pendingEventId ls i :
  match findIndexFrom st pendingEventId ls i with
  | Some j => exists n, j = (i + n)%nat /\ ls !! n = Some (ls !!! n) /\
                        id (deref st (ls !!! n)) = pendingEventId
  | None => pendingEventId ∉ id <$> snapshot st ls
  end.
Proof.
  revert i. induction ls as [|l r IH]; intros i; cbn.
  { apply not_elem_of_nil. }
  destruct (bool_decide_reflect (id (deref st l) = pendingEventId)) as [E|Hne].
  - exists 0%nat. split; [lia|]. done.
  - specialize (IH (S i)). destruct (findIndexFrom st pendingEventId r (S i)) as [j|].
    + destruct IH as (n & -> & Hn & Hid). exists (S n). split; [lia|]. done.
    + apply not_elem_of_cons. done.
Qed.

Lemma findIndex_Some st pendingEventId i :
  findIndex st pendingEventId = Some i ->
  pendingEvents st !! i = Some (pendingEvents st !!! i) /\
  id (deref st (pendingEvents st !!! i)) = pendingEventId.
Proof.
  unfold findIndex. intros H.
  pose proof (findIndexFrom_spec st pendingEventId (pendingEvents st) 0) as Hs.
  rewrite H in Hs. destruct Hs as (n & -> & Hn & Hid). done.
Qed.

Lemma findIndex_None st pendingEventId :
  findIndex st pendingEventId = None <->
  pendingEventId ∉ id <$> snapshot st (pendingEvents st).
Proof.
  unfold findIndex.
  pose proof (findIndexFrom_spec st pendingEventId (pendingEvents st) 0) as Hs.
  destruct (findIndexFrom st pendingEventId (pendingEvents st) 0) as [j|]; split; try done.
  intros Hnot. destruct Hs as (n & _ & Hn & Hid). exfalso. apply Hnot.
  unfold snapshot. rewrite <- list_fmap_compose. apply list_elem_of_fmap.
  exists (pendingEvents st !!! n). split; [done|]. by eapply list_elem_of_lookup_2.
Qed.

(** X12.  What [handleMissedEvent] refuses, it refuses without touching
    anything: an id that no pending record carries, an action other than
    the three it knows, and a reschedule for a record whose profile is
    gone or whose automation is switched off. *)
Theorem handleMissedEvent_refusals (now : Z) (pendingEventId : string) (st : Engine) :
  (pendingEventId ∉ id <$> snapshot st (pendingEvents st) ->
     forall action,
       handleMissedEvent now pendingEventId action st
         = (st, ResultError "Pending event not found")) /\
  (pendingEventId ∈ id <$> snapshot st (pendingEvents st) ->
     forall name,
       handleMissedEvent now pendingEventId (OtherAction name) st
         = (st, ResultError "Unknown action")) /\
  (forall i,
     findIndex st pendingEventId = Some i ->
     let e := deref st (pendingEvents st !!! i) in
     match lookupProfile st (groupId e) (profileKey e) ≫= automation with
     | Some a => enabled a = false
     | None => True
     end ->
     handleMissedEvent now pendingEventId Reschedule st
       = (st, ResultError "Profile not found or automation disabled")).
Proof.
  split; [|split].
  - intros Hnot action. apply findIndex_None in Hnot.
    unfold handleMissedEvent. by rewrite Hnot.
  - intros Hin name. unfold handleMissedEvent.
    destruct (findIndex st pendingEventId) eqn:E; [done|].
    by apply findIndex_None in E.
  - intros i Hi. cbv zeta. intros Hprof. unfold handleMissedEvent. rewrite Hi.
    destruct (_ ≫= automation) as [a|]; [|done]. by rewrite Hprof.
Qed.

Lemma handleMissedEvent_refusals_witness :
  handleMissedEvent 5000 "pending_other" Cancel missedEngine
    = (missedEngine, ResultError "Pending event not found").
Proof.
  apply (proj1 (handleMissedEvent_refusals 5000 "pending_other" missedEngine)).
  apply (bool_decide_unpack _). by vm_compute.
Defined.

Lemma scheduleJob_future_timer now l p st :
  Date_parse (scheduledPublishTime (deref st l)) = Some p -> now < p ->
  exists cb delay,
    timerSet now l cb delay st (scheduleJob now l st) /\ 0 < delay <= p - now /\
    (cb = CbRecheck l \/ (cb = CbPost l /\ delay = p - now)) /\
    set_timers ∅ 0 (set_scheduledJobs ∅ (scheduleJob now l st))
      = set_timers ∅ 0 (set_scheduledJobs ∅ st).
Proof.
  intros Hp Hlt. unfold scheduleJob. rewrite Hp.
  destruct (Z.leb_spec (p - now) 0); [lia|].
  unfold getRecheckIntervalMs, ONE_DAY_MS, EIGHT_HOURS_MS, TWO_HOURS_MS.
  destruct (Z.ltb_spec (7 * (24 * 60 * 60 * 1000)) (p - now));
    [|destruct (Z.ltb_spec (2 * (24 * 60 * 60 * 1000)) (p - now));
      [|destruct (Z.ltb_spec (24 * 60 * 60 * 1000) (p - now))]];
    (eexists _, _; split; [apply setJobTimer_timerSet|]);
    (split; [lia|]); (split; [|done]); try (by left); by right.
Qed.

Lemma reschedule_to now pendingEventId l t st :
  (l < length (heap st))%nat -> now < t -> id (deref st l) = pendingEventId ->
  let e := deref st l in
  let st' := scheduleJob now l
               (savePendingEvents
                  (update l (fun e0 => set_missedAt None
                                         (set_status Scheduled
                                            (set_scheduledPublishTime
                                               (Some (toISOString t)) e0))) st)) in
  deref st' l = set_missedAt None
                  (set_status Scheduled
                     (set_scheduledPublishTime (Some (toISOString t)) e)) /\
  (forall l0, l0 <> l -> deref st' l0 = deref st l0) /\
  pendingEvents st' = pendingEvents st /\ deletedEvents st' = deletedEvents st /\
  trace st' = trace st ++ [SavePendingEvents (snapshot st' (pendingEvents st'))
                                             (snapshot st' (deletedEvents st'))] /\
  scheduledJobs st' = <[pendingEventId := nextTimer st]> (scheduledJobs st) /\
  exists cb delay,
    timers st' = <[nextTimer st := mkTimer now (Some delay) cb]> (timers st) /\
    0 < delay <= t - now /\
    (cb = CbRecheck l \/ (cb = CbPost l /\ delay = t - now)).
Proof.
  intros Hl Hlt Hid. cbv zeta.
  set (f := fun e0 : PendingEvent => set_missedAt None (set_status Scheduled
              (set_scheduledPublishTime (Some (toISOString t)) e0))).
  set (st2 := savePendingEvents (update l f st)).
  assert (Hderef : forall l0, deref st2 l0 = if decide (l = l0) then f (deref st l0)
                                             else deref st l0).
  { intros l0. unfold st2. rewrite (deref_same _ (update l f st)) by done.
    rewrite deref_update. destruct (decide (l = l0)) as [<-|Hne].
    - by rewrite decide_True.
    - rewrite decide_False; [done|]. by intros [? _]. }
  destruct (scheduleJob_future_timer now l t st2) as (cb & delay & Hts & Hd & Hcb & Hframe).
  { by rewrite Hderef, decide_True. }
  { done. }
  destruct Hts as (Htm & Hjobs & Hheap & Htr).
  pose proof (f_equal pendingEvents Hframe) as Hp.
  pose proof (f_equal deletedEvents Hframe) as Hdl.
  cbn in Hp, Hdl.
  split; [by rewrite (deref_same _ st2), Hderef, decide_True|].
  split; [intros l0 Hne; by rewrite (deref_same _ st2), Hderef, decide_False|].
  split; [done|]. split; [done|].
  split.
  { rewrite Htr. unfold snapshot. rewrite Hp, Hdl.
    replace (deref (scheduleJob now l st2)) with (deref st2); [done|].
    unfold deref. by rewrite Hheap. }
  split.
  { rewrite Hjobs. rewrite Hderef, decide_True by done.
    change (id (f (deref st l))) with (id (deref st l)). by rewrite Hid. }
  exists cb, delay. done.
Qed.

(** X13.  A reschedule that is accepted never produces a record that is
    due at once: the new publish time lies strictly after now (the
    start minus the offset when that is still ahead in [before] mode,
    otherwise five minutes from now), the record is [scheduled] again
    with [missedAt] cleared, the store is saved, and one timer is set
    for the record. *)
Theorem handleMissedEvent_reschedule (now : Z) (pendingEventId : string) (i : nat)
  (a : Automation) (st : Engine) :
  findIndex st pendingEventId = Some i ->
  let l := pendingEvents st !!! i in
  let e := deref st l in
  (l < length (heap st))%nat ->
  lookupProfile st (groupId e) (profileKey e) ≫= automation = Some a ->
  enabled a = true ->
  (timingMode a = Before -> is_Some (Date_parse (eventStartsAt e))) ->
  let t := match timingMode a, Date_parse (eventStartsAt e) with
           | Before, Some start =>
               if start - offsetMs a <=? now then now + FIVE_MINUTES_MS
               else start - offsetMs a
           | _, _ => now + FIVE_MINUTES_MS
           end in
  let st' := (handleMissedEvent now pendingEventId Reschedule st).1 in
  (handleMissedEvent now pendingEventId Reschedule st).2 = ResultOk /\
  now < t /\
  deref st' l = set_missedAt None
                  (set_status Scheduled
                     (set_scheduledPublishTime (Some (toISOString t)) e)) /\
  (forall l0, l0 <> l -> deref st' l0 = deref st l0) /\
  pendingEvents st' = pendingEvents st /\ deletedEvents st' = deletedEvents st /\
  trace st' = trace st ++ [SavePendingEvents (snapshot st' (pendingEvents st'))
                                             (snapshot st' (deletedEvents st'))] /\
  scheduledJobs st' = <[pendingEventId := nextTimer st]> (scheduledJobs st) /\
  exists cb delay,
    timers st' = <[nextTimer st := mkTimer now (Some delay) cb]> (timers st) /\
    0 < delay <= t - now /\
    (cb = CbRecheck l \/ (cb = CbPost l /\ delay = t - now)).
Proof.
  intros Hi. cbv zeta. intros Hl Hprof Hen Hstart.
  destruct (findIndex_Some _ _ _ Hi) as [_ Hid].
  unfold handleMissedEvent. rewrite Hi, Hprof, Hen. cbn [negb].
  assert (Hfive : now < now + FIVE_MINUTES_MS) by (unfold FIVE_MINUTES_MS; lia).
  destruct (timingMode a) eqn:Hmode.
  - destruct (Hstart eq_refl) as [start Hs]. rewrite Hs. cbv zeta.
    destruct (Z.leb_spec (start - offsetMs a) now) as [Hle|Hgt]; cbn [fst snd];
      (split; [done|]); (split; [done|]); by apply reschedule_to.
  - cbn [fst snd]. split; [done|]. split; [done|]. by apply reschedule_to.
  - cbn [fst snd]. split; [done|]. split; [done|]. by apply reschedule_to.
Qed.

Lemma handleMissedEvent_reschedule_witness :
  let r := handleMissedEvent (june1_1000 - 4 * ONE_DAY_MS)
             "pending_grp_weekly_1780308000000" Reschedule missedEngine in
  r.2 = ResultOk /\
  deref r.1 0%nat =
    set_missedAt None
      (set_status Scheduled
         (set_scheduledPublishTime (Some (toISOString (june1_1000 - 3 * ONE_DAY_MS)))
                                   (deref missedEngine 0%nat))).
Proof.
  cbv zeta.
  destruct (handleMissedEvent_reschedule (june1_1000 - 4 * ONE_DAY_MS)
              "pending_grp_weekly_1780308000000" 0%nat beforeThreeDays missedEngine
              eq_refl ltac:(cbn; lia) eq_refl eq_refl ltac:(by eexists))
    as (Hok & _ & Hrec & _).
  exact (conj Hok Hrec).
Defined.

Lemma cancelJob_store pendingEventId st :
  set_queue [] (set_timers ∅ 0 (set_scheduledJobs ∅ (cancelJob pendingEventId st)))
    = set_queue [] (set_timers ∅ 0 (set_scheduledJobs ∅ st)) /\
  scheduledJobs (cancelJob pendingEventId st) = delete pendingEventId (scheduledJobs st).
Proof.
  unfold cancelJob, dequeueEventPost.
  destruct (scheduledJobs st !! pendingEventId) eqn:E; cbn; [done|].
  by rewrite delete_id.
Qed.

Lemma hasActivePendingEvents_ext s1 s2 g k :
  heap s1 = heap s2 -> pendingEvents s1 = pendingEvents s2 ->
  hasActivePendingEvents s1 g k = hasActivePendingEvents s2 g k.
Proof.
  intros Hh Hp. unfold hasActivePendingEvents, deref. by rewrite Hh, Hp.
Qed.

(** X14.  [cancel] takes the record out of the pending list, clears its
    timer and marks it [deleted] with the time.  If the profile still
    has a scheduled, missed or queued record afterwards, the record
    joins the deleted pool, from which it can be restored.  If it has
    none, the whole deleted pool of the profile, the record just
    cancelled included, and the automation state of the profile are
    discarded, and the answer says so. *)
Theorem handleMissedEvent_cancel (now : Z) (pendingEventId : string) (i : nat)
  (st : Engine) :
  findIndex st pendingEventId = Some i ->
  let l := pendingEvents st !!! i in
  let e := deref st l in
  let g := groupId e in
  let k := profileKey e in
  (l < length (heap st))%nat ->
  let r := handleMissedEvent now pendingEventId Cancel st in
  let st' := r.1 in
  pendingEvents st' = delete i (pendingEvents st) /\
  deref st' l = set_deletedAt (Some (toISOString now)) (set_status Deleted e) /\
  (forall l0, l0 <> l -> deref st' l0 = deref st l0) /\
  scheduledJobs st' = delete pendingEventId (scheduledJobs st) /\
  last (trace st') = Some (SavePendingEvents (snapshot st' (pendingEvents st'))
                                              (snapshot st' (deletedEvents st'))) /\
  (if hasActivePendingEvents st' g k
   then deletedEvents st' = deletedEvents st ++ [l] /\
        automationState st' = automationState st /\
        r.2 = ResultCancelled false g k
   else deletedEvents st' =
          List.filter (fun l0 => negb (sameProfile g k (deref st l0))) (deletedEvents st) /\
        (l ∉ deletedEvents st') /\
        automationState st' = delete (getProfileStateKey g k) (automationState st) /\
        r.2 = ResultCancelled true g k).
Proof.
  intros Hi. cbv zeta. intros Hl.
  unfold handleMissedEvent. rewrite Hi.
  set (l := pendingEvents st !!! i) in *. set (e := deref st l).
  set (g := groupId e). set (k := profileKey e).
  destruct (cancelJob_store pendingEventId st) as [Hstore Hjobs].
  pose proof (f_equal heap Hstore) as Hh1. pose proof (f_equal pendingEvents Hstore) as Hp1.
  pose proof (f_equal deletedEvents Hstore) as Hd1.
  pose proof (f_equal automationState Hstore) as Ha1.
  cbn [heap pendingEvents deletedEvents automationState
       set_queue set_timers set_scheduledJobs] in Hh1, Hp1, Hd1, Ha1.
  set (st1 := cancelJob pendingEventId st) in *. clearbody st1.
  set (f := fun e0 : PendingEvent => set_deletedAt (Some (toISOString now))
                                       (set_status Deleted e0)).
  set (st2 := set_pendingEvents (delete i (pendingEvents st1)) st1).
  set (st3 := update l f st2).
  set (st4 := set_deletedEvents (deletedEvents st3 ++ [l]) st3).
  assert (Hderef : forall l0, deref st4 l0 = if decide (l = l0) then f (deref st l0)
                                             else deref st l0).
  { intros l0. unfold st4, st3. rewrite (deref_same _ (update l f st2)) by done.
    rewrite deref_update, (deref_same st2 st) by done.
    destruct (decide (l = l0)) as [<-|Hne].
    - rewrite decide_True; [done|]. split; [done|].
      change (heap st2) with (heap st1). by rewrite Hh1.
    - rewrite decide_False; [done|]. by intros [? _]. }
  assert (Hsame : forall l0, sameProfile g k (deref st4 l0) = sameProfile g k (deref st l0)).
  { intros l0. rewrite Hderef. by case_decide. }
  assert (Hmine : sameProfile g k (deref st l) = true).
  { unfold sameProfile, g, k, e. by rewrite !bool_decide_eq_true_2. }
  destruct (hasActivePendingEvents st4 g k) eqn:Hact; cbn [negb].
  - cbn [fst snd].
    rewrite (hasActivePendingEvents_ext _ st4) by done. rewrite Hact.
    split; [cbn; by rewrite Hp1|].
    split; [by rewrite (deref_same _ st4), Hderef, decide_True|].
    split; [intros l0 Hne; by rewrite (deref_same _ st4), Hderef, decide_False|].
    split; [done|].
    split; [cbn; by rewrite last_snoc|].
    split; [cbn; by rewrite Hd1|]. done.
  - unfold clearDeletedEventsForProfile.
    set (kept := List.filter _ (deletedEvents st4)).
    assert (Hkept : kept = List.filter (fun l0 => negb (sameProfile g k (deref st l0)))
                                       (deletedEvents st)).
    { unfold kept. change (deletedEvents st4) with (deletedEvents st1 ++ [l]).
      rewrite Hd1, List.filter_app. cbn [List.filter].
      rewrite Hsame, Hmine. cbn [negb]. rewrite app_nil_r.
      apply List.filter_ext. intros l0. by rewrite Hsame. }
    assert (Hremoved : (0 <? length (deletedEvents st4) - length kept)%nat = true).
    { apply Nat.ltb_lt. change (deletedEvents st4) with (deletedEvents st1 ++ [l]).
      rewrite Hd1, length_app, Hkept. cbn.
      pose proof (List.filter_length_le
                    (fun l0 => negb (sameProfile g k (deref st l0))) (deletedEvents st)).
      lia. }
    assert (Hnotin : l ∉ kept).
    { rewrite Hkept. intros Hin%list_elem_of_In. apply filter_In in Hin as [_ Hb].
      by rewrite Hmine in Hb. }
    set (st5 := set_deletedEvents kept st4).
    assert (Hact5 : forall s, heap s = heap st5 -> pendingEvents s = pendingEvents st5 ->
                hasActivePendingEvents s g k = false).
    { intros s Hhs Hps. by rewrite (hasActivePendingEvents_ext s st4). }
    unfold clearProfileState.
    change (automationState st5) with (automationState st1). rewrite Ha1.
    destruct (automationState st !! getProfileStateKey g k) eqn:Hps; cbn [fst snd];
      rewrite Hremoved; cbn [orb].
    + rewrite Hact5 by done.
      split; [cbn; by rewrite Hp1|].
      split; [by rewrite (deref_same _ st4), Hderef, decide_True|].
      split; [intros l0 Hne; by rewrite (deref_same _ st4), Hderef, decide_False|].
      split; [done|].
      split; [cbn; by rewrite last_snoc|].
      split; [done|]. split; [done|]. split; [cbn; by rewrite ?Ha1|]. done.
    + rewrite Hact5 by done.
      split; [cbn; by rewrite Hp1|].
      split; [by rewrite (deref_same _ st4), Hderef, decide_True|].
      split; [intros l0 Hne; by rewrite (deref_same _ st4), Hderef, decide_False|].
      split; [done|].
      split; [cbn; by rewrite last_snoc|].
      split; [done|]. split; [done|]. split; [cbn; by rewrite ?Ha1, delete_id|]. done.
Qed.

Lemma handleMissedEvent_cancel_witness :
  let r := handleMissedEvent 5000 "pending_grp_weekly_1780308000000" Cancel missedEngine in
  pendingEvents r.1 = [] /\ deletedEvents r.1 = [] /\
  r.2 = ResultCancelled true "grp" "weekly".
Proof.
  cbv zeta.
  destruct (handleMissedEvent_cancel 5000 "pending_grp_weekly_1780308000000" 0%nat
              missedEngine eq_refl ltac:(cbn; lia))
    as (Hp & _ & _ & _ & _ & Hcase).
  split; [exact Hp|].
  assert (Hact : hasActivePendingEvents
                   (handleMissedEvent 5000 "pending_grp_weekly_1780308000000" Cancel
                                      missedEngine).1 "grp" "weekly" = false)
    by reflexivity.
  change (groupId (deref missedEngine (pendingEvents missedEngine !!! 0%nat)))
    with "grp"%string in Hcase.
  change (profileKey (deref missedEngine (pendingEvents missedEngine !!! 0%nat)))
    with "weekly"%string in Hcase.
  rewrite Hact in Hcase. destruct Hcase as (Hd & _ & _ & Hr).
  split; [exact Hd|exact Hr].
Defined.

(** ** Purging a profile *)

Lemma cancelJobs_fold ids :
  forall st,
  let st' := fold_left (fun s pendingEventId => cancelJob pendingEventId s) ids st in
  set_queue [] (set_timers ∅ 0 (set_scheduledJobs ∅ st'))
    = set_queue [] (set_timers ∅ 0 (set_scheduledJobs ∅ st)) /\
  (forall i, scheduledJobs st' !! i =
             if decide (i ∈ ids) then None else scheduledJobs st !! i) /\
  (ids = [] -> st' = st).
Proof.
  induction ids as [|x r IH]; intros st; cbv zeta; cbn [fold_left].
  { split; [done|]. split; [|done]. intros i. rewrite decide_False; [done|].
    apply not_elem_of_nil. }
  destruct (cancelJob_store x st) as [Hstore Hjobs].
  destruct (IH (cancelJob x st)) as (Hs & Hj & _). cbv zeta in Hs, Hj.
  split; [by rewrite Hs|]. split; [|done].
  intros i. rewrite Hj, Hjobs. destruct (decide (i ∈ r)) as [Hin|Hnot].
  - rewrite decide_True; [done|]. by apply list_elem_of_further.
  - destruct (decide (i = x)) as [->|Hne].
    + rewrite lookup_delete_eq. rewrite decide_True; [done|]. apply list_elem_of_here.
    + rewrite lookup_delete_ne by done. rewrite decide_False; [done|].
      intros [?|?]%elem_of_cons; done.
Qed.

Lemma filter_filter_same {A : Type} (f : A -> bool) (ls : list A) :
  List.filter f (List.filter f ls) = List.filter f ls.
Proof.
  induction ls as [|x r IH]; [done|]. cbn. destruct (f x) eqn:E; [|done].
  cbn. by rewrite E, IH.
Qed.

Lemma filter_negb_none {A : Type} (f : A -> bool) (ls : list A) :
  List.filter f (List.filter (fun x => negb (f x)) ls) = [].
Proof.
  induction ls as [|x r IH]; [done|]. cbn. destruct (f x) eqn:E; cbn; [done|].
  by rewrite E.
Qed.

(** X15.  [purgeProfilePendingEvents] refuses an empty group or profile
    key and changes nothing.  Otherwise no pending and no deleted record
    of the profile is left, the records of other profiles stay in their
    order, the timers of the purged records are forgotten and the
    automation state of the profile is dropped.  A second purge changes
    nothing any more. *)
Theorem purgeProfilePendingEvents_effect (g k : string) (st : Engine) :
  (g = EmptyString \/ k = EmptyString -> purgeProfilePendingEvents g k st = (st, false)) /\
  (g <> EmptyString -> k <> EmptyString ->
   let st' := (purgeProfilePendingEvents g k st).1 in
   (purgeProfilePendingEvents g k st).2 = true /\
   pendingEvents st' =
     List.filter (fun l => negb (sameProfile g k (deref st l))) (pendingEvents st) /\
   deletedEvents st' =
     List.filter (fun l => negb (sameProfile g k (deref st l))) (deletedEvents st) /\
   heap st' = heap st /\
   automationState st' = delete (getProfileStateKey g k) (automationState st) /\
   (forall l, l ∈ pendingEvents st -> sameProfile g k (deref st l) = true ->
              scheduledJobs st' !! id (deref st l) = None) /\
   hasActivePendingEvents st' g k = false /\
   purgeProfilePendingEvents g k st' = (st', true)).
Proof.
  split.
  { intros Hor. unfold purgeProfilePendingEvents.
    destruct Hor as [-> | ->]; [done|]. by destruct g. }
  intros Hg Hk. cbv zeta.
  assert (Htruthy : negb (truthy_string g) || negb (truthy_string k) = false).
  { destruct g, k; done. }
  assert (Hpurged : forall s,
            pendingEvents s = List.filter (fun l => negb (sameProfile g k (deref s l)))
                                          (pendingEvents s) ->
            deletedEvents s = List.filter (fun l => negb (sameProfile g k (deref s l)))
                                          (deletedEvents s) ->
            automationState s !! getProfileStateKey g k = None ->
            purgeProfilePendingEvents g k s = (s, true)).
  { intros s Hp Hd Ha. unfold purgeProfilePendingEvents, cancelJobsForProfile.
    rewrite Htruthy.
    assert (Hnone : id <$> List.filter (sameProfile g k) (snapshot s (pendingEvents s)) = []).
    { unfold snapshot. rewrite Hp.
      assert (E : forall ls, List.filter (sameProfile g k)
                    (deref s <$> List.filter (fun l => negb (sameProfile g k (deref s l))) ls)
                    = []).
      { induction ls as [|x r IHr]; [done|]. cbn.
        destruct (sameProfile g k (deref s x)) eqn:E; cbn; [done|]. by rewrite E. }
      by rewrite E. }
    rewrite Hnone. cbn [fold_left].
    rewrite <- Hp, <- Hd, !Nat.ltb_irrefl. cbn [orb].
    cbn [automationState set_deletedEvents set_pendingEvents]. rewrite Ha.
    f_equal. by destruct s. }
  assert (Hres : exists s,
            purgeProfilePendingEvents g k st = (s, true) /\
            heap s = heap st /\
            pendingEvents s =
              List.filter (fun l => negb (sameProfile g k (deref st l))) (pendingEvents st) /\
            deletedEvents s =
              List.filter (fun l => negb (sameProfile g k (deref st l))) (deletedEvents st) /\
            automationState s = delete (getProfileStateKey g k) (automationState st) /\
            forall i, scheduledJobs s !! i =
                      if decide (i ∈ id <$> List.filter (sameProfile g k)
                                                 (snapshot st (pendingEvents st)))
                      then None else scheduledJobs st !! i);
    [|destruct Hres as (s & -> & Hh & Hp & Hd & Ha & Hj); cbn [fst snd]].
  2: { split; [done|]. split; [done|]. split; [done|]. split; [done|]. split; [done|].
    split; [|split].
    - intros l Hl Hsame. rewrite Hj. rewrite decide_True; [done|].
      unfold snapshot. apply list_elem_of_fmap. exists (deref st l). split; [done|].
      apply list_elem_of_In, filter_In. split; [|done].
      apply list_elem_of_In. by apply list_elem_of_fmap_2.
    - unfold hasActivePendingEvents. rewrite Htruthy, Hp.
      apply not_true_is_false. intros Hex. apply existsb_exists in Hex as (l & Hin & Hb).
      apply filter_In in Hin as [_ Hn].
      rewrite (deref_same s st) in Hb by done.
      apply andb_prop in Hb as [Hb _]. by rewrite Hb in Hn.
    - apply Hpurged.
      + rewrite Hp at 1.
        rewrite (List.filter_ext (fun l => negb (sameProfile g k (deref s l)))
                                 (fun l => negb (sameProfile g k (deref st l))))
          by (intros l; by rewrite (deref_same s st)).
        by rewrite Hp, filter_filter_same.
      + rewrite Hd at 1.
        rewrite (List.filter_ext (fun l => negb (sameProfile g k (deref s l)))
                                 (fun l => negb (sameProfile g k (deref st l))))
          by (intros l; by rewrite (deref_same s st)).
        by rewrite Hd, filter_filter_same.
      + rewrite Ha. apply lookup_delete_eq. }
  unfold purgeProfilePendingEvents. rewrite Htruthy.
  unfold cancelJobsForProfile.
  set (ids := id <$> List.filter (sameProfile g k) (snapshot st (pendingEvents st))).
  destruct (cancelJobs_fold ids st) as (Hstore & Hjobs & _). cbv zeta in Hstore, Hjobs.
  pose proof (f_equal heap Hstore) as Hh1. pose proof (f_equal pendingEvents Hstore) as Hp1.
  pose proof (f_equal deletedEvents Hstore) as Hd1.
  pose proof (f_equal automationState Hstore) as Ha1.
  cbn [heap pendingEvents deletedEvents automationState
       set_queue set_timers set_scheduledJobs] in Hh1, Hp1, Hd1, Ha1.
  set (st1 := fold_left _ ids st) in *. clearbody st1.
  assert (Hfilter : forall ls,
            List.filter (fun l => negb (sameProfile g k (deref st1 l))) ls
            = List.filter (fun l => negb (sameProfile g k (deref st l))) ls).
  { intros ls. apply List.filter_ext. intros l. by rewrite (deref_same st1 st). }
  rewrite !Hfilter, Hp1, Hd1.
  set (keptPending := List.filter _ (pendingEvents st)).
  set (keptDeleted := List.filter _ (deletedEvents st)).
  set (st2 := set_deletedEvents keptDeleted (set_pendingEvents keptPending st1)).
  set (removedAny := ((_ <? _)%nat || (_ <? _)%nat)).
  set (st3 := if removedAny then savePendingEvents st2 else st2).
  assert (H3 : heap st3 = heap st /\ pendingEvents st3 = keptPending /\
               deletedEvents st3 = keptDeleted /\ automationState st3 = automationState st /\
               scheduledJobs st3 = scheduledJobs st1).
  { unfold st3. destruct removedAny; cbn; by rewrite ?Hh1, ?Ha1. }
  destruct H3 as (Hh3 & Hp3 & Hd3 & Ha3 & Hj3). rewrite Ha3.
  destruct (automationState st !! getProfileStateKey g k) eqn:Hps.
  - eexists. split; [done|]. cbn. rewrite ?Hh3, ?Hp3, ?Hd3, ?Ha3, ?Hj3. done.
  - eexists. split; [done|]. rewrite ?Hh3, ?Hp3, ?Hd3, ?Ha3, ?Hj3, delete_id by done. done.
Qed.

Lemma purgeProfilePendingEvents_effect_witness :
  pendingEvents (purgeProfilePendingEvents "grp" "weekly" withDeletedMonthly).1 = [] /\
  deletedEvents (purgeProfilePendingEvents "grp" "weekly" withDeletedMonthly).1 = [1%nat].
Proof.
  destruct (proj2 (purgeProfilePendingEvents_effect "grp" "weekly" withDeletedMonthly)
              ltac:(done) ltac:(done)) as (_ & Hp & Hd & _).
  rewrite Hp, Hd. split; reflexivity.
Defined.


(** ** The set of known groups *)

Lemma filter_negb_nil_id {A : Type} (f : A -> bool) (ls : list A) :
  List.filter (fun x => negb (f x)) ls = [] -> List.filter f ls = ls.
Proof.
  induction ls as [|x r IH]; [done|]. cbn. destruct (f x); cbn; [|done].
  intros H. by rewrite IH.
Qed.

Lemma filter_length_split {A : Type} (f : A -> bool) (ls : list A) :
  (length ls - length (List.filter f ls))%nat
  = length (List.filter (fun x => negb (f x)) ls).
Proof.
  induction ls as [|x r IH]; [done|]. cbn.
  pose proof (List.filter_length_le f r). destruct (f x); cbn; lia.
Qed.

(** X16.  [setKnownGroupIds] with something that is not an array makes
    every group known again and removes nothing.  With an array, the
    pending and the deleted records of groups outside it are dropped
    (the timers of the pending ones are cancelled), all other records
    stay in their order, the two counts are the numbers of records
    dropped, and the store is saved exactly when one was.  The
    automation state of the profiles is not touched. *)
Theorem setKnownGroupIds_effect (groupIds : option (list string)) (st : Engine) :
  let st' := (setKnownGroupIds groupIds st).1 in
  let known l := isKnownGroupId st' (groupId (deref st l)) in
  match groupIds with
  | None =>
      st' = set_knownGroupIds None st /\ (setKnownGroupIds groupIds st).2 = (0%nat, 0%nat) /\
      forall g, isKnownGroupId st' g = true
  | Some ids =>
      (forall g, isKnownGroupId st' g = true <-> g <> EmptyString /\ g ∈ ids) /\
      pendingEvents st' = List.filter known (pendingEvents st) /\
      deletedEvents st' = List.filter known (deletedEvents st) /\
      (setKnownGroupIds groupIds st).2 =
        (length (List.filter (fun l => negb (known l)) (pendingEvents st)),
         length (List.filter (fun l => negb (known l)) (deletedEvents st))) /\
      heap st' = heap st /\ automationState st' = automationState st /\
      (forall l, l ∈ pendingEvents st -> known l = false ->
                 scheduledJobs st' !! id (deref st l) = None) /\
      trace st' =
        (if bool_decide (pendingEvents st' = pendingEvents st /\
                         deletedEvents st' = deletedEvents st)
         then trace st
         else trace st ++ [SavePendingEvents (snapshot st' (pendingEvents st'))
                                             (snapshot st' (deletedEvents st'))])
  end.
Proof.
  cbv zeta. destruct groupIds as [ids|]; [|done].
  unfold setKnownGroupIds.
  set (st1 := set_knownGroupIds (Some (list_to_set (List.filter truthy_string ids))) st).
  set (known := fun l => isKnownGroupId st1 (groupId (deref st l))).
  set (removedPending := List.filter _ (pendingEvents st1)).
  destruct (cancelJobs_fold (id <$> snapshot st1 removedPending) st1)
    as (Hstore & Hjobs & _). cbv zeta in Hstore, Hjobs.
  pose proof (f_equal heap Hstore) as Hh2. pose proof (f_equal pendingEvents Hstore) as Hp2.
  pose proof (f_equal deletedEvents Hstore) as Hd2.
  pose proof (f_equal automationState Hstore) as Ha2.
  pose proof (f_equal knownGroupIds Hstore) as Hk2.
  pose proof (f_equal trace Hstore) as Ht2.
  cbn [heap pendingEvents deletedEvents automationState knownGroupIds trace
       set_queue set_timers set_scheduledJobs set_knownGroupIds st1]
    in Hh2, Hp2, Hd2, Ha2, Hk2, Ht2.
  set (st2 := fold_left _ (id <$> snapshot st1 removedPending) st1) in *. clearbody st2.
  assert (Hknown : forall s, knownGroupIds s = knownGroupIds st1 -> heap s = heap st ->
            forall l, isKnownGroupId s (groupId (deref s l)) = known l).
  { intros s Hk Hh l. unfold known, isKnownGroupId. rewrite Hk.
    by rewrite (deref_same s st). }
  assert (Hrem : removedPending = List.filter (fun l => negb (known l)) (pendingEvents st)).
  { unfold removedPending. apply List.filter_ext. intros l. by rewrite Hknown. }
  set (st3 := match removedPending with [] => st2 | _ => _ end).
  assert (H3 : heap st3 = heap st /\ knownGroupIds st3 = knownGroupIds st1 /\
               deletedEvents st3 = deletedEvents st /\
               automationState st3 = automationState st /\ trace st3 = trace st /\
               scheduledJobs st3 = scheduledJobs st2 /\
               pendingEvents st3 = List.filter known (pendingEvents st)).
  { unfold st3. destruct removedPending as [|x r] eqn:E.
    - repeat split; try done. rewrite Hp2. symmetry. apply filter_negb_nil_id.
      by rewrite <- Hrem.
    - cbn. repeat split; try done. rewrite Hp2. apply List.filter_ext.
      intros l. by apply Hknown. }
  destruct H3 as (Hh3 & Hk3 & Hd3 & Ha3 & Ht3 & Hj3 & Hp3). clearbody st3.
  set (st4 := match deletedEvents st3 with [] => st3 | _ => _ end).
  assert (H4 : heap st4 = heap st /\ knownGroupIds st4 = knownGroupIds st1 /\
               automationState st4 = automationState st /\ trace st4 = trace st /\
               scheduledJobs st4 = scheduledJobs st2 /\
               pendingEvents st4 = List.filter known (pendingEvents st) /\
               deletedEvents st4 = List.filter known (deletedEvents st)).
  { unfold st4. destruct (deletedEvents st3) as [|x r] eqn:E.
    - repeat split; try done. by rewrite <- Hd3.
    - cbn [heap knownGroupIds automationState trace scheduledJobs pendingEvents
           deletedEvents set_deletedEvents].
      repeat split; try done. rewrite Hd3. apply List.filter_ext.
      intros l. by apply Hknown. }
  destruct H4 as (Hh4 & Hk4 & Ha4 & Ht4 & Hj4 & Hp4 & Hd4). clearbody st4.
  rewrite Hp2, Hd2, Hp4, Hd4, !filter_length_split.
  set (cond := (_ <? _)%nat || (_ <? _)%nat).
  set (st5 := if cond then savePendingEvents st4 else st4).
  assert (H5 : heap st5 = heap st /\ knownGroupIds st5 = knownGroupIds st1 /\
               automationState st5 = automationState st /\
               scheduledJobs st5 = scheduledJobs st2 /\
               pendingEvents st5 = List.filter known (pendingEvents st) /\
               deletedEvents st5 = List.filter known (deletedEvents st)).
  { unfold st5. by destruct cond. }
  destruct H5 as (Hh5 & Hk5 & Ha5 & Hj5 & Hp5 & Hd5).
  cbn [fst snd].
  assert (Hknown5 : forall l, isKnownGroupId st5 (groupId (deref st l)) = known l).
  { intros l. unfold known, isKnownGroupId. by rewrite Hk5. }
  split.
  { intros g. unfold isKnownGroupId. rewrite Hk5. cbn.
    rewrite bool_decide_eq_true, elem_of_list_to_set, list_elem_of_In, filter_In,
      <- list_elem_of_In, truthy_string_ne. tauto. }
  rewrite !(List.filter_ext (fun l => isKnownGroupId st5 (groupId (deref st l))) known)
    by done.
  rewrite !(List.filter_ext
              (fun l => negb (isKnownGroupId st5 (groupId (deref st l))))
              (fun l => negb (known l))) by (intros l; by rewrite Hknown5).
  split; [done|]. split; [done|]. split; [done|]. split; [done|]. split; [done|].
  split.
  { intros l Hl Hnot. rewrite Hknown5 in Hnot. rewrite Hj5, Hjobs. rewrite decide_True; [done|].
    unfold snapshot. rewrite <- list_fmap_compose. apply list_elem_of_fmap.
    exists l. split; [by cbn; rewrite (deref_same st1 st)|].
    rewrite Hrem. apply list_elem_of_In, filter_In. split; [by apply list_elem_of_In|].
    by rewrite Hnot. }
  rewrite Hp5, Hd5.
  assert (Hcond : cond = negb (bool_decide
                    (List.filter known (pendingEvents st) = pendingEvents st /\
                     List.filter known (deletedEvents st) = deletedEvents st))).
  { unfold cond.
    assert (E : forall ls : list loc,
              (0 <? length (List.filter (fun l => negb (known l)) ls))%nat
              = negb (bool_decide (List.filter known ls = ls))).
    { intros ls. destruct (List.filter (fun l => negb (known l)) ls) as [|x r] eqn:E.
      - cbn. rewrite bool_decide_eq_true_2; [done|]. by apply filter_negb_nil_id.
      - cbn. rewrite bool_decide_eq_false_2; [done|]. intros Hid.
        assert (Hin : In x (List.filter (fun l => negb (known l)) ls))
          by (rewrite E; by left).
        apply filter_In in Hin as [Hin Hn]. rewrite <- Hid in Hin.
        apply filter_In in Hin as [_ Hy]. by rewrite Hy in Hn. }
    rewrite !E.
    destruct (bool_decide_reflect (List.filter known (pendingEvents st) = pendingEvents st));
      destruct (bool_decide_reflect (List.filter known (deletedEvents st) = deletedEvents st));
      cbn; symmetry.
    - by rewrite bool_decide_eq_true_2.
    - rewrite bool_decide_eq_false_2; [done|]. by intros [_ ?].
    - rewrite bool_decide_eq_false_2; [done|]. by intros [? _].
    - rewrite bool_decide_eq_false_2; [done|]. by intros [? _]. }
  unfold st5. rewrite Hcond.
  destruct (bool_decide _); cbn; [done|].
  by rewrite Ht4, Hp4, Hd4.
Qed.

(** ** Listings and counters *)

Lemma filter_length_le_impl {A : Type} (f g : A -> bool) (ls : list A) :
  (forall x, f x = true -> g x = true) ->
  (length (List.filter f ls) <= length (List.filter g ls))%nat.
Proof.
  intros Himp. induction ls as [|x r IH]; [done|]. cbn.
  destruct (f x) eqn:Ef.
  - rewrite (Himp x Ef). cbn. lia.
  - destruct (g x); cbn; lia.
Qed.

Lemma filter_filter_and {A : Type} (f g : A -> bool) (ls : list A) :
  List.filter g (List.filter f ls) = List.filter (fun x => f x && g x) ls.
Proof.
  induction ls as [|x r IH]; [done|]. cbn. destruct (f x); cbn; [|done].
  destruct (g x); by rewrite IH.
Qed.

Ltac decide_status :=
  repeat match goal with
         | |- context [bool_decide (?a = ?b)] =>
             first [ rewrite (bool_decide_eq_true_2 (a = b)) by done
                   | rewrite (bool_decide_eq_false_2 (a = b)) by done ]
         end.

Lemma active_count st (f : PendingEvent -> bool) (ls : list loc) :
  (length (List.filter (fun l => f (deref st l) && status_eqb (status (deref st l)) Scheduled) ls)
   + length (List.filter (fun l => f (deref st l) && status_eqb (status (deref st l)) Missed) ls)
   + length (List.filter (fun l => f (deref st l) && status_eqb (status (deref st l)) Queued) ls)
   = length (List.filter (fun l => f (deref st l) && is_active_status (status (deref st l))) ls))%nat.
Proof.
  induction ls as [|x r IH]; [done|]. cbn.
  destruct (f (deref st x)); cbn; [|done].
  unfold status_eqb in *.
  destruct (status (deref st x)); cbn [is_active_status]; decide_status; cbn; lia.
Qed.

(** X17.  The three counters of [getAutomationStatus] count the
    scheduled, the missed and the queued records of the profile: their
    sum is the number of its active records, it is positive exactly when
    [hasActivePendingEvents] answers yes, and the missed and queued
    counts never exceed those of the whole group.  [getPendingEvents]
    lists the records that are neither published nor cancelled, so every
    missed and every queued record of the group is in its list. *)
Theorem automation_status_counts (g k : string) (st : Engine) :
  let s := getAutomationStatus g k st in
  let active := List.filter (fun l => sameProfile g k (deref st l) &&
                                      is_active_status (status (deref st l)))
                            (pendingEvents st) in
  (as_pendingCount s + as_missedCount s + as_queuedCount s = length active)%nat /\
  (g <> EmptyString -> k <> EmptyString ->
     hasActivePendingEvents st g k = (0 <? length active)%nat) /\
  (g <> EmptyString ->
     (as_missedCount s <= getMissedCount (Some g) st)%nat /\
     (as_queuedCount s <= getQueuedCount (Some g) st)%nat) /\
  (getMissedCount (Some g) st <= getMissedCount None st)%nat /\
  (getMissedCount (Some g) st + getQueuedCount (Some g) st
     <= length (getPendingEvents (Some g) st))%nat /\
  Forall (fun l => status (deref st l) <> Published /\ status (deref st l) <> Cancelled)
         (getPendingEvents (Some g) st).
Proof.
  cbv zeta. unfold getAutomationStatus. cbn [as_pendingCount as_missedCount as_queuedCount].
  rewrite !filter_filter_and.
  split; [apply (active_count st (sameProfile g k))|].
  split.
  { intros Hg Hk. unfold hasActivePendingEvents.
    apply truthy_string_ne in Hg, Hk. rewrite Hg, Hk. cbn [negb orb].
    induction (pendingEvents st) as [|x r IH]; [done|]. cbn.
    destruct (sameProfile g k (deref st x) && is_active_status (status (deref st x)));
      cbn; [done|exact IH]. }
  split.
  { intros Hg. apply truthy_string_ne in Hg. unfold getMissedCount, getQueuedCount, inGroup.
    rewrite Hg. split; apply filter_length_le_impl; intros l [Hs Hst]%andb_prop;
      apply andb_prop in Hs as [Hs _]; by rewrite Hs, Hst. }
  split.
  { unfold getMissedCount. apply filter_length_le_impl. intros l [_ Hst]%andb_prop.
    by rewrite Hst. }
  split.
  { unfold getMissedCount, getQueuedCount, getPendingEvents.
    induction (pendingEvents st) as [|x r IH]; [done|]. cbn [List.filter].
    destruct (inGroup (Some g) (deref st x)); cbn [andb]; [|exact IH].
    unfold status_eqb in *.
    destruct (status (deref st x)); decide_status; cbn [negb andb length]; lia. }
  unfold getPendingEvents. apply Forall_forall. intros l Hl%list_elem_of_In.
  apply filter_In in Hl as [_ Hb]. apply andb_prop in Hb as [Hb Hp].
  apply andb_prop in Hb as [_ Hc]. unfold status_eqb in Hp, Hc.
  apply negb_true_iff, bool_decide_eq_false in Hp, Hc. done.
Qed.

Lemma automation_status_counts_witness :
  as_missedCount (getAutomationStatus "grp" "weekly" missedEngine) = 1%nat /\
  hasActivePendingEvents missedEngine "grp" "weekly" = true.
Proof.
  split; [reflexivity|].
  rewrite (proj1 (proj2 (automation_status_counts "grp" "weekly" missedEngine)))
    by done.
  reflexivity.
Defined.

Lemma getOrCreateProfileState_existing key st ps :
  automationState st !! key = Some ps -> getOrCreateProfileState key st = (st, ps).
Proof. intros H. unfold getOrCreateProfileState. by rewrite H. Qed.

(** X18.  [resetAutomationState] puts an empty state in the place of
    the profile's: the counter is 0 and the anchor, the last success
    and the last remote id are gone; other profiles and all records are
    untouched and the state file is written.  After it, any manual event
    with a valid start in a known group seeds the anchor. *)
Theorem resetAutomationState_effect (g k : string) (st : Engine) :
  let key := getProfileStateKey g k in
  let st' := resetAutomationState g k st in
  automationState st' !! key = Some (mkProfileState 0 None None None) /\
  as_state (getAutomationStatus g k st') = mkProfileState 0 None None None /\
  (forall key', key' <> key -> automationState st' !! key' = automationState st !! key') /\
  heap st' = heap st /\ pendingEvents st' = pendingEvents st /\
  deletedEvents st' = deletedEvents st /\
  trace st' = trace st ++ [SaveAutomationState (automationState st')] /\
  (forall startsAt ms,
     isKnownGroupId st g = true -> parseEventStartMs startsAt = Some ms ->
     (recordManualEvent g k startsAt st').2 = true /\
     getActivationStartMs (automationState (recordManualEvent g k startsAt st').1 !! key)
       = Some ms).
Proof.
  cbv zeta. unfold resetAutomationState, getAutomationStatus. cbn.
  rewrite !lookup_insert_eq.
  split; [done|]. split; [done|].
  split; [intros key' Hne; by rewrite lookup_insert_ne|].
  split; [done|]. split; [done|]. split; [done|]. split; [done|].
  intros startsAt ms Hknown Hparse.
  unfold recordManualEvent, isKnownGroupId in *. cbn [knownGroupIds saveAutomationState emit
    set_automationState]. rewrite Hknown, Hparse. cbn [negb].
  rewrite (getOrCreateProfileState_existing _ _ (mkProfileState 0 None None None))
    by (cbn; apply lookup_insert_eq).
  cbn. rewrite lookup_alter_eq, lookup_insert_eq. cbn. split; [done|].
  apply parse_toISOString.
Qed.

Lemma resetAutomationState_effect_witness :
  (recordManualEvent "grp" "weekly" (Some (Iso 5000))
     (resetAutomationState "grp" "weekly" anchoredAt2000)).2 = true.
Proof.
  apply (proj2 (proj2 (proj2 (proj2 (proj2 (proj2 (proj2
           (resetAutomationState_effect "grp" "weekly" anchoredAt2000))))))) (Some (Iso 5000))
           5000 eq_refl eq_refl).
Defined.

(** ** What can be restored *)

Lemma restorable_view now modified published anchorMs e1 e2 :
  restoreView e1 = restoreView e2 ->
  restorable now modified published anchorMs e1
  = restorable now modified published anchorMs e2.
Proof.
  intros [= Hid Hslot Hg Hk Hstart Hov].
  unfold restorable, getPendingSlotKeys, getPendingSlotKey, derivePendingSlotKey,
    getRestoreStartMs, getPendingSlotStartMs.
  by rewrite Hid, Hslot, Hg, Hk, Hstart, Hov.
Qed.

Lemma restoreOne_restorable tza now g k profile modified published anchorMs l st st' :
  restoreOne tza now g k profile modified published anchorMs l st = (st', true) ->
  restorable now modified published anchorMs (deref st l) = true.
Proof.
  unfold restoreOne, restorable. cbv zeta.
  destruct (anyKeyIn _ modified); [done|].
  destruct (anyKeyIn _ published); [done|].
  destruct (getRestoreStartMs _) as [d|]; [|done].
  destruct (dec_leb d _); [done|].
  destruct anchorMs as [a|]; [|done].
  by destruct (dec_leb d a).
Qed.

Lemma restoreOne_view tza now g k profile modified published anchorMs l st st' b :
  restoreOne tza now g k profile modified published anchorMs l st = (st', b) ->
  (length (heap st) <= length (heap st'))%nat /\
  forall l0, (l0 < length (heap st))%nat ->
             restoreView (deref st' l0) = restoreView (deref st l0).
Proof.
  unfold restoreOne. cbv zeta.
  assert (Hsame : (st, false) = (st', b) ->
            (length (heap st) <= length (heap st'))%nat /\
            forall l0, (l0 < length (heap st))%nat ->
                       restoreView (deref st' l0) = restoreView (deref st l0))
    by (by intros [= <- <-]).
  destruct (anyKeyIn _ modified); [done|].
  destruct (anyKeyIn _ published); [done|].
  destruct (getRestoreStartMs _) as [d|]; [|done].
  destruct (dec_leb d _); [done|].
  destruct (match anchorMs with Some _ => _ | None => _ end); [done|].
  destruct (calculatePublishTime _ _ _) as [[p|]|]; try done.
  destruct (Z.ltb_spec now p) as [Hnow|]; [|done].
  destruct (_ && _) eqn:Huse.
  - apply andb_prop in Huse as [_ Huse].
    destruct (parseEventStartMs (eventStartsAt (deref st l))) as [c|] eqn:Hc; [|done].
    apply parseEventStartMs_Some in Hc.
    set (f := fun e : PendingEvent => _).
    set (st2 := set_pendingEvents _ _).
    intros [= <- <-].
    assert (Hd : forall l0, deref st2 l0 = if decide (l = l0 /\ (l0 < length (heap st))%nat)
                                           then f (deref st l0) else deref st l0).
    { intros l0. unfold st2. rewrite (deref_same _ (update l f st)) by done.
      apply deref_update. }
    assert (Hp : scheduledPublishTime (deref st2 l) = Some (Iso p) \/
                 ~ (l < length (heap st))%nat).
    { destruct (decide (l < length (heap st))%nat) as [Hl|Hl]; [left|by right].
      by rewrite Hd, decide_True. }
    assert (Hheap : heap (scheduleJob now l st2) = heap st2).
    { destruct Hp as [Hp|Hl]; [by apply (scheduleJob_future now l p)|].
      unfold scheduleJob.
      assert (Hno : forall g0, heap (update l g0 st2) = heap st2).
      { intros g0. unfold update. cbn. apply list_eq. intros j.
        rewrite list_lookup_alter. destruct (decide (l = j)) as [<-|]; [|done].
        rewrite (lookup_ge_None_2 (alter f l (heap st)) l); [done|].
        rewrite length_alter. lia. }
      destruct (Date_parse _) as [q|]; [|done].
      destruct (q - now <=? 0); [|by destruct (getRecheckIntervalMs _)].
      cbn. apply Hno. }
    split.
    { rewrite Hheap. unfold st2. cbn. by rewrite length_alter. }
    intros l0 Hl0. rewrite (deref_same _ st2) by done. rewrite Hd.
    case_decide as Hc0; [|done]. destruct Hc0 as [<- _]. unfold f, restoreView. cbn.
    by rewrite Hc.
  - cbn [alloc].
    set (e := mkPendingEvent _ _ _ _ _ _ _ _ _ _ _ _).
    set (st2 := set_pendingEvents _ _).
    intros [= <- <-].
    assert (Hd : deref st2 (length (heap st)) = e).
    { unfold st2, deref. cbn. rewrite list_lookup_total_alt.
      by rewrite lookup_app_r, Nat.sub_diag by done. }
    destruct (scheduleJob_future now (length (heap st)) p st2) as [Hh Hpe];
      [by rewrite Hd|done|].
    split.
    { rewrite Hh. unfold st2. cbn. rewrite length_app. lia. }
    intros l0 Hl0. rewrite (deref_same _ st2) by done.
    unfold st2, deref. cbn. rewrite !list_lookup_total_alt.
    by rewrite lookup_app_l.
Qed.

Lemma restoreLoop_count tza now g k profile modified published anchorMs ls :
  forall st st' n removed,
  Forall (fun l => (l < length (heap st))%nat) ls ->
  restoreLoop tza now g k profile modified published anchorMs ls st = (st', n, removed) ->
  (n <= length (List.filter
                  (fun l => restorable now modified published anchorMs (deref st l)) ls))%nat.
Proof.
  induction ls as [|l r IH]; intros st st' n removed Hvalid; cbn [restoreLoop].
  { by intros [= <- <- <-]. }
  apply Forall_cons in Hvalid as [Hl Hr].
  destruct (restoreOne tza now g k profile modified published anchorMs l st)
    as [st1 b] eqn:Hone.
  destruct (restoreOne_view _ _ _ _ _ _ _ _ _ _ _ _ Hone) as [Hlen Hview].
  destruct (restoreLoop tza now g k profile modified published anchorMs r st1)
    as [[st2 m] rem] eqn:Hloop.
  assert (Hm : (m <= length (List.filter
                   (fun l0 => restorable now modified published anchorMs (deref st l0)) r))%nat).
  { eapply IH in Hloop.
    - rewrite (List.filter_ext_in
                 (fun l0 => restorable now modified published anchorMs (deref st l0))
                 (fun l0 => restorable now modified published anchorMs (deref st1 l0)));
        [exact Hloop|].
      intros l0 Hin. apply restorable_view. symmetry. apply Hview.
      apply list_elem_of_In in Hin. by eapply Forall_forall in Hr.
    - eapply Forall_impl; [exact Hr|]. intros; cbn in *; lia. }
  cbn [List.filter]. destruct b.
  - rewrite (restoreOne_restorable _ _ _ _ _ _ _ _ _ _ _ Hone).
    intros [= <- <- <-]. cbn. lia.
  - intros [= <- <- <-]. destruct (restorable _ _ _ _ _); cbn; lia.
Qed.

(** X19.  [restoreDeletedEvents] never restores more records than
    [getRestorableCount] announces for the same moment: both apply the
    same tests of slot keys, start and anchor, and the restore skips, in
    addition, the records whose new publish time is not ahead. *)
Theorem restore_within_restorable_count (tza now : Z) (g k : string) (st st' : Engine)
  (n : nat) :
  Forall (fun l => (l < length (heap st))%nat) (deletedEvents st) ->
  restoreDeletedEvents tza now g k st = (st', RestoreOk n) ->
  (n <= (getRestorableCount now g k st).2)%nat.
Proof.
  intros Hvalid. unfold restoreDeletedEvents, getRestorableCount.
  set (deletedForProfile := List.filter _ (deletedEvents st)).
  destruct deletedForProfile as [|d0 ds] eqn:Hdel.
  { intros [= _ <-]. lia. }
  rewrite <- Hdel. clear Hdel.
  destruct (lookupProfile st g k) as [profile|]; [|done].
  assert (Hst1 : heap (getOrCreateProfileState (getProfileStateKey g k) st).1 = heap st /\
                 pendingEvents (getOrCreateProfileState (getProfileStateKey g k) st).1
                   = pendingEvents st /\
                 deletedEvents (getOrCreateProfileState (getProfileStateKey g k) st).1
                   = deletedEvents st).
  { unfold getOrCreateProfileState. by destruct (automationState st !! _). }
  destruct (getOrCreateProfileState (getProfileStateKey g k) st) as [st1 ps].
  cbn [fst] in Hst1. destruct Hst1 as (Hh1 & Hp1 & Hd1).
  set (existingEvents := List.filter _ (pendingEvents st1)).
  set (modified := slotKeysOf st1 _ existingEvents).
  set (published := slotKeysOf st1 _ existingEvents).
  assert (Hdfp : List.filter (fun l => sameProfile g k (deref st1 l)) (deletedEvents st1)
                 = deletedForProfile).
  { rewrite Hd1. apply List.filter_ext. intros l. by rewrite (deref_same st1 st). }
  rewrite Hdfp.
  set (anchor2 := match getActivationStartMs (Some ps) with
                  | Some a => Some (dec_of_Z a)
                  | None => _
                  end).
  assert (Hanchor : exists st2,
            (match getActivationStartMs (Some ps) with
             | Some a => (st1, Some (dec_of_Z a))
             | None =>
                 match
                   match getEarliestEventStartMs (snapshot st1 existingEvents) with
                   | Some m => Some m
                   | None => getEarliestEventStartMs (snapshot st1 deletedForProfile)
                   end
                 with
                 | Some m =>
                     (saveAutomationState
                        (updateProfileState (getProfileStateKey g k)
                           (fun ps0 => mkProfileState (eventsCreated ps0)
                                         (Some (toISOString (dec_trunc m)))
                                         (lastSuccess ps0) (lastEventId ps0)) st1),
                      Some m)
                 | None => (st1, None)
                 end
             end) = (st2, anchor2) /\ heap st2 = heap st).
  { unfold anchor2. destruct (getActivationStartMs (Some ps)); [by exists st1|].
    destruct (match getEarliestEventStartMs (snapshot st1 existingEvents) with
              | Some m => Some m
              | None => _
              end); eexists; (split; [done|]); done. }
  destruct Hanchor as (st2 & -> & Hh2).
  destruct (restoreLoop tza now g k profile modified published anchor2 deletedForProfile st2)
    as [[st3 m] removed] eqn:Hloop.
  intros [= _ <-]. cbn [snd].
  apply restoreLoop_count in Hloop.
  2: { unfold deletedForProfile. apply Forall_forall. intros l Hl%list_elem_of_In.
       apply filter_In in Hl as [Hl _]. rewrite Hh2.
       apply list_elem_of_In in Hl. by eapply Forall_forall in Hvalid. }
  etransitivity; [exact Hloop|].
  rewrite Hd1. unfold deletedForProfile. rewrite filter_filter_and.
  apply Nat.eq_le_incl. f_equal. apply List.filter_ext. intros l.
  by rewrite (deref_same st2 st), (deref_same st1 st).
Qed.


Lemma restore_within_restorable_count_witness :
  (restoreDeletedEvents 0 (june1_1000 - 4 * ONE_DAY_MS) "grp" "weekly"
     deletedWeeklyEngine).2 = RestoreOk 1 /\
  (1 <= (getRestorableCount (june1_1000 - 4 * ONE_DAY_MS) "grp" "weekly"
           deletedWeeklyEngine).2)%nat.
Proof.
  split; [reflexivity|].
  apply (restore_within_restorable_count 0 (june1_1000 - 4 * ONE_DAY_MS) "grp" "weekly"
           deletedWeeklyEngine
           (restoreDeletedEvents 0 (june1_1000 - 4 * ONE_DAY_MS) "grp" "weekly"
              deletedWeeklyEngine).1).
  - apply Forall_singleton. cbn. lia.
  - vm_compute. reflexivity.
Defined.

(** The count can be larger than what a restore brings back: one day
    before the start the record counts as restorable, but its publish
    time, three days before the start, has passed, and the restore skips
    it. *)
Example restorable_count_overestimates :
  (getRestorableCount (june1_1000 - ONE_DAY_MS) "grp" "weekly" deletedWeeklyEngine).2
    = 1%nat /\
  (restoreDeletedEvents 0 (june1_1000 - ONE_DAY_MS) "grp" "weekly" deletedWeeklyEngine).2
    = RestoreOk 0.
Proof. split; reflexivity. Qed.

(** ** Refreshing a profile *)

Lemma getOrCreateProfileState_store key st :
  set_automationState ∅ (getOrCreateProfileState key st).1 = set_automationState ∅ st.
Proof. unfold getOrCreateProfileState. by destruct (automationState st !! key). Qed.

Lemma cancelJob_timers pendingEventId st :
  timers (cancelJob pendingEventId st) ⊆ timers st /\
  nextTimer (cancelJob pendingEventId st) = nextTimer st.
Proof.
  unfold cancelJob, dequeueEventPost.
  destruct (scheduledJobs st !! pendingEventId); cbn; [|done].
  split; [apply delete_subseteq|done].
Qed.

Lemma cancelUntouched_fold (evs : list PendingEvent) :
  forall st,
  let st' := fold_left (fun s e => if has_value (manualOverrides e) then s
                                   else cancelJob (id e) s) evs st in
  set_queue [] (set_timers ∅ 0 (set_scheduledJobs ∅ st'))
    = set_queue [] (set_timers ∅ 0 (set_scheduledJobs ∅ st)) /\
  timers st' ⊆ timers st /\ nextTimer st' = nextTimer st.
Proof.
  induction evs as [|e evs IH]; intros st; cbn; [done|].
  destruct (IH (if has_value (manualOverrides e) then st else cancelJob (id e) st))
    as (Hs & Ht & Hn).
  cbn in Hs, Ht, Hn. rewrite Hs, Hn.
  destruct (has_value (manualOverrides e)); [done|].
  destruct (cancelJob_store (id e) st) as [Hs1 _].
  destruct (cancelJob_timers (id e) st) as [Ht1 Hn1].
  split; [done|]. split; [by etrans|done].
Qed.

Lemma pushNew_spec evs :
  forall st,
  pushNew evs st
  = (set_pendingEvents (pendingEvents st ++ seq (length (heap st)) (length evs))
       (set_heap (heap st ++ evs) st),
     seq (length (heap st)) (length evs)).
Proof.
  induction evs as [|e evs IH]; intros st; cbn [pushNew].
  { cbn. rewrite !app_nil_r. by destruct st. }
  unfold alloc. rewrite IH. cbn. rewrite length_app. cbn.
  rewrite Nat.add_1_r. rewrite <- !app_assoc. done.
Qed.

Lemma scheduleJob_future_job now l p st :
  Date_parse (scheduledPublishTime (deref st l)) = Some p -> now < p ->
  let st' := scheduleJob now l st in
  set_timers ∅ 0 (set_scheduledJobs ∅ st') = set_timers ∅ 0 (set_scheduledJobs ∅ st) /\
  scheduledJobs st' = <[id (deref st l) := nextTimer st]> (scheduledJobs st) /\
  nextTimer st' = S (nextTimer st) /\
  exists t, timers st' = <[nextTimer st := t]> (timers st).
Proof.
  intros Hp Hlt. unfold scheduleJob. rewrite Hp.
  destruct (Z.leb_spec (p - now) 0); [lia|].
  destruct (getRecheckIntervalMs (p - now)); cbn;
    (split; [done|]); (split; [done|]); (split; [done|]); by eexists.
Qed.

Lemma scheduleJobs_fold now ls :
  forall st ids,
  Forall (fun l => exists p, Date_parse (scheduledPublishTime (deref st l)) = Some p /\
                             now < p) ls ->
  jobsPending st ids ->
  let st' := fold_left (fun s l => scheduleJob now l s) ls st in
  set_timers ∅ 0 (set_scheduledJobs ∅ st') = set_timers ∅ 0 (set_scheduledJobs ∅ st) /\
  jobsPending st' (ids ++ ((fun l => id (deref st l)) <$> ls)).
Proof.
  induction ls as [|l ls IH]; intros st ids Hall Hj; cbn [fold_left].
  { cbn. by rewrite app_nil_r. }
  apply Forall_cons in Hall as [(p & Hp & Hlt) Hall].
  destruct (scheduleJob_future_job now l p st Hp Hlt) as (Hs & Hjobs & Hn & t & Ht).
  set (st1 := scheduleJob now l st) in *.
  assert (Hheap : heap st1 = heap st) by exact (f_equal heap Hs).
  assert (Hderef : forall l0, deref st1 l0 = deref st l0).
  { intros l0. unfold deref. by rewrite Hheap. }
  destruct (IH st1 (ids ++ [id (deref st l)])) as [Hs' Hj'].
  - eapply Forall_impl; [exact Hall|]. intros l0. cbn. by rewrite Hderef.
  - intros i Hi. apply elem_of_app in Hi.
    destruct (decide (i = id (deref st l))) as [->|Hne].
    + exists (nextTimer st). rewrite Hjobs, Ht, Hn, !lookup_insert_eq.
      split; [done|]. split; [by eexists|lia].
    + destruct Hi as [Hi|Hi]; [|by apply list_elem_of_singleton in Hi].
      destruct (Hj i Hi) as (h & Hh & Hth & Hlt').
      exists h. rewrite Hjobs, Ht, Hn, lookup_insert_ne by done.
      rewrite lookup_insert_ne by lia. split; [done|]. split; [done|lia].
  - split; [by rewrite Hs'|].
    cbn [fmap list_fmap]. 
    replace (ids ++ id (deref st l) :: ((fun l0 => id (deref st l0)) <$> ls))
      with ((ids ++ [id (deref st l)]) ++ ((fun l0 => id (deref st1 l0)) <$> ls)); [done|].
    rewrite <- app_assoc. cbn. do 2 f_equal. apply list_fmap_ext. intros ? l0 _.
    by rewrite Hderef.
Qed.

Lemma elem_of_slotKeysOf st keep ls key :
  key ∈ slotKeysOf st keep ls <->
  exists l, l ∈ ls /\ keep (deref st l) = true /\ key ∈ getPendingSlotKeys (deref st l).
Proof.
  unfold slotKeysOf, snapshot. rewrite elem_of_list_to_set.
  rewrite list_elem_of_In, in_concat. split.
  - intros (keys & Hin & Hkey).
    apply list_elem_of_In, list_elem_of_fmap in Hin as (e & -> & He).
    apply list_elem_of_In, filter_In in He as [He Hkeep].
    apply list_elem_of_In, list_elem_of_fmap in He as (l & -> & Hl).
    exists l. split; [done|]. split; [done|]. by apply list_elem_of_In.
  - intros (l & Hl & Hkeep & Hkey).
    exists (getPendingSlotKeys (deref st l)). split; [|by apply list_elem_of_In].
    apply list_elem_of_In, list_elem_of_fmap_2.
    apply list_elem_of_In, filter_In. split; [|done].
    by apply list_elem_of_In, list_elem_of_fmap_2.
Qed.

Lemma List_filter_sublist {A} (f : A -> bool) (l : list A) :
  List.filter f l `sublist_of` l.
Proof.
  induction l as [|x l IH]; cbn; [done|].
  destruct (f x); [by apply sublist_skip|by apply sublist_cons].
Qed.

Lemma List_filter_Forall {A} (P : A -> Prop) (f : A -> bool) (l : list A) :
  Forall P l -> Forall P (List.filter f l).
Proof.
  induction 1 as [|x l Hx Hl IH]; cbn; [done|]. destruct (f x); [by constructor|done].
Qed.

Lemma List_filter_fmap {A B} (f : B -> bool) (h : A -> B) (l : list A) :
  List.filter f (h <$> l) = h <$> List.filter (fun x => f (h x)) l.
Proof.
  induction l as [|x l IH]; cbn; [done|]. rewrite IH. by destruct (f (h x)).
Qed.

Lemma snapshot_fresh st h evs :
  heap st = h ++ evs -> snapshot st (seq (length h) (length evs)) = evs.
Proof.
  intros Hh. unfold snapshot, deref. rewrite Hh.
  apply list_eq. intros i. rewrite list_lookup_fmap.
  destruct (decide (i < length evs)%nat) as [Hi|Hi].
  - rewrite lookup_seq_lt by done. cbn.
    rewrite list_lookup_total_alt, lookup_app_r by lia.
    replace (length h + i - length h)%nat with i by lia.
    destruct (lookup_lt_is_Some_2 evs i Hi) as [e He]. by rewrite He.
  - rewrite lookup_seq_ge by lia. cbn. symmetry. apply lookup_ge_None_2. lia.
Qed.

Lemma calculatePendingEvents_store tza g k profile dateOptions maxEvents m now st :
  set_automationState ∅
    (calculatePendingEvents tza g k profile dateOptions maxEvents m now st).1
  = set_automationState ∅ st.
Proof.
  unfold calculatePendingEvents.
  destruct profile as [p|]; [|done].
  destruct (automation p) as [a|]; [|done].
  destruct (_ || _); [done|].
  destruct dateOptions as [|s rest]; [done|].
  pose proof (getOrCreateProfileState_store (getProfileStateKey g k) st) as H.
  destruct (getOrCreateProfileState _ _) as [st1 ps].
  by destruct (_ && _).
Qed.

Lemma calculatePendingEvents_after tza g k profile dateOptions maxEvents anchor now
  st st' evs :
  calculatePendingEvents tza g k profile dateOptions maxEvents
    (Some (dec_of_Z anchor)) now st = (st', Some evs) ->
  Forall (startsAfter anchor) evs.
Proof.
  unfold calculatePendingEvents.
  destruct profile as [p|]; [|by intros [= _ <-]].
  destruct (automation p) as [a|]; [|by intros [= _ <-]].
  destruct (_ || _); [by intros [= _ <-]|].
  destruct dateOptions as [|s rest]; [by intros [= _ <-]|].
  destruct (getOrCreateProfileState _ _) as [st1 ps].
  destruct (_ && _); [by intros [= _ <-]|].
  intros H.
  eapply (calculatePendingEvents_loop_after tza a p ps now g k maxEvents anchor
            (s :: rest) []); [by constructor|].
  exact (f_equal snd H).
Qed.

Lemma updatePendingEventsForProfile_shape tza now g k profile dateOptions st st' ok :
  isKnownGroupId st g = true ->
  updatePendingEventsForProfile tza now g k profile dateOptions st = (st', ok) ->
  exists slots,
    slots.*1 `sublist_of` dateOptions /\
    Forall (fun slot => now < slot.2 <= slot.1 - MIN_BUFFER_MS) slots /\
    heap st' = heap st ++ recordsOf g k slots /\
    pendingEvents st' =
      List.filter (fun l => refreshKeeps g k (deref st l)) (pendingEvents st)
      ++ seq (length (heap st)) (length slots) /\
    deletedEvents st' = deletedEvents st /\
    Forall (fun e => forall key l0, getPendingSlotKey e = Some key ->
               sameProfile g k (deref st l0) = true ->
               (l0 ∈ deletedEvents st \/
                l0 ∈ pendingEvents st /\
                (has_value (manualOverrides (deref st l0)) = true \/
                 status (deref st l0) = Published)) ->
               key ∉ getPendingSlotKeys (deref st l0)) (recordsOf g k slots) /\
    (forall a, getActivationStartMs (automationState st !! getProfileStateKey g k) = Some a ->
       Forall (fun slot => a < slot.1) slots) /\
    jobsPending st' (id <$> recordsOf g k slots) /\
    (slots = [] -> timers st' ⊆ timers st).
Proof.
  intros Hknown. unfold updatePendingEventsForProfile. rewrite Hknown. cbn [negb].
  set (st1 := match profilesRef st with Some _ => _ | None => _ end).
  assert (H1 : set_profilesRef None st1 = set_profilesRef None st).
  { subst st1. destruct (profilesRef st) as [byGroup|]; [|done].
    by destruct (byGroup !! g). }
  pose proof (getOrCreateProfileState_store (getProfileStateKey g k) st1) as H2.
  pose proof (getActivationStartMs_created (getProfileStateKey g k) st1) as Hact.
  replace (automationState st1) with (automationState st) in Hact
    by exact (eq_sym (f_equal automationState H1)).
  destruct (getOrCreateProfileState _ st1) as [st2 ps]. cbn [fst snd] in H2, Hact.
  assert (E2 : set_automationState ∅ (set_profilesRef None st2)
               = set_automationState ∅ (set_profilesRef None st)).
  { rewrite <- H1. exact (f_equal (set_profilesRef None) H2). }
  clearbody st1. clear H1 H2 st1.
  assert (Hheap2 : heap st2 = heap st) by exact (f_equal heap E2).
  assert (Hpe2 : pendingEvents st2 = pendingEvents st) by exact (f_equal pendingEvents E2).
  assert (Hde2 : deletedEvents st2 = deletedEvents st) by exact (f_equal deletedEvents E2).
  assert (Hderef2 : forall l, deref st2 l = deref st l).
  { intros l. unfold deref. by rewrite Hheap2. }
  set (existing := List.filter (fun l => sameProfile g k (deref st2 l)) (pendingEvents st2)).
  set (modified := slotKeysOf st2 (fun e => has_value (manualOverrides e)) existing).
  set (published := slotKeysOf st2 (fun e => status_eqb (status e) Published) existing).
  set (deleted := slotKeysOf st2 (sameProfile g k) (deletedEvents st2)).
  destruct (cancelUntouched_fold (snapshot st2 existing) st2) as (E3 & Ht3 & Hn3).
  set (st3 := fold_left _ (snapshot st2 existing) st2) in *.
  set (st4 := set_pendingEvents _ st3).
  assert (Hheap4 : heap st4 = heap st).
  { rewrite <- Hheap2. exact (f_equal heap E3). }
  assert (Hpe4 : pendingEvents st4
                 = List.filter (fun l => refreshKeeps g k (deref st l)) (pendingEvents st)).
  { subst st4. cbn [pendingEvents set_pendingEvents].
    replace (pendingEvents st3) with (pendingEvents st)
      by (rewrite <- Hpe2; exact (eq_sym (f_equal pendingEvents E3))).
    apply List.filter_ext. intros l. unfold refreshKeeps, deref.
    assert (heap st3 = heap st) as ->; [|done].
    rewrite <- Hheap2. exact (f_equal heap E3). }
  assert (Hde4 : deletedEvents st4 = deletedEvents st).
  { rewrite <- Hde2. exact (f_equal deletedEvents E3). }
  assert (Ht4 : timers st4 ⊆ timers st).
  { replace (timers st) with (timers st2) by exact (f_equal timers E2). exact Ht3. }
  clearbody st4. clear E3 Ht3 Hn3. clearbody st3.
  match goal with |- _ -> ?G => set (Goal_ := G) end.
  assert (Hnone : forall s b, heap s = heap st4 -> pendingEvents s = pendingEvents st4 ->
            deletedEvents s = deletedEvents st4 -> timers s = timers st4 ->
            (s, b) = (st', ok) -> Goal_).
  { intros s b Hh Hp Hd Ht [= <- <-]. exists []. cbn. rewrite !app_nil_r.
    split; [apply sublist_nil_l|]. split; [done|].
    split; [congruence|]. split; [congruence|]. split; [congruence|].
    split; [done|]. split; [done|].
    split; [by intros i Hi; apply elem_of_nil in Hi|].
    intros _. by rewrite Ht. }
  assert (Htail : forall st5 anchorMs,
            heap st5 = heap st4 -> pendingEvents st5 = pendingEvents st4 ->
            deletedEvents st5 = deletedEvents st4 -> timers st5 = timers st4 ->
            (forall a, getActivationStartMs (Some ps) = Some a ->
                       anchorMs = Some (dec_of_Z a)) ->
            (let (st6, o) :=
               calculatePendingEvents tza g k profile dateOptions 10 anchorMs now st5 in
             match o with
             | Some newEvents =>
                 let '(st7, added) :=
                   pushNew
                     (List.filter
                        (fun e : PendingEvent =>
                           match getPendingSlotKey e with
                           | Some key =>
                               negb (bool_decide (key ∈ modified)) &&
                               negb (bool_decide (key ∈ deleted)) &&
                               negb (bool_decide (key ∈ published))
                           | None => true
                           end)
                        newEvents)
                     st6 in
                 (fold_left (fun (s : Engine) (l : loc) => scheduleJob now l s) added
                    (savePendingEvents st7), true)
             | None => (st6, false)
             end) = (st', ok) -> Goal_).
  { intros st5 anchorMs Hh5 Hp5 Hd5 Ht5 Hanchor.
    pose proof (calculatePendingEvents_store tza g k profile dateOptions 10 anchorMs
                  now st5) as E6.
    destruct (calculatePendingEvents _ _ _ _ _ _ _ _ _) as [st6 [newEvents|]] eqn:Hc;
      cbn [fst] in E6.
    2: { apply Hnone.
         - rewrite <- Hh5. exact (f_equal heap E6).
         - rewrite <- Hp5. exact (f_equal pendingEvents E6).
         - rewrite <- Hd5. exact (f_equal deletedEvents E6).
         - rewrite <- Ht5. exact (f_equal timers E6). }
    destruct (calculatePendingEvents_slots _ _ _ _ _ _ _ _ _ _ _ Hc)
      as (slots0 & -> & Hsub & Hall & _).
    match goal with
    | |- context [List.filter ?f (recordsOf g k slots0)] => set (freeEvent := f)
    end.
    set (free := fun x : Z * Z => freeEvent (newPendingEvent g k x.1 x.2)).
    assert (Hf : List.filter freeEvent (recordsOf g k slots0)
                 = recordsOf g k (List.filter free slots0))
      by exact (List_filter_fmap freeEvent
                  (fun slot => newPendingEvent g k slot.1 slot.2) slots0).
    rewrite Hf, pushNew_spec. clear Hf.
    set (slots := List.filter free slots0).
    assert (Hh6 : heap st6 = heap st).
    { rewrite <- Hheap4, <- Hh5. exact (f_equal heap E6). }
    assert (Hp6 : pendingEvents st6 = pendingEvents st4).
    { rewrite <- Hp5. exact (f_equal pendingEvents E6). }
    assert (Hd6 : deletedEvents st6 = deletedEvents st).
    { rewrite <- Hde4, <- Hd5. exact (f_equal deletedEvents E6). }
    assert (Ht6 : timers st6 = timers st4).
    { rewrite <- Ht5. exact (f_equal timers E6). }
    clear Hnone.
    set (added := seq (length (heap st6)) (length (recordsOf g k slots))).
    set (st7 := set_pendingEvents _ (set_heap _ st6)).
    assert (Hsnap : snapshot (savePendingEvents st7) added = recordsOf g k slots).
    { subst added. apply snapshot_fresh. reflexivity. }
    assert (Hbounds : Forall (fun slot => now < slot.2 <= slot.1 - MIN_BUFFER_MS) slots).
    { by apply List_filter_Forall. }
    destruct (scheduleJobs_fold now added (savePendingEvents st7) []) as [E9 Hjobs].
    { change (Forall ((fun e => exists p, Date_parse (scheduledPublishTime e) = Some p /\
                                          now < p) ∘ deref (savePendingEvents st7)) added).
      apply Forall_fmap. fold (snapshot (savePendingEvents st7) added).
      rewrite Hsnap. apply Forall_fmap.
      eapply Forall_impl; [exact Hbounds|]. intros [s p] Hp. cbn in *.
      exists p. split; [done|lia]. }
    { intros i Hi. by apply elem_of_nil in Hi. }
    set (st9 := fold_left _ added (savePendingEvents st7)) in *.
    intros [= <- <-]. subst Goal_. exists slots.
    split; [etrans; [apply fmap_sublist, List_filter_sublist|exact Hsub]|].
    split; [done|].
    split. { transitivity (heap (savePendingEvents st7)); [exact (f_equal heap E9)|].
             cbn. by rewrite Hh6. }
    split. { transitivity (pendingEvents (savePendingEvents st7));
               [exact (f_equal pendingEvents E9)|].
             cbn. subst added. unfold recordsOf. rewrite Hp6, Hpe4, Hh6, length_fmap.
             done. }
    split. { transitivity (deletedEvents (savePendingEvents st7));
               [exact (f_equal deletedEvents E9)|]. done. }
    split.
    { apply Forall_fmap, Forall_forall. intros x Hx key l0 Hkey Hsame Hl0.
      apply list_elem_of_In, filter_In in Hx as [_ Hfree].
      unfold free, freeEvent in Hfree. cbn in Hkey. rewrite Hkey in Hfree.
      apply andb_prop in Hfree as [Hfree Hpub].
      apply andb_prop in Hfree as [Hmod Hdel].
      apply negb_true_iff, bool_decide_eq_false in Hmod, Hdel, Hpub.
      intros Hin.
      destruct Hl0 as [Hl0|[Hl0 Hwhy]].
      - apply Hdel, elem_of_slotKeysOf. exists l0. rewrite Hde2, Hderef2. done.
      - assert (Hex : l0 ∈ existing).
        { apply list_elem_of_In, filter_In. rewrite Hpe2, Hderef2.
          split; [by apply list_elem_of_In|done]. }
        destruct Hwhy as [Hov|Hst].
        + apply Hmod, elem_of_slotKeysOf. exists l0. rewrite Hderef2. done.
        + apply Hpub, elem_of_slotKeysOf. exists l0. rewrite Hderef2.
          split; [done|]. split; [|done]. unfold status_eqb. by apply bool_decide_eq_true. }
    split.
    { intros a Ha. rewrite <- Hact in Ha. rewrite (Hanchor a Ha) in Hc.
      apply calculatePendingEvents_after in Hc.
      apply List_filter_Forall. unfold recordsOf in Hc.
      apply (proj1 (Forall_fmap _ _ _)) in Hc.
      eapply Forall_impl; [exact Hc|]. intros [s p] (s' & [= <-] & Hlt). done. }
    split.
    { replace (id <$> recordsOf g k slots)
        with ([] ++ ((fun l => id (deref (savePendingEvents st7) l)) <$> added)); [done|].
      cbn. rewrite <- Hsnap. unfold snapshot. by rewrite <- list_fmap_compose. }
    intros Hs. subst st9 added. rewrite Hs. cbn. by rewrite Ht6. }
  destruct (negb _); [by apply Hnone|].
  destruct (getActivationStartMs (Some ps)) as [a|] eqn:Ha.
  { cbn [has_value negb]. rewrite andb_false_r. apply Htail; try done.
    by intros a' [= <-]. }
  destruct (0 <? length existing)%nat; cbn [negb andb has_value].
  - destruct (getEarliestEventStartMs _) as [m|]; by apply Htail.
  - by apply Hnone.
Qed.

(** X20.  What a refresh of a profile of a known group leaves alone.  The
    records of other profiles, the records with manual overrides and the
    published records stay in the pending list, in their order and ahead
    of the records the refresh adds, which are new objects; no record
    that existed is modified, and the deleted pool is untouched. *)
Theorem updatePendingEventsForProfile_keeps (tza now : Z) (g k : string)
  (profile : option Profile) (dateOptions : list Z) (st st' : Engine) (ok : bool) :
  isKnownGroupId st g = true ->
  updatePendingEventsForProfile tza now g k profile dateOptions st = (st', ok) ->
  (exists n,
     pendingEvents st' =
       List.filter (fun l => refreshKeeps g k (deref st l)) (pendingEvents st)
       ++ seq (length (heap st)) n /\
     length (heap st') = (length (heap st) + n)%nat) /\
  (forall l, (l < length (heap st))%nat -> deref st' l = deref st l) /\
  deletedEvents st' = deletedEvents st /\
  (forall l, l ∈ pendingEvents st ->
     sameProfile g k (deref st l) = false \/
     manualOverrides (deref st l) <> None \/
     status (deref st l) = Published ->
     l ∈ pendingEvents st').
Proof.
  intros Hknown H.
  destruct (updatePendingEventsForProfile_shape _ _ _ _ _ _ _ _ _ Hknown H)
    as (slots & _ & _ & Hheap & Hpe & Hde & _).
  split; [|split; [|split; [done|]]].
  - exists (length slots). split; [done|].
    rewrite Hheap, length_app. unfold recordsOf. by rewrite length_fmap.
  - intros l Hl. unfold deref. rewrite Hheap, !list_lookup_total_alt.
    by rewrite lookup_app_l.
  - intros l Hl Hwhy. rewrite Hpe. apply elem_of_app. left.
    apply list_elem_of_In, filter_In. split; [by apply list_elem_of_In|].
    unfold refreshKeeps. destruct Hwhy as [Hs|[Ho|Hp]].
    + by rewrite Hs.
    + destruct (manualOverrides (deref st l)); [|done]. cbn. by rewrite andb_false_r.
    + rewrite Hp. unfold status_eqb. cbn. by rewrite andb_false_r.
Qed.

Lemma updatePendingEventsForProfile_keeps_witness :
  pendingEvents
    (updatePendingEventsForProfile 0 (june1_1000 - 10 * ONE_DAY_MS) "grp" "weekly"
       (Some weeklyProfile) [june1_1000; june1_1000 + 7 * ONE_DAY_MS]
       twoPublishedEngine).1 = [0%nat; 1%nat] /\
  forall l, (l < 2)%nat ->
    deref (updatePendingEventsForProfile 0 (june1_1000 - 10 * ONE_DAY_MS) "grp" "weekly"
             (Some weeklyProfile) [june1_1000; june1_1000 + 7 * ONE_DAY_MS]
             twoPublishedEngine).1 l
    = deref twoPublishedEngine l.
Proof.
  split; [by vm_compute|].
  eapply (updatePendingEventsForProfile_keeps 0 (june1_1000 - 10 * ONE_DAY_MS) "grp"
            "weekly" (Some weeklyProfile) [june1_1000; june1_1000 + 7 * ONE_DAY_MS]
            twoPublishedEngine _ true).
  - reflexivity.
  - by vm_compute.
Defined.

(** X21.  What a refresh adds.  Every record that is in the pending list
    after the refresh and was not there before is the scheduled record of
    one of the pattern's dates, with a publish time that is still ahead
    and at least 30 minutes before the start; it starts after the
    profile's activation anchor, when the profile state holds one; its
    slot is none of the slots of the profile's deleted records, of its
    records with manual overrides or of its published records; and a job
    with a pending timer is filed under its id. *)
Theorem updatePendingEventsForProfile_adds (tza now : Z) (g k : string)
  (profile : option Profile) (dateOptions : list Z) (st st' : Engine) (ok : bool)
  (l : loc) :
  isKnownGroupId st g = true ->
  updatePendingEventsForProfile tza now g k profile dateOptions st = (st', ok) ->
  l ∈ pendingEvents st' -> l ∉ pendingEvents st ->
  exists s p,
    s ∈ dateOptions /\ now < p <= s - MIN_BUFFER_MS /\
    deref st' l = newPendingEvent g k s p /\
    (forall a, getActivationStartMs (automationState st !! getProfileStateKey g k)
               = Some a -> a < s) /\
    (forall key l0,
       getPendingSlotKey (deref st' l) = Some key ->
       sameProfile g k (deref st l0) = true ->
       l0 ∈ deletedEvents st \/
       l0 ∈ pendingEvents st /\
       (has_value (manualOverrides (deref st l0)) = true \/
        status (deref st l0) = Published) ->
       key ∉ getPendingSlotKeys (deref st l0)) /\
    exists h, scheduledJobs st' !! id (deref st' l) = Some h /\
              is_Some (timers st' !! h).
Proof.
  intros Hknown H Hl Hnew.
  destruct (updatePendingEventsForProfile_shape _ _ _ _ _ _ _ _ _ Hknown H)
    as (slots & Hsub & Hbounds & Hheap & Hpe & _ & Hfree & Hanchor & Hjobs & _).
  rewrite Hpe in Hl. apply elem_of_app in Hl as [Hl|Hl].
  { apply list_elem_of_In, filter_In in Hl as [Hl _]. by apply list_elem_of_In in Hl. }
  apply elem_of_seq in Hl.
  assert (Hi : (l - length (heap st) < length slots)%nat) by lia.
  destruct (lookup_lt_is_Some_2 slots _ Hi) as [[s p] Hslot].
  assert (Hrec : deref st' l = newPendingEvent g k s p).
  { unfold deref. rewrite list_lookup_total_alt, Hheap, lookup_app_r by lia.
    unfold recordsOf. by rewrite list_lookup_fmap, Hslot. }
  assert (Hin : newPendingEvent g k s p ∈ recordsOf g k slots).
  { unfold recordsOf.
    apply (list_elem_of_fmap_2 (fun slot => newPendingEvent g k slot.1 slot.2) slots (s, p)).
    by eapply list_elem_of_lookup_2. }
  exists s, p. rewrite Hrec.
  split.
  { eapply sublist_subseteq; [exact Hsub|].
    apply (list_elem_of_fmap_2 fst slots (s, p)). by eapply list_elem_of_lookup_2. }
  split. { exact (proj1 (Forall_lookup _ _) Hbounds _ _ Hslot). }
  split; [done|].
  split. { intros a Ha. exact (proj1 (Forall_lookup _ _) (Hanchor a Ha) _ _ Hslot). }
  split. { exact (proj1 (Forall_forall _ _) Hfree _ Hin). }
  destruct (Hjobs (id (newPendingEvent g k s p))) as (h & Hh & Ht & _).
  { by apply list_elem_of_fmap_2. }
  by exists h.
Qed.

Lemma updatePendingEventsForProfile_adds_witness :
  let st' := (updatePendingEventsForProfile 0 (june1_1000 - 10 * ONE_DAY_MS) "grp"
                "weekly" (Some weeklyProfile) [june1_1000; june1_1000 + 7 * ONE_DAY_MS]
                deletedWeeklyEngine).1 in
  pendingEvents st' = [2%nat] /\
  exists s p,
    s ∈ [june1_1000; june1_1000 + 7 * ONE_DAY_MS] /\
    june1_1000 - 10 * ONE_DAY_MS < p <= s - MIN_BUFFER_MS /\
    deref st' 2%nat = newPendingEvent "grp" "weekly" s p /\
    (forall a, getActivationStartMs
                 (automationState deletedWeeklyEngine !! getProfileStateKey "grp" "weekly")
               = Some a -> a < s) /\
    (forall key l0,
       getPendingSlotKey (deref st' 2%nat) = Some key ->
       sameProfile "grp" "weekly" (deref deletedWeeklyEngine l0) = true ->
       l0 ∈ deletedEvents deletedWeeklyEngine \/
       l0 ∈ pendingEvents deletedWeeklyEngine /\
       (has_value (manualOverrides (deref deletedWeeklyEngine l0)) = true \/
        status (deref deletedWeeklyEngine l0) = Published) ->
       key ∉ getPendingSlotKeys (deref deletedWeeklyEngine l0)) /\
    exists h, scheduledJobs st' !! id (deref st' 2%nat) = Some h /\
              is_Some (timers st' !! h).
Proof.
  intros st'. split; [by vm_compute|].
  apply (updatePendingEventsForProfile_adds 0 (june1_1000 - 10 * ONE_DAY_MS) "grp"
           "weekly" (Some weeklyProfile) [june1_1000; june1_1000 + 7 * ONE_DAY_MS]
           deletedWeeklyEngine st' true 2%nat).
  - reflexivity.
  - by vm_compute.
  - replace (pendingEvents st') with [2%nat] by (by vm_compute). apply list_elem_of_here.
  - replace (pendingEvents deletedWeeklyEngine) with [0%nat] by reflexivity.
    intros Hin. apply list_elem_of_singleton in Hin. discriminate.
Defined.

(** X22.  A refresh generates nothing for a profile whose automation is
    missing or switched off, and nothing for a profile that has not been
    activated: one with no record of its own in the pending list and no
    activation anchor in its state.  No object is created and no timer is
    set; the pending list is the filtered one, which in the second case
    is the list as it was; the store is saved once. *)
Theorem updatePendingEventsForProfile_inactive (tza now : Z) (g k : string)
  (profile : option Profile) (dateOptions : list Z) (st st' : Engine) (ok : bool) :
  isKnownGroupId st g = true ->
  (forall p a, profile = Some p -> automation p = Some a -> enabled a = false) \/
  (Forall (fun l => sameProfile g k (deref st l) = false) (pendingEvents st) /\
   getActivationStartMs (automationState st !! getProfileStateKey g k) = None) ->
  updatePendingEventsForProfile tza now g k profile dateOptions st = (st', ok) ->
  ok = true /\
  heap st' = heap st /\
  pendingEvents st' =
    List.filter (fun l => refreshKeeps g k (deref st l)) (pendingEvents st) /\
  (Forall (fun l => sameProfile g k (deref st l) = false) (pendingEvents st) ->
   pendingEvents st' = pendingEvents st) /\
  deletedEvents st' = deletedEvents st /\
  timers st' ⊆ timers st /\
  trace st' = trace st ++ [SavePendingEvents (snapshot st' (pendingEvents st'))
                                             (snapshot st' (deletedEvents st'))].
Proof.
  intros Hknown Hwhy. unfold updatePendingEventsForProfile. rewrite Hknown. cbn [negb].
  set (st1 := match profilesRef st with Some _ => _ | None => _ end).
  assert (H1 : set_profilesRef None st1 = set_profilesRef None st).
  { subst st1. destruct (profilesRef st) as [byGroup|]; [|done].
    by destruct (byGroup !! g). }
  pose proof (getOrCreateProfileState_store (getProfileStateKey g k) st1) as H2.
  pose proof (getActivationStartMs_created (getProfileStateKey g k) st1) as Hact.
  replace (automationState st1) with (automationState st) in Hact
    by exact (eq_sym (f_equal automationState H1)).
  destruct (getOrCreateProfileState _ st1) as [st2 ps]. cbn [fst snd] in H2, Hact.
  assert (E2 : set_automationState ∅ (set_profilesRef None st2)
               = set_automationState ∅ (set_profilesRef None st)).
  { rewrite <- H1. exact (f_equal (set_profilesRef None) H2). }
  clearbody st1. clear H1 H2 st1.
  assert (Hheap2 : heap st2 = heap st) by exact (f_equal heap E2).
  assert (Hpe2 : pendingEvents st2 = pendingEvents st) by exact (f_equal pendingEvents E2).
  set (existing := List.filter (fun l => sameProfile g k (deref st2 l)) (pendingEvents st2)).
  destruct (cancelUntouched_fold (snapshot st2 existing) st2) as (E3 & Ht3 & _).
  set (st3 := fold_left _ (snapshot st2 existing) st2) in *.
  set (st4 := set_pendingEvents _ st3).
  assert (Hheap4 : heap st4 = heap st).
  { rewrite <- Hheap2. exact (f_equal heap E3). }
  assert (Hpe4 : pendingEvents st4
                 = List.filter (fun l => refreshKeeps g k (deref st l)) (pendingEvents st)).
  { subst st4. cbn [pendingEvents set_pendingEvents].
    replace (pendingEvents st3) with (pendingEvents st)
      by (rewrite <- Hpe2; exact (eq_sym (f_equal pendingEvents E3))).
    apply List.filter_ext. intros l. unfold refreshKeeps, deref.
    assert (heap st3 = heap st) as ->; [|done].
    rewrite <- Hheap2. exact (f_equal heap E3). }
  assert (Hde4 : deletedEvents st4 = deletedEvents st).
  { transitivity (deletedEvents st2); [exact (f_equal deletedEvents E3)|].
    exact (f_equal deletedEvents E2). }
  assert (Ht4 : timers st4 ⊆ timers st).
  { replace (timers st) with (timers st2) by exact (f_equal timers E2). exact Ht3. }
  assert (Htr4 : trace st4 = trace st).
  { transitivity (trace st2); [exact (f_equal trace E3)|]. exact (f_equal trace E2). }
  clearbody st4. clear E3 Ht3. clearbody st3.
  assert (Hsame : Forall (fun l => sameProfile g k (deref st l) = false) (pendingEvents st) ->
                  List.filter (fun l => refreshKeeps g k (deref st l)) (pendingEvents st)
                  = pendingEvents st).
  { clear. induction 1 as [|l ls Hl _ IH]; cbn; [done|].
    unfold refreshKeeps at 1. rewrite Hl. cbn. by rewrite IH. }
  assert (Hsave : (savePendingEvents st4, true) = (st', ok) ->
            ok = true /\
            heap st' = heap st /\
            pendingEvents st' =
              List.filter (fun l => refreshKeeps g k (deref st l)) (pendingEvents st) /\
            (Forall (fun l => sameProfile g k (deref st l) = false) (pendingEvents st) ->
             pendingEvents st' = pendingEvents st) /\
            deletedEvents st' = deletedEvents st /\
            timers st' ⊆ timers st /\
            trace st' = trace st ++ [SavePendingEvents (snapshot st' (pendingEvents st'))
                                                       (snapshot st' (deletedEvents st'))]).
  { intros [= <- <-]. cbn. rewrite Htr4.
    split; [done|]. split; [done|]. split; [done|].
    split; [by intros Hf; rewrite Hpe4, Hsame|]. done. }
  destruct (negb _) eqn:Hen; [done|].
  apply negb_false_iff in Hen.
  destruct Hwhy as [Hoff|[Hnone Hanchor]].
  { destruct profile as [p|]; [|done].
    destruct (automation p) as [a|] eqn:Ea; [|done].
    by rewrite (Hoff p a eq_refl Ea) in Hen. }
  rewrite Hact, Hanchor.
  assert (Hex : existing = []).
  { subst existing. rewrite Hpe2. clear -Hnone Hheap2.
    induction Hnone as [|l ls Hl _ IH]; cbn; [done|].
    unfold deref at 1. rewrite Hheap2. fold (deref st l). by rewrite Hl. }
  rewrite Hex. cbn. done.
Qed.

Lemma updatePendingEventsForProfile_inactive_witness :
  let st := set_pendingEvents [] (set_heap [] oneEventEngine) in
  let st' := (updatePendingEventsForProfile 0 9000 "grp" "weekly" (Some weeklyProfile)
                [june1_1000] st).1 in
  heap st' = heap st /\ pendingEvents st' = pendingEvents st /\
  timers st' ⊆ timers st /\
  trace st' = trace st ++ [SavePendingEvents [] []].
Proof.
  intros st st'.
  destruct (updatePendingEventsForProfile_inactive 0 9000 "grp" "weekly"
              (Some weeklyProfile) [june1_1000] st st' true)
    as (_ & Hh & _ & Hp & _ & Ht & Htr).
  - reflexivity.
  - right. split; [constructor|reflexivity].
  - by vm_compute.
  - split; [exact Hh|]. split; [apply Hp; constructor|]. split; [exact Ht|exact Htr].
Defined.

(** ** Manual overrides *)

Lemma update_store l f st : set_heap [] (update l f st) = set_heap [] st.
Proof. done. Qed.

Lemma update_length l f st : length (heap (update l f st)) = length (heap st).
Proof. unfold update. cbn. apply length_alter. Qed.

Lemma deref_update_same l f st :
  (l < length (heap st))%nat -> deref (update l f st) l = f (deref st l).
Proof. intros Hl. rewrite deref_update. by rewrite decide_True. Qed.

Lemma deref_update_other l f st l0 :
  l0 <> l -> deref (update l f st) l0 = deref st l0.
Proof. intros Hl. rewrite deref_update. rewrite decide_False; [done|]. by intros [-> _]. Qed.

(** The state after the first three writes of
    [updatePendingEventOverrides]: the slot key frozen, the overrides
    stored, the start copied. *)
Lemma overrides_written l overrides st :
  (l < length (heap st))%nat ->
  let event := deref st l in
  let st1 :=
    if truthy_ostring (slotKey event) then st
    else if truthy_ostring (derivePendingSlotKey event)
         then update l (set_slotKey (derivePendingSlotKey event)) st
         else st in
  let st2 := update l (set_manualOverrides overrides) st1 in
  let newStartsAt := overrides ≫= ov_eventStartsAt in
  let st3 :=
    if truthy_date newStartsAt then update l (set_eventStartsAt newStartsAt) st2
    else st2 in
  set_heap [] st3 = set_heap [] st /\
  length (heap st3) = length (heap st) /\
  (forall l0, l0 <> l -> deref st3 l0 = deref st l0) /\
  deref st3 l =
    mkPendingEvent (id event)
      (if truthy_ostring (slotKey event) then slotKey event
       else if truthy_ostring (derivePendingSlotKey event)
            then derivePendingSlotKey event else slotKey event)
      (groupId event) (profileKey event) (scheduledPublishTime event)
      (if truthy_date newStartsAt then newStartsAt else eventStartsAt event)
      overrides (status event) (missedAt event) (queuedAt event) (deletedAt event)
      (eventId event).
Proof.
  intros Hl event st1 st2 newStartsAt st3.
  assert (H1 : set_heap [] st1 = set_heap [] st /\ length (heap st1) = length (heap st) /\
               (forall l0, l0 <> l -> deref st1 l0 = deref st l0) /\
               deref st1 l = set_slotKey
                 (if truthy_ostring (slotKey event) then slotKey event
                  else if truthy_ostring (derivePendingSlotKey event)
                       then derivePendingSlotKey event else slotKey event) event).
  { assert (Hid : forall e, set_slotKey (slotKey e) e = e) by (by intros []).
    subst st1. destruct (truthy_ostring (slotKey event)); [by rewrite Hid|].
    destruct (truthy_ostring (derivePendingSlotKey event)); [|by rewrite Hid].
    split; [done|]. split; [apply update_length|].
    split; [by intros l0 Hl0; apply deref_update_other|]. by apply deref_update_same. }
  destruct H1 as (Hs1 & Hlen1 & Ho1 & Hd1). clearbody st1.
  assert (H2 : set_heap [] st2 = set_heap [] st /\ length (heap st2) = length (heap st) /\
               (forall l0, l0 <> l -> deref st2 l0 = deref st l0) /\
               deref st2 l = set_manualOverrides overrides (deref st1 l)).
  { subst st2. split; [by rewrite update_store|]. split; [by rewrite update_length|].
    split; [by intros l0 Hl0; rewrite deref_update_other, Ho1|].
    apply deref_update_same. lia. }
  destruct H2 as (Hs2 & Hlen2 & Ho2 & Hd2). clearbody st2.
  subst st3. destruct (truthy_date newStartsAt).
  - split; [by rewrite update_store|]. split; [by rewrite update_length|].
    split; [by intros l0 Hl0; rewrite deref_update_other, Ho2|].
    rewrite deref_update_same, Hd2, Hd1 by lia. done.
  - split; [done|]. split; [done|]. split; [done|]. by rewrite Hd2, Hd1.
Qed.

(** X23.  An edit of a record that is not in the pending list is refused
    and changes nothing.  An edit that does not move the start (the
    overrides carry no start, or the start the record has) is stored on
    the record and saved, and nothing else happens: the record keeps its
    slot, its status and its times, no other record, no job, no timer and
    no queue entry changes.  With overrides stored, the record is one of
    those a refresh of the profile leaves alone. *)
Theorem updatePendingEventOverrides_metadata (now : Z) (pendingEventId : string)
  (overrides : option Overrides) (st : Engine) :
  (findPending st pendingEventId = None ->
   updatePendingEventOverrides now pendingEventId overrides st
   = (st, ResultError "Pending event not found")) /\
  (forall l,
     findPending st pendingEventId = Some l -> (l < length (heap st))%nat ->
     truthy_date (overrides ≫= ov_eventStartsAt) = false \/
     overrides ≫= ov_eventStartsAt = eventStartsAt (deref st l) ->
     let st' := (updatePendingEventOverrides now pendingEventId overrides st).1 in
     (updatePendingEventOverrides now pendingEventId overrides st).2 = ResultOk /\
     manualOverrides (deref st' l) = overrides /\
     getPendingSlotKey (deref st' l) = getPendingSlotKey (deref st l) /\
     set_slotKey None (set_manualOverrides None (deref st' l))
       = set_slotKey None (set_manualOverrides None (deref st l)) /\
     (forall l0, l0 <> l -> deref st' l0 = deref st l0) /\
     pendingEvents st' = pendingEvents st /\ deletedEvents st' = deletedEvents st /\
     scheduledJobs st' = scheduledJobs st /\ timers st' = timers st /\
     queue st' = queue st /\
     trace st' = trace st ++ [SavePendingEvents (snapshot st' (pendingEvents st'))
                                                (snapshot st' (deletedEvents st'))] /\
     (overrides <> None -> forall g k, refreshKeeps g k (deref st' l) = true)).
Proof.
  split.
  { intros Hfind. unfold updatePendingEventOverrides. by rewrite Hfind. }
  intros l Hfind Hl Hsame. unfold updatePendingEventOverrides. rewrite Hfind.
  cbv zeta.
  destruct (overrides_written l overrides st Hl) as (Hs & Hlen & Hother & Hrec).
  match type of Hs with set_heap [] ?s = _ => set (st3 := s) in * end.
  clearbody st3.
  assert (Hcond : truthy_date (overrides ≫= ov_eventStartsAt) &&
                  negb (bool_decide (overrides ≫= ov_eventStartsAt
                                     = eventStartsAt (deref st l))) = false).
  { destruct Hsame as [Hf|He]. 1: by rewrite Hf.
    rewrite bool_decide_eq_true_2 by done. apply andb_false_r. }
  rewrite Hcond. cbn [fst snd].
  assert (Hd : forall l0, deref (savePendingEvents st3) l0 = deref st3 l0) by done.
  rewrite !Hd, Hrec.
  assert (Hstart : (if truthy_date (overrides ≫= ov_eventStartsAt)
                    then overrides ≫= ov_eventStartsAt
                    else eventStartsAt (deref st l)) = eventStartsAt (deref st l)).
  { destruct Hsame as [Hf|He]; [by rewrite Hf|]. rewrite He.
    by destruct (truthy_date (eventStartsAt (deref st l))). }
  rewrite Hstart.
  split; [done|]. split; [done|].
  split.
  { unfold getPendingSlotKey, derivePendingSlotKey. cbn.
    destruct (truthy_ostring (slotKey (deref st l))) eqn:E1; [by rewrite E1|].
    fold (derivePendingSlotKey (deref st l)).
    destruct (truthy_ostring (derivePendingSlotKey (deref st l))) eqn:E2.
    - by rewrite E2.
    - by rewrite E1. }
  split; [by destruct (deref st l)|].
  split; [exact Hother|].
  split; [exact (f_equal pendingEvents Hs)|].
  split; [exact (f_equal deletedEvents Hs)|].
  split; [exact (f_equal scheduledJobs Hs)|].
  split; [exact (f_equal timers Hs)|].
  split; [exact (f_equal queue Hs)|].
  split.
  { cbn. f_equal. exact (f_equal trace Hs). }
  intros Hov g k. unfold refreshKeeps. cbn.
  destruct overrides; [|done]. cbn. by rewrite andb_false_r.
Qed.

Lemma updatePendingEventOverrides_metadata_witness :
  let o := Some (mkOverrides (Some "Special session") None None 0) in
  let st' := (updatePendingEventOverrides 5000 "pending_grp_weekly_1780308000000" o
                oneEventEngine).1 in
  manualOverrides (deref st' 0%nat) = o /\
  refreshKeeps "grp" "weekly" (deref st' 0%nat) = true.
Proof.
  intros o st'.
  destruct (proj2 (updatePendingEventOverrides_metadata 5000
                     "pending_grp_weekly_1780308000000" o oneEventEngine) 0%nat)
    as (_ & Hov & _ & _ & _ & _ & _ & _ & _ & _ & _ & Hkeep);
    [reflexivity|cbn; lia|by left|].
  split; [exact Hov|by apply Hkeep].
Defined.

Lemma lookupProfile_store s st g k :
  set_heap [] s = set_heap [] st -> lookupProfile s g k = lookupProfile st g k.
Proof.
  intros H. unfold lookupProfile.
  assert (profilesRef s = profilesRef st) as -> by exact (f_equal profilesRef H). done.
Qed.

(** X24.  An edit that moves the start of a record whose profile is
    automated in [before] mode: the record takes the new start and the
    overrides, and its publish time becomes the new start minus the
    profile's offset, as it is, with no 30-minute buffer.  If that time
    has passed the record becomes [missed] and its job is cancelled;
    otherwise a [missed] record becomes [scheduled] again, any other
    record keeps its status, and one new timer is filed under the
    record's id.  The store is saved. *)
Theorem updatePendingEventOverrides_new_start (now : Z) (pendingEventId : string)
  (o : Overrides) (l : loc) (st : Engine) (p : Profile) (a : Automation) (s : Z) :
  findPending st pendingEventId = Some l -> (l < length (heap st))%nat ->
  ov_eventStartsAt o = Some (Iso s) ->
  eventStartsAt (deref st l) <> Some (Iso s) ->
  lookupProfile st (groupId (deref st l)) (profileKey (deref st l)) = Some p ->
  automation p = Some a -> enabled a = true -> timingMode a = Before ->
  let e := deref st l in
  let t := s - offsetMs a in
  let st' := (updatePendingEventOverrides now pendingEventId (Some o) st).1 in
  (updatePendingEventOverrides now pendingEventId (Some o) st).2 = ResultOk /\
  eventStartsAt (deref st' l) = Some (Iso s) /\
  scheduledPublishTime (deref st' l) = Some (Iso t) /\
  manualOverrides (deref st' l) = Some o /\
  (t <= now ->
     status (deref st' l) = Missed /\ missedAt (deref st' l) = Some (Iso now) /\
     scheduledJobs st' !! pendingEventId = None /\ timers st' ⊆ timers st) /\
  (now < t ->
     status (deref st' l) = (if status_eqb (status e) Missed then Scheduled else status e) /\
     scheduledJobs st' !! pendingEventId = Some (nextTimer st) /\
     exists cb delay,
       timers st' !! nextTimer st = Some (mkTimer now (Some delay) cb) /\
       0 < delay <= t - now /\
       (cb = CbRecheck l \/ (cb = CbPost l /\ delay = t - now))) /\
  (forall l0, l0 <> l -> deref st' l0 = deref st l0) /\
  pendingEvents st' = pendingEvents st /\
  exists saved deleted, last (trace st') = Some (SavePendingEvents saved deleted).
Proof.
  intros Hfind Hl Hstart Hnew Hp Ha Hen Hmode. cbv zeta.
  destruct (findPending_In _ _ _ Hfind) as [_ Hid].
  unfold updatePendingEventOverrides. rewrite Hfind. cbv zeta.
  destruct (overrides_written l (Some o) st Hl) as (Hs & Hlen & Hother & Hrec).
  match type of Hs with set_heap [] ?s = _ => set (st3 := s) in * end.
  clearbody st3.
  cbn [mbind option_bind] in *. rewrite Hstart in *. cbn [truthy_date andb] in *.
  rewrite bool_decide_eq_false_2 by (by intros E; apply Hnew). cbn [negb].
  rewrite (lookupProfile_store st3 st _ _ Hs), Hp. cbn [mbind option_bind].
  rewrite Ha, Hen, Hmode. cbn [Date_parse].
  set (t := s - offsetMs a).
  set (st4 := update l (set_scheduledPublishTime (Some (toISOString t))) st3).
  assert (Hs4 : set_heap [] st4 = set_heap [] st) by (by rewrite <- Hs).
  assert (Hlen4 : length (heap st4) = length (heap st)).
  { subst st4. by rewrite update_length. }
  assert (Hother4 : forall l0, l0 <> l -> deref st4 l0 = deref st l0).
  { intros l0 Hl0. subst st4. by rewrite deref_update_other, Hother. }
  assert (Hrec4 : deref st4 l = set_scheduledPublishTime (Some (Iso t)) (deref st3 l)).
  { subst st4. apply deref_update_same. lia. }
  rewrite Hrec in Hrec4. cbn in Hrec4.
  clearbody st4. clear Hrec Hother Hlen Hs st3.
  cbn [fst snd].
  assert (Hsaved : forall s5, deref (savePendingEvents s5) = deref s5) by done.
  split; [done|].
  destruct (Z.leb_spec t now) as [Hpast|Hfuture].
  - (* the publish time has passed *)
    set (st5 := update l _ st4).
    assert (Hrec5 : deref st5 l
                    = set_missedAt (Some (Iso now)) (set_status Missed (deref st4 l))).
    { subst st5. apply deref_update_same. lia. }
    assert (Hother5 : forall l0, l0 <> l -> deref st5 l0 = deref st l0).
    { intros l0 Hl0. subst st5. by rewrite deref_update_other, Hother4. }
    assert (Hs5 : set_heap [] st5 = set_heap [] st) by (by rewrite <- Hs4).
    clearbody st5.
    destruct (cancelJob_store pendingEventId st5) as [Hstore Hjobs].
    destruct (cancelJob_timers pendingEventId st5) as [Htimers _].
    assert (Hderef : forall l0, deref (cancelJob pendingEventId st5) l0 = deref st5 l0).
    { intros l0. apply deref_same. exact (f_equal heap Hstore). }
    rewrite Hsaved, !Hderef, Hrec5, Hrec4.
    cbn [eventStartsAt scheduledPublishTime manualOverrides status missedAt
         set_missedAt set_status set_scheduledPublishTime scheduledJobs timers
         pendingEvents trace savePendingEvents emit].
    split; [done|]. split; [done|]. split; [done|].
    split.
    { intros _. split; [done|]. split; [done|]. split.
      - rewrite Hjobs. apply lookup_delete_eq.
      - etrans; [exact Htimers|].
        assert (timers st5 = timers st) as -> by exact (f_equal timers Hs5). done. }
    split; [lia|].
    split; [by intros l0 Hl0; rewrite Hderef, Hother5|].
    split.
    { transitivity (pendingEvents st5); [exact (f_equal pendingEvents Hstore)|].
      exact (f_equal pendingEvents Hs5). }
    eexists _, _. apply last_snoc.
  - (* the publish time is ahead *)
    assert (Hsched : forall sX,
              deref sX l = (if status_eqb (status (deref st l)) Missed
                            then set_missedAt None (set_status Scheduled (deref st4 l))
                            else deref st4 l) ->
              (forall l0, l0 <> l -> deref sX l0 = deref st l0) ->
              pendingEvents sX = pendingEvents st -> nextTimer sX = nextTimer st ->
              let st' := savePendingEvents (scheduleJob now l sX) in
              eventStartsAt (deref st' l) = Some (Iso s) /\
              scheduledPublishTime (deref st' l) = Some (Iso t) /\
              manualOverrides (deref st' l) = Some o /\
              (t <= now ->
               status (deref st' l) = Missed /\ missedAt (deref st' l) = Some (Iso now) /\
               scheduledJobs st' !! pendingEventId = None /\ timers st' ⊆ timers st) /\
              (now < t ->
               status (deref st' l)
               = (if status_eqb (status (deref st l)) Missed then Scheduled
                  else status (deref st l)) /\
               scheduledJobs st' !! pendingEventId = Some (nextTimer st) /\
               exists cb delay,
                 timers st' !! nextTimer st = Some (mkTimer now (Some delay) cb) /\
                 0 < delay <= t - now /\
                 (cb = CbRecheck l \/ (cb = CbPost l /\ delay = t - now))) /\
              (forall l0, l0 <> l -> deref st' l0 = deref st l0) /\
              pendingEvents st' = pendingEvents st /\
              exists saved deleted,
                last (trace st') = Some (SavePendingEvents saved deleted)).
    { intros sX HrecX HotherX HpeX HnX. cbv zeta.
      assert (HpX : Date_parse (scheduledPublishTime (deref sX l)) = Some t).
      { rewrite HrecX, Hrec4. by destruct (status_eqb _ _). }
      destruct (scheduleJob_future_timer now l t sX HpX Hfuture)
        as (cb & delay & (Ht & Hj & Hh & _) & Hdelay & Hcb & Hframe).
      assert (Hderef : forall l0, deref (scheduleJob now l sX) l0 = deref sX l0).
      { intros l0. by apply deref_same. }
      assert (HidX : id (deref sX l) = pendingEventId).
      { rewrite HrecX, Hrec4. by destruct (status_eqb _ _). }
      rewrite Hsaved, !Hderef, HrecX, Hrec4.
      split; [by destruct (status_eqb _ _)|].
      split; [by destruct (status_eqb _ _)|].
      split; [by destruct (status_eqb _ _)|].
      split; [lia|].
      split.
      { intros _. split; [by destruct (status_eqb _ _)|].
        cbn [scheduledJobs timers savePendingEvents emit].
        rewrite Hj, Ht, HnX, HidX, !lookup_insert_eq. split; [done|]. by exists cb, delay. }
      split; [by intros l0 Hl0; rewrite Hderef, HotherX|].
      split.
      { cbn [pendingEvents savePendingEvents emit]. rewrite <- HpeX.
        exact (f_equal pendingEvents Hframe). }
      eexists _, _. apply last_snoc. }
    destruct (status_eqb (status (deref st l)) Missed) eqn:Hst.
    + apply Hsched.
      * apply deref_update_same. lia.
      * intros l0 Hl0. by rewrite deref_update_other, Hother4.
      * exact (f_equal pendingEvents Hs4).
      * exact (f_equal nextTimer Hs4).
    + destruct (cancelJob_store pendingEventId st4) as [Hstore _].
      destruct (cancelJob_timers pendingEventId st4) as [_ Hn].
      apply Hsched.
      * apply deref_same. exact (f_equal heap Hstore).
      * intros l0 Hl0. rewrite <- Hother4 by done. apply deref_same.
        exact (f_equal heap Hstore).
      * transitivity (pendingEvents st4); [exact (f_equal pendingEvents Hstore)|].
        exact (f_equal pendingEvents Hs4).
      * rewrite Hn. exact (f_equal nextTimer Hs4).
Qed.

Lemma updatePendingEventOverrides_new_start_witness :
  let o := mkOverrides None (Some (Iso (june1_1000 + ONE_DAY_MS))) None 0 in
  let st' := (updatePendingEventOverrides 5000 "pending_grp_weekly_1780308000000"
                (Some o) oneEventEngine).1 in
  eventStartsAt (deref st' 0%nat) = Some (Iso (june1_1000 + ONE_DAY_MS)) /\
  scheduledPublishTime (deref st' 0%nat)
    = Some (Iso (june1_1000 + ONE_DAY_MS - offsetMs beforeThreeDays)) /\
  scheduledJobs st' !! "pending_grp_weekly_1780308000000" = Some 0%nat.
Proof.
  intros o st'.
  destruct (updatePendingEventOverrides_new_start 5000 "pending_grp_weekly_1780308000000"
              o 0%nat oneEventEngine weeklyProfile beforeThreeDays
              (june1_1000 + ONE_DAY_MS))
    as (_ & Hs & Hp & _ & _ & Hfuture & _);
    [reflexivity|cbn; lia|reflexivity|by vm_compute|reflexivity|reflexivity|reflexivity
    |reflexivity|].
  split; [exact Hs|]. split; [exact Hp|].
  apply Hfuture. by vm_compute.
Defined.

(** X25.  An edit whose new start is a text that is not a date, on a
    record of a profile with automation switched on, does not return: the
    publish time computed from it is an invalid date and [toISOString]
    throws.  By then the overrides and the unreadable start have been
    written to the record; its publish time, its status and its job are
    as they were, and nothing has been saved. *)
Theorem updatePendingEventOverrides_invalid_start (now : Z) (pendingEventId : string)
  (o : Overrides) (l : loc) (st : Engine) (p : Profile) (a : Automation)
  (text : string) :
  findPending st pendingEventId = Some l -> (l < length (heap st))%nat ->
  ov_eventStartsAt o = Some (NotADate text) -> text <> EmptyString ->
  eventStartsAt (deref st l) <> Some (NotADate text) ->
  lookupProfile st (groupId (deref st l)) (profileKey (deref st l)) = Some p ->
  automation p = Some a -> enabled a = true ->
  let st' := (updatePendingEventOverrides now pendingEventId (Some o) st).1 in
  (updatePendingEventOverrides now pendingEventId (Some o) st).2 = ResultThrew /\
  eventStartsAt (deref st' l) = Some (NotADate text) /\
  manualOverrides (deref st' l) = Some o /\
  scheduledPublishTime (deref st' l) = scheduledPublishTime (deref st l) /\
  status (deref st' l) = status (deref st l) /\
  (forall l0, l0 <> l -> deref st' l0 = deref st l0) /\
  set_heap [] st' = set_heap [] st.
Proof.
  intros Hfind Hl Hstart Htext Hnew Hp Ha Hen. cbv zeta.
  unfold updatePendingEventOverrides. rewrite Hfind. cbv zeta.
  destruct (overrides_written l (Some o) st Hl) as (Hs & Hlen & Hother & Hrec).
  match type of Hs with set_heap [] ?s = _ => set (st3 := s) in * end.
  clearbody st3.
  cbn [mbind option_bind] in *. rewrite Hstart in *.
  assert (Htruthy : truthy_date (Some (NotADate text)) = true).
  { cbn. by destruct text. }
  rewrite Htruthy in *. cbn [andb].
  rewrite bool_decide_eq_false_2 by (by intros E; apply Hnew). cbn [negb].
  rewrite (lookupProfile_store st3 st _ _ Hs), Hp. cbn [mbind option_bind].
  rewrite Ha, Hen. cbn [Date_parse].
  assert (Hthrow : match timingMode a with
                   | Before => @None Z
                   | _ => None
                   end = None) by (by destruct (timingMode a)).
  rewrite Hthrow. cbn [fst snd]. rewrite Hrec. done.
Qed.

Lemma updatePendingEventOverrides_invalid_start_witness :
  let o := mkOverrides None (Some (NotADate "tomorrow-ish")) None 0 in
  let r := updatePendingEventOverrides 5000 "pending_grp_weekly_1780308000000"
             (Some o) oneEventEngine in
  r.2 = ResultThrew /\ eventStartsAt (deref r.1 0%nat) = Some (NotADate "tomorrow-ish").
Proof.
  intros o r.
  destruct (updatePendingEventOverrides_invalid_start 5000
              "pending_grp_weekly_1780308000000" o 0%nat oneEventEngine weeklyProfile
              beforeThreeDays "tomorrow-ish")
    as (Hr & Hs & _);
    [reflexivity|cbn; lia|reflexivity|done|by vm_compute|reflexivity|reflexivity
    |reflexivity|].
  split; [exact Hr|exact Hs].
Defined.

(** ** From an edit to the published event *)

Lemma findPending_ext s st pendingEventId :
  pendingEvents s = pendingEvents st ->
  (forall l, id (deref s l) = id (deref st l)) ->
  findPending s pendingEventId = findPending st pendingEventId.
Proof.
  intros Hpe Hid. unfold findPending. rewrite Hpe. clear Hpe.
  induction (pendingEvents st) as [|l ls IH]; [done|].
  cbn [List.find]. rewrite Hid, IH. done.
Qed.

Lemma updatePendingEventOverrides_written now pendingEventId overrides l st :
  findPending st pendingEventId = Some l -> (l < length (heap st))%nat ->
  let st1 := (updatePendingEventOverrides now pendingEventId overrides st).1 in
  profilesRef st1 = profilesRef st /\ pendingEvents st1 = pendingEvents st /\
  (forall l0, l0 <> l -> deref st1 l0 = deref st l0) /\
  editView (deref st1 l)
  = editView (set_manualOverrides overrides
                (set_eventStartsAt
                   (if truthy_date (overrides ≫= ov_eventStartsAt)
                    then overrides ≫= ov_eventStartsAt
                    else eventStartsAt (deref st l)) (deref st l))).
Proof.
  intros Hfind Hl. cbv zeta.
  destruct (findPending_In _ _ _ Hfind) as [_ Hid].
  unfold updatePendingEventOverrides. rewrite Hfind. cbv zeta.
  destruct (overrides_written l overrides st Hl) as (Hs & Hlen & Hother & Hrec).
  match type of Hs with set_heap [] ?s = _ => set (st3 := s) in * end.
  clearbody st3.
  set (newStartsAt := overrides ≫= ov_eventStartsAt) in *.
  assert (Hview3 : editView (deref st3 l)
                   = editView (set_manualOverrides overrides
                       (set_eventStartsAt
                          (if truthy_date newStartsAt then newStartsAt
                           else eventStartsAt (deref st l)) (deref st l)))).
  { by rewrite Hrec. }
  clear Hrec.
  assert (Hdone : forall s3 (r : ActionResult),
            profilesRef s3 = profilesRef st -> pendingEvents s3 = pendingEvents st ->
            (forall l0, l0 <> l -> deref s3 l0 = deref st l0) ->
            editView (deref s3 l) = editView (deref st3 l) ->
            profilesRef (s3, r).1 = profilesRef st /\
            pendingEvents (s3, r).1 = pendingEvents st /\
            (forall l0, l0 <> l -> deref (s3, r).1 l0 = deref st l0) /\
            editView (deref (s3, r).1 l)
            = editView (set_manualOverrides overrides
                (set_eventStartsAt
                   (if truthy_date newStartsAt then newStartsAt
                    else eventStartsAt (deref st l)) (deref st l)))).
  { intros s3 r H1 H2 H3 H4. cbn [fst]. by rewrite H4. }
  assert (Hsave3 : forall r : ActionResult,
            profilesRef (savePendingEvents st3, r).1 = profilesRef st /\
            pendingEvents (savePendingEvents st3, r).1 = pendingEvents st /\
            (forall l0, l0 <> l -> deref (savePendingEvents st3, r).1 l0 = deref st l0) /\
            editView (deref (savePendingEvents st3, r).1 l)
            = editView (set_manualOverrides overrides
                (set_eventStartsAt
                   (if truthy_date newStartsAt then newStartsAt
                    else eventStartsAt (deref st l)) (deref st l)))).
  { intros r. apply Hdone; [exact (f_equal profilesRef Hs)
                           |exact (f_equal pendingEvents Hs)|exact Hother|done]. }
  destruct (_ && _); [|apply Hsave3].
  destruct (_ ≫= automation) as [a|]; [|apply Hsave3].
  destruct (enabled a); [|apply Hsave3].
  match goal with |- context [match ?x with Some t => _ | None => (st3, ResultThrew) end] =>
    destruct x as [t|] end.
  2: { apply Hdone; [exact (f_equal profilesRef Hs)
                    |exact (f_equal pendingEvents Hs)|exact Hother|done]. }
  set (st4 := update l (set_scheduledPublishTime (Some (toISOString t))) st3).
  assert (Hs4 : set_heap [] st4 = set_heap [] st) by (by rewrite <- Hs).
  assert (Hlen4 : length (heap st4) = length (heap st)).
  { subst st4. by rewrite update_length. }
  assert (Hother4 : forall l0, l0 <> l -> deref st4 l0 = deref st l0).
  { intros l0 Hl0. subst st4. by rewrite deref_update_other, Hother. }
  assert (Hrec4 : deref st4 l = set_scheduledPublishTime (Some (Iso t)) (deref st3 l)).
  { subst st4. apply deref_update_same. lia. }
  clearbody st4.
  destruct (Z.leb_spec t now) as [Hpast|Hfuture].
  - set (st5 := update l _ st4).
    destruct (cancelJob_store pendingEventId st5) as [Hstore _].
    assert (Hderef : forall l0, deref (cancelJob pendingEventId st5) l0 = deref st5 l0).
    { intros l0. apply deref_same. exact (f_equal heap Hstore). }
    apply Hdone.
    + transitivity (profilesRef st5); [exact (f_equal profilesRef Hstore)|].
      exact (f_equal profilesRef Hs4).
    + transitivity (pendingEvents st5); [exact (f_equal pendingEvents Hstore)|].
      exact (f_equal pendingEvents Hs4).
    + intros l0 Hl0. change (deref (cancelJob pendingEventId st5) l0 = deref st l0).
      rewrite Hderef. subst st5. by rewrite deref_update_other, Hother4.
    + change (editView (deref (cancelJob pendingEventId st5) l) = editView (deref st3 l)).
      rewrite Hderef. subst st5. rewrite deref_update_same, Hrec4 by lia. done.
  - assert (Hsched : forall sX,
              profilesRef sX = profilesRef st -> pendingEvents sX = pendingEvents st ->
              (forall l0, l0 <> l -> deref sX l0 = deref st l0) ->
              editView (deref sX l) = editView (deref st3 l) ->
              scheduledPublishTime (deref sX l) = Some (Iso t) ->
              profilesRef (savePendingEvents (scheduleJob now l sX), ResultOk).1
                = profilesRef st /\
              pendingEvents (savePendingEvents (scheduleJob now l sX), ResultOk).1
                = pendingEvents st /\
              (forall l0, l0 <> l ->
                 deref (savePendingEvents (scheduleJob now l sX), ResultOk).1 l0
                 = deref st l0) /\
              editView (deref (savePendingEvents (scheduleJob now l sX), ResultOk).1 l)
              = editView (set_manualOverrides overrides
                  (set_eventStartsAt
                     (if truthy_date newStartsAt then newStartsAt
                      else eventStartsAt (deref st l)) (deref st l)))).
    { intros sX HprX HpeX HotherX HviewX HpX.
      destruct (scheduleJob_future now l t sX HpX Hfuture) as [Hh Hp].
      assert (HpX' : Date_parse (scheduledPublishTime (deref sX l)) = Some t)
        by (by rewrite HpX).
      destruct (scheduleJob_future_timer now l t sX HpX' Hfuture)
        as (cb & delay & _ & _ & _ & Hframe).
      assert (Hderef : forall l0, deref (scheduleJob now l sX) l0 = deref sX l0).
      { intros l0. by apply deref_same. }
      apply Hdone.
      - transitivity (profilesRef sX); [exact (f_equal profilesRef Hframe)|done].
      - by transitivity (pendingEvents sX).
      - intros l0 Hl0. change (deref (scheduleJob now l sX) l0 = deref st l0).
        by rewrite Hderef, HotherX.
      - change (editView (deref (scheduleJob now l sX) l) = editView (deref st3 l)).
        by rewrite Hderef. }
    destruct (status_eqb (status (deref st l)) Missed).
    + apply Hsched.
      * exact (f_equal profilesRef Hs4).
      * exact (f_equal pendingEvents Hs4).
      * intros l0 Hl0. by rewrite deref_update_other, Hother4.
      * rewrite deref_update_same, Hrec4 by lia. done.
      * rewrite deref_update_same, Hrec4 by lia. done.
    + destruct (cancelJob_store pendingEventId st4) as [Hstore _].
      assert (Hderef : forall l0, deref (cancelJob pendingEventId st4) l0 = deref st4 l0).
      { intros l0. apply deref_same. exact (f_equal heap Hstore). }
      apply Hsched.
      * transitivity (profilesRef st4); [exact (f_equal profilesRef Hstore)|].
        exact (f_equal profilesRef Hs4).
      * transitivity (pendingEvents st4); [exact (f_equal pendingEvents Hstore)|].
        exact (f_equal pendingEvents Hs4).
      * intros l0 Hl0. by rewrite Hderef, Hother4.
      * by rewrite Hderef, Hrec4.
      * by rewrite Hderef, Hrec4.
Qed.

(** X26.  From an edit to the published event.  After an edit of a
    pending record of a known profile, when the record is posted and its
    start is a date, the remote calendar is asked to create an event in
    the record's group that carries the title of the overrides (the
    profile's name, or "Untitled Event", when they carry none), starts at
    the record's start, which is the start of the overrides when they
    carry one, and lasts the minutes of the overrides (the profile's, or
    120, when they carry none). *)
Theorem edited_record_posted_as_edited (now now' : Z) (pendingEventId : string)
  (o : Overrides) (l : loc) (st : Engine) (p : Profile) (s : Z) :
  findPending st pendingEventId = Some l -> (l < length (heap st))%nat ->
  lookupProfile st (groupId (deref st l)) (profileKey (deref st l)) = Some p ->
  let st1 := (updatePendingEventOverrides now pendingEventId (Some o) st).1 in
  Date_parse (eventStartsAt (deref st1 l)) = Some s ->
  exists details,
    executeAutomatedPostInternal now' l st1
    = (emit (CreateEvent (groupId (deref st l)) details (Iso s)
               (Iso (s + ed_duration details * 60 * 1000))) st1, true) /\
    ed_title details
    = match ov_title o with
      | Some title => title
      | None => if truthy_string (name p) then name p else "Untitled Event"
      end /\
    ed_eventStartsAt details = Some (Iso s) /\
    ed_duration details
    = (let ofProfile := if duration p =? 0 then 120 else duration p in
       match ov_durationMinutes o with
       | Some d => if d =? 0 then ofProfile else d
       | None => ofProfile
       end) /\
    (forall s', ov_eventStartsAt o = Some (Iso s') -> s' = s).
Proof.
  intros Hfind Hl Hp st1 Hs.
  destruct (updatePendingEventOverrides_written now pendingEventId (Some o) l st Hfind Hl)
    as (Hpr & Hpe & Hother & Hview).
  fold st1 in Hpr, Hpe, Hother, Hview.
  destruct (findPending_In _ _ _ Hfind) as [_ Hid].
  clearbody st1.
  cbn [mbind option_bind] in Hview.
  set (e1 := deref st1 l) in *.
  assert (Hid1 : id e1 = id (deref st l)) by exact (f_equal id Hview).
  assert (Hg1 : groupId e1 = groupId (deref st l)) by exact (f_equal groupId Hview).
  assert (Hk1 : profileKey e1 = profileKey (deref st l))
    by exact (f_equal profileKey Hview).
  assert (Hov1 : manualOverrides e1 = Some o) by exact (f_equal manualOverrides Hview).
  assert (Hstart1 : eventStartsAt e1 = if truthy_date (ov_eventStartsAt o)
                                       then ov_eventStartsAt o
                                       else eventStartsAt (deref st l))
    by exact (f_equal eventStartsAt Hview).
  assert (Hiso : eventStartsAt e1 = Some (Iso s)).
  { destruct (eventStartsAt e1) as [[ms|text]|]; cbn in Hs; by simplify_eq. }
  assert (Hfind1 : findPending st1 (id e1) = Some l).
  { rewrite Hid1, Hid, <- Hfind. apply findPending_ext; [done|].
    intros l0. destruct (decide (l0 = l)) as [->|Hne]; [done|]. by rewrite Hother. }
  assert (Hp1 : lookupProfile st1 (groupId e1) (profileKey e1) = Some p).
  { rewrite Hg1, Hk1, <- Hp. unfold lookupProfile. by rewrite Hpr. }
  assert (Hdur : forall d, (if (if d =? 0 then 120 else d) =? 0 then 120
                            else (if d =? 0 then 120 else d))
                           = (if d =? 0 then 120 else d)).
  { intros d. destruct (Z.eqb_spec d 0) as [->|Hd]; [done|].
    by destruct (Z.eqb_spec d 0). }
  unfold executeAutomatedPostInternal, resolveEventDetails. fold e1.
  rewrite Hfind1. fold e1. unfold eventDetailsFor. rewrite Hp1, Hov1, Hiso.
  cbn [mbind option_bind Date_parse].
  exists (mkEventDetails
            (match ov_title o with
             | Some title => title
             | None => if truthy_string (name p) then name p else "Untitled Event"
             end)
            (match ov_durationMinutes o with
             | Some d => if d =? 0 then (if duration p =? 0 then 120 else duration p)
                         else d
             | None => if duration p =? 0 then 120 else duration p
             end)
            (Some (Iso s)) (scheduledPublishTime e1)).
  assert (Hst : (if truthy_date (ov_eventStartsAt o) then ov_eventStartsAt o
                 else Some (Iso s)) = Some (Iso s)).
  { rewrite Hiso in Hstart1.
    destruct (truthy_date (ov_eventStartsAt o)); [by rewrite <- Hstart1|done]. }
  rewrite Hst, Hg1. cbn [ed_duration ed_title ed_eventStartsAt].
  split; [|split; [done|split; [done|split; [done|]]]].
  - do 3 f_equal.
    destruct (ov_durationMinutes o) as [d|]; [|by rewrite Hdur].
    destruct (Z.eqb_spec d 0) as [->|Hd]; [by rewrite Hdur|].
    by destruct (Z.eqb_spec d 0).
  - intros s' Hs'. rewrite Hs' in Hstart1. cbn in Hstart1. rewrite Hiso in Hstart1.
    by simplify_eq.
Qed.

Lemma edited_record_posted_as_edited_witness :
  let o := mkOverrides (Some "Special session") (Some (Iso (june1_1000 + ONE_DAY_MS)))
             (Some 90) 0 in
  let st1 := (updatePendingEventOverrides 5000 "pending_grp_weekly_1780308000000"
                (Some o) oneEventEngine).1 in
  exists details,
    executeAutomatedPostInternal 6000 0%nat st1
    = (emit (CreateEvent "grp" details (Iso (june1_1000 + ONE_DAY_MS))
               (Iso (june1_1000 + ONE_DAY_MS + 90 * 60 * 1000))) st1, true) /\
    ed_title details = "Special session".
Proof.
  intros o st1.
  destruct (edited_record_posted_as_edited 5000 6000 "pending_grp_weekly_1780308000000"
              o 0%nat oneEventEngine weeklyProfile (june1_1000 + ONE_DAY_MS))
    as (details & Hpost & Htitle & _ & Hdur & _);
    [reflexivity|cbn; lia|reflexivity|by vm_compute|].
  exists details. split; [|exact Htitle].
  fold st1 in Hpost. rewrite Hpost, Hdur. reflexivity.
Defined.

(** ** Loading the store *)

Lemma buildPendingEventId_truthy g k startsAt s :
  truthy_string g = true -> truthy_string k = true ->
  parseEventStartMs startsAt = Some s ->
  exists key, buildPendingEventId g k startsAt = Some key /\ truthy_string key = true.
Proof.
  intros Hg Hk Hs. unfold buildPendingEventId. rewrite Hs, Hg, Hk. cbn.
  eexists. split; [done|]. done.
Qed.

Lemma derivePendingSlotKey_truthy e s :
  truthy_string (groupId e) = true -> truthy_string (profileKey e) = true ->
  parseEventStartMs (eventStartsAt e) = Some s ->
  exists key, derivePendingSlotKey e = Some key /\ truthy_string key = true.
Proof.
  intros Hg Hk Hs. unfold derivePendingSlotKey.
  destruct (isDeterministicPendingId (Some (id e))) eqn:Hd;
    [|by eapply buildPendingEventId_truthy].
  exists (id e). split; [done|].
  unfold isDeterministicPendingId, parsePendingEventIdStartMs in Hd.
  by destruct (id e).
Qed.

Lemma normalizeIdAndSlotKey_derived e key :
  derivePendingSlotKey e = Some key -> truthy_string key = true ->
  (normalizeIdAndSlotKey e).1 = set_id key (set_slotKey (Some key) e).
Proof.
  intros Hkey Ht.
  unfold normalizeIdAndSlotKey. rewrite Hkey. cbn [truthy_ostring fst default].
  rewrite Ht. cbn [andb].
  set (e1 := if negb (bool_decide (slotKey e = Some key))
             then set_slotKey (Some key) e else e).
  assert (He1 : e1 = set_slotKey (Some key) e).
  { subst e1. destruct (bool_decide_reflect (slotKey e = Some key)) as [E|]; [|done].
    cbn. destruct e; cbn in *. by rewrite E. }
  rewrite He1. clear He1 e1.
  assert (Hsame : id e = key -> set_id key (set_slotKey (Some key) e)
                               = set_slotKey (Some key) e).
  { intros <-. by destruct e. }
  unfold derivePendingSlotKey in Hkey.
  cbn [id set_slotKey set_id].
  destruct (isDeterministicPendingId (Some (id e))) eqn:Hd.
  - injection Hkey as Hid. rewrite Hid, Ht. cbn. rewrite Hid, Ht. cbn.
    by rewrite Hsame.
  - rewrite orb_true_r. cbn [andb].
    destruct (bool_decide_reflect (Some (id e) = Some key)) as [E|Hne]; cbn.
    + injection E as E. rewrite E, Ht. cbn. by rewrite Hsame.
    + by rewrite Ht.
Qed.

Lemma normalizeIdAndSlotKey_spec e s :
  truthy_string (groupId e) = true -> truthy_string (profileKey e) = true ->
  parseEventStartMs (eventStartsAt e) = Some s ->
  exists key,
    truthy_string key = true /\
    (normalizeIdAndSlotKey e).1 = set_id key (set_slotKey (Some key) e).
Proof.
  intros Hg Hk Hs.
  destruct (derivePendingSlotKey_truthy e s Hg Hk Hs) as (key & Hkey & Ht).
  exists key. split; [done|]. by apply normalizeIdAndSlotKey_derived.
Qed.


Lemma normalizeStart_spec st raw e c :
  normalizeStart st raw = Some (e, c) ->
  truthy_string (groupId e) = true /\ truthy_string (profileKey e) = true /\
  isKnownProfile st (groupId e) (profileKey e) = true /\
  set_eventStartsAt None e = set_eventStartsAt None raw.
Proof.
  unfold normalizeStart.
  destruct (truthy_string (groupId raw)) eqn:Hg; [|done].
  destruct (truthy_string (profileKey raw)) eqn:Hk; [|done].
  destruct (isKnownProfile st _ _) eqn:Hp; [|done]. cbn.
  intros [= <- _]. by destruct (_ && _).
Qed.

Lemma normalizeDeletedEvent_valid now st raw e c :
  normalizeDeletedEvent now st raw = (Some e, c) -> validDeleted now st e.
Proof.
  unfold normalizeDeletedEvent.
  destruct (normalizeStart st raw) as [[e1 c1]|] eqn:Hstart; [|done].
  destruct (normalizeStart_spec _ _ _ _ Hstart) as (Hg & Hk & Hp & _).
  destruct (parseEventStartMs (eventStartsAt e1)) as [s|] eqn:Hs; [|done].
  destruct (Z.leb_spec s now); [done|].
  destruct (normalizeIdAndSlotKey_spec (set_status Deleted e1) s Hg Hk Hs)
    as (key & Hkey & Hnorm).
  destruct (normalizeIdAndSlotKey _) as [e3 c3]. cbn in Hnorm. subst e3.
  intros [= <- _]. unfold validDeleted. cbn.
  repeat split; try done. by exists s.
Qed.

Lemma normalizePendingEvent_kept tza now st raw e c :
  normalizePendingEvent tza now st raw = NormKept e c -> validPending st e.
Proof.
  unfold normalizePendingEvent.
  destruct (normalizeStart st raw) as [[e1 c1]|] eqn:Hstart; [|done].
  destruct (normalizeStart_spec _ _ _ _ Hstart) as (Hg & Hk & Hp & _).
  destruct (parseEventStartMs (eventStartsAt e1)) as [s|] eqn:Hs; [|done].
  cbv zeta.
  set (e2 := if match status e1 with OtherStatus _ => true | _ => false end
             then set_status Scheduled e1 else e1).
  assert (He2 : groupId e2 = groupId e1 /\ profileKey e2 = profileKey e1 /\
                eventStartsAt e2 = eventStartsAt e1 /\
                match status e2 with OtherStatus _ => False | _ => True end).
  { subst e2. destruct (status e1) eqn:Hst; cbn; by rewrite ?Hst. }
  destruct He2 as (Hg2 & Hk2 & Hs2 & Hst2). clearbody e2.
  rewrite <- Hg2 in Hg, Hp. rewrite <- Hk2 in Hk, Hp. rewrite <- Hs2 in Hs.
  clear Hg2 Hk2 Hs2.
  set (refill := if _ && _ then calculatePublishTime _ _ _ else None).
  clearbody refill.
  revert Hst2. destruct (status e2) eqn:Hstatus; intros Hst2; try done.
  all: destruct refill as [[t|]|]; [| done |].
  all: match goal with
       | |- context [normalizeIdAndSlotKey ?x] => set (e3 := x)
       end.
  all: assert (He3 : groupId e3 = groupId e2 /\ profileKey e3 = profileKey e2 /\
                     eventStartsAt e3 = eventStartsAt e2 /\ status e3 = status e2)
         by (by subst e3).
  all: destruct He3 as (Hg3 & Hk3 & Hs3 & Hst3).
  all: rewrite <- Hg3 in Hg, Hp; rewrite <- Hk3 in Hk, Hp; rewrite <- Hs3 in Hs.
  all: destruct (normalizeIdAndSlotKey_spec e3 s Hg Hk Hs) as (key & Hkey & Hnorm).
  all: destruct (normalizeIdAndSlotKey e3) as [e4 c4]; cbn in Hnorm; subst e4.
  all: destruct (negb (status_eqb (status e3) Published) &&
                 negb (has_value (parseEventStartMs (scheduledPublishTime e3)))) eqn:Hpub;
         [done|].
  all: intros [= <- _]; unfold validPending; cbn [groupId profileKey eventStartsAt
         status scheduledPublishTime slotKey id set_id set_slotKey].
  all: rewrite Hst3, Hstatus.
  all: split; [done|]; split; [done|]; split; [done|]; split; [by exists s|].
  all: split; [by repeat (first [apply list_elem_of_here|apply list_elem_of_further])|].
  all: split; [|done].
  all: intros Hnp; apply andb_false_iff in Hpub as [Hpub|Hpub].
  all: try (apply negb_false_iff, bool_decide_eq_true in Hpub; congruence).
  all: apply negb_false_iff in Hpub.
  all: destruct (parseEventStartMs (scheduledPublishTime e3)) as [p|]; [by exists p|done].
Qed.

Lemma normalizePendingEvent_deleted tza now st raw e :
  normalizePendingEvent tza now st raw = NormDeleted (Some e) -> validDeleted now st e.
Proof.
  unfold normalizePendingEvent.
  destruct (normalizeStart st raw) as [[e1 c1]|]; [|done].
  destruct (parseEventStartMs (eventStartsAt e1)); [|done].
  cbv zeta.
  set (e2 := if match status e1 with OtherStatus _ => true | _ => false end
             then set_status Scheduled e1 else e1).
  clearbody e2.
  set (refill := if _ && _ then calculatePublishTime _ _ _ else None).
  clearbody refill.
  destruct (status e2).
  1-4, 7: destruct refill as [[t|]|]; try done;
    (destruct (_ && _); [done|]; by destruct (normalizeIdAndSlotKey _)).
  { done. }
  destruct (normalizeDeletedEvent now st e2) as [o c] eqn:Hd. cbn.
  intros [= ->]. by eapply normalizeDeletedEvent_valid.
Qed.

Lemma normalizePending_valid tza now st raws :
  forall pending deleted changed,
  normalizePending tza now st raws = Some (pending, deleted, changed) ->
  Forall (validPending st) pending /\ Forall (validDeleted now st) deleted.
Proof.
  induction raws as [|raw rest IH]; intros pending deleted changed;
    cbn [normalizePending].
  { by intros [= <- <- _]. }
  destruct (normalizePendingEvent tza now st raw) as [e c|[e|]| |] eqn:Hn; [| | | |done].
  all: destruct (normalizePending tza now st rest) as [[[p d] ch]|]; [|done].
  all: destruct (IH _ _ _ eq_refl) as [Hp Hd]; intros [= <- <- _].
  - split; [|done]. constructor; [|done]. by eapply normalizePendingEvent_kept.
  - split; [done|]. constructor; [|done]. by eapply normalizePendingEvent_deleted.
  - done.
  - done.
Qed.

Lemma normalizeDeleted_valid now st raws :
  Forall (validDeleted now st) (normalizeDeleted now st raws).1.
Proof.
  induction raws as [|raw rest IH]; cbn [normalizeDeleted]; [done|].
  destruct (normalizeDeleted now st rest) as [d ch]. cbn in IH.
  destruct (normalizeDeletedEvent now st raw) as [[e|] c] eqn:Hn; cbn; [|done].
  constructor; [|done]. by eapply normalizeDeletedEvent_valid.
Qed.

Lemma dedupePending_indices all todo :
  forall occupiedSlots keptEvents changed,
  Forall (fun ie => (ie.1 < length all)%nat) todo ->
  Forall (fun j => (j < length all)%nat) keptEvents ->
  Forall (fun j => (j < length all)%nat)
         (dedupePending all todo occupiedSlots keptEvents changed).1.
Proof.
  induction todo as [|[i event] rest IH]; intros occupiedSlots keptEvents changed Htodo Hk;
    cbn [dedupePending]; [done|].
  apply Forall_cons in Htodo as [Hi Htodo]. cbn in Hi.
  destruct (getPendingSlotKeys event) as [|key keys]; [by apply IH|].
  destruct (firstOccupied _ _) as [existing|].
  - destruct (_ <? _); [|by apply IH].
    apply IH; [done|]. apply Forall_app. split; [|by constructor].
    by apply List_filter_Forall.
  - apply IH; [done|]. apply Forall_app. split; [done|by constructor].
Qed.

Lemma dedupeDeleted_kept (P : PendingEvent -> Prop) pendingSlotKeys todo :
  forall deletedOccupied keptDeleted changed,
  Forall P todo -> Forall P keptDeleted ->
  Forall P (dedupeDeleted pendingSlotKeys todo deletedOccupied keptDeleted changed).1.
Proof.
  induction todo as [|event rest IH]; intros deletedOccupied keptDeleted changed Htodo Hk;
    cbn [dedupeDeleted]; [done|].
  apply Forall_cons in Htodo as [He Htodo].
  destruct (getPendingSlotKeys event) as [|key keys]; [by apply IH|].
  destruct (anyKeyIn _ pendingSlotKeys); [by apply IH|].
  destruct (anyKeyIn _ deletedOccupied); [by apply IH|].
  apply IH; [done|]. apply Forall_app. split; [done|by constructor].
Qed.

Lemma allocAll_spec events :
  forall st,
  allocAll events st
  = (set_heap (heap st ++ events) st, seq (length (heap st)) (length events)).
Proof.
  induction events as [|e events IH]; intros st; cbn [allocAll].
  { cbn. rewrite app_nil_r. by destruct st. }
  unfold alloc. rewrite IH. cbn. rewrite length_app. cbn.
  rewrite Nat.add_1_r, <- app_assoc. done.
Qed.

Lemma isKnownProfile_store s st g k :
  set_heap [] (set_pendingEvents [] (set_deletedEvents [] s))
  = set_heap [] (set_pendingEvents [] (set_deletedEvents [] st)) ->
  isKnownProfile s g k = isKnownProfile st g k.
Proof.
  intros H. unfold isKnownProfile, isKnownGroupId, lookupProfile.
  assert (knownGroupIds s = knownGroupIds st) as -> by exact (f_equal knownGroupIds H).
  assert (profilesRef s = profilesRef st) as -> by exact (f_equal profilesRef H).
  done.
Qed.

Lemma snapshot_app_l st h evs rest :
  heap st = h ++ evs ++ rest -> snapshot st (seq (length h) (length evs)) = evs.
Proof.
  intros Hh. unfold snapshot, deref. rewrite Hh.
  apply list_eq. intros i. rewrite list_lookup_fmap.
  destruct (decide (i < length evs)%nat) as [Hi|Hi].
  - rewrite lookup_seq_lt by done. cbn.
    rewrite list_lookup_total_alt, lookup_app_r by lia.
    replace (length h + i - length h)%nat with i by lia.
    rewrite lookup_app_l by done.
    destruct (lookup_lt_is_Some_2 evs i Hi) as [e He]. by rewrite He.
  - rewrite lookup_seq_ge by lia. cbn. symmetry. apply lookup_ge_None_2. lia.
Qed.

(** The two arrays after [normalizePendingStore], as lists of records. *)
Lemma normalizePendingStore_lists tza now st st' changed :
  normalizePendingStore tza now st = Some (st', changed) ->
  exists normalizedPending deletedOfPending changed1 keptEvents keptDeleted changed3,
    normalizePending tza now st (snapshot st (pendingEvents st))
      = Some (normalizedPending, deletedOfPending, changed1) /\
    dedupePending normalizedPending
      (zip (seq 0 (length normalizedPending)) normalizedPending) ∅ []
      (changed1 || (normalizeDeleted now st (snapshot st (deletedEvents st))).2)
      = (keptEvents, changed3) /\
    dedupeDeleted
      (list_to_set (concat (getPendingSlotKeys <$>
                              ((fun i => normalizedPending !!! i) <$> keptEvents))))
      (deletedOfPending ++ (normalizeDeleted now st (snapshot st (deletedEvents st))).1)
      ∅ [] changed3 = (keptDeleted, changed) /\
    snapshot st' (pendingEvents st') = (fun i => normalizedPending !!! i) <$> keptEvents /\
    snapshot st' (deletedEvents st') = keptDeleted /\
    heap st' = heap st ++ ((fun i => normalizedPending !!! i) <$> keptEvents) ++ keptDeleted /\
    pendingEvents st' = seq (length (heap st)) (length keptEvents) /\
    deletedEvents st' = seq (length (heap st) + length keptEvents) (length keptDeleted) /\
    set_heap [] (set_pendingEvents [] (set_deletedEvents [] st'))
    = set_heap [] (set_pendingEvents [] (set_deletedEvents [] st)).
Proof.
  unfold normalizePendingStore.
  destruct (normalizePending _ _ _ _) as [[[normalizedPending deletedOfPending] changed1]|];
    [|done].
  destruct (normalizeDeleted _ _ _) as [deletedOfDeleted changed2].
  destruct (dedupePending _ _ _ _ _) as [keptEvents changed3] eqn:Hdp.
  destruct (dedupeDeleted _ _ _ _ _) as [keptDeleted changed'] eqn:Hdd.
  rewrite !allocAll_spec. intros [= <- <-].
  exists normalizedPending, deletedOfPending, changed1, keptEvents, keptDeleted, changed3.
  cbn [fst snd heap pendingEvents deletedEvents set_heap set_pendingEvents
       set_deletedEvents].
  set (deduped := (fun i => normalizedPending !!! i) <$> keptEvents) in *.
  assert (Hlen : length deduped = length keptEvents) by (subst deduped; apply length_fmap).
  split; [done|]. split; [done|]. split; [done|].
  split. { apply (snapshot_app_l _ (heap st) deduped keptDeleted). cbn.
           by rewrite app_assoc. }
  split. { by apply (snapshot_fresh _ (heap st ++ deduped) keptDeleted). }
  split; [by rewrite app_assoc|].
  split; [by rewrite Hlen|].
  split; [by rewrite length_app, Hlen|done].
Qed.

Lemma zip_seq_indices {A} (l : list A) n :
  Forall (fun ie : nat * A => (ie.1 < n + length l)%nat) (zip (seq n (length l)) l).
Proof.
  revert n. induction l as [|x l IH]; intros n; cbn; [done|].
  constructor; [cbn; lia|].
  eapply Forall_impl; [apply (IH (S n))|]. intros ie. cbn. lia.
Qed.

Lemma validPending_store s st e :
  set_heap [] (set_pendingEvents [] (set_deletedEvents [] s))
  = set_heap [] (set_pendingEvents [] (set_deletedEvents [] st)) ->
  validPending st e -> validPending s e.
Proof.
  intros H (Hg & Hk & Hp & Hrest). split; [done|]. split; [done|].
  split; [by rewrite (isKnownProfile_store s st)|done].
Qed.

Lemma validDeleted_store now s st e :
  set_heap [] (set_pendingEvents [] (set_deletedEvents [] s))
  = set_heap [] (set_pendingEvents [] (set_deletedEvents [] st)) ->
  validDeleted now st e -> validDeleted now s e.
Proof.
  intros H (Hg & Hk & Hp & Hrest). split; [done|]. split; [done|].
  split; [by rewrite (isKnownProfile_store s st)|done].
Qed.

Lemma normalizePendingStore_kept tza now st st' changed :
  normalizePendingStore tza now st = Some (st', changed) ->
  Forall (validPending st) (snapshot st' (pendingEvents st')) /\
  Forall (validDeleted now st) (snapshot st' (deletedEvents st')).
Proof.
  intros H.
  destruct (normalizePendingStore_lists _ _ _ _ _ H)
    as (normalizedPending & deletedOfPending & changed1 & keptEvents & keptDeleted &
        changed3 & Hnp & Hdp & Hdd & Hsp & Hsd & Hheap & Hpe & Hde & Hstore).
  destruct (normalizePending_valid _ _ _ _ _ _ _ Hnp) as [Hvp Hvd].
  pose proof (normalizeDeleted_valid now st (snapshot st (deletedEvents st))) as Hvd2.
  split.
  { rewrite Hsp. apply Forall_fmap, Forall_forall. intros i Hi. cbn.
    pose proof (dedupePending_indices normalizedPending
                  (zip (seq 0 (length normalizedPending)) normalizedPending) ∅ []
                  (changed1 || (normalizeDeleted now st
                                  (snapshot st (deletedEvents st))).2)
                  (zip_seq_indices normalizedPending 0) (Forall_nil_2 _)) as Hidx.
    rewrite Hdp in Hidx. cbn in Hidx.
    pose proof (proj1 (Forall_forall _ _) Hidx i Hi) as Hlt. cbn in Hlt.
    destruct (lookup_lt_is_Some_2 normalizedPending i Hlt) as [e He].
    rewrite list_lookup_total_alt, He. cbn.
    exact (proj1 (Forall_lookup _ _) Hvp _ _ He). }
  rewrite Hsd.
  pose proof (dedupeDeleted_kept (validDeleted now st)
                (list_to_set
                   (concat (getPendingSlotKeys <$>
                              ((fun i => normalizedPending !!! i) <$> keptEvents))))
                (deletedOfPending ++ (normalizeDeleted now st
                                        (snapshot st (deletedEvents st))).1)
                ∅ [] changed3) as Hk.
  rewrite Hdd in Hk. apply Hk; [|done].
  by apply Forall_app.
Qed.

Lemma normalizePendingStore_fresh tza now st st' changed :
  normalizePendingStore tza now st = Some (st', changed) ->
  NoDup (pendingEvents st' ++ deletedEvents st') /\
  Forall (fun l => (length (heap st) <= l < length (heap st'))%nat)
         (pendingEvents st' ++ deletedEvents st') /\
  (forall l, (l < length (heap st))%nat -> deref st' l = deref st l) /\
  set_heap [] (set_pendingEvents [] (set_deletedEvents [] st'))
  = set_heap [] (set_pendingEvents [] (set_deletedEvents [] st)).
Proof.
  intros H.
  destruct (normalizePendingStore_lists _ _ _ _ _ H)
    as (normalizedPending & deletedOfPending & changed1 & keptEvents & keptDeleted &
        changed3 & _ & _ & _ & _ & _ & Hheap & Hpe & Hde & Hstore).
  split.
  { rewrite Hpe, Hde. apply NoDup_app. split; [apply NoDup_seq|].
    split; [|apply NoDup_seq].
    intros l Hl1 Hl2. apply elem_of_seq in Hl1, Hl2. lia. }
  split.
  { rewrite Hpe, Hde, Hheap, !length_app, length_fmap.
    apply Forall_app. split; apply Forall_forall; intros l Hl;
      apply elem_of_seq in Hl; lia. }
  split; [|done].
  intros l Hl. unfold deref. rewrite !list_lookup_total_alt, Hheap.
  by rewrite lookup_app_l.
Qed.

(** X27.  What [normalizePendingStore] leaves in the store.  Every record
    of the pending list names a known profile, has a start that is a
    date, one of the statuses [scheduled], [missed], [queued] and
    [published], a publish time that is a date unless it is published,
    and its id as slot key; every record of the deleted pool has status
    [deleted] and a start that is still ahead.  The records kept are
    copies, new objects; the objects that were there are not written to,
    and nothing else of the engine changes. *)
Theorem normalizePendingStore_valid (tza now : Z) (st st' : Engine) (changed : bool) :
  normalizePendingStore tza now st = Some (st', changed) ->
  Forall (validPending st') (snapshot st' (pendingEvents st')) /\
  Forall (validDeleted now st') (snapshot st' (deletedEvents st')) /\
  NoDup (pendingEvents st' ++ deletedEvents st') /\
  Forall (fun l => (length (heap st) <= l < length (heap st'))%nat)
         (pendingEvents st' ++ deletedEvents st') /\
  (forall l, (l < length (heap st))%nat -> deref st' l = deref st l) /\
  set_heap [] (set_pendingEvents [] (set_deletedEvents [] st'))
  = set_heap [] (set_pendingEvents [] (set_deletedEvents [] st)).
Proof.
  intros H.
  destruct (normalizePendingStore_kept _ _ _ _ _ H) as [Hp Hd].
  destruct (normalizePendingStore_fresh _ _ _ _ _ H) as (Hnd & Hnew & Hold & Hstore).
  split; [by eapply Forall_impl; [exact Hp|]; intros e; apply validPending_store|].
  split; [by eapply Forall_impl; [exact Hd|]; intros e; apply validDeleted_store|].
  done.
Qed.

Lemma anyKeyIn_false keys (s : gset string) :
  anyKeyIn keys s = false <-> forall key, key ∈ keys -> key ∉ s.
Proof.
  unfold anyKeyIn. induction keys as [|k keys IH]; cbn.
  { split; [|done]. intros _ key Hkey. by apply elem_of_nil in Hkey. }
  rewrite orb_false_iff, IH, bool_decide_eq_false. split.
  - intros [Hk Hrest] key [->|Hin]%elem_of_cons; [done|by apply Hrest].
  - intros H. split; [apply H, list_elem_of_here|].
    intros key Hin. by apply H, list_elem_of_further.
Qed.

(** What the loop over the deleted records keeps: no key of a pending
    record, and no key twice. *)
Lemma dedupeDeleted_disjoint pendingSlotKeys todo :
  forall deletedOccupied keptDeleted changed,
  (forall e key, e ∈ keptDeleted -> key ∈ getPendingSlotKeys e ->
     key ∈ deletedOccupied /\ key ∉ pendingSlotKeys) ->
  (forall i j e1 e2 key, keptDeleted !! i = Some e1 -> keptDeleted !! j = Some e2 ->
     i <> j -> key ∈ getPendingSlotKeys e1 -> key ∉ getPendingSlotKeys e2) ->
  let kept := (dedupeDeleted pendingSlotKeys todo deletedOccupied keptDeleted changed).1 in
  (forall e key, e ∈ kept -> key ∈ getPendingSlotKeys e -> key ∉ pendingSlotKeys) /\
  (forall i j e1 e2 key, kept !! i = Some e1 -> kept !! j = Some e2 ->
     i <> j -> key ∈ getPendingSlotKeys e1 -> key ∉ getPendingSlotKeys e2).
Proof.
  induction todo as [|event rest IH]; intros deletedOccupied keptDeleted changed Hocc Hdis;
    cbn [dedupeDeleted].
  { cbn. split; [|done]. intros e key He Hkey. by apply (Hocc e key). }
  destruct (getPendingSlotKeys event) as [|key0 keys0] eqn:Hkeys; [by apply IH|].
  destruct (anyKeyIn _ pendingSlotKeys) eqn:Hp; [by apply IH|].
  destruct (anyKeyIn _ deletedOccupied) eqn:Hd; [by apply IH|].
  pose proof (proj1 (anyKeyIn_false _ _) Hp) as Hp'.
  pose proof (proj1 (anyKeyIn_false _ _) Hd) as Hd'.
  apply IH.
  - intros e key [He| ->%list_elem_of_singleton]%elem_of_app Hkey.
    + destruct (Hocc e key He Hkey) as [H1 H2]. split; [|done].
      apply elem_of_union. by left.
    + rewrite Hkeys in Hkey. split; [|by apply Hp'].
      apply elem_of_union. right. by apply elem_of_list_to_set.
  - intros i j e1 e2 key H1 H2 Hij Hkey Hkey2.
    apply lookup_app_Some in H1, H2.
    destruct H1 as [H1|[Hi H1]], H2 as [H2|[Hj H2]].
    + by apply (Hdis i j e1 e2 key).
    + apply list_lookup_singleton_Some in H2 as [_ <-].
      rewrite Hkeys in Hkey2. apply (Hd' key Hkey2).
      apply (Hocc e1 key); [by eapply list_elem_of_lookup_2|done].
    + apply list_lookup_singleton_Some in H1 as [_ <-].
      rewrite Hkeys in Hkey. apply (Hd' key Hkey).
      apply (Hocc e2 key); [by eapply list_elem_of_lookup_2|done].
    + apply list_lookup_singleton_Some in H1 as [Hi' _].
      apply list_lookup_singleton_Some in H2 as [Hj' _]. lia.
Qed.

Lemma List_filter_NoDup {A} (f : A -> bool) (l : list A) :
  NoDup l -> NoDup (List.filter f l).
Proof. intros H. eapply sublist_NoDup; [done|apply List_filter_sublist]. Qed.

(** The loop over the pending records, when each of them has its id as
    its only slot key: no two of the records kept share an id. *)
Lemma dedupePending_single all todo :
  (forall j e, all !! j = Some e -> getPendingSlotKeys e = [id e]) ->
  forall occupiedSlots keptEvents changed,
  Forall (fun ie => all !! ie.1 = Some ie.2) todo ->
  NoDup todo.*1 ->
  (forall key j, occupiedSlots !! key = Some j ->
     j ∈ keptEvents /\ exists e, all !! j = Some e /\ id e = key) ->
  (forall j, j ∈ keptEvents ->
     exists e, all !! j = Some e /\ occupiedSlots !! id e = Some j) ->
  NoDup keptEvents ->
  (forall j, j ∈ keptEvents -> j ∉ todo.*1) ->
  let kept := (dedupePending all todo occupiedSlots keptEvents changed).1 in
  NoDup kept /\
  (forall j1 j2 e1 e2, j1 ∈ kept -> j2 ∈ kept ->
     all !! j1 = Some e1 -> all !! j2 = Some e2 -> id e1 = id e2 -> j1 = j2).
Proof.
  intros Hsingle.
  induction todo as [|[i event] rest IH];
    intros occupiedSlots keptEvents changed Htodo Hnd H1 H2 H3 H4; cbn [dedupePending].
  { cbn. split; [done|]. intros j1 j2 e1 e2 Hj1 Hj2 He1 He2 Hid.
    destruct (H2 j1 Hj1) as (e1' & He1' & Ho1).
    destruct (H2 j2 Hj2) as (e2' & He2' & Ho2).
    simplify_eq. rewrite Hid in Ho1. congruence. }
  apply Forall_cons in Htodo as [Hi Htodo]. cbn in Hi.
  cbn [fmap list_fmap fst] in Hnd, H4. apply NoDup_cons in Hnd as [Hirest Hnd].
  assert (H4' : forall j, j ∈ keptEvents -> j ∉ rest.*1).
  { intros j Hj Hin. apply (H4 j Hj). by apply list_elem_of_further. }
  assert (Hik : i ∉ keptEvents).
  { intros Hin. apply (H4 i Hin). apply list_elem_of_here. }
  rewrite (Hsingle i event Hi). cbn [firstOccupied].
  destruct (occupiedSlots !! id event) as [existing|] eqn:Hocc.
  - destruct (_ <? _); [|by apply IH].
    apply IH; try done.
    + (* occupied -> kept *)
      intros key j Hkey. cbn in Hkey.
      destruct (decide (key = id event)) as [->|Hne].
      * rewrite lookup_insert_eq in Hkey. injection Hkey as <-.
        split; [apply elem_of_app; right; apply list_elem_of_here|]. by exists event.
      * rewrite lookup_insert_ne in Hkey by done.
        apply map_lookup_filter_Some in Hkey as [Hkey Hj]. cbn in Hj.
        destruct (H1 key j Hkey) as [Hin He]. split; [|done].
        apply elem_of_app. left. apply list_elem_of_In, filter_In.
        split; [by apply list_elem_of_In|].
        apply negb_true_iff, Nat.eqb_neq. done.
    + (* kept -> occupied *)
      intros j [Hj| ->%list_elem_of_singleton]%elem_of_app.
      * apply list_elem_of_In, filter_In in Hj as [Hj Hne].
        apply list_elem_of_In in Hj. apply negb_true_iff, Nat.eqb_neq in Hne.
        destruct (H2 j Hj) as (e & He & Ho). exists e. split; [done|]. cbn.
        assert (id e <> id event) by (intros E; rewrite E in Ho; congruence).
        rewrite lookup_insert_ne by done.
        apply map_lookup_filter_Some. done.
      * exists event. split; [done|]. cbn. by rewrite lookup_insert_eq.
    + apply NoDup_app. split; [by apply List_filter_NoDup|].
      split; [|apply NoDup_singleton].
      intros j Hj ->%list_elem_of_singleton.
      apply list_elem_of_In, filter_In in Hj as [Hj _]. by apply list_elem_of_In in Hj.
    + intros j [Hj| ->%list_elem_of_singleton]%elem_of_app; [|done].
      apply list_elem_of_In, filter_In in Hj as [Hj _]. apply list_elem_of_In in Hj.
      by apply H4'.
  - apply IH; try done.
    + intros key j Hkey. cbn in Hkey.
      destruct (decide (key = id event)) as [->|Hne].
      * rewrite lookup_insert_eq in Hkey. injection Hkey as <-.
        split; [apply elem_of_app; right; apply list_elem_of_here|]. by exists event.
      * rewrite lookup_insert_ne in Hkey by done.
        destruct (H1 key j Hkey) as [Hin He]. split; [|done].
        apply elem_of_app. by left.
    + intros j [Hj| ->%list_elem_of_singleton]%elem_of_app.
      * destruct (H2 j Hj) as (e & He & Ho). exists e. split; [done|]. cbn.
        assert (id e <> id event) by (intros E; rewrite E in Ho; congruence).
        by rewrite lookup_insert_ne.
      * exists event. split; [done|]. cbn. by rewrite lookup_insert_eq.
    + apply NoDup_app. split; [done|]. split; [|apply NoDup_singleton].
      by intros j Hj ->%list_elem_of_singleton.
    + intros j [Hj| ->%list_elem_of_singleton]%elem_of_app; [by apply H4'|done].
Qed.

Lemma normalizePendingEvent_single tza now st raw e c :
  buildPendingEventId (groupId raw) (profileKey raw) (eventStartsAt raw) = Some (id raw) ->
  normalizePendingEvent tza now st raw = NormKept e c ->
  getPendingSlotKeys e = [id e].
Proof.
  intros Hbuild. unfold normalizePendingEvent, normalizeStart.
  assert (Hparse : exists s, parseEventStartMs (eventStartsAt raw) = Some s).
  { unfold buildPendingEventId in Hbuild.
    destruct (parseEventStartMs (eventStartsAt raw)) as [s|]; [by exists s|done]. }
  destruct Hparse as [s Hs].
  assert (Htruthy : truthy_date (eventStartsAt raw) = true).
  { unfold parseEventStartMs in Hs. by destruct (truthy_date (eventStartsAt raw)). }
  assert (Hid : truthy_string (id raw) = true).
  { unfold buildPendingEventId in Hbuild. rewrite Hs in Hbuild.
    destruct (_ || _); [done|]. injection Hbuild as <-. done. }
  destruct (_ || _); [done|]. destruct (negb (isKnownProfile _ _ _)); [done|].
  rewrite Htruthy. cbn [negb andb]. rewrite Hs. cbv zeta.
  set (e2 := if match status raw with OtherStatus _ => true | _ => false end
             then set_status Scheduled raw else raw).
  assert (He2 : id e2 = id raw /\ groupId e2 = groupId raw /\
                profileKey e2 = profileKey raw /\ eventStartsAt e2 = eventStartsAt raw).
  { subst e2. by destruct (match status raw with OtherStatus _ => true | _ => false end). }
  clearbody e2.
  set (refill := if _ && _ then calculatePublishTime _ _ _ else None).
  clearbody refill.
  assert (Hkept : forall e3,
            id e3 = id raw -> groupId e3 = groupId raw ->
            profileKey e3 = profileKey raw -> eventStartsAt e3 = eventStartsAt raw ->
            getPendingSlotKeys (normalizeIdAndSlotKey e3).1 = [id (normalizeIdAndSlotKey e3).1]).
  { intros e3 H1 H2 H3 H4.
    assert (Hder : derivePendingSlotKey e3 = Some (id raw)).
    { unfold derivePendingSlotKey. rewrite H1, H2, H3, H4, Hbuild.
      by destruct (isDeterministicPendingId _). }
    rewrite (normalizeIdAndSlotKey_derived e3 (id raw) Hder Hid).
    unfold getPendingSlotKeys, getPendingSlotKey. cbn.
    rewrite Hid, H2, H3, H4, Hbuild.
    rewrite bool_decide_eq_true_2; [done|]. apply list_elem_of_here. }
  destruct He2 as (H1 & H2 & H3 & H4).
  destruct (status e2); try done.
  all: destruct refill as [[t|]|]; try done.
  all: destruct (_ && _); [done|].
  all: match goal with |- context [normalizeIdAndSlotKey ?x] =>
         pose proof (Hkept x H1 H2 H3 H4) as Hk;
         destruct (normalizeIdAndSlotKey x) as [e4 c4] end.
  all: by intros [= <- _].
Qed.

Lemma normalizePending_single tza now st raws :
  forall pending deleted changed,
  Forall (fun r => buildPendingEventId (groupId r) (profileKey r) (eventStartsAt r)
                   = Some (id r)) raws ->
  normalizePending tza now st raws = Some (pending, deleted, changed) ->
  Forall (fun e => getPendingSlotKeys e = [id e]) pending.
Proof.
  induction raws as [|raw rest IH]; intros pending deleted changed Hraws;
    cbn [normalizePending].
  { by intros [= <- _ _]. }
  apply Forall_cons in Hraws as [Hraw Hrest].
  destruct (normalizePendingEvent tza now st raw) as [e c|[e|]| |] eqn:Hn; [| | | |done].
  all: destruct (normalizePending tza now st rest) as [[[p d] ch]|]; [|done].
  all: pose proof (IH _ _ _ Hrest eq_refl) as Hp; intros [= <- _ _]; try done.
  constructor; [|done]. by eapply normalizePendingEvent_single.
Qed.

Lemma zip_seq_lookup {A} (l : list A) n :
  Forall (fun ie : nat * A => l !! (ie.1 - n)%nat = Some ie.2 /\ (n <= ie.1)%nat)
         (zip (seq n (length l)) l).
Proof.
  revert n. induction l as [|x l IH]; intros n; cbn [length seq zip zip_with]; [done|].
  constructor.
  { cbn. by rewrite Nat.sub_diag. }
  eapply Forall_impl; [apply (IH (S n))|]. intros [i e] [Hl Hn]. cbn in *.
  split; [|lia]. replace (i - n)%nat with (S (i - S n)) by lia. done.
Qed.

Lemma zip_seq_fst {A} (l : list A) n : (zip (seq n (length l)) l).*1 = seq n (length l).
Proof.
  revert n. induction l as [|x l IH]; intros n; cbn; [done|]. by rewrite IH.
Qed.

(** X28.  Slots after [normalizePendingStore].  No record of the deleted
    pool shares a slot key with a record of the pending list, or with
    another record of the pool.  If every record of the pending list
    that came in carries the slot key of its start as id, no two records
    of the pending list that comes out share an id. *)
Theorem normalizePendingStore_slots (tza now : Z) (st st' : Engine) (changed : bool) :
  normalizePendingStore tza now st = Some (st', changed) ->
  (forall d p key,
     d ∈ snapshot st' (deletedEvents st') -> p ∈ snapshot st' (pendingEvents st') ->
     key ∈ getPendingSlotKeys d -> key ∉ getPendingSlotKeys p) /\
  (forall i j d1 d2 key,
     snapshot st' (deletedEvents st') !! i = Some d1 ->
     snapshot st' (deletedEvents st') !! j = Some d2 -> i <> j ->
     key ∈ getPendingSlotKeys d1 -> key ∉ getPendingSlotKeys d2) /\
  (Forall (fun r => buildPendingEventId (groupId r) (profileKey r) (eventStartsAt r)
                    = Some (id r)) (snapshot st (pendingEvents st)) ->
   NoDup (id <$> snapshot st' (pendingEvents st'))).
Proof.
  intros H.
  destruct (normalizePendingStore_lists _ _ _ _ _ H)
    as (normalizedPending & deletedOfPending & changed1 & keptEvents & keptDeleted &
        changed3 & Hnp & Hdp & Hdd & Hsp & Hsd & _).
  rewrite Hsp, Hsd.
  set (deduped := (fun i => normalizedPending !!! i) <$> keptEvents) in *.
  destruct (dedupeDeleted_disjoint
              (list_to_set (concat (getPendingSlotKeys <$> deduped)))
              (deletedOfPending ++ (normalizeDeleted now st
                                      (snapshot st (deletedEvents st))).1)
              ∅ [] changed3) as [Hpend Hpool].
  { intros e key He. by apply elem_of_nil in He. }
  { intros i j e1 e2 key He. by rewrite lookup_nil in He. }
  rewrite Hdd in Hpend, Hpool. cbn [fst] in Hpend, Hpool.
  split; [|split; [exact Hpool|]].
  - intros d p key Hd Hp Hkey Hkey2. apply (Hpend d key Hd Hkey).
    apply elem_of_list_to_set, list_elem_of_In, in_concat.
    exists (getPendingSlotKeys p). split; [|by apply list_elem_of_In].
    by apply list_elem_of_In, list_elem_of_fmap_2.
  - intros Hraws.
    pose proof (normalizePending_single _ _ _ _ _ _ _ Hraws Hnp) as Hsingle.
    destruct (dedupePending_single normalizedPending
                (zip (seq 0 (length normalizedPending)) normalizedPending)
                (fun j e He => proj1 (Forall_lookup _ _) Hsingle j e He)
                ∅ [] (changed1 || (normalizeDeleted now st
                                     (snapshot st (deletedEvents st))).2))
      as [Hnd Hinj].
    + eapply Forall_impl; [apply (zip_seq_lookup normalizedPending 0)|].
      intros [i e] [Hl _]. cbn in *. by rewrite Nat.sub_0_r in Hl.
    + rewrite zip_seq_fst. apply NoDup_seq.
    + intros key j Hl. by rewrite lookup_empty in Hl.
    + intros j Hj. by apply elem_of_nil in Hj.
    + apply NoDup_nil_2.
    + intros j Hj. by apply elem_of_nil in Hj.
    + rewrite Hdp in Hnd, Hinj. cbn [fst] in Hnd, Hinj.
      pose proof (dedupePending_indices normalizedPending
                    (zip (seq 0 (length normalizedPending)) normalizedPending) ∅ []
                    (changed1 || (normalizeDeleted now st
                                    (snapshot st (deletedEvents st))).2)
                    (zip_seq_indices normalizedPending 0) (Forall_nil_2 _)) as Hidx.
      rewrite Hdp in Hidx. cbn in Hidx.
      subst deduped. rewrite <- list_fmap_compose.
      apply NoDup_fmap_2_strong; [|done].
      intros j1 j2 Hj1 Hj2 Hid. cbn in Hid.
      pose proof (proj1 (Forall_forall _ _) Hidx j1 Hj1) as Hlt1.
      pose proof (proj1 (Forall_forall _ _) Hidx j2 Hj2) as Hlt2.
      destruct (lookup_lt_is_Some_2 normalizedPending j1 Hlt1) as [e1 He1].
      destruct (lookup_lt_is_Some_2 normalizedPending j2 Hlt2) as [e2 He2].
      rewrite !list_lookup_total_alt, He1, He2 in Hid. cbn in Hid.
      by apply (Hinj j1 j2 e1 e2).
Qed.


Lemma normalizePendingStore_valid_witness :
  let st' := match normalizePendingStore 0 5000 storedEngine with
             | Some (s, _) => s
             | None => storedEngine
             end in
  snapshot st' (pendingEvents st') = [weeklyEvent] /\
  Forall (validPending st') (snapshot st' (pendingEvents st')) /\
  Forall (validDeleted 5000 st') (snapshot st' (deletedEvents st')).
Proof.
  intros st'. split; [by vm_compute|].
  destruct (normalizePendingStore_valid 0 5000 storedEngine st' true)
    as (Hp & Hd & _); [by vm_compute|].
  split; [exact Hp|exact Hd].
Defined.

Lemma normalizePendingStore_slots_witness :
  let st' := match normalizePendingStore 0 5000 storedEngine with
             | Some (s, _) => s
             | None => storedEngine
             end in
  NoDup (id <$> snapshot st' (pendingEvents st')).
Proof.
  intros st'.
  destruct (normalizePendingStore_slots 0 5000 storedEngine st' true)
    as (_ & _ & Hids); [by vm_compute|].
  apply Hids. repeat constructor.
Defined.

(** Without that condition two records of the pending list can come out
    with the same id: the third record takes the slots 100 and 200 from
    the first, the fourth takes them from the third, and the fifth finds
    slot 200 free although the second record holds it. *)
Example normalizePendingStore_shared_id :
  exists st',
    normalizePendingStore 0 0 crowdedEngine = Some (st', true) /\
    id <$> snapshot st' (pendingEvents st')
    = ["pending_grp_weekly_200"; "pending_grp_weekly_100"; "pending_grp_weekly_200"]%string.
Proof. eexists. split; [by vm_compute|]. by vm_compute. Qed.

(** ** Starting the engine *)

Lemma loadPendingEvents_spec tza now file st :
  let st' := loadPendingEvents tza now file st in
  Forall (validPending st) (snapshot st' (pendingEvents st')) /\
  Forall (fun l => (l < length (heap st'))%nat) (pendingEvents st') /\
  profilesRef st' = profilesRef st /\ knownGroupIds st' = knownGroupIds st /\
  timers st' = timers st /\ nextTimer st' = nextTimer st /\
  scheduledJobs st' = scheduledJobs st /\
  (file = StoreMissing \/ file = StoreUnreadable ->
   pendingEvents st' = [] /\ deletedEvents st' = [] /\ trace st' = trace st).
Proof.
  cbv zeta. unfold loadPendingEvents.
  destruct file as [| |events deleted]; [by repeat split; auto| by repeat split; auto|].
  rewrite !allocAll_spec.
  set (st3 := set_deletedEvents _ (set_pendingEvents _ _)).
  set (st4 := set_deletedEvents _ st3).
  assert (Hstore : set_heap [] (set_pendingEvents [] (set_deletedEvents [] st4))
                   = set_heap [] (set_pendingEvents [] (set_deletedEvents [] st))) by done.
  clearbody st4. clear st3.
  destruct (normalizePendingStore tza now st4) as [[st5 didNormalize]|] eqn:Hn.
  - destruct (normalizePendingStore_kept _ _ _ _ _ Hn) as [Hp _].
    destruct (normalizePendingStore_fresh _ _ _ _ _ Hn) as (_ & Hnew & _ & Hst5).
    rewrite Hstore in Hst5.
    assert (Hgoal : Forall (validPending st) (snapshot st5 (pendingEvents st5)) /\
              Forall (fun l => (l < length (heap st5))%nat) (pendingEvents st5) /\
              profilesRef st5 = profilesRef st /\ knownGroupIds st5 = knownGroupIds st /\
              timers st5 = timers st /\ nextTimer st5 = nextTimer st /\
              scheduledJobs st5 = scheduledJobs st).
    { split.
      { eapply Forall_impl; [exact Hp|]. intros e.
        apply validPending_store. by rewrite Hstore. }
      split.
      { apply Forall_app in Hnew as [Hnew _].
        eapply Forall_impl; [exact Hnew|]. intros l. cbn. lia. }
      split; [exact (f_equal profilesRef Hst5)|].
      split; [exact (f_equal knownGroupIds Hst5)|].
      split; [exact (f_equal timers Hst5)|].
      split; [exact (f_equal nextTimer Hst5)|exact (f_equal scheduledJobs Hst5)]. }
    destruct Hgoal as (G1 & G2 & G3 & G4 & G5 & G6 & G7).
    destruct didNormalize; (split; [done|]); (split; [done|]); (split; [done|]);
      (split; [done|]); (split; [done|]); (split; [done|]); (split; [done|]);
      by intros [?|?].
  - cbn. split; [done|]. split; [done|].
    split; [exact (f_equal profilesRef Hstore)|].
    split; [exact (f_equal knownGroupIds Hstore)|].
    split; [exact (f_equal timers Hstore)|].
    split; [exact (f_equal nextTimer Hstore)|].
    split; [exact (f_equal scheduledJobs Hstore)|]. by intros [?|?].
Qed.

Lemma markMissed_spec now ls :
  forall st,
  let st' := (markMissed now ls st).1 in
  (forall l0, set_missedAt None (set_status Scheduled (deref st' l0))
              = set_missedAt None (set_status Scheduled (deref st l0))) /\
  (forall l0, status (deref st' l0) = status (deref st l0) \/
              (status (deref st l0) = Scheduled /\ status (deref st' l0) = Missed)) /\
  (forall l p, l ∈ ls -> (l < length (heap st))%nat ->
     status (deref st' l) = Scheduled ->
     Date_parse (scheduledPublishTime (deref st l)) = Some p -> now < p) /\
  length (heap st') = length (heap st) /\
  pendingEvents st' = pendingEvents st /\ deletedEvents st' = deletedEvents st /\
  profilesRef st' = profilesRef st /\ knownGroupIds st' = knownGroupIds st /\
  automationState st' = automationState st /\
  timers st' = timers st /\ nextTimer st' = nextTimer st /\
  scheduledJobs st' = scheduledJobs st /\
  ((markMissed now ls st).2 = 0%nat -> st' = st).
Proof.
  induction ls as [|l rest IH]; intros st; cbn [markMissed].
  { cbn. repeat split; try done; [by left|].
    intros l p Hl. by apply elem_of_nil in Hl. }
  cbv zeta.
  destruct (status_eqb (status (deref st l)) Scheduled &&
            match Date_parse (scheduledPublishTime (deref st l)) with
            | Some publishTime => publishTime <=? now
            | None => false
            end) eqn:Hdue.
  - apply andb_prop in Hdue as [Hwas _]. apply bool_decide_eq_true in Hwas.
    set (st1 := update l _ st).
    set (st2 := emit _ st1).
    specialize (IH st2).
    destruct (markMissed now rest st2) as [st3 n]. cbn [fst snd] in *.
    destruct IH as (Hv & Hs & Hp & Hlen & Hrest).
    assert (Hd2 : forall l0, deref st2 l0 = deref st1 l0) by done.
    assert (Hd1 : forall l0, deref st1 l0
              = if decide (l = l0 /\ (l0 < length (heap st))%nat)
                then set_missedAt (Some (toISOString now)) (set_status Missed (deref st l0))
                else deref st l0).
    { intros l0. subst st1. apply deref_update. }
    split.
    { intros l0. rewrite Hv, Hd2, Hd1. by destruct (decide _). }
    split.
    { intros l0. destruct (Hs l0) as [H0|[H0 H0']]; rewrite Hd2, Hd1 in H0;
        destruct (decide (l = l0 /\ _)) as [[<- _]|_]; cbn in H0; try done.
      - right. by rewrite H0.
      - by left.
      - by right. }
    split.
    { intros l0 p Hl0 Hvalid Hst Hpub.
      assert (Hst2 : status (deref st2 l0) = Scheduled).
      { destruct (Hs l0) as [H0|[_ H0]]; congruence. }
      rewrite Hd2, Hd1 in Hst2.
      destruct (decide (l = l0 /\ _)) as [_|Hne]; [done|].
      apply elem_of_cons in Hl0 as [->|Hl0]; [exfalso; by apply Hne|].
      apply (Hp l0 p Hl0); [by subst st2 st1; cbn; rewrite length_alter|done|].
      rewrite Hd2, Hd1. by rewrite decide_False. }
    split; [by rewrite Hlen; subst st2 st1; cbn; rewrite length_alter|].
    destruct Hrest as (R1 & R2 & R3 & R4 & R5 & R6 & R7 & R8 & _).
    repeat (split; [done|]). done.
  - specialize (IH st).
    destruct (markMissed now rest st) as [st3 n]. cbn [fst snd] in *.
    destruct IH as (Hv & Hs & Hp & Hrest).
    split; [done|]. split; [done|]. split; [|done].
    intros l0 p Hl0 Hvalid Hst Hpub.
    apply elem_of_cons in Hl0 as [->|Hl0]; [|by apply (Hp l0 p)].
    assert (Hst0 : status (deref st l) = Scheduled).
    { destruct (Hs l) as [H0|[_ H0]]; congruence. }
    rewrite Hst0, Hpub in Hdue. unfold status_eqb in Hdue.
    rewrite bool_decide_eq_true_2 in Hdue by done. cbn in Hdue.
    apply Z.leb_gt in Hdue. done.
Qed.

Lemma scheduleScheduled_fold now ls :
  forall st ids,
  Forall (fun l => status (deref st l) = Scheduled ->
                   exists p, Date_parse (scheduledPublishTime (deref st l)) = Some p /\
                             now < p) ls ->
  jobsPending st ids ->
  let st' := fold_left (fun s l => if status_eqb (status (deref s l)) Scheduled
                                   then scheduleJob now l s else s) ls st in
  set_timers ∅ 0 (set_scheduledJobs ∅ st') = set_timers ∅ 0 (set_scheduledJobs ∅ st) /\
  jobsPending st'
    (ids ++ ((fun l => id (deref st l)) <$>
               List.filter (fun l => status_eqb (status (deref st l)) Scheduled) ls)) /\
  (forall h, is_Some (timers st !! h) -> (h < nextTimer st)%nat ->
             is_Some (timers st' !! h)) /\
  (forall h, (h < nextTimer st)%nat -> timers st' !! h = timers st !! h) /\
  (nextTimer st <= nextTimer st')%nat.
Proof.
  induction ls as [|l ls IH]; intros st ids Hall Hj; cbn [fold_left List.filter].
  { cbn. rewrite app_nil_r. done. }
  apply Forall_cons in Hall as [Hl Hall].
  destruct (status_eqb (status (deref st l)) Scheduled) eqn:Hst; [|by apply IH].
  apply bool_decide_eq_true in Hst.
  destruct (Hl Hst) as (p & Hp & Hlt).
  destruct (scheduleJob_future_job now l p st Hp Hlt) as (Hs & Hjobs & Hn & t & Ht).
  set (st1 := scheduleJob now l st) in *.
  assert (Hheap : heap st1 = heap st) by exact (f_equal heap Hs).
  assert (Hderef : forall l0, deref st1 l0 = deref st l0).
  { intros l0. unfold deref. by rewrite Hheap. }
  destruct (IH st1 (ids ++ [id (deref st l)])) as (Hs' & Hj' & Hkeep & Hsame & Hnext).
  - eapply Forall_impl; [exact Hall|]. intros l0. cbn. by rewrite Hderef.
  - intros i Hi. apply elem_of_app in Hi.
    destruct (decide (i = id (deref st l))) as [->|Hne].
    + exists (nextTimer st). rewrite Hjobs, Ht, Hn, !lookup_insert_eq.
      split; [done|]. split; [by eexists|lia].
    + destruct Hi as [Hi|Hi]; [|by apply list_elem_of_singleton in Hi].
      destruct (Hj i Hi) as (h & Hh & Hth & Hlt').
      exists h. rewrite Hjobs, Ht, Hn, lookup_insert_ne by done.
      rewrite lookup_insert_ne by lia. split; [done|]. split; [done|lia].
  - split; [by rewrite Hs'|].
    split.
    { cbn [fmap list_fmap].
      replace (ids ++ id (deref st l) ::
                 ((fun l0 => id (deref st l0)) <$>
                    List.filter (fun l0 => status_eqb (status (deref st l0)) Scheduled) ls))
        with ((ids ++ [id (deref st l)]) ++
                ((fun l0 => id (deref st1 l0)) <$>
                   List.filter (fun l0 => status_eqb (status (deref st1 l0)) Scheduled) ls));
        [done|].
      rewrite <- app_assoc. cbn. do 2 f_equal.
      rewrite (List.filter_ext _ (fun l0 => status_eqb (status (deref st l0)) Scheduled))
        by (by intros l0; rewrite Hderef).
      apply list_fmap_ext. intros ? l0 _. by rewrite Hderef. }
    split.
    { intros h Hh Hhn. apply Hkeep; [|lia]. rewrite Ht, lookup_insert_ne by lia. done. }
    split.
    { intros h Hh. rewrite Hsame by lia. rewrite Ht, lookup_insert_ne by lia. done. }
    lia.
Qed.

(** X29.  The engine after [initializeAutomation].  It holds the profiles
    it was given and the automation state of the file.  Every record of
    the pending list is an object of the store that names a known
    profile, has a start that is a date and one of the four statuses of
    a pending record; and every record that is [scheduled] has a publish
    time that is still ahead and a job with a pending timer under its
    id.  When there is no store file, or one that cannot be read, both
    lists are empty and no timer is set. *)
Theorem initializeAutomation_ready (tza now : Z)
  (profiles : option (gmap string (gmap string Profile)))
  (store : StoreFile) (state : StateFile) (st : Engine) :
  let st' := initializeAutomation tza now profiles store state st in
  profilesRef st' = profiles /\
  automationState st' = match state with StateData ps => ps | _ => ∅ end /\
  Forall (fun l =>
            (l < length (heap st'))%nat /\ validPending st' (deref st' l) /\
            (status (deref st' l) = Scheduled ->
             exists p, Date_parse (scheduledPublishTime (deref st' l)) = Some p /\
                       now < p /\
                       exists h, scheduledJobs st' !! id (deref st' l) = Some h /\
                                 is_Some (timers st' !! h)))
         (pendingEvents st') /\
  (store = StoreMissing \/ store = StoreUnreadable ->
   pendingEvents st' = [] /\ deletedEvents st' = [] /\ timers st' = timers st).
Proof.
  cbv zeta. unfold initializeAutomation.
  set (st1 := set_profilesRef profiles st).
  destruct (loadPendingEvents_spec tza now store st1)
    as (Hvalid & Haddr & Hpr & Hkn & Htm & Hnt & Hjb & Hempty).
  set (st2 := loadPendingEvents tza now store st1) in *.
  set (st3 := loadAutomationState state st2).
  assert (Hd3 : forall l, deref st3 l = deref st2 l) by done.
  destruct (markMissed_spec now (pendingEvents st3) st3)
    as (Hview & Hsched & Hfuture & Hlen & Hpe & Hde & Hpr4 & Hkn4 & Has4 & Htm4 & Hnt4 &
        Hjb4 & Hzero).
  destruct (markMissed now (pendingEvents st3) st3) as [st4 missedCount].
  cbn [fst snd] in *.
  set (st5 := if (0 <? missedCount)%nat then savePendingEvents st4 else st4).
  assert (Hd5 : forall l, deref st5 l = deref st4 l).
  { intros l. subst st5. by destruct (0 <? missedCount)%nat. }
  assert (Hf5 : forall {A} (f : Engine -> A),
            (forall s, f (savePendingEvents s) = f s) -> f st5 = f st4).
  { intros A f Hf. subst st5. destruct (0 <? missedCount)%nat; [apply Hf|done]. }
  assert (Hpe5 : pendingEvents st5 = pendingEvents st2).
  { rewrite (Hf5 _ pendingEvents) by done. by rewrite Hpe. }
  (* what the loaded records look like after the first loop *)
  assert (Hrec : Forall (fun l =>
                   (l < length (heap st5))%nat /\ validPending st1 (deref st5 l) /\
                   (status (deref st5 l) = Scheduled ->
                    exists p, Date_parse (scheduledPublishTime (deref st5 l)) = Some p /\
                              now < p)) (pendingEvents st5)).
  { rewrite Hpe5. apply Forall_forall. intros l Hl.
    pose proof (proj1 (Forall_forall _ _) Haddr l Hl) as Hlt. cbn in Hlt.
    assert (Hv2 : validPending st1 (deref st2 l)).
    { apply (proj1 (Forall_forall _ _) Hvalid). by apply list_elem_of_fmap_2. }
    rewrite (Hf5 _ (fun s => length (heap s))) by done. rewrite Hlen.
    split; [done|]. rewrite Hd5.
    pose proof (Hview l) as Hvl. rewrite Hd3 in Hvl.
    destruct Hv2 as (V1 & V2 & V3 & V4 & V5 & V6 & V7 & V8).
    assert (Hg : groupId (deref st4 l) = groupId (deref st2 l))
      by exact (f_equal groupId Hvl).
    assert (Hk : profileKey (deref st4 l) = profileKey (deref st2 l))
      by exact (f_equal profileKey Hvl).
    assert (Hstart : eventStartsAt (deref st4 l) = eventStartsAt (deref st2 l))
      by exact (f_equal eventStartsAt Hvl).
    assert (Hpub : scheduledPublishTime (deref st4 l) = scheduledPublishTime (deref st2 l))
      by exact (f_equal scheduledPublishTime Hvl).
    assert (Hslot : slotKey (deref st4 l) = slotKey (deref st2 l))
      by exact (f_equal slotKey Hvl).
    assert (Hid : id (deref st4 l) = id (deref st2 l)) by exact (f_equal id Hvl).
    assert (Hstatus : status (deref st4 l) = status (deref st2 l) \/
                      (status (deref st2 l) = Scheduled /\ status (deref st4 l) = Missed)).
    { pose proof (Hsched l) as H0. by rewrite Hd3 in H0. }
    split.
    { unfold validPending. rewrite Hg, Hk, Hstart, Hpub, Hslot, Hid.
      split; [done|]. split; [done|]. split; [done|]. split; [done|].
      split.
      { destruct Hstatus as [-> |[_ ->]]; [done|].
        apply list_elem_of_further, list_elem_of_here. }
      split; [|done].
      intros Hnp. destruct Hstatus as [E|[E _]]; apply V6; congruence. }
    intros Hs.
    assert (Hs2 : status (deref st2 l) = Scheduled).
    { destruct Hstatus as [E|[_ E]]; congruence. }
    destruct V6 as [p Hp]; [congruence|].
    assert (Hdp : Date_parse (scheduledPublishTime (deref st2 l)) = Some p).
    { unfold parseEventStartMs in Hp. by destruct (truthy_date _). }
    exists p. rewrite Hpub. split; [done|].
    apply (Hfuture l p); [done|done|done|by rewrite Hd3]. }
  destruct (scheduleScheduled_fold now (pendingEvents st5) st5 [])
    as (Hs6 & Hjobs & _ & Hsame & _).
  { eapply Forall_impl; [exact Hrec|]. intros l (_ & _ & Hl). exact Hl. }
  { intros i Hi. by apply elem_of_nil in Hi. }
  set (st6 := fold_left _ (pendingEvents st5) st5) in *.
  assert (Hd6 : forall l, deref st6 l = deref st5 l).
  { intros l. apply deref_same. exact (f_equal heap Hs6). }
  assert (Hpe6 : pendingEvents st6 = pendingEvents st5)
    by exact (f_equal pendingEvents Hs6).
  assert (Hpr6 : profilesRef st6 = profiles).
  { transitivity (profilesRef st5); [exact (f_equal profilesRef Hs6)|].
    rewrite (Hf5 _ profilesRef) by done. by rewrite Hpr4. }
  assert (Hkn6 : knownGroupIds st6 = knownGroupIds st1).
  { transitivity (knownGroupIds st5); [exact (f_equal knownGroupIds Hs6)|].
    rewrite (Hf5 _ knownGroupIds) by done. by rewrite Hkn4. }
  split; [done|].
  split.
  { transitivity (automationState st5); [exact (f_equal automationState Hs6)|].
    rewrite (Hf5 _ automationState) by done. by rewrite Has4. }
  split.
  { rewrite Hpe6. apply Forall_forall. intros l Hl.
    destruct (proj1 (Forall_forall _ _) Hrec l Hl) as (Hlt & Hv & Hfut).
    rewrite Hd6.
    split; [by rewrite (f_equal heap Hs6 : heap st6 = heap st5)|].
    split.
    { destruct Hv as (V1 & V2 & V3 & V4). split; [done|]. split; [done|].
      split; [|done]. rewrite <- V3.
      unfold isKnownProfile, isKnownGroupId, lookupProfile. by rewrite Hpr6, Hkn6. }
    intros Hst. destruct (Hfut Hst) as (p & Hp & Hlt'). exists p.
    split; [done|]. split; [done|].
    destruct (Hjobs (id (deref st5 l))) as (h & Hh & Ht & _); [|by exists h].
    cbn. apply (list_elem_of_fmap_2 (fun l0 => id (deref st5 l0))).
    apply list_elem_of_In, filter_In. split; [by apply list_elem_of_In|].
    by apply bool_decide_eq_true. }
  intros Hfile. destruct (Hempty Hfile) as (He1 & He2 & _).
  assert (Hpe5' : pendingEvents st5 = []) by (by rewrite Hpe5).
  subst st6. rewrite Hpe5'. cbn [fold_left].
  split; [done|].
  split.
  { rewrite (Hf5 _ deletedEvents) by done. by rewrite Hde. }
  rewrite (Hf5 _ timers) by done. by rewrite Htm4.
Qed.


(** The start of the engine four days before the first event: the record
    left in [processing] is scheduled again, with a timer; the record
    whose publish time has passed is [missed] and has none. *)
Example initializeAutomation_storedFile :
  let st' := initializeAutomation 0 (june1_1000 - 4 * ONE_DAY_MS)
               (profilesRef oneEventEngine) storedFile StateMissing emptyEngine in
  status <$> snapshot st' (pendingEvents st') = [Scheduled; Missed] /\
  map_to_list (scheduledJobs st') = [("pending_grp_weekly_1780308000000"%string, 0%nat)] /\
  map_to_list (timers st')
  = [(0%nat, mkTimer (june1_1000 - 4 * ONE_DAY_MS) (Some ONE_DAY_MS) (CbPost 3%nat))] /\
  length (deletedEvents st') = 1%nat.
Proof. by vm_compute. Qed.

(** ** A store that is already normal *)

Lemma normalizeIdAndSlotKey_fixed e :
  slotKey e = Some (id e) -> isDeterministicPendingId (Some (id e)) = true ->
  normalizeIdAndSlotKey e = (e, false).
Proof.
  intros Hslot Hdet. unfold normalizeIdAndSlotKey, derivePendingSlotKey.
  rewrite Hdet, Hslot. cbn [truthy_ostring default].
  rewrite bool_decide_eq_true_2 by done. rewrite andb_false_r.
  rewrite Hdet. cbn [negb orb].
  assert (Ht : truthy_string (id e) = true).
  { unfold isDeterministicPendingId, parsePendingEventIdStartMs in Hdet.
    by destruct (id e). }
  rewrite Ht. cbn [negb orb andb]. by rewrite Ht.
Qed.

Lemma normalizeStart_fixed st e :
  truthy_string (groupId e) = true -> truthy_string (profileKey e) = true ->
  isKnownProfile st (groupId e) (profileKey e) = true ->
  truthy_date (eventStartsAt e) = true ->
  normalizeStart st e = Some (e, false).
Proof.
  intros Hg Hk Hp Hs. unfold normalizeStart. by rewrite Hg, Hk, Hp, Hs.
Qed.

Lemma parseEventStartMs_truthy value s :
  parseEventStartMs value = Some s -> truthy_date value = true /\ Date_parse value = Some s.
Proof. unfold parseEventStartMs. by destruct (truthy_date value). Qed.

Lemma normalizePendingEvent_fixed tza now st e :
  validPending st e -> isDeterministicPendingId (Some (id e)) = true ->
  normalizePendingEvent tza now st e = NormKept e false.
Proof.
  intros (Hg & Hk & Hp & [s Hs] & Hst & Hpub & Hslot & Hid) Hdet.
  destruct (parseEventStartMs_truthy _ _ Hs) as [Hts _].
  unfold normalizePendingEvent.
  rewrite (normalizeStart_fixed st e Hg Hk Hp Hts), Hs. cbv zeta.
  assert (Hcases : status e = Scheduled \/ status e = Missed \/ status e = Queued \/
                   status e = Published).
  { repeat (apply elem_of_cons in Hst as [Hst|Hst]; [by auto|]).
    by apply elem_of_nil in Hst. }
  assert (Hc2 : match status e with OtherStatus _ => true | _ => false end = false)
    by (destruct Hcases as [E|[E|[E|E]]]; by rewrite E).
  rewrite Hc2.
  assert (Hfill : negb (truthy_date (scheduledPublishTime e)) &&
                  negb (status_eqb (status e) Published) = false).
  { unfold status_eqb. destruct (decide (status e = Published)) as [E|E].
    - rewrite bool_decide_eq_true_2 by done. apply andb_false_r.
    - destruct (Hpub E) as [p Hp'].
      destruct (parseEventStartMs_truthy _ _ Hp') as [-> _]. done. }
  assert (Hdrop : negb (status_eqb (status e) Published) &&
                  negb (has_value (parseEventStartMs (scheduledPublishTime e))) = false).
  { unfold status_eqb. destruct (decide (status e = Published)) as [E|E].
    - by rewrite bool_decide_eq_true_2 by done.
    - destruct (Hpub E) as [p ->]. apply andb_false_r. }
  rewrite Hfill. cbn [has_value orb]. rewrite Hdrop.
  rewrite (normalizeIdAndSlotKey_fixed e Hslot Hdet).
  by destruct Hcases as [E|[E|[E|E]]]; rewrite E.
Qed.

Lemma normalizePending_fixed tza now st events :
  Forall (fun e => validPending st e /\ isDeterministicPendingId (Some (id e)) = true)
         events ->
  normalizePending tza now st events = Some (events, [], false).
Proof.
  induction 1 as [|e events [Hv Hdet] _ IH]; cbn [normalizePending]; [done|].
  by rewrite (normalizePendingEvent_fixed tza now st e Hv Hdet), IH.
Qed.

Lemma normalizeDeletedEvent_fixed now st e :
  validDeleted now st e -> isDeterministicPendingId (Some (id e)) = true ->
  normalizeDeletedEvent now st e = (Some e, false).
Proof.
  intros (Hg & Hk & Hp & (s & Hs & Hnow) & Hst & Hslot & Hid) Hdet.
  destruct (parseEventStartMs_truthy _ _ Hs) as [Hts _].
  unfold normalizeDeletedEvent.
  rewrite (normalizeStart_fixed st e Hg Hk Hp Hts), Hs.
  destruct (Z.leb_spec s now) as [?|_]; [lia|].
  assert (set_status Deleted e = e) as -> by (destruct e; cbn in *; by subst).
  rewrite (normalizeIdAndSlotKey_fixed e Hslot Hdet).
  unfold status_eqb. by rewrite bool_decide_eq_true_2.
Qed.

Lemma normalizeDeleted_fixed now st deleted :
  Forall (fun e => validDeleted now st e /\ isDeterministicPendingId (Some (id e)) = true)
         deleted ->
  normalizeDeleted now st deleted = (deleted, false).
Proof.
  induction 1 as [|e deleted [Hv Hdet] _ IH]; cbn [normalizeDeleted]; [done|].
  by rewrite IH, (normalizeDeletedEvent_fixed now st e Hv Hdet).
Qed.

Lemma getPendingSlotKeys_keyed e :
  slotKey e = Some (id e) -> truthy_string (id e) = true -> getPendingSlotKeys e <> [].
Proof.
  intros Hslot Hid. unfold getPendingSlotKeys, getPendingSlotKey.
  rewrite Hslot. cbn [truthy_ostring]. rewrite Hid.
  destruct (buildPendingEventId _ _ _); [|done]. by destruct (bool_decide _).
Qed.

Lemma disjointSlots_cons e events :
  disjointSlots (e :: events) ->
  disjointSlots events /\
  Forall (fun e' => forall key, key ∈ getPendingSlotKeys e -> key ∉ getPendingSlotKeys e')
         events.
Proof.
  intros H. split.
  - intros i j e1 e2 key H1 H2 Hij. apply (H (S i) (S j)); [done|done|lia].
  - apply Forall_lookup. intros j e' Hj key. by apply (H 0%nat (S j) e e').
Qed.

Lemma disjointSlots_app events deleted :
  disjointSlots (events ++ deleted) ->
  disjointSlots events /\ disjointSlots deleted /\
  Forall (fun e => forall key, key ∈ getPendingSlotKeys e ->
                               key ∉ concat (getPendingSlotKeys <$> events)) deleted.
Proof.
  intros H. split; [|split].
  - intros i j e1 e2 key H1 H2. apply (H i j).
    + by apply lookup_app_l_Some.
    + by apply lookup_app_l_Some.
  - intros i j e1 e2 key H1 H2 Hij.
    apply (H (length events + i)%nat (length events + j)%nat); [| |lia].
    + by rewrite lookup_app_r, Nat.add_comm, Nat.add_sub by lia.
    + by rewrite lookup_app_r, Nat.add_comm, Nat.add_sub by lia.
  - apply Forall_lookup. intros j e Hj key Hkey Hin.
    apply list_elem_of_In, in_concat in Hin as (keys & Hkeys & Hin).
    apply list_elem_of_In, list_elem_of_fmap in Hkeys as (e' & -> & He').
    apply list_elem_of_lookup in He' as [i Hi].
    apply (H i (length events + j)%nat e' e key).
    + by apply lookup_app_l_Some.
    + by rewrite lookup_app_r, Nat.add_comm, Nat.add_sub by lia.
    + apply lookup_lt_Some in Hi. lia.
    + by apply list_elem_of_In.
    + done.
Qed.

Lemma firstOccupied_None occupiedSlots slotKeys :
  (forall key, key ∈ slotKeys -> occupiedSlots !! key = None) ->
  firstOccupied occupiedSlots slotKeys = None.
Proof.
  induction slotKeys as [|key rest IH]; intros H; cbn; [done|].
  rewrite H by apply list_elem_of_here. apply IH. intros k Hk.
  by apply H, list_elem_of_further.
Qed.

Lemma occupy_lookup_None slotKeys i key :
  forall occupiedSlots,
  key ∉ slotKeys -> occupiedSlots !! key = None ->
  occupy slotKeys i occupiedSlots !! key = None.
Proof.
  unfold occupy. induction slotKeys as [|k rest IH]; intros occ Hnot Hocc; cbn; [done|].
  apply not_elem_of_cons in Hnot as [Hne Hnot].
  apply IH; [done|]. by rewrite lookup_insert_ne.
Qed.

Lemma dedupePending_disjoint all todo :
  forall occupiedSlots keptEvents changed,
  Forall (fun ie : nat * PendingEvent =>
            getPendingSlotKeys ie.2 <> [] /\
            forall key, key ∈ getPendingSlotKeys ie.2 -> occupiedSlots !! key = None)
         todo ->
  disjointSlots (todo.*2) ->
  dedupePending all todo occupiedSlots keptEvents changed
  = (keptEvents ++ todo.*1, changed).
Proof.
  induction todo as [|[i e] todo IH]; intros occ kept changed Hall Hdis;
    cbn [dedupePending fmap list_fmap fst snd].
  { by rewrite app_nil_r. }
  apply Forall_cons in Hall as [[Hne Hfree] Hall]. cbn [snd] in Hne, Hfree.
  cbn in Hdis. apply disjointSlots_cons in Hdis as [Hdis Hcross].
  destruct (getPendingSlotKeys e) as [|k keys] eqn:Hkeys; [done|].
  rewrite (firstOccupied_None _ _ Hfree).
  rewrite IH; [by rewrite <- app_assoc| |done].
  apply Forall_lookup. intros j [i' e'] Hj. cbn [snd].
  pose proof (proj1 (Forall_lookup _ _) Hall j _ Hj) as [Hne' Hfree']. cbn [snd] in *.
  split; [done|]. intros key Hkey.
  apply occupy_lookup_None; [|by apply Hfree'].
  intros Hin.
  assert (He' : todo.*2 !! j = Some e') by (by rewrite list_lookup_fmap, Hj).
  exact (proj1 (Forall_lookup _ _) Hcross j e' He' key Hin Hkey).
Qed.

Lemma dedupeDeleted_all pendingSlotKeys todo :
  forall deletedOccupied keptDeleted changed,
  Forall (fun e => getPendingSlotKeys e <> [] /\
                   forall key, key ∈ getPendingSlotKeys e ->
                               (key ∉ pendingSlotKeys) /\ (key ∉ deletedOccupied)) todo ->
  disjointSlots todo ->
  dedupeDeleted pendingSlotKeys todo deletedOccupied keptDeleted changed
  = (keptDeleted ++ todo, changed).
Proof.
  induction todo as [|e todo IH]; intros occ kept changed Hall Hdis;
    cbn [dedupeDeleted].
  { by rewrite app_nil_r. }
  apply Forall_cons in Hall as [[Hne Hfree] Hall].
  apply disjointSlots_cons in Hdis as [Hdis Hcross].
  destruct (getPendingSlotKeys e) as [|k keys] eqn:Hkeys; [done|].
  rewrite (proj2 (anyKeyIn_false _ pendingSlotKeys)) by (intros key Hk; by apply Hfree).
  rewrite (proj2 (anyKeyIn_false _ occ)) by (intros key Hk; by apply Hfree).
  rewrite IH; [by rewrite <- app_assoc| |done].
  apply Forall_lookup. intros j e' Hj.
  pose proof (proj1 (Forall_lookup _ _) Hall j _ Hj) as [Hne' Hfree'].
  split; [done|]. intros key Hkey. destruct (Hfree' key Hkey) as [Hp Ho].
  split; [done|]. rewrite not_elem_of_union, elem_of_list_to_set. split; [done|].
  intros Hin. exact (proj1 (Forall_lookup _ _) Hcross j e' Hj key Hin Hkey).
Qed.

Lemma fmap_lookup_total_seq (l : list PendingEvent) :
  (fun i => l !!! i) <$> seq 0 (length l) = l.
Proof.
  apply list_eq. intros i. rewrite list_lookup_fmap.
  destruct (decide (i < length l)%nat) as [Hi|Hi].
  - rewrite lookup_seq_lt by done. cbn.
    destruct (lookup_lt_is_Some_2 l i Hi) as [e He].
    by rewrite (list_lookup_total_correct _ _ _ He).
  - rewrite lookup_seq_ge by lia. cbn. symmetry. apply lookup_ge_None_2. lia.
Qed.

Lemma zip_seq_snd {A} (l : list A) n : (zip (seq n (length l)) l).*2 = l.
Proof.
  revert n. induction l as [|x l IH]; intros n; cbn; [done|]. by rewrite IH.
Qed.

Lemma List_filter_all {A} (f : A -> bool) l :
  Forall (fun x => f x = true) l -> List.filter f l = l.
Proof. induction 1 as [|x l Hx _ IH]; cbn; [done|]. by rewrite Hx, IH. Qed.

(** [normalizePendingStore] on a store that is already normal: the two
    lists come back as they were, as new objects, and nothing changed. *)
Lemma normalizePendingStore_fixed tza now st :
  Forall (fun e => validPending st e /\ isDeterministicPendingId (Some (id e)) = true)
         (snapshot st (pendingEvents st)) ->
  Forall (fun e => validDeleted now st e /\ isDeterministicPendingId (Some (id e)) = true)
         (snapshot st (deletedEvents st)) ->
  disjointSlots (snapshot st (pendingEvents st) ++ snapshot st (deletedEvents st)) ->
  exists st',
    normalizePendingStore tza now st = Some (st', false) /\
    snapshot st' (pendingEvents st') = snapshot st (pendingEvents st) /\
    snapshot st' (deletedEvents st') = snapshot st (deletedEvents st) /\
    trace st' = trace st.
Proof.
  set (events := snapshot st (pendingEvents st)).
  set (deleted := snapshot st (deletedEvents st)).
  intros Hev Hdel Hdis.
  apply disjointSlots_app in Hdis as (Hdis1 & Hdis2 & Hcross).
  unfold normalizePendingStore. fold events. fold deleted.
  rewrite (normalizePending_fixed tza now st events Hev).
  rewrite (normalizeDeleted_fixed now st deleted Hdel).
  cbn [app orb].
  rewrite (dedupePending_disjoint events), zip_seq_fst, fmap_lookup_total_seq; cycle 1.
  { apply Forall_lookup. intros i [j e] Hi. cbn [snd].
    assert (He : e ∈ events).
    { rewrite <- (zip_seq_snd events 0). apply list_elem_of_fmap.
      exists (j, e). split; [done|]. by eapply list_elem_of_lookup_2. }
    destruct (proj1 (Forall_forall _ _) Hev e He) as [(_&_&_&_&_&_&Hslot&Hid) _].
    split; [by apply getPendingSlotKeys_keyed|]. intros key _. apply lookup_empty. }
  { by rewrite zip_seq_snd. }
  cbn [app].
  rewrite (dedupeDeleted_all _ deleted); cycle 1.
  { apply Forall_forall. intros e He.
    destruct (proj1 (Forall_forall _ _) Hdel e He) as [(_&_&_&_&_&Hslot&Hid) _].
    split; [by apply getPendingSlotKeys_keyed|]. intros key Hkey.
    split; [|apply not_elem_of_empty].
    rewrite elem_of_list_to_set.
    exact (proj1 (Forall_forall _ _) Hcross e He key Hkey). }
  { done. }
  rewrite !allocAll_spec. cbn [app].
  eexists. split; [reflexivity|].
  cbn [heap pendingEvents deletedEvents set_heap set_pendingEvents set_deletedEvents
       trace length].
  split; [|split; [|done]].
  - apply (snapshot_app_l _ (heap st) events deleted). cbn. by rewrite app_assoc.
  - by apply (snapshot_fresh _ (heap st ++ events) deleted).
Qed.

Lemma NoDup_concat_disjointSlots events :
  NoDup (concat (getPendingSlotKeys <$> events)) -> disjointSlots events.
Proof.
  induction events as [|e events IH]; cbn [fmap list_fmap concat]; intros Hnd.
  { intros i j e1 e2 key H1. by rewrite lookup_nil in H1. }
  apply NoDup_app in Hnd as (_ & Hcross & Hrest).
  assert (Hin : forall j e2 key, events !! j = Some e2 ->
                  key ∈ getPendingSlotKeys e2 ->
                  key ∈ concat (getPendingSlotKeys <$> events)).
  { intros j e2 key Hj Hkey. apply list_elem_of_In, in_concat.
    exists (getPendingSlotKeys e2). split; [|by apply list_elem_of_In].
    apply list_elem_of_In, list_elem_of_fmap_2. by eapply list_elem_of_lookup_2. }
  intros [|i] [|j] e1 e2 key H1 H2 Hij Hk1 Hk2; [done| | |].
  - injection H1 as <-. exact (Hcross key Hk1 (Hin j e2 key H2 Hk2)).
  - injection H2 as <-. exact (Hcross key Hk2 (Hin i e1 key H1 Hk1)).
  - apply (IH Hrest i j e1 e2 key); auto.
Qed.

(** X30: a store file that is already normal loads as it is.  If every
    record of the pending list names a known profile, has a start and,
    unless published, a publish time that are dates, one of the four
    statuses, a deterministic id and that id as slot key; every deleted
    record likewise, with status [deleted] and a start still ahead; and
    no slot key belongs to two records, then [loadPendingEvents] leaves
    exactly these records in the two lists, in their order, and saves
    nothing. *)
Theorem loadPendingEvents_normal_store tza now events deleted st :
  Forall (fun e => validPending st e /\ isDeterministicPendingId (Some (id e)) = true)
         events ->
  Forall (fun e => validDeleted now st e /\ isDeterministicPendingId (Some (id e)) = true)
         deleted ->
  disjointSlots (events ++ deleted) ->
  let st' := loadPendingEvents tza now (StoreData events deleted) st in
  snapshot st' (pendingEvents st') = events /\
  snapshot st' (deletedEvents st') = deleted /\
  trace st' = trace st.
Proof.
  intros Hev Hdel Hdis. cbv zeta. unfold loadPendingEvents.
  rewrite !allocAll_spec.
  set (st3 := set_deletedEvents _ (set_pendingEvents _ _)).
  set (st4 := set_deletedEvents _ st3).
  assert (Hp3 : snapshot st3 (pendingEvents st3) = events).
  { apply (snapshot_app_l _ (heap st) events deleted). cbn. by rewrite app_assoc. }
  assert (Hd3 : snapshot st3 (deletedEvents st3) = deleted).
  { by apply (snapshot_fresh _ (heap st ++ events) deleted). }
  assert (Hstore : set_heap [] (set_pendingEvents [] (set_deletedEvents [] st3))
                   = set_heap [] (set_pendingEvents [] (set_deletedEvents [] st))) by done.
  assert (Hkeep : List.filter
                    (fun l => match Date_parse (eventStartsAt (deref st3 l)) with
                              | Some startMs => now <? startMs
                              | None => false
                              end) (deletedEvents st3) = deletedEvents st3).
  { apply List_filter_all. apply Forall_forall. intros l Hl.
    assert (He : deref st3 l ∈ deleted).
    { rewrite <- Hd3. unfold snapshot. by apply list_elem_of_fmap_2. }
    destruct (proj1 (Forall_forall _ _) Hdel _ He) as [(_&_&_&(s & Hs & Hnow)&_) _].
    destruct (parseEventStartMs_truthy _ _ Hs) as [_ ->].
    by apply Z.ltb_lt. }
  assert (Hst4 : st4 = st3) by (subst st4; by rewrite Hkeep).
  rewrite Hst4. clear Hkeep Hst4 st4.
  destruct (normalizePendingStore_fixed tza now st3) as (st5 & -> & Hp5 & Hd5 & Ht5).
  - rewrite Hp3. eapply Forall_impl; [exact Hev|]. intros e [Hv Hdet]. split; [|done].
    by apply (validPending_store st3 st).
  - rewrite Hd3. eapply Forall_impl; [exact Hdel|]. intros e [Hv Hdet]. split; [|done].
    by apply (validDeleted_store now st3 st).
  - by rewrite Hp3, Hd3.
  - by rewrite Hp5, Hd5, Ht5, Hp3, Hd3.
Qed.

Lemma loadPendingEvents_normal_store_witness :
  let st' := loadPendingEvents 0 may31_0900 (StoreData savedPending savedDeleted)
               oneEventEngine in
  snapshot st' (pendingEvents st') = savedPending /\
  snapshot st' (deletedEvents st') = savedDeleted /\
  trace st' = trace oneEventEngine.
Proof.
  apply loadPendingEvents_normal_store.
  - repeat constructor; try (by vm_compute); try (eexists; by vm_compute);
      try (intros _; eexists; by vm_compute);
      repeat (first [apply list_elem_of_here|apply list_elem_of_further]).
  - repeat constructor; try (by vm_compute); eexists; by vm_compute.
  - apply NoDup_concat_disjointSlots. apply (bool_decide_unpack _). by vm_compute.
Defined.

(** ** The scheduler: what [scheduleJob] sets up and what its timers do *)

Lemma isGroupRateLimited_groups now g s st :
  groups s = groups st ->
  (isGroupRateLimited now g s).2 = (isGroupRateLimited now g st).2.
Proof.
  unfold isGroupRateLimited, pruneRateLimitHistory, getRateLimitState, putRateLimitState.
  intros H. rewrite H.
  repeat (case_match; simplify_eq; cbn in *); done.
Qed.

Lemma eventDetailsFor_status s1 s2 e1 e2 :
  profilesRef s1 = profilesRef s2 ->
  set_status Scheduled e1 = set_status Scheduled e2 ->
  eventDetailsFor s1 e1 = eventDetailsFor s2 e2.
Proof.
  intros Hp He. unfold eventDetailsFor, lookupProfile. rewrite Hp.
  injection He as _ _ -> -> -> -> -> _ _ _ _. done.
Qed.

(** An idle processor that finds one post waiting, for a group that is
    not rate limited and a record that is to be published: the call of
    [createEventFn] is made and the processor waits for its answer. *)
Lemma processQueue_posts_head now item l details startTime st :
  processing st = false -> queue st = [item] ->
  (isGroupRateLimited now (q_groupId item) st).2 = false ->
  findPending st (q_pendingEventId item) = Some l ->
  is_active_status (status (deref st l)) = true ->
  eventDetailsFor st (deref st l) = Some details ->
  Date_parse (eventStartsAt (deref st l)) = Some startTime ->
  let st' := processQueue now st in
  trace st' = trace st ++
    [CreateEvent (groupId (deref st l)) details (toISOString startTime)
       (toISOString (startTime + (if ed_duration details =? 0 then 120
                                  else ed_duration details) * 60 * 1000))] /\
  suspended st' = Some (AwaitingPublish l) /\
  queue st' = [] /\ processing st' = true.
Proof.
  intros Hproc Hq Hlim Hfind Hact Hdet Hstart. cbv zeta.
  unfold processQueue. rewrite Hproc, Hq. cbn [processQueue_loop].
  set (s2 := set_processing true st).
  pose proof (isGroupRateLimited_frame now (q_groupId item) s2) as H1.
  pose proof (isGroupRateLimited_groups now (q_groupId item) s2 st eq_refl) as H2.
  rewrite Hlim in H2.
  destruct (isGroupRateLimited now (q_groupId item) s2) as [s3 limited].
  cbn in H1, H2. subst limited.
  assert (Hheap : heap s3 = heap st) by exact (f_equal heap H1).
  assert (Hpend : pendingEvents s3 = pendingEvents st) by exact (f_equal pendingEvents H1).
  assert (Hprof : profilesRef s3 = profilesRef st) by exact (f_equal profilesRef H1).
  assert (Htrace : trace s3 = trace st) by exact (f_equal trace H1).
  assert (Hfind3 : findPending (set_queue [] s3) (q_pendingEventId item) = Some l).
  { rewrite <- Hfind. apply findPending_ext; [done|].
    intros l0. by rewrite (deref_same (set_queue [] s3) st). }
  rewrite Hfind3.
  assert (Hd3 : deref (set_queue [] s3) l = deref st l) by (by apply deref_same).
  rewrite Hd3, Hact. cbn [negb].
  set (s4 := if status_eqb (status (deref st l)) Queued then _ else _).
  assert (Hid4 : forall l0, id (deref s4 l0) = id (deref st l0)).
  { intros l0. subst s4. destruct (status_eqb _ _).
    - rewrite deref_update. case_match; by rewrite (deref_same (set_queue [] s3) st).
    - by rewrite (deref_same (set_queue [] s3) st). }
  assert (He4 : set_status Scheduled (deref s4 l) = set_status Scheduled (deref st l)).
  { subst s4. destruct (status_eqb _ _).
    - rewrite deref_update. case_match; by rewrite (deref_same (set_queue [] s3) st).
    - by rewrite (deref_same (set_queue [] s3) st). }
  assert (Hf4 : set_heap [] s4 = set_heap [] (set_queue [] s3))
    by (subst s4; by destruct (status_eqb _ _)).
  assert (Hprof4 : profilesRef s4 = profilesRef st).
  { transitivity (profilesRef (set_queue [] s3)); [exact (f_equal profilesRef Hf4)|done]. }
  assert (Hpend4 : pendingEvents s4 = pendingEvents st).
  { transitivity (pendingEvents (set_queue [] s3)); [exact (f_equal pendingEvents Hf4)|done]. }
  assert (Htrace4 : trace s4 = trace st).
  { transitivity (trace (set_queue [] s3)); [exact (f_equal trace Hf4)|done]. }
  assert (Hq4 : queue s4 = []) by exact (f_equal queue Hf4).
  assert (Hproc4 : processing s4 = true).
  { transitivity (processing (set_queue [] s3)); [exact (f_equal processing Hf4)|].
    exact (f_equal processing H1). }
  assert (Hfields : groupId (deref s4 l) = groupId (deref st l) /\
                    eventStartsAt (deref s4 l) = eventStartsAt (deref st l)).
  { split; [exact (f_equal groupId He4)|exact (f_equal eventStartsAt He4)]. }
  destruct Hfields as [Hg4 Hst4].
  clearbody s4. unfold executeAutomatedPostInternal.
  assert (Hres : resolveEventDetails s4 (id (deref s4 l)) = Some details).
  { unfold resolveEventDetails. rewrite Hid4.
    assert (Hq' : q_pendingEventId item = id (deref st l)).
    { apply findPending_In in Hfind as [_ E]. by rewrite E. }
    rewrite <- Hq', (findPending_ext s4 st) by done. rewrite Hfind.
    by rewrite (eventDetailsFor_status s4 st (deref s4 l) (deref st l)). }
  rewrite Hres, Hst4, Hstart, Hg4. cbn. by rewrite Htrace4, Hq4, Hproc4.
Qed.

(** C6.  [scheduleJob] acts on the remaining delay of a record: past or
    due, the record becomes [missed], is persisted and notified, and no
    timer is set; beyond seven days a 24-hour timer, beyond two days an
    8-hour timer, beyond one day a 2-hour timer, each of which runs
    [scheduleJob] again when it fires; within a day a timer for exactly
    the delay, which queues the record for publishing when it fires.
    Queuing does nothing when the id is already waiting.  Otherwise
    the record's item is sorted into the queue by the start of its event
    (the starts being dates) and the processor takes items from the
    front: while it is busy the item waits in the queue; and an idle
    processor with nothing else waiting takes it at once: for a record
    of the pending list that is active, whose event details resolve and
    whose group is not rate limited, the call that creates the event is
    made and the processor waits for its answer. *)
Theorem scheduleJob_by_delay (now : Z) (l : loc) (publishTime : Z) (st : Engine) :
  Date_parse (scheduledPublishTime (deref st l)) = Some publishTime ->
  let delay := publishTime - now in
  let st' := scheduleJob now l st in
  (delay <= 0 ->
     heap st' = alter (fun e => set_missedAt (Some (toISOString now))
                                  (set_status Missed e)) l (heap st) /\
     trace st' = trace st ++
                 [SavePendingEvents (snapshot st' (pendingEvents st'))
                                    (snapshot st' (deletedEvents st'));
                  OnMissedEvent (deref st' l)] /\
     timers st' = timers st /\ scheduledJobs st' = scheduledJobs st)
  /\ (7 * ONE_DAY_MS < delay -> timerSet now l (CbRecheck l) ONE_DAY_MS st st')
  /\ (2 * ONE_DAY_MS < delay <= 7 * ONE_DAY_MS ->
        timerSet now l (CbRecheck l) EIGHT_HOURS_MS st st')
  /\ (ONE_DAY_MS < delay <= 2 * ONE_DAY_MS ->
        timerSet now l (CbRecheck l) TWO_HOURS_MS st st')
  /\ (0 < delay <= ONE_DAY_MS -> timerSet now l (CbPost l) delay st st')
  /\ (forall later h t s,
        timers s !! h = Some t -> timer_callback t = CbRecheck l ->
        fireTimer later h s = scheduleJob later l (clearTimeout h s))
  /\ (forall later h t s,
        timers s !! h = Some t -> timer_callback t = CbPost l ->
        let e := deref s l in
        let item := mkQueueItem (id e) (groupId e) (Date_parse (eventStartsAt e)) in
        let s' := fireTimer later h s in
        (id e ∈ q_pendingEventId <$> queue s -> s' = clearTimeout h s) /\
        (id e ∉ q_pendingEventId <$> queue s ->
         Forall (fun i => is_Some (q_priority i)) (queue s) ->
         is_Some (Date_parse (eventStartsAt e)) ->
           let sorted := sortQueue (queue s ++ [item]) in
           sorted ≡ₚ item :: queue s /\
           StronglySorted priorityOrder sorted /\
           (exists n, queue s' = drop n sorted) /\
           (processing s = true -> s' = set_queue sorted (clearTimeout h s))) /\
        (id e ∉ q_pendingEventId <$> queue s ->
         processing s = false -> queue s = [] ->
         (isGroupRateLimited later (groupId e) s).2 = false ->
         findPending s (id e) = Some l ->
         is_active_status (status e) = true ->
         forall details startTime,
           resolveEventDetails s (id e) = Some details ->
           Date_parse (eventStartsAt e) = Some startTime ->
           trace s' = trace s ++
             [CreateEvent (groupId e) details (toISOString startTime)
                (toISOString (startTime + (if ed_duration details =? 0 then 120
                                           else ed_duration details) * 60 * 1000))] /\
           suspended s' = Some (AwaitingPublish l) /\
           queue s' = [] /\ processing s' = true)).
Proof.
  intros Hparse. cbv zeta. unfold scheduleJob. rewrite Hparse.
  unfold getRecheckIntervalMs, ONE_DAY_MS, EIGHT_HOURS_MS, TWO_HOURS_MS.
  assert (Hleb : forall a b, a <= b -> (a <=? b) = true)
    by (intros; by apply Z.leb_le).
  assert (Hgtb : forall a b, b < a -> (a <=? b) = false)
    by (intros; by apply Z.leb_gt).
  assert (Hltb : forall a b, a < b -> (a <? b) = true)
    by (intros; by apply Z.ltb_lt).
  assert (Hgeb : forall a b, b <= a -> (a <? b) = false)
    by (intros; by apply Z.ltb_ge).
  split; [|split; [|split; [|split; [|split; [|split]]]]].
  - intros Hd. rewrite Hleb by lia.
    split; [reflexivity|]. split; [|done].
    cbn. by rewrite <- app_assoc.
  - intros Hd. rewrite Hgtb, Hltb by lia. apply setJobTimer_timerSet.
  - intros Hd. rewrite Hgtb by lia. rewrite Hgeb by lia. rewrite Hltb by lia.
    apply setJobTimer_timerSet.
  - intros Hd. rewrite Hgtb by lia. rewrite !Hgeb by lia. rewrite Hltb by lia.
    apply setJobTimer_timerSet.
  - intros Hd. rewrite Hgtb by lia. rewrite !Hgeb by lia.
    apply setJobTimer_timerSet.
  - intros later h t s Ht Hcb. unfold fireTimer. by rewrite Ht, Hcb.
  - intros later h t s Ht Hcb.
    set (e := deref s l).
    set (item := mkQueueItem (id e) (groupId e) (Date_parse (eventStartsAt e))).
    assert (Hfire : fireTimer later h s
                    = queueEventPost later (id e) (groupId e)
                        (Date_parse (eventStartsAt e)) (clearTimeout h s)).
    { unfold fireTimer. by rewrite Ht, Hcb. }
    rewrite Hfire. clear Hfire. unfold queueEventPost.
    change (queue (clearTimeout h s)) with (queue s).
    assert (Hex : existsb (fun i => bool_decide (q_pendingEventId i = id e)) (queue s) = true
                  <-> id e ∈ q_pendingEventId <$> queue s).
    { rewrite existsb_exists, list_elem_of_fmap. split.
      - intros (x & Hx & Hb). exists x. apply bool_decide_eq_true in Hb.
        split; [done|]. by apply list_elem_of_In.
      - intros (x & Hx & Hin). exists x. split; [by apply list_elem_of_In|].
        by apply bool_decide_eq_true. }
    assert (Hnex : id e ∉ q_pendingEventId <$> queue s ->
                   existsb (fun i => bool_decide (q_pendingEventId i = id e)) (queue s)
                   = false).
    { intros Hnot. apply not_true_is_false. intros E. by apply Hnot, Hex. }
    fold item. set (sorted := sortQueue (queue s ++ [item])).
    split; [|split].
    + intros Hin. apply Hex in Hin. by rewrite Hin.
    + intros Hnot Hnum Hp. rewrite (Hnex Hnot).
      split; [|split; [|split]].
      * subst sorted. rewrite sortQueue_perm. by rewrite Permutation_app_comm.
      * apply sortQueue_sorted. apply Forall_app. split; [done|].
        by apply Forall_singleton.
      * apply (processQueue_queue later (set_queue sorted (clearTimeout h s))).
      * intros Hproc. unfold processQueue.
        change (processing (set_queue sorted (clearTimeout h s))) with (processing s).
        by rewrite Hproc.
    + intros Hnot Hproc Hq Hlim Hfind Hact details startTime Hres Hstart.
      rewrite (Hnex Hnot).
      assert (Hsorted : sorted = [item]) by (subst sorted; by rewrite Hq).
      rewrite Hsorted.
      assert (Hdet : eventDetailsFor s e = Some details).
      { unfold resolveEventDetails in Hres. by rewrite Hfind in Hres. }
      apply (processQueue_posts_head later item l details startTime
               (set_queue [item] (clearTimeout h s))); try done.
      rewrite <- Hlim. by apply isGroupRateLimited_groups.
Qed.

Lemma scheduleJob_by_delay_witness :
  timerSet 0 0%nat (CbRecheck 0%nat) ONE_DAY_MS oneEventEngine
           (scheduleJob 0 0%nat oneEventEngine) /\
  let dueAt := june1_1000 - 3 * 24 * 60 * 60 * 1000 in
  let s := scheduleJob (dueAt - 1000) 0%nat oneEventEngine in
  timers s !! 0%nat = Some (mkTimer (dueAt - 1000) (Some 1000) (CbPost 0%nat)) /\
  trace (fireTimer dueAt 0%nat s)
  = [CreateEvent "grp" (mkEventDetails "Weekly Session" 120 (Some (Iso june1_1000))
                                        (Some (Iso dueAt)))
       (Iso june1_1000) (Iso (june1_1000 + 120 * 60 * 1000))] /\
  suspended (fireTimer dueAt 0%nat s) = Some (AwaitingPublish 0%nat).
Proof.
  split.
  { apply (scheduleJob_by_delay 0 0%nat (june1_1000 - 3 * 24 * 60 * 60 * 1000)
             oneEventEngine); [reflexivity | vm_compute; reflexivity]. }
  intros dueAt s. split; [by vm_compute|].
  destruct (scheduleJob_by_delay 0 0%nat dueAt oneEventEngine eq_refl)
    as (_ & _ & _ & _ & _ & _ & Hfire).
  destruct (Hfire dueAt 0%nat (mkTimer (dueAt - 1000) (Some 1000) (CbPost 0%nat)) s)
    as (_ & _ & Hidle); [by vm_compute|reflexivity|].
  destruct Hidle with
    (details := mkEventDetails "Weekly Session" 120 (Some (Iso june1_1000))
                               (Some (Iso dueAt)))
    (startTime := june1_1000) as (Htrace & Hsusp & _).
  - apply (bool_decide_unpack _). by vm_compute.
  - reflexivity.
  - reflexivity.
  - by vm_compute.
  - by vm_compute.
  - by vm_compute.
  - by vm_compute.
  - by vm_compute.
  - split; [exact Htrace|exact Hsusp].
Defined.
